(* ===== verification/_CoqProject ===== *)
-Q . S2P
Prelude.v
GoStrings.v
ApiMachinery.v
Scheme.v
Admission.v
Plugin.v
Webhook.v
ServerRun.v
Process.v
SchemaResolver.v
TransformedClient.v
Json.v
ApiTypes.v
GoHeap.v
DeepCopy.v
InjectedClient.v
Workqueue.v
Controller.v
ControllerShutdown.v
Factory.v
Interceptor.v
RestClient.v
Clientset.v
ObjectTracker.v
RestMapper.v
Matching.v
PolicyValidator.v
PolicyEvaluator.v
PolicyController.v
PolicySnapshot.v
FakeClientset.v
FakeStore.v
FakeMachine.v
FakeWrapped.v
DeltaFIFO.v
Reflector.v
Informer.v
Mirror.v
Convergence.v
WrappedInformer.v
Pki.v
Commands.v
System.v
Enforcement.v
