(* ===== verification/Prelude.v ===== *)
(** * The CEL admission webhook, verified

    The program is an admission webhook that enforces ValidatingAdmissionPolicies
    (CEL expressions) on clusters whose API server does not serve them: policies
    and bindings are custom resources of the group
    [admissionregistration.x-k8s.io], which the program presents to the upstream
    CEL admission plugin as if they were the native
    [admissionregistration.k8s.io] objects.

    ** The program and its model

    A request to [/validate] reaches the HTTP handler, which decodes the
    AdmissionReview and asks a combined validator, whose one member is the CEL
    plugin; the plugin waits for its policy caches and then asks the upstream
    evaluator, which goes through a snapshot of the policies and their bindings.  The
    snapshots are made by two controllers, of policies and of bindings, whose caches are
    filled by informers over a wrapped clientset; its policy clients convert custom
    resources to native objects.  [main] runs the
    server loop and the plugin under one context.  Two more commands belong to it: a
    proxy that lets native clients manage the custom resources, and a generator of
    certificates.

    - [Webhook] ([pkg/webhook/server.go], handlers): [parseRequest],
      [handleWebhookValidate], [reviewResponse], [serveMux].  Go's [http.Request]
      and the response writer are records; JSON and the scheme's decoder are the
      fields of a [Codec].
    - [ServerRun] ([pkg/webhook/server.go], [Run] and [notifyChanges]): the server
      loop, one event per step of a goroutine, with its channels and wait group.
    - [Process] ([cmd/cel-admission-webhook/main.go]): set-up of the clients, the
      two goroutines, signals and exit, around a [ServerRun] state.
    - [Commands] (the [main] functions of [cmd/cel-admission-webhook],
      [cmd/interceptor] and [cmd/gentls]): flags, client configuration, the proxy's
      set-up, exit statuses.
    - [Admission] ([pkg/validator/multi.go], the vendored admission attributes),
      [Plugin] ([plugin.go] and the vendored polling loop it waits with), and
      [System], where [main] puts handler, combined validator and plugin together, with
      the evaluator as a parameter.
    - The evaluator (the vendored
      [apiserver/pkg/admission/plugin/validatingadmissionpolicy] and what it calls):
      [Matching] ([matching/], [matcher.go], the predicates of [plugin/webhook] and label
      selectors): which requests a policy is about; [PolicyValidator] ([validator.go],
      [plugin/cel], [matchconditions]): the decisions of one policy's expressions;
      [PolicyEvaluator] ([controller.go], [Validate]): bindings, params, actions and the
      verdict over a snapshot; [PolicyController] ([controller_reconcile.go]): the
      reconciliations that keep the index of policies and bindings and the params
      informers, and the snapshots.  [PolicySnapshot] is about runs of that controller,
      [Enforcement] puts evaluator and server together.
    - [SchemaResolver] ([pkg/controller/schemaresolver/resolver.go]): the schema
      cache, its purges, and every interleaving of callers and informer events.
    - [RestMapper] ([main]'s lazy REST mapper, the vendored [apimachinery/pkg/api/meta]
      and [client-go/restmapper]): how kinds are mapped to resources, and the refresh.
    - [TransformedClient] ([pkg/controller/transformed_client.go], [client.go]),
      [Json] ([encoding/json] on trees), [ApiTypes] ([pkg/apis/.../types.go] in the
      CRD and the native dialect), [InjectedClient] ([injected_client.go]): the
      conversion layer.
    - [GoHeap], [DeepCopy] ([zz_generated.deepcopy.go]): the API types' deep copies
      over a memory with explicit pointers, slices and maps.
    - [Scheme] ([zz_generated.register.go], the clientset's [scheme/register.go]).
    - [Workqueue] (the vendored queue, delays and back-off), [Controller]
      ([pkg/controller/generic.go], [lister.go], [informer.go]), [Factory]
      ([pkg/generated/informers], [pkg/generated/listers]), [RestClient]
      ([pkg/generated/clientset/.../typed]): controllers, caches, REST calls.
      The delaying queue's goroutine and its bounded channel are part of the event
      machine of [Controller].  [ControllerShutdown]: the measure by which a
      controller's shutdown ends, and the one way in which it does not.
    - [DeltaFIFO], [Reflector], [Informer] (the vendored [client-go/tools/cache] and
      [tools/pager]): what fills a cache, as one event machine with the controller
      behind it; the API server is a history of changes, with the answers that the
      Kubernetes API's documentation allows.  [Mirror] and [Convergence] are about
      informers that talk to the server, [WrappedInformer] about those that [main]
      gives the wrapped client, whose [List] and [Watch] are [TransformedClient]'s.
    - [Clientset] ([pkg/generated/clientset/versioned/clientset.go] and the group's
      client): from a configuration to REST clients.
    - [ObjectTracker] (the vendored [client-go/testing]), [FakeClientset]
      ([.../versioned/fake], [.../v1alpha1/fake]): the clientset tests use.
      [FakeStore] and [FakeMachine] are its specification, two plain stores, and the
      refinement; [FakeWrapped] puts the wrapped clientset on top of it.
    - [Interceptor] ([cmd/interceptor/main.go]): the handlers of the proxy that
      serves native clients from the CRD group.
    - [Pki] ([pkg/pki], [cmd/gentls]): certificates.
    - [GoStrings], [ApiMachinery]: the Go library and apimachinery values that all
      of these use.  This file: the result type and its monad, reachability of
      event machines, lemmas on lists, maps and strings.

    ** Conventions

    A Go function returning [(T, error)] is a function to [result]; a nil pointer
    is [None]; a call that talks to the outside threads a world [W].  A concurrent
    component is a state and a partial function [step : event → state → option
    state]: an event is what one goroutine does between two points where another
    may run, [None] that it cannot happen now; [reachable step s] are the states
    after any sequence of events, so a theorem about them covers every
    interleaving.  The outside world's choices (network errors, clock, answers of
    dependencies) are arguments of events.

    No definition needs fuel: loops run over lists, and the one unbounded loop, the
    wait for the caches, takes the sequence of its ticker's ticks as an argument;
    [System] gives it the ticks of the plugin's one-second timeout.  Liveness is
    stated as the existence of a finite run to the end from every state of the
    kind, termination as a bound on the steps of every run, non-termination as no
    reachable state being final.  Integers that can
    overflow in Go ([time.Duration] products, the back-off) are [Z] with the
    wrap-around or the cap written out.

    ** Theorems

    - End to end: the webhook allows a request exactly when no policy of the moment
      denies it ([Enforcement.webhook_enforces_policies]); for any evaluator,
      [System.server_reports_evaluation], [System.server_fails_closed].
    - Policies: the verdict is some policy's denial
      ([PolicyEvaluator.evaluatePolicies_verdict]), a [Fail] policy admits only what is
      valid, an [Ignore] policy denies only what is not
      ([PolicyValidator.fail_policy_admits_only_valid],
      [PolicyValidator.ignore_policy_denies_only_invalid]); constraints match what they
      say ([Matching.Matches_iff_covers]), the match policy aside
      ([Matching.match_policy_has_no_effect]); warnings and audits do not change the
      webhook's answer ([Enforcement.warn_and_audit_are_silent]); a policy without constraints is a
      panic ([PolicyEvaluator.evaluation_panics_iff]).  Snapshots are the policies and
      bindings last reconciled ([PolicySnapshot.snapshot_is_current]), the params
      informers those in use ([PolicySnapshot.params_controllers_are_those_in_use]), but
      an unknown [paramKind] stays an error
      ([PolicySnapshot.unresolved_param_kind_is_never_retried]).
    - Handlers, validators, plugin: [Webhook.verdict_is_reported],
      [Webhook.malformed_request_is_400], [Webhook.wrong_kind_never_validated],
      [Webhook.reviewResponse_mirrors_verdict], [Admission.Multi.NewMulti_rejects_iff],
      [Plugin.verdict_at_first_sync], [Plugin.unsynced_is_forbidden],
      [Plugin.policy_resources_admitted].
    - Life of the process: [Commands.webhook_serves_its_flags] (a failed set-up exits
      with status 0), [ServerRun.cancelled_Run_never_returns] and
      [Process.signal_hangs_process] (a signal leaves the process waiting forever),
      [Process.process_exits_only_on_serve_error], [Process.serve_error_ends_process],
      [ServerRun.certificates_never_reloaded].
    - Controllers and caches: the queue refines two sets
      ([Workqueue.workqueue_refines_spec]); on it, no change is lost, no key is
      worked on twice at a time, shutdown drains and ends
      ([Controller.quiescent_controller_is_up_to_date], [Controller.one_worker_per_key],
      [Controller.Run_returns_drained], [ControllerShutdown.shutdown_terminates]), the
      exceptions being [Controller.tombstone_deletion_is_lost] and a shutdown while
      retries wait for the full channel ([ControllerShutdown.shutdown_can_hang]); retries back off
      ([Workqueue.retry_delay_is_capped_exponential]); each informer runs once and
      shutdown is complete ([Factory.Start_runs_each_once],
      [Factory.Shutdown_is_complete]).
    - Informers: the cache is the server's state at the reflector's revision, which
      never goes back, and can always catch up ([Mirror.informer_mirrors_server],
      [Mirror.informer_can_catch_up]); a synced cache has the whole first list
      ([Convergence.synced_cache_is_complete]); with the controller, changes reach
      the reconciler, tombstones and a shutdown aside
      ([Convergence.reconciler_sees_the_server]).  Over the
      wrapped client the cache makes nothing up, but can keep what was deleted and miss
      what was created ([WrappedInformer.wrapped_cache_is_genuine],
      [WrappedInformer.wrapped_informer_can_diverge]).
    - Conversion: [InjectedClient.policy_round_trip],
      [InjectedClient.round_trip_is_stable], [InjectedClient.wrapped_List_returns_all],
      and the client laws [TransformedClient.List_converts_items],
      [TransformedClient.Watch_delivers_converted],
      [TransformedClient.transformed_reads_its_writes].
    - Memory: [DeepCopy.api_copies_are_independent].
    - Schemas and registration: [SchemaResolver.answers_come_from_discovery],
      [SchemaResolver.cached_answer_is_never_refreshed],
      [SchemaResolver.crd_update_keeps_defined_kind],
      [Scheme.AddToScheme_registers_policies].
    - Kinds and resources: what discovery lists is mapped
      ([RestMapper.discovered_kind_is_mapped]), once and for all
      ([RestMapper.refresh_never_refreshes]).
    - Clientsets: [Clientset.clients_share_server_and_limiter],
      [Clientset.NewForConfigOrDie_panics_iff], [RestClient.bad_name_is_not_sent]; the
      fake one is two stores, without failing assertions, and its watches replay them
      ([FakeMachine.fake_clientset_refines_stores], [FakeMachine.fakes_are_type_safe],
      [FakeMachine.watch_replays_the_store]), and serves the wrapped one
      ([FakeWrapped.created_policy_is_served]).
    - Proxy: [Interceptor.interceptor_round_trip],
      [Interceptor.long_line_truncates_body], [RestClient.proxy_serves_native_clients],
      [Commands.in_cluster_proxy_is_unauthenticated].
    - Certificates: [Pki.serialNumber_bounds], [Pki.issued_certificate_chain].

    ** Parameters

    Code outside the repository's own source that is not translated is a
    parameter: the CEL library ([PolicyValidator]: compilation, evaluation and its cost),
    the syntax of labels ([Matching]), the conversion of objects between versions and the
    caches of namespaces and params as a request finds them ([Matching],
    [PolicyEvaluator]), the semantic equality of two specs ([PolicyController]; that equal
    binding specs name the same policy is the one law used), codecs and decoder ([Webhook.Codec]),
    the metadata types' JSON ([ApiTypes], with the laws that decoding inverts
    encoding), Go's crypto ([Pki], with the laws of generated keys and of the
    parser), discovery ([SchemaResolver]; in
    [RestMapper] its answers are arguments), the API server behind a client
    ([TransformedClient], [RestClient]; for [Informer] it is any history of changes that
    satisfies [Informer.server_ok]; its versions count the changes of the one resource, so
    lists and bookmarks name the last of these, where the API also allows a later one), the informers a factory shares ([Factory]), URL parsing
    and transports ([Clientset], [Commands]), the patch libraries and the parsing of
    selectors ([ObjectTracker], [FakeClientset]), kubeconfig files and credential
    plugins ([Commands]).  Each theorem that relies on such a law has an instance where
    the law holds.

    ** Not modelled

    The type checker of policies (what it says of one is a parameter of [PolicyController])
    and the metrics of the evaluator; the reflector's streaming list (off unless an environment variable turns
    it on), transformers and other parts of [tools/cache] the program does not use;
    logging, TLS and sockets (their outcomes are events or arguments), metrics of the
    queue, the token bucket of the rate limiter (its delay is an argument), the
    textual form of JSON, conversion and defaulting functions of schemes, the
    mapper's queries nobody makes, the forwarding of the Go library's reverse proxy,
    [pkg/pki/pool.go] (one call into crypto/x509), and the discovery client's own
    requests. *)
From Corelib Require Export ssreflect.
From stdpp Require Export base option list gmap strings fin_maps relations sorting.
From Stdlib Require Export ZArith Lia.

#[export] Set Warnings "-clear-no-such-hyp".
Global Open Scope general_if_scope.

(** ** Results of fallible Go functions *)

(** A Go function of type [(T, error)] whose callers look at the value only
    when the error is nil. *)
Inductive result (E A : Type) : Type :=
| Ok (a : A)
| Err (e : E).
Arguments Ok {E A} a.
Arguments Err {E A} e.

#[export] Instance result_ret E : MRet (result E) := λ A, Ok.
#[export] Instance result_bind E : MBind (result E) := λ A B f m,
  match m with Ok a => f a | Err e => Err e end.
#[export] Instance result_fmap E : FMap (result E) := λ A B f m,
  match m with Ok a => Ok (f a) | Err e => Err e end.

#[export] Instance result_eq_dec E A `{EqDecision E, EqDecision A} :
  EqDecision (result E A).
Proof. solve_decision. Defined.

Definition is_ok {E A} (r : result E A) : bool :=
  match r with Ok _ => true | Err _ => false end.

(** Left-to-right traversal that stops at the first error, the shape of every
    [for ... { v, err := f(x); if err != nil { return nil, err } }] loop. *)
Fixpoint mapE {E A B} (f : A → result E B) (xs : list A) : result E (list B) :=
  match xs with
  | [] => Ok []
  | x :: xs' => y ← f x; ys ← mapE f xs'; Ok (y :: ys)
  end.

Section mapE.
Context {E A B : Type}.
Implicit Types (f : A → result E B).

Lemma bind_Ok {C D} (m : result E C) (g : C → result E D) d :
  m ≫= g = Ok d ↔ ∃ c, m = Ok c ∧ g c = Ok d.
Proof.
  destruct m; simpl; split; [by eauto| |done|by intros (? & ? & _)].
  by intros (? & [= ->] & ?).
Qed.

Lemma bind_Err {C D} (m : result E C) (g : C → result E D) e :
  m ≫= g = Err e ↔ m = Err e ∨ ∃ c, m = Ok c ∧ g c = Err e.
Proof.
  destruct m; simpl; split; [by eauto| | |].
  - by intros [|(? & [= ->] & ?)].
  - by intros [= ->]; left.
  - by intros [[= ->]|(? & ? & _)].
Qed.

Lemma mapE_Ok f xs ys :
  mapE f xs = Ok ys ↔ Forall2 (λ x y, f x = Ok y) xs ys.
Proof.
  revert ys; induction xs as [|x xs IH]; intros ys; simpl.
  - split; [by intros [= <-]|by inversion 1].
  - rw bind_Ok. setoid_rewrite bind_Ok. setoid_rewrite IH. split.
    + intros (y & Hy & zs & Hzs & [= <-]). by constructor.
    + inversion 1; subst; eauto 6.
Qed.

Lemma mapE_Err f xs e :
  mapE f xs = Err e ↔
  ∃ pre x post ys, xs = pre ++ x :: post ∧ mapE f pre = Ok ys ∧ f x = Err e.
Proof.
  split.
  - induction xs as [|x xs IH]; simpl; [done|].
    destruct (f x) as [y|e'] eqn:Hx; simpl.
    + destruct (mapE f xs) as [|e'] eqn:Hxs; simpl; [done|intros [= ->]].
      destruct (IH eq_refl) as (pre & x' & post & ys & -> & Hpre & Hx').
      exists (x :: pre), x', post, (y :: ys). by rw /= Hx /= Hpre.
    + intros [= ->]. exists [], x, xs, []. done.
  - intros (pre & x & post & ys & -> & Hpre & Hx). revert ys Hpre.
    induction pre as [|p pre IH]; intros ys; simpl; [by rw Hx|].
    destruct (f p); simpl; [|done].
    destruct (mapE f pre); simpl; [|done]. intros _. by erewrite IH.
Qed.

Lemma mapE_length f xs ys : mapE f xs = Ok ys → length ys = length xs.
Proof. intros ?%mapE_Ok. symmetry. by eapply Forall2_length. Qed.

Lemma mapE_total f (g : A → B) xs :
  (∀ x, x ∈ xs → f x = Ok (g x)) → mapE f xs = Ok (g <$> xs).
Proof.
  intros H. apply mapE_Ok. induction xs as [|x xs IH]; constructor.
  - apply H; set_solver.
  - apply IH; set_solver.
Qed.
End mapE.

Lemma concat_singletons {A} (xs : list A) : concat ((λ x, [x]) <$> xs) = xs.
Proof. induction xs as [|x xs IH]; [done|]. by rw /= IH. Qed.

Lemma filter_ext_in {A} (P Q : A → Prop) `{∀ x, Decision (P x), ∀ x, Decision (Q x)} (l : list A) :
  (∀ x, x ∈ l → P x ↔ Q x) → filter P l = filter Q l.
Proof.
  induction l as [|x l IH]; intros HPQ; [done|]. pose proof (HPQ x (list_elem_of_here _ _)).
  rw !filter_cons IH; [intros y Hy; apply HPQ; by right|]. repeat case_decide; tauto || done.
Qed.

Lemma filter_all {A} (P : A → Prop) `{∀ x, Decision (P x)} (l : list A) :
  (∀ x, x ∈ l → P x) → filter P l = l.
Proof.
  induction l as [|x l IH]; intros HP; [done|]. rw filter_cons_True; [apply HP; by left|].
  f_equal. apply IH. intros y Hy. apply HP. by right.
Qed.

Lemma filter_none {A} (P : A → Prop) `{∀ x, Decision (P x)} (l : list A) :
  (∀ x, x ∈ l → ¬ P x) → filter P l = [].
Proof.
  induction l as [|x l IH]; intros HP; [done|]. rw filter_cons_False; [apply HP; by left|].
  apply IH. intros y Hy. apply HP. by right.
Qed.

(** ** Sums over lists *)

(** The total weight of a list, for counting arguments over goroutines. *)
Definition sumZ {A} (g : A → Z) (l : list A) : Z := foldr (λ x acc, g x + acc)%Z 0%Z l.

Section sumZ.
Context {A : Type} (g : A → Z).
Implicit Types l : list A.

Lemma sumZ_app l1 l2 : sumZ g (l1 ++ l2) = (sumZ g l1 + sumZ g l2)%Z.
Proof. induction l1 as [|x l1 IH]; simpl; [done|]. rw IH. lia. Qed.

Lemma sumZ_insert l i x y :
  l !! i = Some x → sumZ g (<[i := y]> l) = (sumZ g l - g x + g y)%Z.
Proof.
  revert i. induction l as [|z l IH]; intros [|i] Hi; simplify_eq/=; [lia|].
  rw (IH i) //. lia.
Qed.

Lemma alter_insert (f : A → A) l i x :
  l !! i = Some x → alter f i l = <[i := f x]> l.
Proof.
  revert i. induction l as [|z l IH]; intros [|i] Hi; simplify_eq/=; [done|].
  f_equal. by apply IH.
Qed.

Lemma sumZ_alter (f : A → A) l i x :
  l !! i = Some x → sumZ g (alter f i l) = (sumZ g l - g x + g (f x))%Z.
Proof. intros Hi. rw (alter_insert _ _ _ x) //. by apply sumZ_insert. Qed.

Lemma sumZ_nonneg l : (∀ x, 0 ≤ g x)%Z → (0 ≤ sumZ g l)%Z.
Proof. intros Hg. induction l as [|x l IH]; simpl; [done|]. specialize (Hg x). lia. Qed.

Lemma sumZ_zero l : (∀ x, 0 ≤ g x)%Z → sumZ g l = 0%Z → ∀ x, x ∈ l → g x = 0%Z.
Proof.
  intros Hg. induction l as [|y l IH]; simpl; intros Hs x Hx; [by apply elem_of_nil in Hx|].
  pose proof (Hg y). pose proof (sumZ_nonneg l Hg).
  apply elem_of_cons in Hx as [->|Hx]; [lia|]. apply IH; [lia|done].
Qed.
End sumZ.

(** ** Event-driven machines

    A component with concurrent parts is a partial function from an event and
    a state to the next state: [None] says the event's guard is false.  Runs
    are lists of events, so a witness is a list that [vm_compute] executes. *)
Section Machine.
Context {S E : Type} (step : E → S → option S).

Fixpoint run (es : list E) (s : S) : option S :=
  match es with
  | [] => Some s
  | e :: es' => s' ← step e s; run es' s'
  end.

Definition steps (s s' : S) : Prop := ∃ e, step e s = Some s'.
Definition reachable (s s' : S) : Prop := ∃ es, run es s = Some s'.

Lemma run_app es1 es2 s : run (es1 ++ es2) s = run es1 s ≫= run es2.
Proof.
  revert s; induction es1 as [|e es1 IH]; intros s; simpl; [done|].
  destruct (step e s); simpl; auto.
Qed.

Lemma reachable_rtc s s' : reachable s s' ↔ rtc steps s s'.
Proof.
  split.
  - intros [es He]; revert s He; induction es as [|e es IH]; simpl; intros s He.
    + by simplify_eq.
    + destruct (step e s) as [s1|] eqn:Hs; simplify_eq/=.
      eapply rtc_l; [by exists e|auto].
  - induction 1 as [s|s s1 s' [e He] _ [es Hes]]; [by exists []|].
    exists (e :: es). by rw /= He.
Qed.

Lemma reachable_refl s : reachable s s.
Proof. by exists []. Qed.

Lemma reachable_trans s1 s2 s3 :
  reachable s1 s2 → reachable s2 s3 → reachable s1 s3.
Proof. rw !reachable_rtc. intros; by etrans. Qed.

Lemma reachable_step s1 s2 s3 e :
  reachable s1 s2 → step e s2 = Some s3 → reachable s1 s3.
Proof.
  intros H He. eapply reachable_trans; [exact H|]. exists [e]. by rw /= He.
Qed.

(** Rule induction for a property every event preserves. *)
Lemma reachable_ind (P : S → Prop) :
  (∀ e s s', P s → step e s = Some s' → P s') →
  ∀ s s', P s → reachable s s' → P s'.
Proof.
  intros Hstep s s' Hs [es Hes]. revert s Hs Hes.
  induction es as [|e es IH]; simpl; intros s Hs Hes; [by simplify_eq|].
  destruct (step e s) as [s1|] eqn:He; simplify_eq/=. eauto.
Qed.

(** The same with an auxiliary invariant already known of every state. *)
Lemma reachable_ind_with (I P : S → Prop) s0 :
  (∀ s, reachable s0 s → I s) → P s0 →
  (∀ e s s', I s → I s' → P s → step e s = Some s' → P s') →
  ∀ s, reachable s0 s → P s.
Proof.
  intros HI H0 Hstep s [es Hes].
  assert (∀ es s1, reachable s0 s1 → P s1 → run es s1 = Some s → P s) as Haux;
    [|by eapply (Haux es s0); [apply reachable_refl|..]].
  clear Hes. intros es'. induction es' as [|e es' IH]; simpl; intros s1 Hr Hp Hrun;
    [by simplify_eq|].
  destruct (step e s1) as [s2|] eqn:He; simplify_eq/=.
  assert (reachable s0 s2) by (by eapply reachable_step).
  apply (IH s2); [done| |done]. eauto.
Qed.

(** Witness runs from [d], computed as far as needed to see that no event is
    refused. *)
Lemma run_split es es' d :
  bool_decide (is_Some (run (es ++ es') d)) = true →
  run es' (default d (run es d)) = Some (default d (run (es ++ es') d)).
Proof.
  intros [s' Hs']%bool_decide_eq_true. rw Hs' /=. rw run_app in Hs'.
  by destruct (run es d).
Qed.

Lemma reachable_split es es' d :
  bool_decide (is_Some (run (es ++ es') d)) = true →
  reachable (default d (run es d)) (default d (run (es ++ es') d)).
Proof. intros ?%run_split. by exists es'. Qed.

Lemma reachable_default es d :
  bool_decide (is_Some (run es d)) = true → reachable d (default d (run es d)).
Proof. exact (reachable_split [] es d). Qed.

Lemma step_default es e d :
  bool_decide (is_Some (run (es ++ [e]) d)) = true →
  step e (default d (run es d)) = Some (default d (run (es ++ [e]) d)).
Proof. intros H%run_split. rw -H /=. by destruct (step e _). Qed.
End Machine.

(** ** Automation *)

(** Case analysis on every [match]/[if] in hypotheses and goal. *)
Ltac break := repeat (case_match; simplify_eq/=).

(** Enumerates the ways a guarded step can succeed: opens the monadic binds of
    a hypothesis [_ = Some _] and splits its matches. *)
Ltac step_cases :=
  repeat (match goal with
          | H : _ ≫= _ = Some _ |- _ => apply bind_Some in H as (? & ? & H)
          | _ => case_match
          end; simplify_eq/=).

(** Splits conjunctions, booleans and existentials in the context. *)
Ltac crush_hyps :=
  repeat match goal with
  | H : _ ∧ _ |- _ => destruct H
  | H : ∃ _, _ |- _ => destruct H
  | H : andb _ _ = true |- _ => apply andb_true_iff in H
  | H : orb _ _ = false |- _ => apply orb_false_iff in H
  | H : negb _ = true |- _ => apply negb_true_iff in H
  | H : negb _ = false |- _ => apply negb_false_iff in H
  | H : bool_decide _ = true |- _ => apply bool_decide_eq_true in H
  | H : bool_decide _ = false |- _ => apply bool_decide_eq_false in H
  end.


Create HintDb cel.
#[export] Hint Resolve reachable_refl reachable_step : cel.
