(* ===== verification/GoStrings.v ===== *)
(** * Go strings

    The functions of Go's [strings], [bytes] and [strconv] packages the program
    calls, on [string] (a sequence of bytes, as in Go): prefix tests, [Contains],
    [ReplaceAll] with a non-empty pattern, [Split] on a one-byte separator, [TrimSpace], and
    the quoting of the [%q] verb.  [Quote] is exact on ASCII input; a byte from
    128 up is copied, which is what Go does for printable valid UTF-8. *)
From S2P Require Import Prelude.
From Stdlib Require Import Ascii.


(** [strings.HasPrefix]. *)
Fixpoint HasPrefix (s p : string) {struct p} : bool :=
  match p, s with
  | "", _ => true
  | String a p', String b s' => bool_decide (b = a) && HasPrefix s' p'
  | String _ _, "" => false
  end.

(** [strings.Contains] (the empty substring occurs everywhere). *)
Fixpoint Contains (s p : string) : bool :=
  HasPrefix s p ||
  match s with "" => false | String _ s' => Contains s' p end.

(** The scan of [strings.ReplaceAll]: [skip] bytes of the current occurrence
    are still to be dropped. *)
Fixpoint replace_scan (old new : string) (skip : nat) (s : string) : string :=
  match s with
  | "" => ""
  | String c s' =>
      match skip with
      | S k => replace_scan old new k s'
      | O => if HasPrefix s old
             then new +:+ replace_scan old new (String.length old - 1) s'
             else String c (replace_scan old new 0 s')
      end
  end.

(** [strings.ReplaceAll] and [bytes.ReplaceAll] for a non-empty [old]: every
    occurrence found from left to right without overlap. *)
Definition ReplaceAll (s old new : string) : string := replace_scan old new 0 s.

(** [strings.Split] for a separator of one byte: never an empty result. *)
Fixpoint Split (s : string) (sep : ascii) : list string :=
  match s with
  | "" => [""]
  | String c s' =>
      if bool_decide (c = sep) then "" :: Split s' sep
      else match Split s' sep with
           | part :: parts => String c part :: parts
           | [] => [String c ""]
           end
  end.

(** Go's [<=] on strings: bytes compared from the left, a prefix comes first. *)
Fixpoint string_le (s t : string) : bool :=
  match s, t with
  | "", _ => true
  | String _ _, "" => false
  | String a s', String b t' =>
      if bool_decide (a = b) then string_le s' t'
      else (nat_of_ascii a <? nat_of_ascii b)%nat
  end.

(** [strings.HasSuffix] and [strings.TrimSuffix]. *)
Fixpoint HasSuffix (s p : string) : bool :=
  bool_decide (s = p) || match s with "" => false | String _ s' => HasSuffix s' p end.

Fixpoint TrimSuffix (s p : string) : string :=
  if bool_decide (s = p) then ""
  else match s with "" => "" | String c s' => String c (TrimSuffix s' p) end.

(** [strings.ToLower] on ASCII. *)
Fixpoint ToLower (s : string) : string :=
  match s with
  | "" => ""
  | String c s' =>
      let n := nat_of_ascii c in
      String (if (65 <=? n) && (n <=? 90) then ascii_of_nat (n + 32) else c) (ToLower s')
  end.

(** [unicode.IsSpace] on ASCII. *)
Definition isSpace (c : ascii) : bool :=
  let n := nat_of_ascii c in ((9 <=? n) && (n <=? 13) || (n =? 32))%nat.

Fixpoint TrimLeft (s : string) : string :=
  match s with
  | String c s' => if isSpace c then TrimLeft s' else s
  | "" => ""
  end.

Fixpoint TrimRight (s : string) : string :=
  match s with
  | "" => ""
  | String c s' => match TrimRight s' with
                   | "" => if isSpace c then "" else String c ""
                   | t => String c t
                   end
  end.

(** [strings.TrimSpace] on ASCII. *)
Definition TrimSpace (s : string) : string := TrimRight (TrimLeft s).

(** [strings.Join]. *)
Fixpoint Join (parts : list string) (sep : string) : string :=
  match parts with
  | [] => ""
  | [s] => s
  | s :: parts => s +:+ sep +:+ Join parts sep
  end.

Definition has_byte (sep : ascii) (s : string) : bool := Contains s (String sep "").

Definition hex_digit (n : nat) : ascii :=
  ascii_of_nat (if n <? 10 then 48 + n else 87 + n)%nat.

Definition quote_byte (c : ascii) : string :=
  let n := nat_of_ascii c in
  let esc (k : nat) := String "\"%char (String (ascii_of_nat k) "") in
  if (n =? 34)%nat then esc 34%nat
  else if (n =? 92)%nat then esc 92%nat
  else if (n =? 7)%nat then esc 97%nat
  else if (n =? 8)%nat then esc 98%nat
  else if (n =? 12)%nat then esc 102%nat
  else if (n =? 10)%nat then esc 110%nat
  else if (n =? 13)%nat then esc 114%nat
  else if (n =? 9)%nat then esc 116%nat
  else if (n =? 11)%nat then esc 118%nat
  else if ((n <? 32) || (n =? 127))%nat
  then "\x" +:+ String (hex_digit (n / 16)) (String (hex_digit (n mod 16)) "")
  else String c "".

(** [strconv.Quote], the [%q] verb of [fmt] on a string. *)
Definition Quote (s : string) : string :=
  let q := String (ascii_of_nat 34) "" in
  let fix body (s : string) := match s with "" => "" | String c s' => quote_byte c +:+ body s' end in
  q +:+ body s +:+ q.

(** ** Lemmas *)

Lemma string_app_assoc (a b c : string) : (a +:+ b) +:+ c = a +:+ (b +:+ c).
Proof. induction a as [|x a IH]; [done|]. unfold String.app in *. simpl. by rw IH. Qed.

Lemma string_app_nil_r (a : string) : a +:+ "" = a.
Proof. induction a as [|x a IH]; [done|]. unfold String.app in *. simpl. by rw IH. Qed.

Lemma app_cons (c : ascii) (a b : string) : String c a +:+ b = String c (a +:+ b).
Proof. done. Qed.

Lemma Split_nonempty s sep : Split s sep ≠ [].
Proof. destruct s; simpl; [done|]. by repeat case_match. Qed.

(** A string without the separator is one part. *)
Lemma Split_no_sep s sep : has_byte sep s = false → Split s sep = [s].
Proof.
  unfold has_byte. induction s as [|c s IH]; simpl; [done|].
  rw orb_false_iff andb_true_r. intros [Hc Hs].
  case_bool_decide; [by subst|].
  by rw IH.
Qed.

(** Splitting [a ++ sep ++ b] where [a] has no separator. *)
Lemma Split_app s t sep :
  has_byte sep s = false → Split (s +:+ String sep t) sep = s :: Split t sep.
Proof.
  unfold has_byte. induction s as [|c s IH].
  - intros _. rw /String.app /=. by rw bool_decide_eq_true_2.
  - rw app_cons /= orb_false_iff andb_true_r. intros [Hc Hs].
    case_bool_decide; [by subst|].
    by rw IH.
Qed.

(** [string_le] is a total order. *)
Lemma string_le_refl s : string_le s s = true.
Proof. induction s as [|c s IH]; [done|]. simpl. by rw bool_decide_eq_true_2. Qed.

Lemma string_le_total s t : string_le s t = true ∨ string_le t s = true.
Proof.
  revert t. induction s as [|a s IH]; intros [|b t]; simpl; [tauto..|].
  repeat case_bool_decide; subst; try done; try by apply IH.
  rw !Nat.ltb_lt. assert (nat_of_ascii a ≠ nat_of_ascii b); [|lia].
  intros E. apply (f_equal ascii_of_nat) in E. by rw !ascii_nat_embedding in E.
Qed.

Lemma string_le_antisym s t : string_le s t = true → string_le t s = true → s = t.
Proof.
  revert t. induction s as [|a s IH]; intros [|b t]; simpl; [done..|].
  repeat case_bool_decide; subst; try done; [|rw !Nat.ltb_lt; lia].
  intros. f_equal. by apply IH.
Qed.

Lemma string_le_trans s t u : string_le s t = true → string_le t u = true → string_le s u = true.
Proof.
  revert t u. induction s as [|a s IH]; intros [|b t] [|c u]; simpl; [done..|].
  repeat case_bool_decide; subst; try done; rw ?Nat.ltb_lt; try lia; apply IH.
Qed.

(** A string cut at the first [sep]. *)
Fixpoint cut (sep : ascii) (s : string) : option (string * string) :=
  match s with
  | "" => None
  | String c s' =>
      if decide (c = sep) then Some ("", s')
      else (λ '(before, after), (String c before, after)) <$> cut sep s'
  end.

Lemma has_byte_cons sep c (s : string) :
  has_byte sep (String c s) = false → c ≠ sep ∧ has_byte sep s = false.
Proof.
  unfold has_byte. rw /= orb_false_iff andb_true_r. intros [Hc Hs]. by case_bool_decide.
Qed.

Lemma cut_app sep (s t : string) : has_byte sep s = false → cut sep (s +:+ String sep t) = Some (s, t).
Proof.
  induction s as [|c s IH].
  - intros _. change ("" +:+ String sep t) with (String sep t). cbn [cut]. by rw decide_True.
  - intros [Hc Hs]%has_byte_cons. rw app_cons. cbn [cut]. rw decide_False // IH //.
Qed.

Lemma cut_none sep (s : string) : has_byte sep s = false → cut sep s = None.
Proof.
  induction s as [|c s IH]; cbn [cut]; [done|]. intros [Hc Hs]%has_byte_cons. rw decide_False // IH //.
Qed.
