(* ===== verification/ApiMachinery.v ===== *)
(** * The API machinery the program builds on

    The vendored [k8s.io/apimachinery] values the program reads and builds:
    group/version/kind tuples, the [metav1.Status] of a Kubernetes API error,
    and Go's [error] values with the [errors.As] search through their wrapping. *)
From S2P Require Import Prelude GoStrings.


(** ** schema: groups, versions, kinds, resources *)

Record GroupResource := { gr_Group : string; gr_Resource : string }.
Record GroupKind := { gk_Group : string; gk_Kind : string }.
Record GroupVersionResource :=
  { gvr_Group : string; gvr_Version : string; gvr_Resource : string }.
Record GroupVersionKind :=
  { gvk_Group : string; gvk_Version : string; gvk_Kind : string }.

#[export] Instance GroupResource_eq_dec : EqDecision GroupResource.
Proof. solve_decision. Defined.
#[export] Instance GroupKind_eq_dec : EqDecision GroupKind.
Proof. solve_decision. Defined.
#[export] Instance GroupVersionResource_eq_dec : EqDecision GroupVersionResource.
Proof. solve_decision. Defined.
#[export] Instance GroupVersionKind_eq_dec : EqDecision GroupVersionKind.
Proof. solve_decision. Defined.
#[export] Instance GroupVersionKind_countable : Countable GroupVersionKind.
Proof.
  apply (inj_countable' (λ g, (gvk_Group g, gvk_Version g, gvk_Kind g))
           (λ '(g, v, k), {| gvk_Group := g; gvk_Version := v; gvk_Kind := k |})).
  by intros [].
Defined.

#[export] Instance GroupVersionResource_countable : Countable GroupVersionResource.
Proof.
  apply (inj_countable' (λ r, (gvr_Group r, gvr_Version r, gvr_Resource r))
           (λ '(g, v, r), {| gvr_Group := g; gvr_Version := v; gvr_Resource := r |})).
  by intros [].
Defined.

Definition gvr_GroupResource (r : GroupVersionResource) : GroupResource :=
  {| gr_Group := gvr_Group r; gr_Resource := gvr_Resource r |}.

Definition gvk_GroupKind (k : GroupVersionKind) : GroupKind :=
  {| gk_Group := gvk_Group k; gk_Kind := gvk_Kind k |}.

Definition gvk_String (k : GroupVersionKind) : string :=
  gvk_Group k +:+ "/" +:+ gvk_Version k +:+ ", Kind=" +:+ gvk_Kind k.

(** [GroupVersionResource.String]. *)
Definition gvr_String (r : GroupVersionResource) : string :=
  gvr_Group r +:+ "/" +:+ gvr_Version r +:+ ", Resource=" +:+ gvr_Resource r.

Definition gr_Empty (r : GroupResource) : bool :=
  bool_decide (gr_Group r = "") && bool_decide (gr_Resource r = "").

Definition gr_String (r : GroupResource) : string :=
  if bool_decide (gr_Group r = "") then gr_Resource r
  else gr_Resource r +:+ "." +:+ gr_Group r.

(** ** metav1 type and list metadata *)

Record ListMeta := {
  lm_SelfLink : string;
  lm_ResourceVersion : string;
  lm_Continue : string;
  lm_RemainingItemCount : option Z;
}.
Definition zero_ListMeta : ListMeta :=
  {| lm_SelfLink := ""; lm_ResourceVersion := ""; lm_Continue := ""; lm_RemainingItemCount := None |}.

Record TypeMeta := { tm_Kind : string; tm_APIVersion : string }.
Definition zero_TypeMeta : TypeMeta := {| tm_Kind := ""; tm_APIVersion := "" |}.

(** ** metav1.Status *)

Definition StatusReasonUnknown : string := "".
Definition StatusReasonForbidden : string := "Forbidden".
Definition StatusReasonNotFound : string := "NotFound".
Definition StatusReasonAlreadyExists : string := "AlreadyExists".
Definition StatusReasonBadRequest : string := "BadRequest".
Definition StatusReasonGone : string := "Gone".
Definition StatusReasonTimeout : string := "Timeout".
Definition StatusReasonTooManyRequests : string := "TooManyRequests".
Definition StatusReasonInternalError : string := "InternalError".
Definition StatusReasonExpired : string := "Expired".
Definition CauseTypeResourceVersionTooLarge : string := "ResourceVersionTooLarge".
Definition StatusSuccess : string := "Success".
Definition StatusFailure : string := "Failure".

Definition http_StatusOK : Z := 200.
Definition http_StatusAccepted : Z := 202.
Definition http_StatusBadRequest : Z := 400.
Definition http_StatusForbidden : Z := 403.
Definition http_StatusNotFound : Z := 404.
Definition http_StatusConflict : Z := 409.
Definition http_StatusGone : Z := 410.
Definition http_StatusTooManyRequests : Z := 429.
Definition http_StatusInternalServerError : Z := 500.
Definition http_StatusGatewayTimeout : Z := 504.

Record StatusCause := { cause_Type : string; cause_Message : string }.
Record StatusDetails :=
  { sd_Name : string; sd_Group : string; sd_Kind : string; sd_Causes : list StatusCause }.

(** [metav1.Status] without its type and list metadata, which nothing here sets. *)
Record Status := {
  st_Status : string;
  st_Message : string;
  st_Reason : string;
  st_Details : option StatusDetails;
  st_Code : Z;
}.

#[export] Instance StatusCause_eq_dec : EqDecision StatusCause.
Proof. solve_decision. Defined.
#[export] Instance StatusDetails_eq_dec : EqDecision StatusDetails.
Proof. solve_decision. Defined.
#[export] Instance Status_eq_dec : EqDecision Status.
Proof. solve_decision. Defined.

(** ** Go errors *)

(** The dynamic types of the errors that flow through the program: an opaque
    message, an API status, the scheme's "not registered" error, an error that
    wraps one error ([%w]), and one that wraps several ([errors.Join]). *)
#[warnings="-register-all"] Inductive error : Type :=
| ErrorString (msg : string)
| StatusError (ErrStatus : Status)
| NotRegisteredErr (msg : string)
| WrapError (msg : string) (err : error)
| WrapErrors (msg : string) (errs : list error).

(** The [Error()] method. *)
Definition Error (e : error) : string :=
  match e with
  | ErrorString msg | NotRegisteredErr msg | WrapError msg _ | WrapErrors msg _ => msg
  | StatusError st => st_Message st
  end.

(** [errors.As(err, &statusErr)] with a [*StatusError] target: the first match
    in a pre-order, depth-first walk of the wrapping tree. *)
Fixpoint AsStatusError (e : error) : option Status :=
  match e with
  | StatusError st => Some st
  | WrapError _ err => AsStatusError err
  | WrapErrors _ errs =>
      (fix first (es : list error) : option Status :=
         match es with
         | [] => None
         | err :: es' =>
             match AsStatusError err with
             | Some st => Some st
             | None => first es'
             end
         end) errs
  | ErrorString _ | NotRegisteredErr _ => None
  end.

Definition knownReasons : list string :=
  ["Unauthorized"; "Forbidden"; "NotFound"; "AlreadyExists"; "Conflict"; "Gone";
   "Invalid"; "ServerTimeout"; "Timeout"; "TooManyRequests"; "BadRequest";
   "MethodNotAllowed"; "NotAcceptable"; "RequestEntityTooLarge";
   "UnsupportedMediaType"; "InternalError"; "Expired"; "ServiceUnavailable"].

Definition reasonAndCodeForError (err : option error) : string * Z :=
  match err ≫= AsStatusError with
  | Some st => (st_Reason st, st_Code st)
  | None => (StatusReasonUnknown, 0%Z)
  end.

(** The shape of [IsNotFound] and [IsForbidden]: the reason decides, and an
    unknown reason falls back to the status code. *)
Definition has_reason_or_code (reason : string) (code : Z) (err : option error) : bool :=
  let '(r, c) := reasonAndCodeForError err in
  if bool_decide (r = reason) then true
  else if bool_decide (r ∉ knownReasons) && (c =? code)%Z then true
  else false.

Definition IsNotFound : option error → bool :=
  has_reason_or_code StatusReasonNotFound http_StatusNotFound.

Definition IsForbidden : option error → bool :=
  has_reason_or_code StatusReasonForbidden http_StatusForbidden.

Definition IsGone : option error → bool := has_reason_or_code StatusReasonGone http_StatusGone.

Definition IsTimeout : option error → bool :=
  has_reason_or_code StatusReasonTimeout http_StatusGatewayTimeout.

Definition IsInternalError : option error → bool :=
  has_reason_or_code StatusReasonInternalError http_StatusInternalServerError.

Definition IsResourceExpired (err : option error) : bool :=
  bool_decide ((reasonAndCodeForError err).1 = StatusReasonExpired).

(** Here the code counts whatever the reason. *)
Definition IsTooManyRequests (err : option error) : bool :=
  let '(r, c) := reasonAndCodeForError err in
  bool_decide (r = StatusReasonTooManyRequests) || (c =? http_StatusTooManyRequests)%Z.

(** The causes of the first API status in the error's wrapping tree. *)
Definition HasStatusCause (err : error) (name : string) : bool :=
  match AsStatusError err ≫= st_Details with
  | Some details => existsb (λ cause, bool_decide (cause_Type cause = name)) (sd_Causes details)
  | None => false
  end.

(** [runtime.IsNotRegisteredError]: a type assertion, no unwrapping. *)
Definition IsNotRegisteredError (err : error) : bool :=
  match err with NotRegisteredErr _ => true | _ => false end.

Definition NewNotFound (qualifiedResource : GroupResource) (name : string) : Status :=
  {| st_Status := StatusFailure;
     st_Code := http_StatusNotFound;
     st_Reason := StatusReasonNotFound;
     st_Details := Some {| sd_Group := gr_Group qualifiedResource;
                           sd_Kind := gr_Resource qualifiedResource; sd_Name := name;
                           sd_Causes := [] |};
     st_Message := gr_String qualifiedResource +:+ " " +:+ Quote name +:+ " not found" |}.

Definition NewForbidden (qualifiedResource : GroupResource) (name : string)
    (err : error) : Status :=
  let message :=
    if gr_Empty qualifiedResource then "forbidden: " +:+ Error err
    else if bool_decide (name = "")
    then gr_String qualifiedResource +:+ " is forbidden: " +:+ Error err
    else gr_String qualifiedResource +:+ " " +:+ Quote name +:+ " is forbidden: " +:+ Error err in
  {| st_Status := StatusFailure;
     st_Code := http_StatusForbidden;
     st_Reason := StatusReasonForbidden;
     st_Details := Some {| sd_Group := gr_Group qualifiedResource;
                           sd_Kind := gr_Resource qualifiedResource; sd_Name := name;
                           sd_Causes := [] |};
     st_Message := message |}.

Definition NewAlreadyExists (qualifiedResource : GroupResource) (name : string) : Status :=
  {| st_Status := StatusFailure;
     st_Code := http_StatusConflict;
     st_Reason := StatusReasonAlreadyExists;
     st_Details := Some {| sd_Group := gr_Group qualifiedResource;
                           sd_Kind := gr_Resource qualifiedResource; sd_Name := name;
                           sd_Causes := [] |};
     st_Message := gr_String qualifiedResource +:+ " " +:+ Quote name +:+ " already exists" |}.

Definition NewBadRequest (reason : string) : Status :=
  {| st_Status := StatusFailure; st_Code := http_StatusBadRequest;
     st_Reason := StatusReasonBadRequest; st_Details := None; st_Message := reason |}.

(** ** Lemmas *)

(** Induction over errors that reaches the elements of a joined error. *)
Lemma error_ind' (P : error → Prop) :
  (∀ msg, P (ErrorString msg)) → (∀ st, P (StatusError st)) →
  (∀ msg, P (NotRegisteredErr msg)) → (∀ msg err, P err → P (WrapError msg err)) →
  (∀ msg errs, Forall P errs → P (WrapErrors msg errs)) → ∀ e, P e.
Proof.
  intros Hs Hst Hn Hw Hj. fix IH 1.
  intros [msg|st|msg|msg err|msg errs];
    [apply Hs|apply Hst|apply Hn|apply Hw, IH|apply Hj].
  induction errs as [|err errs IHerrs]; constructor; [apply IH|exact IHerrs].
Qed.

Lemma AsStatusError_join msg errs :
  AsStatusError (WrapErrors msg errs) = foldr (λ e acc, match AsStatusError e with
    Some st => Some st | None => acc end) None errs.
Proof. induction errs as [|e errs IH]; [done|]. simpl in *. by rw IH. Qed.

Lemma IsNotFound_NewNotFound gr name : IsNotFound (Some (StatusError (NewNotFound gr name))) = true.
Proof. done. Qed.

Lemma IsForbidden_NewForbidden gr name err :
  IsForbidden (Some (StatusError (NewForbidden gr name err))) = true.
Proof. done. Qed.

Lemma IsNotFound_nil : IsNotFound None = false.
Proof. done. Qed.
