(* ===== verification/Scheme.v ===== *)
(** * Scheme registration

    [pkg/apis/.../zz_generated.register.go] and
    [pkg/generated/clientset/versioned/scheme/register.go] over the registration
    methods of apimachinery's [runtime.Scheme]: which Go types a scheme knows for
    which kinds.  A registration is a function from scheme to scheme that may
    panic.  Conversion, defaulting and field-label functions are left out. *)
From S2P Require Import Prelude GoStrings ApiMachinery.

(** [reflect.Type] of a struct: its package and name. *)
Record GoType := { t_PkgPath : string; t_Name : string }.
#[export] Instance GoType_eq_dec : EqDecision GoType.
Proof. solve_decision. Defined.
#[export] Instance GoType_countable : Countable GoType.
Proof.
  apply (inj_countable' (λ t, (t_PkgPath t, t_Name t)) (λ '(p, n), {| t_PkgPath := p; t_Name := n |})).
  by intros [].
Defined.

Record GroupVersion := { gv_Group : string; gv_Version : string }.
#[export] Instance GroupVersion_eq_dec : EqDecision GroupVersion.
Proof. solve_decision. Defined.
Definition WithKind (gv : GroupVersion) (kind : string) : GroupVersionKind :=
  {| gvk_Group := gv_Group gv; gvk_Version := gv_Version gv; gvk_Kind := kind |}.
Definition gvk_GroupVersion (gvk : GroupVersionKind) : GroupVersion :=
  {| gv_Group := gvk_Group gvk; gv_Version := gvk_Version gvk |}.

Record Scheme := {
  gvkToType : gmap GroupVersionKind GoType;
  typeToGVK : gmap GoType (list GroupVersionKind);
  unversionedTypes : gmap GoType GroupVersionKind;
  unversionedKinds : gmap string GoType;
  observedVersions : list GroupVersion;
}.
Implicit Types (s : Scheme) (t : GoType) (gvk : GroupVersionKind) (gv : GroupVersion).

Definition NewScheme : Scheme :=
  {| gvkToType := ∅; typeToGVK := ∅; unversionedTypes := ∅; unversionedKinds := ∅;
     observedVersions := [] |}.

(** A registration: the new scheme, or the message of a panic. *)
Definition registration := Scheme → result string Scheme.

Definition andThen (f g : registration) : registration := λ s, s' ← f s; g s'.
Definition forEach {A} (f : A → registration) (xs : list A) : registration :=
  foldr (λ x rest, andThen (f x) rest) Ok xs.

(** ** runtime.Scheme *)

Definition APIVersionInternal : string := "__internal".

Definition gvksOf s t : list GroupVersionKind := default [] (typeToGVK s !! t).

Definition addObservedVersion (version : GroupVersion) : registration := λ s,
  if decide (gv_Version version = "" ∨ gv_Version version = APIVersionInternal) then Ok s
  else if decide (version ∈ observedVersions s) then Ok s
  else Ok {| gvkToType := gvkToType s; typeToGVK := typeToGVK s;
             unversionedTypes := unversionedTypes s; unversionedKinds := unversionedKinds s;
             observedVersions := observedVersions s ++ [version] |}.

(** After the checks: the two maps. *)
Definition addKind gvk t s : Scheme :=
  {| gvkToType := <[gvk := t]> (gvkToType s);
     typeToGVK := if decide (gvk ∈ gvksOf s t) then typeToGVK s
                  else <[t := gvksOf s t ++ [gvk]]> (typeToGVK s);
     unversionedTypes := unversionedTypes s; unversionedKinds := unversionedKinds s;
     observedVersions := observedVersions s |}.

Definition checkedAddKind gvk t : registration := λ s,
  if decide (gvk_Version gvk = "") then Err ("version is required on all types: " +:+ gvk_String gvk)
  else match gvkToType s !! gvk with
       | Some oldT =>
           if decide (oldT = t) then Ok (addKind gvk t s)
           else Err ("Double registration of different types for " +:+ gvk_String gvk)
       | None => Ok (addKind gvk t s)
       end.

Definition AddKnownTypeWithName gvk t : registration :=
  andThen (addObservedVersion (gvk_GroupVersion gvk)) (checkedAddKind gvk t).

Definition AddKnownTypes gv (types : list GoType) : registration :=
  andThen (addObservedVersion gv)
    (forEach (λ t, AddKnownTypeWithName (WithKind gv (t_Name t)) t) types).

(** One round of the second loop of [AddUnversionedTypes]; the first map is
    written before the check. *)
Definition addUnversioned gv t : registration := λ s,
  let gvk := WithKind gv (t_Name t) in
  match unversionedKinds s !! gvk_Kind gvk with
  | Some old =>
      if decide (old = t) then
        Ok {| gvkToType := gvkToType s; typeToGVK := typeToGVK s;
              unversionedTypes := <[t := gvk]> (unversionedTypes s);
              unversionedKinds := unversionedKinds s; observedVersions := observedVersions s |}
      else Err (t_PkgPath old +:+ "." +:+ t_Name old
                +:+ " has already been registered as unversioned kind")
  | None =>
      Ok {| gvkToType := gvkToType s; typeToGVK := typeToGVK s;
            unversionedTypes := <[t := gvk]> (unversionedTypes s);
            unversionedKinds := <[gvk_Kind gvk := t]> (unversionedKinds s);
            observedVersions := observedVersions s |}
  end.

Definition AddUnversionedTypes gv (types : list GoType) : registration :=
  andThen (addObservedVersion gv) (andThen (AddKnownTypes gv types) (forEach (addUnversioned gv) types)).

Definition Recognizes s gvk : bool := bool_decide (is_Some (gvkToType s !! gvk)).

(** [ObjectKinds] of a typed object: its kinds and whether it is unversioned;
    [None] is a not-registered error. *)
Definition ObjectKinds s t : option (list GroupVersionKind * bool) :=
  match typeToGVK s !! t with
  | Some gvks => Some (gvks, bool_decide (is_Some (unversionedTypes s !! t)))
  | None => None
  end.

(** [New]: the type of the object it makes. *)
Definition New s gvk : option GoType :=
  match gvkToType s !! gvk with
  | Some t => Some t
  | None => unversionedKinds s !! gvk_Kind gvk
  end.

(** ** metav1.AddToGroupVersion *)

Definition metaType (name : string) : GoType :=
  {| t_PkgPath := "k8s.io/apimachinery/pkg/apis/meta/v1"; t_Name := name |}.
Definition Unversioned : GroupVersion := {| gv_Group := ""; gv_Version := "v1" |}.
Definition optionsTypes : list GoType :=
  metaType <$> ["ListOptions"; "GetOptions"; "DeleteOptions"; "CreateOptions"; "UpdateOptions";
                "PatchOptions"].
Definition unversionedMetaTypes : list GoType :=
  metaType <$> ["Status"; "APIVersions"; "APIGroupList"; "APIGroup"; "APIResourceList"].

Definition AddToGroupVersion gv : registration :=
  andThen (AddKnownTypeWithName (WithKind gv "WatchEvent") (metaType "WatchEvent"))
  (andThen (AddKnownTypeWithName
              (WithKind {| gv_Group := gv_Group gv; gv_Version := APIVersionInternal |} "WatchEvent")
              (metaType "InternalEvent"))
  (andThen (AddKnownTypes gv optionsTypes)
           (AddUnversionedTypes Unversioned unversionedMetaTypes))).

(** ** The policy group *)

Definition SchemeGroupVersion : GroupVersion :=
  {| gv_Group := "admissionregistration.x-k8s.io"; gv_Version := "v1alpha1" |}.
Definition policyType (name : string) : GoType :=
  {| t_PkgPath := "k8s.io/cel-admission-webhook/pkg/apis/admissionregistration.x-k8s.io/v1alpha1";
     t_Name := name |}.
Definition policyKinds : list string :=
  ["ValidatingAdmissionPolicy"; "ValidatingAdmissionPolicyBinding";
   "ValidatingAdmissionPolicyBindingList"; "ValidatingAdmissionPolicyList"].

Definition addKnownTypes : registration :=
  andThen (AddKnownTypes SchemeGroupVersion (policyType <$> policyKinds))
          (AddToGroupVersion SchemeGroupVersion).

(** [SchemeBuilder.AddToScheme] with the one function [init] registers; the
    clientset's builder holds that [AddToScheme]. *)
Definition SchemeBuilder : list registration := [addKnownTypes].
Definition AddToScheme : registration := forEach id SchemeBuilder.
Definition localSchemeBuilder : list registration := [AddToScheme].
Definition clientset_AddToScheme : registration := forEach id localSchemeBuilder.

(** The clientset's own [Scheme], after its [init]. *)
Definition clientset_Scheme : result string Scheme :=
  andThen (AddToGroupVersion Unversioned) clientset_AddToScheme NewScheme.

(** ** What registrations promise *)

(** The two maps are inverse to each other; only the core group is unversioned. *)
Record scheme_wf s : Prop := {
  wf_kinds gvk t : gvkToType s !! gvk = Some t ↔ gvk ∈ gvksOf s t;
  wf_nodup t : NoDup (gvksOf s t);
  wf_unversioned t gvk : unversionedTypes s !! t = Some gvk → gvk = WithKind Unversioned (t_Name t);
}.

Record extends s s' : Prop := {
  ext_kinds : gvkToType s ⊆ gvkToType s';
  ext_types : unversionedTypes s ⊆ unversionedTypes s';
  ext_names : unversionedKinds s ⊆ unversionedKinds s';
  ext_versions : observedVersions s ⊆ observedVersions s';
}.

#[export] Instance extends_preorder : PreOrder extends.
Proof.
  split; [intros s; split; reflexivity|]. intros s1 s2 s3 [] []. split; by etrans.
Qed.

(** [f] establishes [P], keeps everything registered before, is the identity
    where [P] already holds, and later registrations keep [P]. *)
Record registers (f : registration) (P : Scheme → Prop) : Prop := {
  reg_ok s s' : scheme_wf s → f s = Ok s' → scheme_wf s' ∧ extends s s' ∧ P s';
  reg_again s : scheme_wf s → P s → f s = Ok s;
  reg_mono s s' : extends s s' → P s → P s';
}.

Lemma registers_andThen f g P Q :
  registers f P → registers g Q → registers (andThen f g) (λ s, P s ∧ Q s).
Proof.
  intros [Hf Hf2 Hf3] [Hg Hg2 Hg3]. split.
  - intros s s' Hwf Hs. unfold andThen in Hs. destruct (f s) as [s1|] eqn:E; [|done].
    destruct (Hf s s1 Hwf E) as (Hwf1 & He1 & HP). destruct (Hg s1 s' Hwf1 Hs) as (Hwf2 & He2 & HQ).
    split_and!; [done|by etrans|by eapply Hf3|done].
  - intros s Hwf [HP HQ]. unfold andThen. rw Hf2 //=. by apply Hg2.
  - intros s s' He [HP HQ]. eauto.
Qed.

Lemma registers_forEach {A} (f : A → registration) (P : A → Scheme → Prop) xs :
  (∀ x, x ∈ xs → registers (f x) (P x)) → registers (forEach f xs) (λ s, ∀ x, x ∈ xs → P x s).
Proof.
  intros Hf. induction xs as [|x xs IH].
  - assert (∀ s x, x ∈ [] → P x s) as Hnil by (intros s x Hx; by apply elem_of_nil in Hx).
    split; [|done|intros; by apply Hnil]. intros s s' Hwf [= <-]. split_and!; [done|reflexivity|apply Hnil].
  - destruct (registers_andThen (f x) (forEach f xs) (P x) (λ s, ∀ x, x ∈ xs → P x s)) as [H1 H2 H3];
      [apply Hf; by left|apply IH; intros; apply Hf; by right|].
    assert (∀ s, (∀ y, y ∈ x :: xs → P y s) ↔ P x s ∧ ∀ y, y ∈ xs → P y s) as Heq.
    { intros s. split; [intros H; split; [apply H; by left|intros; apply H; by right]|].
      intros [Hx Hxs] y [->|Hy]%elem_of_cons; auto. }
    split.
    + intros s s' Hwf Hs. rw Heq. by apply (H1 s s').
    + intros s Hwf Hall. apply H2; [done|]. by apply Heq.
    + intros s s' He. rw !Heq. by apply H3.
Qed.

Lemma registers_addObservedVersion version :
  registers (addObservedVersion version)
    (λ s, gv_Version version = "" ∨ gv_Version version = APIVersionInternal ∨
          version ∈ observedVersions s).
Proof.
  unfold addObservedVersion. split.
  - intros s s' Hwf Hs. destruct (decide (gv_Version version = "" ∨ _)).
    { injection Hs as <-. split_and!; [done|reflexivity|naive_solver]. }
    destruct (decide (version ∈ _)); injection Hs as <-.
    + split_and!; [done|reflexivity|auto].
    + destruct Hwf. split_and!; [by split|split; simpl; set_solver|simpl; set_solver].
  - intros s _ HP. destruct (decide (gv_Version version = "" ∨ _)); [done|].
    destruct (decide (version ∈ _)); [done|naive_solver].
  - intros s s' [] [|[|]]; auto.
Qed.

Lemma gvksOf_addKind gvk t s t' :
  gvksOf (addKind gvk t s) t' =
  if decide (t' = t ∧ gvk ∉ gvksOf s t) then gvksOf s t ++ [gvk] else gvksOf s t'.
Proof.
  unfold gvksOf at 1, addKind. simpl. destruct (decide (gvk ∈ gvksOf s t)) as [Hin|Hout].
  - destruct (decide _) as [[]|]; done.
  - destruct (decide (t' = t)) as [->|Hne].
    + rw lookup_insert_eq. by destruct (decide _) as [|[]].
    + rw lookup_insert_ne; [congruence|]. by destruct (decide _) as [[]|].
Qed.

Lemma addKind_again gvk t s : scheme_wf s → gvkToType s !! gvk = Some t → addKind gvk t s = s.
Proof.
  intros Hwf Hk. pose proof (proj1 (wf_kinds s Hwf gvk t) Hk) as Hin. unfold addKind.
  rw insert_id //. destruct (decide (gvk ∈ gvksOf s t)); [by destruct s|done].
Qed.

Lemma addKind_wf gvk t s :
  scheme_wf s → gvkToType s !! gvk = None →
  scheme_wf (addKind gvk t s) ∧ extends s (addKind gvk t s).
Proof.
  intros Hwf Hk.
  assert (∀ t', gvk ∉ gvksOf s t') as Hnew.
  { intros t' Hin%(wf_kinds s Hwf). congruence. }
  split; [split|split; simpl; [by apply insert_subseteq|done..]].
  - intros gvk' t'. rw gvksOf_addKind. simpl. destruct (decide (gvk' = gvk)) as [->|Hne].
    + rw lookup_insert_eq. destruct (decide _) as [[-> _]|Hno]; [set_solver|].
      split; [|by intros ?%Hnew]. intros [= <-]. destruct Hno. split; [done|apply Hnew].
    + rw lookup_insert_ne // (wf_kinds s Hwf). destruct (decide _) as [[-> _]|]; [|done]. set_solver.
  - intros t'. rw gvksOf_addKind. destruct (decide _); [|by apply wf_nodup].
    apply NoDup_app. split_and!; [by apply wf_nodup| |by apply NoDup_singleton].
    intros x Hx ->%list_elem_of_singleton. by eapply Hnew.
  - intros t' gvk'. simpl. by apply wf_unversioned.
Qed.

Lemma registers_checkedAddKind gvk t :
  registers (checkedAddKind gvk t) (λ s, gvk_Version gvk ≠ "" ∧ gvkToType s !! gvk = Some t).
Proof.
  unfold checkedAddKind. split.
  - intros s s' Hwf Hs. destruct (decide (gvk_Version gvk = "")) as [|Hv]; [done|].
    destruct (gvkToType s !! gvk) as [oldT|] eqn:Hk.
    + destruct (decide (oldT = t)) as [->|]; [|done]. rw addKind_again // in Hs. injection Hs as <-.
      split_and!; [done|reflexivity|done|done].
    + injection Hs as <-. destruct (addKind_wf gvk t s Hwf Hk). split_and!; [done..|].
      simpl. by rw lookup_insert_eq.
  - intros s Hwf [Hv Hk]. destruct (decide (gvk_Version gvk = "")); [done|]. rw Hk.
    destruct (decide (t = t)); [|done]. by rw addKind_again.
  - intros s s' He [Hv Hk]. split; [done|]. by eapply lookup_weaken; [|apply ext_kinds].
Qed.

Lemma registers_addUnversioned t :
  registers (addUnversioned Unversioned t)
    (λ s, unversionedTypes s !! t = Some (WithKind Unversioned (t_Name t)) ∧
          unversionedKinds s !! t_Name t = Some t).
Proof.
  assert (∀ s, scheme_wf s →
    unversionedTypes s ⊆ <[t := WithKind Unversioned (t_Name t)]> (unversionedTypes s) ∧
    ∀ t' gvk', <[t := WithKind Unversioned (t_Name t)]> (unversionedTypes s) !! t' = Some gvk' →
               gvk' = WithKind Unversioned (t_Name t')) as Hins.
  { intros s Hwf. split.
    - apply map_subseteq_spec. intros t' gvk' Ht. destruct (decide (t = t')) as [<-|].
      + rw lookup_insert_eq. by rw (wf_unversioned s Hwf t gvk' Ht).
      + by rw lookup_insert_ne.
    - intros t' gvk' [[<- <-]|[_ Ht]]%lookup_insert_Some; [done|]. by eapply wf_unversioned. }
  unfold addUnversioned. cbn [gvk_Kind WithKind]. split.
  - intros s s' Hwf Hs. destruct (Hins s Hwf) as [Hsub Hval].
    destruct (unversionedKinds s !! t_Name t) as [old|] eqn:Hk.
    + destruct (decide (old = t)) as [->|]; [|done]. injection Hs as <-. destruct Hwf.
      split_and!; [by split|by split|simpl; by rw lookup_insert_eq|done].
    + injection Hs as <-. destruct Hwf.
      split_and!; [by split|split; simpl; [done|done|by apply insert_subseteq|done]|..];
        simpl; by rw lookup_insert_eq.
  - intros s Hwf [Ht Hk]. rw Hk. destruct (decide (t = t)); [|done]. rw insert_id //. by destruct s.
  - intros s s' He [Ht Hk]. split; (eapply lookup_weaken; [done|]); [apply He|apply He].
Qed.

Lemma registers_Ok : registers Ok (λ _, True).
Proof. split; [|done|done]. intros s s' Hwf [= <-]. by split. Qed.

Lemma registers_AddKnownTypeWithName gvk t :
  ∃ P, registers (AddKnownTypeWithName gvk t) P ∧ ∀ s, P s → gvkToType s !! gvk = Some t.
Proof.
  eexists. split; [apply registers_andThen; [apply registers_addObservedVersion|apply registers_checkedAddKind]|].
  simpl. naive_solver.
Qed.

Lemma registers_AddKnownTypes gv types :
  ∃ P, registers (AddKnownTypes gv types) P ∧
       ∀ s, P s → ∀ t, t ∈ types → gvkToType s !! WithKind gv (t_Name t) = Some t.
Proof.
  eexists. split.
  - apply registers_andThen; [apply registers_addObservedVersion|].
    apply registers_forEach. intros t _. apply registers_andThen;
      [apply registers_addObservedVersion|apply registers_checkedAddKind].
  - simpl. intros s [_ Hall] t Ht. by apply (Hall t Ht).
Qed.

Lemma registers_AddToGroupVersion gv : ∃ P, registers (AddToGroupVersion gv) P.
Proof.
  destruct (registers_AddKnownTypeWithName (WithKind gv "WatchEvent") (metaType "WatchEvent")) as (P1 & H1 & _).
  destruct (registers_AddKnownTypeWithName
    (WithKind {| gv_Group := gv_Group gv; gv_Version := APIVersionInternal |} "WatchEvent")
    (metaType "InternalEvent")) as (P2 & H2 & _).
  destruct (registers_AddKnownTypes gv optionsTypes) as (P3 & H3 & _).
  destruct (registers_AddKnownTypes Unversioned unversionedMetaTypes) as (P4 & H4 & _).
  eexists. unfold AddToGroupVersion, AddUnversionedTypes.
  apply registers_andThen; [exact H1|]. apply registers_andThen; [exact H2|].
  apply registers_andThen; [exact H3|].
  apply registers_andThen; [apply registers_addObservedVersion|].
  apply registers_andThen; [exact H4|].
  apply registers_forEach. intros t _. apply registers_addUnversioned.
Qed.

Lemma registers_AddToScheme :
  ∃ P, registers clientset_AddToScheme P ∧
       ∀ s, P s → ∀ kind, kind ∈ policyKinds →
         gvkToType s !! WithKind SchemeGroupVersion kind = Some (policyType kind).
Proof.
  destruct (registers_AddKnownTypes SchemeGroupVersion (policyType <$> policyKinds)) as (P1 & H1 & Hk).
  destruct (registers_AddToGroupVersion SchemeGroupVersion) as (P2 & H2).
  eexists. split.
  - unfold clientset_AddToScheme, localSchemeBuilder, AddToScheme, SchemeBuilder. cbn [forEach foldr id].
    apply registers_andThen; [|apply registers_Ok]. apply registers_andThen; [|apply registers_Ok].
    apply registers_andThen; done.
  - simpl. intros s [[[HP _] _] _] kind Hkind. apply (Hk s HP (policyType kind)).
    by apply list_elem_of_fmap_2.
Qed.

Lemma NewScheme_wf : scheme_wf NewScheme.
Proof.
  split; unfold gvksOf; simpl.
  - intros gvk t. rw !lookup_empty. set_solver.
  - intros t. rw lookup_empty. constructor.
  - intros t gvk. by rw lookup_empty.
Qed.

Lemma clientset_Scheme_wf s : clientset_Scheme = Ok s → scheme_wf s.
Proof.
  destruct (registers_AddToGroupVersion Unversioned) as (P1 & H1).
  destruct registers_AddToScheme as (P2 & H2 & _). intros Hs.
  by apply (reg_ok _ _ (registers_andThen _ _ _ _ H1 H2) NewScheme s NewScheme_wf).
Qed.

(** ** Properties *)

(** Adding the policy group to a scheme makes it know the four policy kinds,
    both ways between kind and Go type, keeps every kind it knew, and adding the
    group again changes nothing. *)
Theorem AddToScheme_registers_policies s s' kind :
  scheme_wf s → clientset_AddToScheme s = Ok s' → kind ∈ policyKinds →
  New s' (WithKind SchemeGroupVersion kind) = Some (policyType kind) ∧
  (∃ gvks unversioned, ObjectKinds s' (policyType kind) = Some (gvks, unversioned) ∧
                       WithKind SchemeGroupVersion kind ∈ gvks ∧ NoDup gvks) ∧
  (∀ gvk, Recognizes s gvk = true → New s' gvk = New s gvk) ∧
  clientset_AddToScheme s' = Ok s'.
Proof.
  intros Hwf Hs Hkind. destruct registers_AddToScheme as (P & HP & Hk).
  destruct (reg_ok _ _ HP s s' Hwf Hs) as (Hwf' & He & HPs).
  pose proof (Hk s' HPs kind Hkind) as Hlook. split_and!.
  - unfold New. by rw Hlook.
  - apply (wf_kinds s' Hwf') in Hlook. pose proof (wf_nodup s' Hwf' (policyType kind)) as Hn.
    unfold ObjectKinds, gvksOf in *. destruct (typeToGVK s' !! policyType kind) as [gvks|]; simpl in *.
    + eauto 6.
    + by apply elem_of_nil in Hlook.
  - intros gvk Hr. unfold Recognizes in Hr. apply bool_decide_eq_true in Hr as [t Ht].
    unfold New. by rw Ht (lookup_weaken _ _ _ _ Ht (ext_kinds _ _ He)).
  - by apply (reg_again _ _ HP).
Qed.

(** ** Witnesses: the scheme of the clientset. *)
Module SchemeWitness.
Definition get (r : result string Scheme) : Scheme := match r with Ok s => s | Err _ => NewScheme end.
Definition core_scheme : Scheme := get (AddToGroupVersion Unversioned NewScheme).

Lemma get_ok (r : result string Scheme) : is_ok r = true → r = Ok (get r).
Proof. by destruct r. Qed.

Lemma core_scheme_wf : scheme_wf core_scheme.
Proof.
  destruct (registers_AddToGroupVersion Unversioned) as (P & HP).
  apply (reg_ok _ _ HP NewScheme); [apply NewScheme_wf|]. apply get_ok. vm_compute. reflexivity.
Qed.

Lemma AddToScheme_registers_policies_witness :
  New (get (clientset_AddToScheme core_scheme)) (WithKind SchemeGroupVersion "ValidatingAdmissionPolicy")
  = Some (policyType "ValidatingAdmissionPolicy").
Proof.
  apply (AddToScheme_registers_policies core_scheme (get (clientset_AddToScheme core_scheme))
           "ValidatingAdmissionPolicy").
  - apply core_scheme_wf.
  - apply get_ok. vm_compute. reflexivity.
  - left.
Defined.
End SchemeWitness.
