(* ===== verification/Admission.v ===== *)
(** * Admission attributes and validators

    The vendored [k8s.io/apiserver/pkg/admission] values the webhook passes
    around, the [admission.ValidationInterface] contract as a record of
    operations over an explicit world state, and the program's own combinator
    [pkg/validator/multi.go]. *)
From S2P Require Import Prelude GoStrings ApiMachinery.


(** [meta.Accessor]: the metadata view of an object, when it has one. *)
Record ObjectMetaView := {
  mo_Name : string;
  mo_GenerateName : string;
  mo_Namespace : string;
  mo_ResourceVersion : string;
}.

Class MetaAccessor (Obj : Type) := Accessor : Obj → option ObjectMetaView.

Definition errNotObject : error := ErrorString "object does not implement the Object interfaces".

(** [user.DefaultInfo]; a nil [Extra] map is [None]. *)
Record DefaultInfo := {
  ui_Name : string;
  ui_UID : string;
  ui_Groups : list string;
  ui_Extra : option (gmap string (list string));
}.

(** [admission.attributesRecord] as [NewAttributesRecord] fills it in. *)
Record Attributes (Obj : Type) := NewAttributesRecord {
  a_object : option Obj;
  a_oldObject : option Obj;
  a_kind : GroupVersionKind;
  a_namespace : string;
  a_name : string;
  a_resource : GroupVersionResource;
  a_subresource : string;
  a_operation : string;
  a_options : option Obj;
  a_dryRun : bool;
  a_userInfo : DefaultInfo;
}.
Arguments NewAttributesRecord {Obj}.
Arguments a_object {Obj}.
Arguments a_oldObject {Obj}.
Arguments a_kind {Obj}.
Arguments a_namespace {Obj}.
Arguments a_name {Obj}.
Arguments a_resource {Obj}.
Arguments a_subresource {Obj}.
Arguments a_operation {Obj}.
Arguments a_options {Obj}.
Arguments a_dryRun {Obj}.
Arguments a_userInfo {Obj}.

Section Errors.
Context {Obj : Type} `{MetaAccessor Obj}.

(** [extractResourceName]; its error result is always nil. *)
Definition extractResourceName (a : Attributes Obj) : string * GroupResource :=
  let resource := gvr_GroupResource (a_resource a) in
  if bool_decide (a_name a ≠ "") then (a_name a, resource)
  else match a_object a with
       | None => ("Unknown", resource)
       | Some obj =>
           match Accessor obj with
           | None => ("Unknown/errorGettingName", resource)
           | Some m =>
               if bool_decide (mo_Name m ≠ "") then (mo_Name m, resource)
               else if bool_decide (mo_GenerateName m ≠ "") then (mo_GenerateName m, resource)
               else ("Unknown", resource)
           end
       end.

(** [admission.NewForbidden]. *)
Definition admission_NewForbidden (a : Attributes Obj) (internalError : error) : error :=
  if IsForbidden (Some internalError) then internalError
  else let '(name, resource) := extractResourceName a in
       StatusError (NewForbidden resource name internalError).

Lemma admission_NewForbidden_IsForbidden a e :
  IsForbidden (Some (admission_NewForbidden a e)) = true.
Proof.
  unfold admission_NewForbidden. case_match; [done|].
  destruct (extractResourceName a). apply IsForbidden_NewForbidden.
Qed.
End Errors.

(** ** admission.ValidationInterface

    A validator sees the attributes and the world: caches, sync state, whatever
    it keeps between requests. *)
Record ValidationInterface (Obj W : Type) := {
  Handles : string → bool;
  Validate : Attributes Obj → W → option error * W;
}.
Arguments Build_ValidationInterface {Obj W}.
Arguments Handles {Obj W}.
Arguments Validate {Obj W}.

Section Validators.
Context {Obj W : Type}.
Implicit Types (v : ValidationInterface Obj W) (a : Attributes Obj) (w : W).

(** Two validators no caller can tell apart. *)
#[global] Instance validator_equiv : Equiv (ValidationInterface Obj W) := λ v1 v2,
  (∀ op, Handles v1 op = Handles v2 op) ∧
  (∀ a w, Validate v1 a w = Validate v2 a w).

#[global] Instance validator_equivalence :
  Equivalence (≡@{ValidationInterface Obj W}).
Proof.
  split.
  - by intros v.
  - intros v1 v2 [H1 H2]; split; intros; by rw ?H1 ?H2.
  - intros v1 v2 v3 [H1 H2] [H3 H4]; split; intros; by rw ?H1 ?H2 ?H3 ?H4.
Qed.

#[global] Instance Handles_proper :
  Proper ((≡) ==> eq ==> eq) (@Handles Obj W).
Proof. intros v1 v2 [H _] ? ? ->. apply H. Qed.

#[global] Instance Validate_proper :
  Proper ((≡) ==> eq ==> eq ==> eq) (@Validate Obj W).
Proof. intros v1 v2 [_ H] ? ? -> ? ? ->. apply H. Qed.
End Validators.

(** ** pkg/validator/multi.go *)
Module Multi.
Section multi.
Context {Obj W : Type}.
Implicit Types (v : ValidationInterface Obj W) (vs : list (ValidationInterface Obj W)).
Implicit Types (a : Attributes Obj) (w : W).

Fixpoint multi_Handles vs (operation : string) : bool :=
match vs with
| [] => false
| v :: vs' => if Handles v operation then true else multi_Handles vs' operation
end.

Fixpoint multi_Validate vs a w : option error * W :=
match vs with
| [] => (None, w)
| v :: vs' =>
    if negb (Handles v (a_operation a)) then multi_Validate vs' a w
    else match Validate v a w with
         | (Some err, w') => (Some err, w')
         | (None, w') => multi_Validate vs' a w'
         end
end.

Definition NewMulti vs : ValidationInterface Obj W :=
{| Handles := multi_Handles vs; Validate := multi_Validate vs |}.

(** *** Helper lemmas *)

Lemma multi_Handles_existsb vs op : multi_Handles vs op = existsb (λ v, Handles v op) vs.
Proof. induction vs as [|v vs IH]; simpl; [done|]. rw IH. by destruct (Handles v op). Qed.

Lemma multi_Handles_app vs1 vs2 op :
multi_Handles (vs1 ++ vs2) op = multi_Handles vs1 op || multi_Handles vs2 op.
Proof. by rw !multi_Handles_existsb existsb_app. Qed.

Lemma multi_Validate_app vs1 vs2 a w :
multi_Validate (vs1 ++ vs2) a w =
match multi_Validate vs1 a w with
| (Some err, w') => (Some err, w')
| (None, w') => multi_Validate vs2 a w'
end.
Proof.
revert w. induction vs1 as [|v vs1 IH]; intros w; simpl; [done|].
destruct (Handles v (a_operation a)); simpl; [|done].
destruct (Validate v a w) as [[err|] w']; simpl; auto.
Qed.

Lemma multi_Validate_unhandled vs a w :
multi_Handles vs (a_operation a) = false → multi_Validate vs a w = (None, w).
Proof.
induction vs as [|v vs IH]; simpl; [done|].
destruct (Handles v (a_operation a)); simpl; [done|auto].
Qed.

#[global] Instance NewMulti_proper : Proper (Forall2 (≡) ==> (≡)) NewMulti.
Proof.
intros vs1 vs2 Hvs; split; simpl.
- intros op. induction Hvs as [|v1 v2 ? ? [Hh _] _ IH]; simpl; [done|]. by rw Hh IH.
- intros a. induction Hvs as [|v1 v2 ? ? [Hh HV] _ IH]; intros w; simpl; [done|].
  rw -Hh. destruct (Handles v1 (a_operation a)); simpl; [|done].
  rw HV. destruct (Validate v2 a w) as [[]]; auto.
Qed.
(** The validators of [vs] that handle the operation all accept, taking the
  world from [w] to [w']. *)
Inductive accept_all a : list (ValidationInterface Obj W) → W → W → Prop :=
| accept_nil w : accept_all a [] w w
| accept_skip v vs w w' :
  Handles v (a_operation a) = false →
  accept_all a vs w w' → accept_all a (v :: vs) w w'
| accept_cons v vs w w1 w' :
  Handles v (a_operation a) = true → Validate v a w = (None, w1) →
  accept_all a vs w1 w' → accept_all a (v :: vs) w w'.

Lemma multi_Validate_accepts vs a w w' :
multi_Validate vs a w = (None, w') ↔ accept_all a vs w w'.
Proof.
split.
- revert w. induction vs as [|v vs IH]; simpl; intros w; [intros [= ->]; constructor|].
  destruct (Handles v (a_operation a)) eqn:Hh; simpl; [|by constructor; auto].
  destruct (Validate v a w) as [[err|] w1] eqn:Hv; [done|].
  intros; eapply accept_cons; eauto.
- induction 1 as [|? ? ? ? Hh|? ? ? ? ? Hh Hv]; simpl; [done|..]; rw Hh //= Hv //.
Qed.

(** ** Properties *)

(** The combined validator handles exactly the operations that one of its
  members handles. *)
Theorem NewMulti_Handles_iff vs op :
Handles (NewMulti vs) op = true ↔ ∃ v, v ∈ vs ∧ Handles v op = true.
Proof.
simpl. rw multi_Handles_existsb existsb_exists.
by split; intros (v & Hv%list_elem_of_In & ?); exists v.
Qed.

(** C26: the combined validator rejects exactly when some member that handles
  the operation rejects after every handling member before it accepted; the
  error and the world it leaves are that member's, so no later member runs. *)
Theorem NewMulti_rejects_iff vs a w err w' :
Validate (NewMulti vs) a w = (Some err, w') ↔
∃ pre v post w1, vs = pre ++ v :: post ∧ accept_all a pre w w1 ∧
  Handles v (a_operation a) = true ∧ Validate v a w1 = (Some err, w').
Proof.
simpl. split.
- revert w. induction vs as [|v vs IH]; simpl; intros w; [done|].
  destruct (Handles v (a_operation a)) eqn:Hh; simpl.
  + destruct (Validate v a w) as [[e|] w1] eqn:Hv.
    * intros [= -> ->]. exists [], v, vs, w. by repeat constructor.
    * intros (pre & u & post & w2 & -> & ? & ? & ?)%IH.
      exists (v :: pre), u, post, w2. repeat split; [|done..].
      by eapply accept_cons.
  + intros (pre & u & post & w2 & -> & ? & ? & ?)%IH.
    exists (v :: pre), u, post, w2. repeat split; [|done..]. by apply accept_skip.
- intros (pre & v & post & w1 & -> & Hpre%multi_Validate_accepts & Hh & Hv).
  by rw multi_Validate_app Hpre /= Hh /= Hv.
Qed.

(** Combining combined validators is the same as combining all their
  members at once, for both the operations handled and the verdicts. *)
Theorem NewMulti_flattens vss : NewMulti (NewMulti <$> vss) ≡ NewMulti (concat vss).
Proof.
split; simpl.
- intros op. induction vss as [|vs vss IH]; simpl; [done|].
  rw multi_Handles_app IH. by destruct (multi_Handles vs op).
- intros a. induction vss as [|vs vss IH]; intros w; simpl; [done|].
  rw multi_Validate_app. destruct (multi_Handles vs (a_operation a)) eqn:Hh; simpl.
  + destruct (multi_Validate vs a w) as [[err|] w']; simpl; auto.
  + by rw (multi_Validate_unhandled vs).
Qed.
End multi.
End Multi.
