(* ===== verification/Plugin.v ===== *)
(** * The CEL admission plugin

    [pkg/controller/admissionregistration.x-k8s.io/v1alpha1/plugin.go]: the
    validator that exempts the policy resources themselves, waits for the policy
    caches to sync and then delegates to the vendored CEL evaluator; and the
    polling loop of [k8s.io/apimachinery/pkg/util/wait] it waits with.

    The evaluator's [HasSynced] and [Validate] are parameters over the world [W], which
    [Enforcement] fills with the model of the vendored evaluator; [env k] is what the
    rest of the process does to the world before the [k]-th observation of the caches. *)
From S2P Require Import Prelude GoStrings ApiMachinery Admission.

(** ** wait.PollImmediateWithContext *)

(** What the [select] of [waitForWithContext] wakes up on: a value of the
    ticker channel, its closing at the timeout, or the caller's context. *)
Inductive wake := Tick | Closed | CtxDone.

#[export] Instance wake_eq_dec : EqDecision wake.
Proof. solve_decision. Defined.

Definition ErrWaitTimeout : error := ErrorString "timed out waiting for the condition".

Section Poll.
Context {W : Type}.
(** The polled condition after [k] earlier observations. *)
Context (condition : nat → W → bool * W).

(** [waitForWithContext] on the wake-ups [sched]; [None] while still waiting. *)
Fixpoint waitForWithContext (k : nat) (sched : list wake) (w : W)
    : option (option error * W) :=
  match sched with
  | [] => None
  | Tick :: sched' =>
      match condition k w with
      | (true, w') => Some (None, w')
      | (false, w') => waitForWithContext (S k) sched' w'
      end
  | Closed :: _ =>
      match condition k w with
      | (true, w') => Some (None, w')
      | (false, w') => Some (Some ErrWaitTimeout, w')
      end
  | CtxDone :: _ => Some (Some ErrWaitTimeout, w)
  end.

(** [poll] with [immediate = true]; [ctx_done] is the context's state after
    the first observation. *)
Definition PollImmediateWithContext (ctx_done : bool) (sched : list wake) (w : W)
    : option (option error * W) :=
  match condition 0 w with
  | (true, w') => Some (None, w')
  | (false, w') =>
      if ctx_done then Some (Some ErrWaitTimeout, w')
      else waitForWithContext 1 sched w'
  end.

Lemma waitForWithContext_returns k sched w :
  Closed ∈ sched ∨ CtxDone ∈ sched → is_Some (waitForWithContext k sched w).
Proof.
  revert k w. induction sched as [|[] sched IH]; intros k w; simpl.
  - by intros [H|H]; apply elem_of_nil in H.
  - intros Hin. destruct (condition k w) as [[] w']; [eauto|].
    apply IH. by destruct Hin as [[?|?]%elem_of_cons|[?|?]%elem_of_cons]; auto.
  - intros _. destruct (condition k w) as [[] w']; eauto.
  - eauto.
Qed.

Lemma waitForWithContext_nil_error k sched w w' :
  waitForWithContext k sched w = Some (None, w') →
  ∃ j wj, condition j wj = (true, w').
Proof.
  revert k w. induction sched as [|[] sched IH]; intros k w; simpl; [done|..].
  - destruct (condition k w) as [[] w1] eqn:Hc; [|eauto]. intros; simplify_eq. eauto.
  - destruct (condition k w) as [[] w1] eqn:Hc; intros; simplify_eq. eauto.
  - done.
Qed.

Lemma waitForWithContext_error k sched w e w' :
  waitForWithContext k sched w = Some (Some e, w') → e = ErrWaitTimeout.
Proof.
  revert k w. induction sched as [|[] sched IH]; intros k w; simpl; [done|..].
  - destruct (condition k w) as [[] w1]; [done|eauto].
  - by destruct (condition k w) as [[] w1]; intros; simplify_eq.
  - by intros; simplify_eq.
Qed.
End Poll.

(** ** isPolicyResource *)

Definition isPolicyResource {Obj} (attr : Attributes Obj) : bool :=
  let gvk := a_resource attr in
  if bool_decide (gvr_Group gvk = "admissionregistration.k8s.io")
     || bool_decide (gvr_Group gvk = "admissionregistration.x-k8s.io")
  then if bool_decide (gvr_Resource gvk = "validatingadmissionpolicies")
          || bool_decide (gvr_Resource gvk = "validatingadmissionpolicybindings")
       then true else false
  else false.

(** ** celAdmissionPlugin *)

(** [validatingadmissionpolicy.CELPolicyEvaluator]. *)
Record CELPolicyEvaluator (Obj W : Type) := {
  ev_HasSynced : W → bool;
  ev_Validate : Attributes Obj → W → option error * W;
}.
Arguments Build_CELPolicyEvaluator {Obj W}.
Arguments ev_HasSynced {Obj W}.
Arguments ev_Validate {Obj W}.

Section Plugin.
Context {Obj W : Type} `{MetaAccessor Obj}.
Context (evaluator : CELPolicyEvaluator Obj W) (env : nat → W → W).

Definition HasSynced (w : W) : bool := ev_HasSynced evaluator w.

Definition celAdmissionPlugin_Handles (operation : string) : bool := true.

Definition notReady : error := ErrorString "not yet ready to handle request".

(** One observation: the world moves, then [HasSynced] is read. *)
Definition observe (k : nat) (w : W) : bool * W :=
  let w' := env k w in (HasSynced w', w').

(** [celAdmissionPlugin.Validate]; [None] while the polling still waits. *)
Definition celAdmissionPlugin_Validate (ctx_done : bool) (sched : list wake)
    (a : Attributes Obj) (w : W) : option (option error * W) :=
  if isPolicyResource a then Some (None, w)
  else match PollImmediateWithContext observe ctx_done sched w with
       | None => None
       | Some (Some _, w') => Some (Some (admission_NewForbidden a notReady), w')
       | Some (None, w') => Some (ev_Validate evaluator a w')
       end.
End Plugin.

(** ** Lemmas *)

(** Two worlds the evaluator cannot tell apart, the second [f] of the first. *)
Section Simulation.
Context {Obj W : Type} `{MetaAccessor Obj} (evaluator : CELPolicyEvaluator Obj W).
Context (env env' : nat → W → W) (f : W → W).
Context (same_env : ∀ k w, env' k (f w) = f (env k w)).
Context (same_HasSynced : ∀ w, ev_HasSynced evaluator (f w) = ev_HasSynced evaluator w).
Context (same_verdict : ∀ a w, (ev_Validate evaluator a (f w)).1 = (ev_Validate evaluator a w).1).

Lemma observe_simulation k w :
  observe evaluator env' k (f w) = prod_map id f (observe evaluator env k w).
Proof. unfold observe, HasSynced. by rw same_env same_HasSynced. Qed.

Lemma wait_simulation k sched w :
  waitForWithContext (observe evaluator env') k sched (f w)
  = prod_map id f <$> waitForWithContext (observe evaluator env) k sched w.
Proof.
  revert k w. induction sched as [|[] sched IH]; intros k w; cbn [waitForWithContext]; [done| | |done];
    rw observe_simulation; destruct (observe evaluator env k w) as [[] w']; simpl; done.
Qed.

(** The plugin's verdicts are the same. *)
Lemma plugin_simulation ctx_done sched a w :
  fst <$> celAdmissionPlugin_Validate evaluator env' ctx_done sched a (f w)
  = fst <$> celAdmissionPlugin_Validate evaluator env ctx_done sched a w.
Proof.
  unfold celAdmissionPlugin_Validate, PollImmediateWithContext. destruct (isPolicyResource a); [done|].
  rw observe_simulation. destruct (observe _ _ _ _) as [[] w']; cbn [prod_map id fst snd fmap option_fmap option_map];
    [by rw same_verdict|].
  destruct ctx_done; [done|]. rw wait_simulation. destruct (waitForWithContext _ _ _ _) as [[[e|] w'']|]; simpl; [done|by rw same_verdict|done].
Qed.
End Simulation.

Lemma isPolicyResource_true {Obj} (a : Attributes Obj) :
  isPolicyResource a = true ↔
  gvr_Group (a_resource a) ∈ ["admissionregistration.k8s.io"; "admissionregistration.x-k8s.io"] ∧
  gvr_Resource (a_resource a) ∈ ["validatingadmissionpolicies"; "validatingadmissionpolicybindings"].
Proof.
  unfold isPolicyResource. rw !elem_of_cons !elem_of_nil.
  repeat case_bool_decide; simpl; intuition congruence.
Qed.

Section PluginFacts.
Context {Obj W : Type} `{MetaAccessor Obj}.
Context (evaluator : CELPolicyEvaluator Obj W) (env : nat → W → W).
Implicit Types (a : Attributes Obj) (w : W) (sched : list wake).


(** The world at the [k]-th observation of a request that started in [w]. *)
Fixpoint env_at (k : nat) (w : W) : W :=
  match k with O => env 0 w | S j => env k (env_at j w) end.

Lemma notReady_not_forbidden : IsForbidden (Some notReady) = false.
Proof. done. Qed.

Lemma waitFor_unready k n rest w :
  (∀ j, j ≤ n → HasSynced evaluator (env_at (k + j) w) = false) →
  waitForWithContext (observe evaluator env) (S k) (replicate n Tick ++ rest) (env_at k w)
  = waitForWithContext (observe evaluator env) (S (k + n)) rest (env_at (k + n) w).
Proof.
  revert k. induction n as [|n IH]; intros k Hj; simpl; [by rw Nat.add_0_r|].
  pose proof (Hj 1) as H1. rw Nat.add_1_r /= in H1. rw H1; [lia|].
  rw -/(env_at (S k) w) (IH (S k)); [|by rw Nat.add_succ_comm].
  intros j Hle. rw Nat.add_succ_comm. apply Hj. lia.
Qed.

(** The verdict when no observation finds the caches synced. *)
Lemma unsynced_verdict ctx_done sched a w :
  isPolicyResource a = false →
  (∀ k w1, HasSynced evaluator (env k w1) = false) →
  ctx_done = true ∨ Closed ∈ sched ∨ CtxDone ∈ sched →
  ∃ st w', celAdmissionPlugin_Validate evaluator env ctx_done sched a w = Some (Some (StatusError st), w') ∧
           st_Code st = http_StatusForbidden ∧ st_Reason st = StatusReasonForbidden.
Proof.
  unfold celAdmissionPlugin_Validate. intros -> Hun Hend.
  assert (∃ e w', PollImmediateWithContext (observe evaluator env) ctx_done sched w
                  = Some (Some e, w')) as (e & w' & ->).
  { unfold PollImmediateWithContext. rw {1}/observe Hun.
    destruct ctx_done; [eauto|]. destruct Hend as [|Hend]; [done|].
    destruct (waitForWithContext_returns (observe evaluator env) 1 sched (env 0 w) Hend)
      as [[[e|] w'] Hw]; [eauto|].
    apply waitForWithContext_nil_error in Hw as (j & wj & Hj).
    unfold observe in Hj. rw Hun in Hj. done. }
  unfold admission_NewForbidden. rw notReady_not_forbidden.
  destruct (extractResourceName a) as [name resource]. by eexists _, _.
Qed.

(** The verdict when the [k]-th observation does. *)
Lemma synced_verdict k rest a w :
  isPolicyResource a = false →
  (∀ j, j < k → HasSynced evaluator (env_at j w) = false) →
  HasSynced evaluator (env_at k w) = true →
  celAdmissionPlugin_Validate evaluator env false (replicate k Tick ++ rest) a w
  = Some (ev_Validate evaluator a (env_at k w)).
Proof.
  unfold celAdmissionPlugin_Validate, PollImmediateWithContext.
  intros -> Hj Hk. rw {1}/observe. destruct k as [|k]; [by rw /= Hk|].
  rw -/(env_at 0 w) Hj; [lia|].
  rw replicate_S_end -app_assoc (waitFor_unready 0).
  { intros j Hle. apply Hj. simpl. lia. }
  simpl. rw -/(env_at (S k) w) Hk. done.
Qed.

(** ** Properties *)

(** Requests for the policies and policy bindings themselves, in either
    API group and whatever their version or subresource, are admitted at once:
    neither the caches nor the evaluator are consulted. *)
Theorem policy_resources_admitted ctx_done sched a w :
  gvr_Group (a_resource a) ∈
    ["admissionregistration.k8s.io"; "admissionregistration.x-k8s.io"] →
  gvr_Resource (a_resource a) ∈
    ["validatingadmissionpolicies"; "validatingadmissionpolicybindings"] →
  celAdmissionPlugin_Validate evaluator env ctx_done sched a w = Some (None, w).
Proof.
  intros Hg Hr. unfold celAdmissionPlugin_Validate.
  by rw (proj2 (isPolicyResource_true a)).
Qed.

(** The plugin fails closed: a request for any other resource is admitted
    only after an observation that found the caches synced, and only when the
    evaluator, asked in that very world, admits it. *)
Theorem admitted_only_when_synced ctx_done sched a w w' :
  isPolicyResource a = false →
  celAdmissionPlugin_Validate evaluator env ctx_done sched a w = Some (None, w') →
  ∃ w1, HasSynced evaluator w1 = true ∧ ev_Validate evaluator a w1 = (None, w').
Proof.
  unfold celAdmissionPlugin_Validate. intros -> Hv.
  destruct (PollImmediateWithContext _ _ _ _) as [[[e|] w1]|] eqn:Hp; simplify_eq.
  exists w1. split; [|done]. unfold PollImmediateWithContext in Hp.
  destruct (observe evaluator env 0 w) as [[] w2] eqn:Ho.
  - unfold observe in Ho. by simplify_eq.
  - destruct ctx_done; [done|].
    apply waitForWithContext_nil_error in Hp as (j & wj & Hj).
    unfold observe in Hj. by simplify_eq.
Qed.

(** When every observation finds the caches unsynced, the request is
    rejected with a Forbidden (403) API status once the timeout closes the
    ticker or the context ends. *)
Theorem unsynced_is_forbidden ctx_done sched a w :
  isPolicyResource a = false →
  (∀ k w1, HasSynced evaluator (env k w1) = false) →
  ctx_done = true ∨ Closed ∈ sched ∨ CtxDone ∈ sched →
  ∃ st w', celAdmissionPlugin_Validate evaluator env ctx_done sched a w = Some (Some (StatusError st), w') ∧
           st_Code st = http_StatusForbidden ∧ st_Reason st = StatusReasonForbidden.
Proof. apply unsynced_verdict. Qed.

(** When the caches become synced at the [k]-th observation, the verdict is
    the evaluator's, in the world of that observation; for [k = 0] without
    waiting at all. *)
Theorem verdict_at_first_sync k rest a w :
  isPolicyResource a = false →
  (∀ j, j < k → HasSynced evaluator (env_at j w) = false) →
  HasSynced evaluator (env_at k w) = true →
  celAdmissionPlugin_Validate evaluator env false (replicate k Tick ++ rest) a w
  = Some (ev_Validate evaluator a (env_at k w)).
Proof. apply synced_verdict. Qed.

(** The plugin always answers: a schedule in which the timeout closes the
    ticker or the context ends makes [Validate] return. *)
Theorem plugin_Validate_returns ctx_done sched a w :
  Closed ∈ sched ∨ CtxDone ∈ sched →
  is_Some (celAdmissionPlugin_Validate evaluator env ctx_done sched a w).
Proof.
  intros Hend. unfold celAdmissionPlugin_Validate, PollImmediateWithContext.
  destruct (isPolicyResource a); [eauto|].
  destruct (observe evaluator env 0 w) as [[] w1]; [eauto|].
  destruct ctx_done; [eauto|].
  destruct (waitForWithContext_returns (observe evaluator env) 1 sched w1 Hend)
    as [[[e|] w'] ->]; eauto.
Qed.
End PluginFacts.

(** ** Witnesses

    A process whose caches are synced from its third observation on, with an
    evaluator that admits everything. *)
Module PluginWitness.
#[export] Instance demo_accessor : MetaAccessor ObjectMetaView := Some.

Definition demo_evaluator : CELPolicyEvaluator ObjectMetaView nat :=
  {| ev_HasSynced := λ w, 3 <=? w; ev_Validate := λ _ w, (None, w) |}.
Definition demo_env (k w : nat) : nat := S w.
Definition stuck_env (k w : nat) : nat := 0.

Definition demo_attributes (group resource : string) : Attributes ObjectMetaView :=
  NewAttributesRecord None None {| gvk_Group := group; gvk_Version := "v1"; gvk_Kind := "K" |}
    "" "demo" {| gvr_Group := group; gvr_Version := "v1"; gvr_Resource := resource |} "" "CREATE"
    None false {| ui_Name := "u"; ui_UID := ""; ui_Groups := []; ui_Extra := None |}.

Definition demo_policy := demo_attributes "admissionregistration.x-k8s.io" "validatingadmissionpolicies".
Definition demo_pod := demo_attributes "" "pods".

Lemma policy_resources_admitted_witness :
  celAdmissionPlugin_Validate demo_evaluator demo_env false [] demo_policy 0 = Some (None, 0).
Proof.
  apply policy_resources_admitted.
  - apply list_elem_of_In; simpl; auto.
  - apply list_elem_of_In; simpl; auto.
Defined.

Lemma admitted_only_when_synced_witness :
  celAdmissionPlugin_Validate demo_evaluator demo_env false [Tick; Tick; Closed] demo_pod 0
    = Some (None, 3) ∧
  ∃ w1, HasSynced demo_evaluator w1 = true ∧ ev_Validate demo_evaluator demo_pod w1 = (None, 3).
Proof.
  split; [reflexivity|].
  apply (admitted_only_when_synced demo_evaluator demo_env false [Tick; Tick; Closed] demo_pod 0 3);
    reflexivity.
Defined.

Lemma unsynced_is_forbidden_witness :
  ∃ st w', celAdmissionPlugin_Validate demo_evaluator stuck_env false [Tick; Closed] demo_pod 0
             = Some (Some (StatusError st), w') ∧
           st_Code st = http_StatusForbidden ∧ st_Reason st = StatusReasonForbidden.
Proof.
  apply unsynced_is_forbidden; [reflexivity|reflexivity|].
  right; left. apply list_elem_of_In; simpl; auto.
Defined.

Lemma verdict_at_first_sync_witness :
  celAdmissionPlugin_Validate demo_evaluator demo_env false (replicate 2 Tick ++ [Closed]) demo_pod 0
  = Some (ev_Validate demo_evaluator demo_pod 3).
Proof.
  apply (verdict_at_first_sync demo_evaluator demo_env 2 [Closed] demo_pod 0);
    [reflexivity| |reflexivity].
  intros [|[|j]] Hj; [reflexivity..|lia].
Defined.

Lemma plugin_Validate_returns_witness :
  is_Some (celAdmissionPlugin_Validate demo_evaluator stuck_env false [Tick; Closed] demo_pod 0).
Proof. apply plugin_Validate_returns. left. apply list_elem_of_In; simpl; auto. Defined.
End PluginWitness.
