(* ===== verification/Webhook.v ===== *)
(** * The webhook's HTTP handlers

    [pkg/webhook/server.go] without its server loop: [parseRequest],
    [handleWebhookValidate], [reviewResponse], [handleHealth] and the routes.
    JSON codecs and the scheme's deserializer are dependencies: the handler's
    definitions take them as the fields of a [Codec]. *)
From S2P Require Import Prelude GoStrings ApiMachinery Admission.

(** ** net/http *)

(** A header map with canonical keys. *)
Abbreviation Header := (gmap string (list string)).

(** [Header.Get]: the first value, or the empty string. *)
Definition Header_Get (h : Header) (key : string) : string :=
  match h !! key with Some (v :: _) => v | _ => "" end.

(** A request: its path, its headers, and the bytes read from the body before
    the end of the stream or a read error (the code ignores such an error). *)
Record Request := { req_Path : string; req_Header : Header; req_Body : string }.

(** What a handler has written: [rw_status] once the header is sent. *)
Record ResponseWriter := {
  rw_header : gmap string string;
  rw_status : option Z;
  rw_body : string;
}.

#[export] Instance ResponseWriter_eq_dec : EqDecision ResponseWriter.
Proof. solve_decision. Defined.

Definition newResponse : ResponseWriter :=
  {| rw_header := ∅; rw_status := None; rw_body := "" |}.

Definition Header_Set (key value : string) (w : ResponseWriter) : ResponseWriter :=
  {| rw_header := <[key := value]> (rw_header w); rw_status := rw_status w; rw_body := rw_body w |}.

Definition WriteHeader (code : Z) (w : ResponseWriter) : ResponseWriter :=
  match rw_status w with
  | Some _ => w
  | None => {| rw_header := rw_header w; rw_status := Some code; rw_body := rw_body w |}
  end.

(** [Write] sends status 200 first when no status was sent. *)
Definition Write (data : string) (w : ResponseWriter) : ResponseWriter :=
  let w := WriteHeader http_StatusOK w in
  {| rw_header := rw_header w; rw_status := rw_status w; rw_body := rw_body w +:+ data |}.

Definition newline : string := String (Ascii.ascii_of_nat 10) "".

(** [http.Error]. *)
Definition http_Error (msg : string) (code : Z) (w : ResponseWriter) : ResponseWriter :=
  Write (msg +:+ newline)
    (WriteHeader code
       (Header_Set "X-Content-Type-Options" "nosniff"
          (Header_Set "Content-Type" "text/plain; charset=utf-8" w))).

(** ** k8s.io/api/admission/v1 *)

Record UserInfo := {
  u_Username : string;
  u_UID : string;
  u_Groups : list string;
  u_Extra : option (gmap string (list string));
}.

(** [AdmissionRequest]; [Object.Raw], [OldObject.Raw] and [Options.Raw] are byte
    strings. *)
Record AdmissionRequest := {
  ar_UID : string;
  ar_Kind : GroupVersionKind;
  ar_Resource : GroupVersionResource;
  ar_SubResource : string;
  ar_RequestKind : option GroupVersionKind;
  ar_RequestResource : option GroupVersionResource;
  ar_RequestSubResource : string;
  ar_Name : string;
  ar_Namespace : string;
  ar_Operation : string;
  ar_UserInfo : UserInfo;
  ar_Object : string;
  ar_OldObject : string;
  ar_DryRun : option bool;
  ar_Options : string;
}.

(** [AdmissionResponse]; the code never sets patches, annotations or warnings. *)
Record AdmissionResponse := {
  resp_UID : string;
  resp_Allowed : bool;
  resp_Result : option Status;
  resp_Patch : string;
  resp_PatchType : option string;
  resp_AuditAnnotations : gmap string string;
  resp_Warnings : list string;
}.

Record AdmissionReview := {
  rev_Kind : string;
  rev_APIVersion : string;
  rev_Request : option AdmissionRequest;
  rev_Response : option AdmissionResponse;
}.

(** ** The handler's dependencies *)

Record Codec (Obj : Type) := {
  (** [json.Unmarshal] into an [AdmissionReview]; the error's text. *)
  unmarshalReview : string → result string AdmissionReview;
  (** [json.Marshal] of an [AdmissionReview]. *)
  marshalReview : AdmissionReview → result error string;
  (** [codecs.UniversalDeserializer().Decode(raw, nil, nil)]. *)
  Decode : string → option Obj * option GroupVersionKind * option error;
  (** [json.Unmarshal] into an [unstructured.Unstructured]. *)
  unmarshalUnstructured : string → result error Obj;
}.
Arguments unmarshalReview {Obj}.
Arguments marshalReview {Obj}.
Arguments Decode {Obj}.
Arguments unmarshalUnstructured {Obj}.

(** ** reviewResponse *)

Definition reviewResponse (uid : string) (err : option error) : AdmissionReview :=
  let allowed := bool_decide (err = None) in
  let status := match err with Some _ => http_StatusForbidden | None => http_StatusAccepted end in
  let reason := StatusReasonUnknown in
  let message := match err with Some e => Error e | None => "valid" end in
  let '(reason, message, status) :=
    match err ≫= AsStatusError with
    | Some st => (st_Reason st, st_Message st, st_Code st)
    | None => (reason, message, status)
    end in
  {| rev_Kind := "AdmissionReview";
     rev_APIVersion := "admission.k8s.io/v1";
     rev_Request := None;
     rev_Response := Some
       {| resp_UID := uid;
          resp_Allowed := allowed;
          resp_Result := Some {| st_Status := ""; st_Message := message; st_Reason := reason;
                                 st_Details := None; st_Code := status |};
          resp_Patch := ""; resp_PatchType := None; resp_AuditAnnotations := ∅; resp_Warnings := [] |} |}.

(** ** The handlers *)

Definition handleHealth (w : ResponseWriter) : ResponseWriter := Write "OK" w.

(** [convertExtra]: a nil map stays nil, every value list is copied. *)
Definition convertExtra (input : option (gmap string (list string)))
    : option (gmap string (list string)) :=
  match input with
  | None => None
  | Some m => Some ((λ v : list string, (λ s, s) <$> v) <$> m)
  end.

Section Handlers.
Context {Obj W : Type} (codec : Codec Obj) (validator : ValidationInterface Obj W).

Definition parseRequest (r : Request) : result string AdmissionReview :=
  let content_type := Header_Get (req_Header r) "Content-Type" in
  if bool_decide (content_type ≠ "application/json")
  then Err ("Content-Type: " +:+ Quote content_type +:+ " should be " +:+ Quote "application/json")
  else if bool_decide (req_Body r = "") then Err "admission request body is empty"
  else match unmarshalReview codec (req_Body r) with
       | Err e => Err ("could not parse admission review request: " +:+ e)
       | Ok a =>
           match rev_Request a with
           | None => Err "admission review can't be used: Request field is nil"
           | Some _ => Ok a
           end
       end.

(** The message of the GVK check; a nil GVK prints as [<nil>]. *)
Definition unexpectedGVK (gvk : option GroupVersionKind) (kind : GroupVersionKind) : error :=
  ErrorString ("unexpected GVK " +:+ match gvk with Some k => gvk_String k | None => "<nil>" end
               +:+ ". Expected " +:+ gvk_String kind).

(** The block the handler runs for [OldObject.Raw] and again for [Object.Raw]:
    the object to admit, if any, or the error and status of the failure. *)
Definition decodeRaw (kind : GroupVersionKind) (raw : string)
    : result (error * Z) (option Obj) :=
  if bool_decide (raw = "") then Ok None
  else
    let '(obj, gvk, err) := Decode codec raw in
    if bool_decide (gvk ≠ Some kind)
    then Err (unexpectedGVK gvk kind, http_StatusBadRequest)
    else match err with
         | Some e =>
             if IsNotRegisteredError e then
               match unmarshalUnstructured codec raw with
               | Err e' => Err (e', http_StatusInternalServerError)
               | Ok u => Ok (Some u)
               end
             else Err (e, http_StatusBadRequest)
         | None => Ok obj
         end.

(** The attributes of a request whose objects are decoded. *)
Definition requestAttributes (q : AdmissionRequest) (object oldObject : option Obj)
    : Attributes Obj :=
  NewAttributesRecord object oldObject (ar_Kind q) (ar_Namespace q) (ar_Name q)
    {| gvr_Group := gvr_Group (ar_Resource q); gvr_Version := gvr_Version (ar_Resource q);
       gvr_Resource := gvr_Resource (ar_Resource q) |}
    (ar_SubResource q) (ar_Operation q) None false
    {| ui_Name := u_Username (ar_UserInfo q); ui_UID := u_UID (ar_UserInfo q);
       ui_Groups := u_Groups (ar_UserInfo q); ui_Extra := convertExtra (u_Extra (ar_UserInfo q)) |}.

(** The [if wh.validator.Handles(...)] block: the verdict, or an early
    failure with its HTTP status. *)
Definition decide_review (q : AdmissionRequest) (w : W) : result (error * Z) (option error) * W :=
  if Handles validator (ar_Operation q) then
    match decodeRaw (ar_Kind q) (ar_OldObject q) with
    | Err f => (Err f, w)
    | Ok oldObject =>
        match decodeRaw (ar_Kind q) (ar_Object q) with
        | Err f => (Err f, w)
        | Ok object =>
            let '(err, w') := Validate validator (requestAttributes q object oldObject) w in
            (Ok err, w')
        end
    end
  else (Ok None, w).

Definition failure (err : error) (status : Z) (rw : ResponseWriter) : ResponseWriter :=
  http_Error (Error err) status rw.

Definition handleWebhookValidate (r : Request) (rw : ResponseWriter) (w : W)
    : ResponseWriter * W :=
  match parseRequest r with
  | Err msg => (http_Error msg http_StatusBadRequest rw, w)
  | Ok parsed =>
      match rev_Request parsed with
      | None => (rw, w) (* parseRequest never returns such a review *)
      | Some q =>
          match decide_review q w with
          | (Err (err, status), w') => (failure err status rw, w')
          | (Ok err, w') =>
              match marshalReview codec (reviewResponse (ar_UID q) err) with
              | Err e => (failure e http_StatusInternalServerError rw, w')
              | Ok out => (Write out (Header_Set "Content-Type" "application/json" rw), w')
              end
          end
      end
  end.

(** The routes [launchServer] registers, for an already cleaned path. *)
Definition serveMux (r : Request) (rw : ResponseWriter) (w : W) : ResponseWriter * W :=
  if bool_decide (req_Path r = "/health") then (handleHealth rw, w)
  else if bool_decide (req_Path r = "/validate") then handleWebhookValidate r rw w
  else (http_Error "404 page not found" http_StatusNotFound rw, w).

(** *** Lemmas *)

Lemma parseRequest_Ok r a :
  parseRequest r = Ok a ↔
  Header_Get (req_Header r) "Content-Type" = "application/json" ∧ req_Body r ≠ "" ∧
  unmarshalReview codec (req_Body r) = Ok a ∧ is_Some (rev_Request a).
Proof.
  unfold parseRequest. rewrite <- not_eq_None_Some. split.
  - repeat case_bool_decide; try done.
    destruct (unmarshalReview codec (req_Body r)) as [b|] eqn:Hu; [|done].
    destruct (rev_Request b) eqn:Hb; [|done]. intros [= <-]. rw Hb. repeat split; try done.
  - intros (Hc & Hb & Hu & Hr). rw bool_decide_eq_false_2; [by intros []|].
    rw bool_decide_eq_false_2 // Hu. by destruct (rev_Request a).
Qed.

Lemma decodeRaw_Ok kind raw o :
  decodeRaw kind raw = Ok o →
  (raw = "" ∧ o = None) ∨
  (raw ≠ "" ∧ ∃ obj err, Decode codec raw = (obj, Some kind, err) ∧
     ((err = None ∧ o = obj) ∨
      (∃ e u, err = Some e ∧ IsNotRegisteredError e = true ∧
              unmarshalUnstructured codec raw = Ok u ∧ o = Some u))).
Proof.
  unfold decodeRaw. case_bool_decide as Hraw; [intros [= <-]; auto|].
  destruct (Decode codec raw) as [[obj gvk] err].
  case_bool_decide as Hk; [done|]. subst gvk. intros Ho.
  right. split; [done|]. exists obj, err. split; [done|].
  destruct err as [e|]; [|left; by simplify_eq].
  right. exists e. destruct (IsNotRegisteredError e) eqn:He; [|done].
  destruct (unmarshalUnstructured codec raw) as [u|]; simplify_eq. eauto.
Qed.

Lemma decodeRaw_Err_status kind raw e status :
  decodeRaw kind raw = Err (e, status) →
  status = http_StatusBadRequest ∨ status = http_StatusInternalServerError.
Proof. unfold decodeRaw. intros. break; auto. Qed.
End Handlers.

#[export] Hint Resolve decodeRaw_Err_status : cel.

(** ** Properties *)

Section Properties.
Context {Obj W : Type} (codec : Codec Obj) (validator : ValidationInterface Obj W).
Implicit Types (r : Request) (q : AdmissionRequest) (w : W).

(** A plain-text error response with the given status. *)
Definition is_error_response (rw : ResponseWriter) (code : Z) : Prop :=
  rw_status rw = Some code ∧
  rw_header rw !! "Content-Type" = Some "text/plain; charset=utf-8".

Lemma http_Error_response msg code : is_error_response (http_Error msg code newResponse) code.
Proof. by split. Qed.

(** A request that is not JSON by its content type, has no body, does not
    parse or carries no [Request] gets a plain-text 400, and the validator is
    never consulted: the world is untouched. *)
Theorem malformed_request_is_400 r w :
  Header_Get (req_Header r) "Content-Type" ≠ "application/json" ∨
  req_Body r = "" ∨
  (∀ a, unmarshalReview codec (req_Body r) = Ok a → rev_Request a = None) →
  ∃ rw, handleWebhookValidate codec validator r newResponse w = (rw, w) ∧ is_error_response rw http_StatusBadRequest.
Proof.
  intros Hbad. unfold handleWebhookValidate.
  destruct (parseRequest codec r) as [a|msg] eqn:Hp; [exfalso|eauto using http_Error_response].
  apply parseRequest_Ok in Hp as (? & ? & Hu & [q Hq]).
  destruct Hbad as [|[|Hn]]; [done..|]. by rw (Hn _ Hu) in Hq.
Qed.

(** The answer depends on the validator's verdicts only. *)
Lemma serveMux_verdict (validator' : ValidationInterface Obj W) r rw w w' :
  (∀ op, Handles validator' op = Handles validator op) →
  (∀ a, (Validate validator' a w').1 = (Validate validator a w).1) →
  (serveMux codec validator' r rw w').1 = (serveMux codec validator r rw w).1.
Proof.
  intros Hh Hv. unfold serveMux, handleWebhookValidate, decide_review.
  repeat (case_bool_decide; [done|]). case_bool_decide; [|done].
  destruct (parseRequest codec r) as [a|]; [|done]. destruct (rev_Request a) as [q|]; [|done].
  rw Hh. destruct (Handles validator _); [|by destruct (marshalReview _ _)].
  destruct (decodeRaw _ _ (ar_OldObject q)) as [oldObject|[]]; [|done].
  destruct (decodeRaw _ _ (ar_Object q)) as [object|[]]; [|done].
  specialize (Hv (requestAttributes q object oldObject)).
  destruct (Validate validator' _ _), (Validate validator _ _). simpl in Hv. subst.
  by destruct (marshalReview _ _).
Qed.

(** The answer to a request the validator handles and whose objects decode. *)
Lemma handled_verdict r w a q object oldObject err w' out :
  parseRequest codec r = Ok a → rev_Request a = Some q →
  Handles validator (ar_Operation q) = true →
  decodeRaw codec (ar_Kind q) (ar_OldObject q) = Ok oldObject →
  decodeRaw codec (ar_Kind q) (ar_Object q) = Ok object →
  Validate validator
    (NewAttributesRecord object oldObject (ar_Kind q) (ar_Namespace q) (ar_Name q)
       (ar_Resource q) (ar_SubResource q) (ar_Operation q) None false
       {| ui_Name := u_Username (ar_UserInfo q); ui_UID := u_UID (ar_UserInfo q);
          ui_Groups := u_Groups (ar_UserInfo q); ui_Extra := u_Extra (ar_UserInfo q) |}) w
    = (err, w') →
  marshalReview codec (reviewResponse (ar_UID q) err) = Ok out →
  handleWebhookValidate codec validator r newResponse w =
    ({| rw_header := {["Content-Type" := "application/json"]};
        rw_status := Some http_StatusOK; rw_body := out |}, w').
Proof.
  intros Hp Hq Hh Hold Hobj Hv Hm. unfold handleWebhookValidate, decide_review.
  rw Hp Hq Hh Hold Hobj. unfold requestAttributes.
  replace (convertExtra (u_Extra (ar_UserInfo q))) with (u_Extra (ar_UserInfo q)).
  2:{ destruct (u_Extra (ar_UserInfo q)) as [m|]; simpl; [|done]. f_equal.
      rw -{1}(map_fmap_id m). apply map_fmap_ext. intros ? l _. by rw list_fmap_id. }
  destruct (ar_Resource q) as [g v res]. simpl in *. by rw Hv Hm.
Qed.

(** C22: for a well-formed request of an operation the validator handles, whose
    objects decode, the validator is asked exactly once, with the request's
    identity, kind, resource, user and decoded objects (dry run is always
    false and the options nil), and its verdict is answered as JSON with
    status 200, whether it admits or rejects. *)
Theorem verdict_is_reported r w a q object oldObject err w' out :
  parseRequest codec r = Ok a → rev_Request a = Some q →
  Handles validator (ar_Operation q) = true →
  decodeRaw codec (ar_Kind q) (ar_OldObject q) = Ok oldObject →
  decodeRaw codec (ar_Kind q) (ar_Object q) = Ok object →
  Validate validator
    (NewAttributesRecord object oldObject (ar_Kind q) (ar_Namespace q) (ar_Name q)
       (ar_Resource q) (ar_SubResource q) (ar_Operation q) None false
       {| ui_Name := u_Username (ar_UserInfo q); ui_UID := u_UID (ar_UserInfo q);
          ui_Groups := u_Groups (ar_UserInfo q); ui_Extra := u_Extra (ar_UserInfo q) |}) w
    = (err, w') →
  marshalReview codec (reviewResponse (ar_UID q) err) = Ok out →
  handleWebhookValidate codec validator r newResponse w =
    ({| rw_header := {["Content-Type" := "application/json"]};
        rw_status := Some http_StatusOK; rw_body := out |}, w').
Proof. apply handled_verdict. Qed.

(** An operation the validator does not handle is allowed without decoding
    the objects and without consulting the validator, even when the objects
    would not decode. *)
Theorem unhandled_operation_is_allowed r w a q out :
  parseRequest codec r = Ok a → rev_Request a = Some q →
  Handles validator (ar_Operation q) = false →
  marshalReview codec (reviewResponse (ar_UID q) None) = Ok out →
  ∃ rw, handleWebhookValidate codec validator r newResponse w = (rw, w) ∧
        rw_status rw = Some http_StatusOK ∧ rw_body rw = out.
Proof.
  intros Hp Hq Hh Hm. unfold handleWebhookValidate, decide_review. rw Hp Hq Hh Hm. by eexists.
Qed.

(** C30: an object whose bytes decode to no kind or to another kind than the
    request names never reaches the validator: the answer is an error status
    (400 unless the other object already failed with 500) and the world is
    untouched. *)
Theorem wrong_kind_never_validated r w a q raw obj gvk derr :
  parseRequest codec r = Ok a → rev_Request a = Some q →
  Handles validator (ar_Operation q) = true →
  raw ∈ [ar_Object q; ar_OldObject q] → raw ≠ "" →
  Decode codec raw = (obj, gvk, derr) → gvk ≠ Some (ar_Kind q) →
  ∃ rw code, handleWebhookValidate codec validator r newResponse w = (rw, w) ∧ is_error_response rw code ∧
             code ∈ [http_StatusBadRequest; http_StatusInternalServerError].
Proof.
  intros Hp Hq Hh Hin Hraw Hdec Hk.
  assert (decodeRaw codec (ar_Kind q) raw = Err (unexpectedGVK gvk (ar_Kind q), http_StatusBadRequest))
    as Hbad.
  { unfold decodeRaw. rw bool_decide_eq_false_2 // Hdec. by rw bool_decide_eq_true_2. }
  unfold handleWebhookValidate, decide_review. rw Hp Hq Hh.
  destruct (decodeRaw codec (ar_Kind q) (ar_OldObject q)) as [old|[e code]] eqn:Hold.
  - destruct (decodeRaw codec (ar_Kind q) (ar_Object q)) as [new|[e code]] eqn:Hnew.
    + exfalso. apply elem_of_cons in Hin as [Hr|Hr%list_elem_of_singleton]; congruence.
    + eexists _, code. split; [done|]. split; [by apply http_Error_response|].
      apply decodeRaw_Err_status in Hnew as [-> | ->]; set_solver.
  - eexists _, code. split; [done|]. split; [by apply http_Error_response|].
    apply decodeRaw_Err_status in Hold as [-> | ->]; set_solver.
Qed.

(** Every request is answered: the handler sends exactly one of the
    statuses 200, 400 and 500, and 200 only with a JSON body. *)
Theorem response_always_sent r w :
  ∃ rw w' code, handleWebhookValidate codec validator r newResponse w = (rw, w') ∧ rw_status rw = Some code ∧
    ((code = http_StatusOK ∧ rw_header rw !! "Content-Type" = Some "application/json") ∨
     (code ∈ [http_StatusBadRequest; http_StatusInternalServerError] ∧ is_error_response rw code)).
Proof.
  unfold handleWebhookValidate.
  destruct (parseRequest codec r) as [a|msg] eqn:Hp.
  2:{ eexists _, _, _. split; [done|]. split; [done|]. right.
      split; [set_solver|apply http_Error_response]. }
  apply parseRequest_Ok in Hp as (_ & _ & _ & [q ->]).
  assert (∀ f w', decide_review codec validator q w = (Err f, w') →
            f.2 = http_StatusBadRequest ∨ f.2 = http_StatusInternalServerError) as Hadm.
  { intros [e code] w'. unfold decide_review. intros. break; eauto with cel. }
  destruct (decide_review codec validator q w) as [[err|[e code]] w'].
  - destruct (marshalReview _ _) as [out|e].
    + eexists _, _, _. split; [done|]. split; [done|]. by left.
    + eexists _, _, _. split; [done|]. split; [done|]. right.
      split; [set_solver|apply http_Error_response].
  - eexists _, _, code. split; [done|]. split; [done|]. right.
    split; [|apply http_Error_response].
    destruct (Hadm _ _ eq_refl) as [H|H]; simpl in H; rw H; set_solver.
Qed.
End Properties.

(** The review mirrors the verdict: it echoes the request's UID, allows
      exactly when there is no error (202, "valid"), and otherwise reports the
      message, reason and code of the first API status in the error's wrapping
      tree, or the error's own text with 403 when there is none. *)
Theorem reviewResponse_mirrors_verdict uid err :
  ∃ resp st, rev_Response (reviewResponse uid err) = Some resp ∧
    resp_UID resp = uid ∧ resp_Result resp = Some st ∧
    (resp_Allowed resp = true ↔ err = None) ∧
    match err with
    | None => st_Code st = http_StatusAccepted ∧ st_Message st = "valid"
    | Some e =>
        match AsStatusError e with
        | Some est => st_Code st = st_Code est ∧ st_Message st = st_Message est ∧
                      st_Reason st = st_Reason est
        | None => st_Code st = http_StatusForbidden ∧ st_Message st = Error e ∧
                  st_Reason st = StatusReasonUnknown
        end
    end.
Proof.
  unfold reviewResponse. destruct err as [e|]; simpl.
  - destruct (AsStatusError e); eexists _, _; by repeat split.
  - eexists _, _. by repeat split.
Qed.

(** ** Witnesses

    A codec that knows two bodies and one object encoding, and a validator for
    CREATE that counts its calls and rejects objects called "bad". *)
Module WebhookWitness.
Definition pod_kind := {| gvk_Group := ""; gvk_Version := "v1"; gvk_Kind := "Pod" |}.

Definition demo_request (op object : string) : AdmissionRequest :=
  {| ar_UID := "42"; ar_Kind := pod_kind;
     ar_Resource := {| gvr_Group := ""; gvr_Version := "v1"; gvr_Resource := "pods" |};
     ar_SubResource := ""; ar_RequestKind := None; ar_RequestResource := None;
     ar_RequestSubResource := ""; ar_Name := "p"; ar_Namespace := "ns"; ar_Operation := op;
     ar_UserInfo := {| u_Username := "alice"; u_UID := ""; u_Groups := []; u_Extra := None |};
     ar_Object := object; ar_OldObject := ""; ar_DryRun := Some true; ar_Options := "" |}.

Definition demo_review (op object : string) : AdmissionReview :=
  {| rev_Kind := "AdmissionReview"; rev_APIVersion := "admission.k8s.io/v1";
     rev_Request := Some (demo_request op object); rev_Response := None |}.

Definition demo_codec : Codec string :=
  {| unmarshalReview := λ body,
       if bool_decide (body = "create") then Ok (demo_review "CREATE" "bad")
       else if bool_decide (body = "delete") then Ok (demo_review "DELETE" "bad")
       else if bool_decide (body = "other") then Ok (demo_review "CREATE" "a Service")
       else Err "unexpected end of JSON input";
     marshalReview := λ rev,
       Ok match rev_Response rev with
          | Some r => if resp_Allowed r then "allowed" else "denied"
          | None => ""
          end;
     Decode := λ raw,
       if bool_decide (raw = "bad") then (Some raw, Some pod_kind, None)
       else (Some raw, Some {| gvk_Group := ""; gvk_Version := "v1"; gvk_Kind := "Service" |}, None);
     unmarshalUnstructured := λ raw, Ok raw |}.

Definition demo_validator : ValidationInterface string nat :=
  {| Handles := λ op, bool_decide (op = "CREATE");
     Validate := λ a n,
       (if bool_decide (a_object a = Some "bad") then Some (ErrorString "bad pod") else None, S n) |}.

Definition demo_http (body : string) : Request :=
  {| req_Path := "/validate"; req_Header := {["Content-Type" := ["application/json"]]};
     req_Body := body |}.

Lemma malformed_request_is_400_witness :
  ∃ rw, handleWebhookValidate demo_codec demo_validator (demo_http "{") newResponse 0 = (rw, 0) ∧
        is_error_response rw http_StatusBadRequest.
Proof.
  apply malformed_request_is_400. right; right. intros a Ha. vm_compute in Ha. discriminate.
Defined.

Lemma verdict_is_reported_witness :
  handleWebhookValidate demo_codec demo_validator (demo_http "create") newResponse 0 =
    ({| rw_header := {["Content-Type" := "application/json"]};
        rw_status := Some http_StatusOK; rw_body := "denied" |}, 1).
Proof.
  apply (verdict_is_reported demo_codec demo_validator (demo_http "create") 0
           (demo_review "CREATE" "bad") (demo_request "CREATE" "bad") (Some "bad") None
           (Some (ErrorString "bad pod")) 1 "denied"); vm_compute; reflexivity.
Defined.

Lemma unhandled_operation_is_allowed_witness :
  ∃ rw, handleWebhookValidate demo_codec demo_validator (demo_http "delete") newResponse 0 = (rw, 0) ∧
        rw_status rw = Some http_StatusOK ∧ rw_body rw = "allowed".
Proof.
  apply (unhandled_operation_is_allowed demo_codec demo_validator (demo_http "delete") 0
           (demo_review "DELETE" "bad") (demo_request "DELETE" "bad")); vm_compute; reflexivity.
Defined.

Lemma wrong_kind_never_validated_witness :
  ∃ rw code, handleWebhookValidate demo_codec demo_validator (demo_http "other") newResponse 0
               = (rw, 0) ∧ is_error_response rw code ∧
             code ∈ [http_StatusBadRequest; http_StatusInternalServerError].
Proof.
  apply (wrong_kind_never_validated demo_codec demo_validator (demo_http "other") 0
           (demo_review "CREATE" "a Service") (demo_request "CREATE" "a Service") "a Service"
           (Some "a Service") (Some {| gvk_Group := ""; gvk_Version := "v1"; gvk_Kind := "Service" |})
           None); try (vm_compute; reflexivity); try discriminate.
  apply list_elem_of_In; simpl; auto.
Defined.
End WebhookWitness.
