(* ===== verification/ServerRun.v ===== *)
(** * The webhook's server loop

    [webhook.Run] and [notifyChanges] of [pkg/webhook/server.go] as a machine
    whose events are the steps of its goroutines: the main [select] loop with its
    deferred calls, one goroutine per launched HTTP server, one per graceful
    shutdown, and the certificate watcher.  The wait group, the unbuffered error
    channel of each server and the watcher's channel are part of the state.

    The machine is parametric in [getInfos], the watcher's snapshot function:
    [getInfos] below is the one the code has. *)
From S2P Require Import Prelude GoStrings.

(** [ctx.Err()]. *)
Inductive ctx_error := Canceled | DeadlineExceeded.
(** What [ListenAndServeTLS] returns: it never returns nil. *)
Inductive serve_error := ErrServerClosed | ListenError (msg : string).
(** The values [serverError] takes. *)
Inductive run_error := CtxErr (e : ctx_error) | ServeErr (e : serve_error).

#[export] Instance ctx_error_eq_dec : EqDecision ctx_error.
Proof. solve_decision. Defined.
#[export] Instance serve_error_eq_dec : EqDecision serve_error.
Proof. solve_decision. Defined.
#[export] Instance run_error_eq_dec : EqDecision run_error.
Proof. solve_decision. Defined.

(** ** notifyChanges: the snapshots *)

(** The [info] struct: modification time, or the text of the [os.Stat] error. *)
Record info := { modTime : Z; err : string }.
#[export] Instance info_eq_dec : EqDecision info.
Proof. solve_decision. Defined.
Abbreviation infos := (gmap string info).

(** [os.Stat]: the modification time or an error text. *)
Abbreviation stat := (string → result string Z).

Definition info_of (r : result string Z) : info :=
  match r with
  | Ok t => {| modTime := t; err := "" |}
  | Err e => {| modTime := 0; err := e |}
  end.

(** The closure [getInfos]: it writes the captured map [infos] and returns the
    fresh map [res]; the new value of the captured map comes second. *)
Definition getInfos (paths : list string) (st : stat) (captured : infos) : infos * infos :=
  let res : infos := ∅ in
  (res, foldl (λ m v, <[v := info_of (st v)]> m) captured paths).

(** ** State *)

(** The goroutine of one launched server: in [ListenAndServeTLS]; blocked in
    [errChan <- err]; past the send; past [close(errChan)]; past [wg.Done()]. *)
Inductive server_pc := Serving | Sending (e : serve_error) | Received | ChanClosed | Exited.

Record server := { srv_pc : server_pc; srv_closed : bool }.

(** The goroutine of one graceful shutdown: before, inside and after [q.Shutdown]. *)
Inductive shutdown_pc := ShutPending (i : nat) | ShutRunning | ShutEnded.

(** The main goroutine: in the [select]; about to run its deferred
    [cancelWatches] and [wg.Done]; in the deferred [wg.Wait]; returned. *)
Inductive main_pc :=
| Selecting
| Deferred (serverError : option run_error)
| Waiting (serverError : option run_error)
| Returned (serverError : option run_error).

#[export] Instance server_pc_eq_dec : EqDecision server_pc.
Proof. solve_decision. Defined.
#[export] Instance server_eq_dec : EqDecision server.
Proof. solve_decision. Defined.
#[export] Instance shutdown_pc_eq_dec : EqDecision shutdown_pc.
Proof. solve_decision. Defined.
#[export] Instance main_pc_eq_dec : EqDecision main_pc.
Proof. solve_decision. Defined.

Record state := {
  s_ctx : option ctx_error;       (* the caller's context *)
  s_watch_cancelled : bool;       (* cancelWatches() was called *)
  s_servers : list server;        (* every server launched so far *)
  s_current : nat;                (* index of currentServer *)
  s_shutdowns : list shutdown_pc;
  s_keyWatch_closed : bool;       (* the watcher closed its channel and returned *)
  s_captured : infos;             (* the map getInfos writes *)
  s_lastInfos : infos;
  s_main : main_pc;
  s_wg : Z;
}.

Definition set_main (m : main_pc) (s : state) : state :=
  {| s_ctx := s_ctx s; s_watch_cancelled := s_watch_cancelled s; s_servers := s_servers s;
     s_current := s_current s; s_shutdowns := s_shutdowns s;
     s_keyWatch_closed := s_keyWatch_closed s; s_captured := s_captured s;
     s_lastInfos := s_lastInfos s; s_main := m; s_wg := s_wg s |}.
Definition set_servers (l : list server) (s : state) : state :=
  {| s_ctx := s_ctx s; s_watch_cancelled := s_watch_cancelled s; s_servers := l;
     s_current := s_current s; s_shutdowns := s_shutdowns s;
     s_keyWatch_closed := s_keyWatch_closed s; s_captured := s_captured s;
     s_lastInfos := s_lastInfos s; s_main := s_main s; s_wg := s_wg s |}.
Definition set_shutdowns (l : list shutdown_pc) (s : state) : state :=
  {| s_ctx := s_ctx s; s_watch_cancelled := s_watch_cancelled s; s_servers := s_servers s;
     s_current := s_current s; s_shutdowns := l;
     s_keyWatch_closed := s_keyWatch_closed s; s_captured := s_captured s;
     s_lastInfos := s_lastInfos s; s_main := s_main s; s_wg := s_wg s |}.
Definition add_wg (d : Z) (s : state) : state :=
  {| s_ctx := s_ctx s; s_watch_cancelled := s_watch_cancelled s; s_servers := s_servers s;
     s_current := s_current s; s_shutdowns := s_shutdowns s;
     s_keyWatch_closed := s_keyWatch_closed s; s_captured := s_captured s;
     s_lastInfos := s_lastInfos s; s_main := s_main s; s_wg := s_wg s + d |}.
Definition set_infos (captured last : infos) (s : state) : state :=
  {| s_ctx := s_ctx s; s_watch_cancelled := s_watch_cancelled s; s_servers := s_servers s;
     s_current := s_current s; s_shutdowns := s_shutdowns s;
     s_keyWatch_closed := s_keyWatch_closed s; s_captured := captured;
     s_lastInfos := last; s_main := s_main s; s_wg := s_wg s |}.

Definition set_pc (i : nat) (pc : server_pc) : list server → list server :=
  alter (λ srv, {| srv_pc := pc; srv_closed := srv_closed srv |}) i.
Definition close_server (i : nat) : list server → list server :=
  alter (λ srv, {| srv_pc := srv_pc srv; srv_closed := true |}) i.

(** [watchCtx.Err()]: the derived context ends with its parent or with
    [cancelWatches]. *)
Definition watchCtx_Err (s : state) : option ctx_error :=
  match s_ctx s with
  | Some e => Some e
  | None => if s_watch_cancelled s then Some Canceled else None
  end.

(** ** Events *)

Inductive event :=
| CtxCancel (e : ctx_error)             (* the caller's context ends *)
| ServeReturns (i : nat) (e : serve_error)
| ServerCloseChan (i : nat)
| ServerDone (i : nat)
| WatchTick (st : stat) (ready : bool)  (* ready: main receives from keyWatch *)
| WatchStop
| ShutdownStart (j : nat)
| ShutdownEnd (j : nat)
| MainCtxDone
| MainServerError
| MainServerChanClosed
| MainKeyWatchClosed
| MainDefers
| MainWaitDone.

(** [launchServer]: a new goroutine under the wait group. *)
Definition launchServer (s : state) : state :=
  add_wg 1 (set_servers (s_servers s ++ [{| srv_pc := Serving; srv_closed := false |}]) s).

(** The [<-keyWatch] case: shut the current server down in the background and
    launch another one. *)
Definition restart (s : state) : state :=
  let s1 := add_wg 1 (set_shutdowns (s_shutdowns s ++ [ShutPending (s_current s)]) s) in
  let s2 := launchServer s1 in
  {| s_ctx := s_ctx s2; s_watch_cancelled := s_watch_cancelled s2; s_servers := s_servers s2;
     s_current := length (s_servers s1); s_shutdowns := s_shutdowns s2;
     s_keyWatch_closed := s_keyWatch_closed s2; s_captured := s_captured s2;
     s_lastInfos := s_lastInfos s2; s_main := s_main s2; s_wg := s_wg s2 |}.

Section Run.
(** The watcher's snapshot function on the watched paths. *)
Context (snapshot : stat → infos → infos * infos).

(** The two-second tick of the watcher; [ready]: the main loop is at its
    [select], so the non-blocking send succeeds. *)
Definition watch_tick (st : stat) (ready : bool) (s : state) : option state :=
  let '(newInfos, captured) := snapshot st (s_captured s) in
  if bool_decide (s_lastInfos s = newInfos)
  then Some (set_infos captured (s_lastInfos s) s)
  else
    let s := set_infos captured newInfos s in
    if ready then
      match s_main s with Selecting => Some (restart s) | _ => None end
    else Some s.

Definition step (ev : event) (s : state) : option state :=
  match ev with
  | CtxCancel e =>
      match s_ctx s with
      | None => Some {| s_ctx := Some e; s_watch_cancelled := s_watch_cancelled s;
           s_servers := s_servers s; s_current := s_current s; s_shutdowns := s_shutdowns s;
           s_keyWatch_closed := s_keyWatch_closed s; s_captured := s_captured s;
           s_lastInfos := s_lastInfos s; s_main := s_main s; s_wg := s_wg s |}
      | Some _ => None
      end
  | ServeReturns i e =>
      srv ← s_servers s !! i;
      match srv_pc srv with
      | Serving =>
          if bool_decide (e = ErrServerClosed) && negb (srv_closed srv) then None
          else Some (set_servers (set_pc i (Sending e) (s_servers s)) s)
      | _ => None
      end
  | ServerCloseChan i =>
      srv ← s_servers s !! i;
      match srv_pc srv with
      | Received => Some (set_servers (set_pc i ChanClosed (s_servers s)) s)
      | _ => None
      end
  | ServerDone i =>
      srv ← s_servers s !! i;
      match srv_pc srv with
      | ChanClosed => Some (add_wg (-1) (set_servers (set_pc i Exited (s_servers s)) s))
      | _ => None
      end
  | WatchTick st ready =>
      if s_keyWatch_closed s then None else watch_tick st ready s
  | WatchStop =>
      match watchCtx_Err s with
      | Some _ =>
          if s_keyWatch_closed s then None
          else Some {| s_ctx := s_ctx s; s_watch_cancelled := s_watch_cancelled s;
                 s_servers := s_servers s; s_current := s_current s;
                 s_shutdowns := s_shutdowns s; s_keyWatch_closed := true;
                 s_captured := s_captured s; s_lastInfos := s_lastInfos s;
                 s_main := s_main s; s_wg := s_wg s |}
      | None => None
      end
  | ShutdownStart j =>
      match s_shutdowns s !! j with
      | Some (ShutPending i) =>
          Some (set_shutdowns (<[j := ShutRunning]> (s_shutdowns s))
                  (set_servers (close_server i (s_servers s)) s))
      | _ => None
      end
  | ShutdownEnd j =>
      match s_shutdowns s !! j with
      | Some ShutRunning =>
          Some (add_wg (-1) (set_shutdowns (<[j := ShutEnded]> (s_shutdowns s)) s))
      | _ => None
      end
  | MainCtxDone =>
      match s_main s, s_ctx s with
      | Selecting, Some e =>
          Some (set_main (Deferred (Some (CtxErr e)))
                  (set_servers (close_server (s_current s) (s_servers s)) s))
      | _, _ => None
      end
  | MainServerError =>
      srv ← s_servers s !! s_current s;
      match s_main s, srv_pc srv with
      | Selecting, Sending e =>
          Some (set_main (Deferred (Some (ServeErr e)))
                  (set_servers (set_pc (s_current s) Received (s_servers s)) s))
      | _, _ => None
      end
  | MainServerChanClosed =>
      srv ← s_servers s !! s_current s;
      match s_main s, srv_pc srv with
      | Selecting, ChanClosed | Selecting, Exited => Some (set_main (Deferred None) s)
      | _, _ => None
      end
  | MainKeyWatchClosed =>
      match s_main s with
      | Selecting =>
          if s_keyWatch_closed s
          then Some (set_main (Deferred (CtxErr <$> watchCtx_Err s)) s)
          else None
      | _ => None
      end
  | MainDefers =>
      match s_main s with
      | Deferred e =>
          Some (add_wg (-1)
            {| s_ctx := s_ctx s; s_watch_cancelled := true; s_servers := s_servers s;
               s_current := s_current s; s_shutdowns := s_shutdowns s;
               s_keyWatch_closed := s_keyWatch_closed s; s_captured := s_captured s;
               s_lastInfos := s_lastInfos s; s_main := Waiting e; s_wg := s_wg s |})
      | _ => None
      end
  | MainWaitDone =>
      match s_main s with
      | Waiting e => if (s_wg s =? 0)%Z then Some (set_main (Returned e) s) else None
      | _ => None
      end
  end.

(** [Run] at the top of its loop: [wg.Add(1)], the watcher's first snapshot,
    and the first [launchServer]. *)
Definition init (ctx : option ctx_error) (st : stat) : state :=
  let '(lastInfos, captured) := snapshot st ∅ in
  launchServer
    {| s_ctx := ctx; s_watch_cancelled := false; s_servers := []; s_current := 0;
       s_shutdowns := []; s_keyWatch_closed := false; s_captured := captured;
       s_lastInfos := lastInfos; s_main := Selecting; s_wg := 1 |}.
End Run.

(** ** Invariants *)

Definition server_weight (srv : server) : Z :=
  (if bool_decide (srv_pc srv = Exited) then 0 else 1)%Z.
Definition shutdown_weight (sd : shutdown_pc) : Z :=
  (match sd with ShutEnded => 0 | _ => 1 end)%Z.
Definition main_weight (m : main_pc) : Z :=
  (match m with Selecting | Deferred _ => 1 | _ => 0 end)%Z.

(** The error [Run] is going to return, once it has left its loop. *)
Definition exit_error (m : main_pc) : option (option run_error) :=
  match m with Selecting => None | Deferred e | Waiting e | Returned e => Some e end.

(** The goroutine of this server got its error through to the main loop. *)
Definition sent (pc : server_pc) : bool :=
  match pc with Received | ChanClosed | Exited => true | _ => false end.

(** The wait group counts the goroutines that still owe a [Done]; the current
    server is the last one launched; the only server whose error is ever
    received is the current one, and then [Run] is returning that error. *)
Record inv (s : state) : Prop := {
  inv_wg : s_wg s = (main_weight (s_main s) + sumZ server_weight (s_servers s)
                     + sumZ shutdown_weight (s_shutdowns s))%Z;
  inv_current : S (s_current s) = length (s_servers s);
  inv_sent : ∀ i srv, s_servers s !! i = Some srv → sent (srv_pc srv) = true →
    i = s_current s ∧ ∃ e, exit_error (s_main s) = Some (Some (ServeErr e));
  inv_returned : ∀ e, s_main s = Returned e → s_wg s = 0%Z;
}.

Lemma server_weight_nonneg srv : (0 ≤ server_weight srv)%Z.
Proof. unfold server_weight. case_bool_decide; lia. Qed.
Lemma shutdown_weight_nonneg sd : (0 ≤ shutdown_weight sd)%Z.
Proof. destruct sd; simpl; lia. Qed.
#[export] Hint Resolve server_weight_nonneg shutdown_weight_nonneg : cel.

Lemma lookup_set_pc l i j pc srv :
  set_pc i pc l !! j = Some srv →
  (i = j ∧ srv_pc srv = pc) ∨ l !! j = Some srv.
Proof.
  unfold set_pc. destruct (decide (i = j)) as [->|Hne].
  - rw list_lookup_alter_eq. intros (srv' & -> & ?)%fmap_Some. simplify_eq/=. auto.
  - rw list_lookup_alter_ne //. auto.
Qed.

Lemma lookup_close_server l i j srv :
  close_server i l !! j = Some srv →
  ∃ srv', l !! j = Some srv' ∧ srv_pc srv = srv_pc srv'.
Proof.
  unfold close_server. destruct (decide (i = j)) as [->|Hne].
  - rw list_lookup_alter_eq. intros (srv' & -> & ?)%fmap_Some. simplify_eq/=. eauto.
  - rw list_lookup_alter_ne //. eauto.
Qed.

Lemma sumZ_set_pc l i pc srv :
  l !! i = Some srv →
  sumZ server_weight (set_pc i pc l) =
  (sumZ server_weight l - server_weight srv + (if decide (pc = Exited) then 0 else 1))%Z.
Proof.
  intros Hi. unfold set_pc. rw (sumZ_alter _ _ _ _ srv) //.
  unfold server_weight at 3. simpl. repeat case_decide; case_bool_decide; done.
Qed.

Lemma sumZ_close_server l i :
  sumZ server_weight (close_server i l) = sumZ server_weight l.
Proof.
  destruct (l !! i) as [srv|] eqn:Hi.
  - unfold close_server. rw (sumZ_alter _ _ _ _ srv) //. unfold server_weight at 3. simpl.
    fold (server_weight srv). lia.
  - unfold close_server. f_equal. revert i Hi.
    induction l as [|x l IH]; intros [|i] Hi; simplify_eq/=; [done..|]. f_equal. auto.
Qed.

Lemma length_set_pc i pc l : length (set_pc i pc l) = length l.
Proof. apply length_alter. Qed.
Lemma length_close_server i l : length (close_server i l) = length l.
Proof. apply length_alter. Qed.

(** A server past its send would contradict the main loop still selecting. *)
Lemma inv_selecting s i srv :
  inv s → s_main s = Selecting → s_servers s !! i = Some srv → sent (srv_pc srv) = false.
Proof.
  intros Hinv Hm Hi. destruct (sent (srv_pc srv)) eqn:Hs; [|done].
  destruct (inv_sent s Hinv i srv Hi Hs) as (_ & e & He). by rw Hm in He.
Qed.

(** *** Each event preserves the invariant *)

(** [inv] reads only these five fields. *)
Lemma inv_frame s s' :
  s_wg s' = s_wg s → s_main s' = s_main s → s_servers s' = s_servers s →
  s_current s' = s_current s → s_shutdowns s' = s_shutdowns s → inv s → inv s'.
Proof. intros E1 E2 E3 E4 E5 []. by constructor; rw ?E1 ?E2 ?E3 ?E4 ?E5. Qed.

(** A server goroutine moves on without ending and without its send going through. *)
Lemma inv_set_pc s i srv pc d :
  inv s → s_servers s !! i = Some srv → sent pc = sent (srv_pc srv) →
  srv_pc srv ≠ Exited → d = (if decide (pc = Exited) then -1 else 0)%Z →
  inv (add_wg d (set_servers (set_pc i pc (s_servers s)) s)).
Proof.
  intros Hinv Hi Hsent Hne ->.
  assert (server_weight srv = 1)%Z as Hw
    by (unfold server_weight; by rw bool_decide_eq_false_2).
  assert (0 < s_wg s)%Z as Hpos.
  { rw (inv_wg s Hinv). pose proof (sumZ_nonneg shutdown_weight (s_shutdowns s) shutdown_weight_nonneg).
    assert (0 ≤ main_weight (s_main s))%Z by (by destruct (s_main s)).
    apply list_elem_of_split_length in Hi as (l1 & l2 & -> & _). rw sumZ_app /= Hw.
    pose proof (sumZ_nonneg server_weight l1 server_weight_nonneg).
    pose proof (sumZ_nonneg server_weight l2 server_weight_nonneg). lia. }
  constructor; simpl.
  - rw (inv_wg s Hinv) (sumZ_set_pc _ _ _ srv) //. case_decide; lia.
  - rw length_set_pc. apply (inv_current s Hinv).
  - intros j srv' [[<- Hpc]|Hj]%lookup_set_pc Hs; [|by eapply inv_sent].
    apply (inv_sent s Hinv i srv Hi). by rw -Hsent -Hpc.
  - intros e He. pose proof (inv_returned s Hinv e He). lia.
Qed.

Lemma inv_restart s : inv s → s_main s = Selecting → inv (restart s).
Proof.
  intros Hinv Hm. constructor; simpl.
  - rw (inv_wg s Hinv) Hm !sumZ_app /=.
    change (server_weight {| srv_pc := Serving; srv_closed := false |}) with 1%Z. lia.
  - by rw length_app /= Nat.add_1_r.
  - intros i srv [Hi|[_ Hi]]%lookup_app_Some Hs.
    + by rw (inv_selecting s i srv Hinv Hm Hi) in Hs.
    + apply list_lookup_singleton_Some in Hi as [_ <-]. done.
  - intros e He. by rw Hm in He.
Qed.

(** The main loop leaves with an error: its own unit of the wait group stays. *)
Lemma inv_leave s e l :
  inv s → s_main s = Selecting → length l = length (s_servers s) →
  sumZ server_weight l = sumZ server_weight (s_servers s) →
  (∀ i srv, l !! i = Some srv → sent (srv_pc srv) = true →
     i = s_current s ∧ ∃ e', e = Some (ServeErr e')) →
  inv (set_main (Deferred e) (set_servers l s)).
Proof.
  intros Hinv Hm Hlen Hsum Hsent. constructor; simpl.
  - by rw (inv_wg s Hinv) Hm Hsum.
  - rw Hlen. apply (inv_current s Hinv).
  - intros i srv Hi Hs. destruct (Hsent i srv Hi Hs) as (-> & e' & ->). eauto.
  - done.
Qed.

Lemma inv_shutdown s j sd sd' d l :
  inv s → s_shutdowns s !! j = Some sd → shutdown_weight sd = 1%Z →
  shutdown_weight sd' = (1 + d)%Z → (d ≤ 0)%Z →
  (∃ i, l = close_server i (s_servers s)) ∨ l = s_servers s →
  inv (add_wg d (set_shutdowns (<[j := sd']> (s_shutdowns s)) (set_servers l s))).
Proof.
  intros Hinv Hj Hsd Hsd' Hd Hl.
  assert (sumZ server_weight l = sumZ server_weight (s_servers s)) as Hsum
    by (destruct Hl as [[i ->]| ->]; [apply sumZ_close_server|done]).
  assert (length l = length (s_servers s)) as Hlen
    by (destruct Hl as [[i ->]| ->]; [apply length_close_server|done]).
  constructor; simpl.
  - rw (inv_wg s Hinv) Hsum (sumZ_insert _ _ _ sd) //. lia.
  - rw Hlen. apply (inv_current s Hinv).
  - intros k srv Hk Hs. destruct Hl as [[i ->]| ->]; [|by eapply inv_sent].
    apply lookup_close_server in Hk as (srv' & Hk & Hpc). rw Hpc in Hs. by eapply inv_sent.
  - intros e He. pose proof (inv_returned s Hinv e He) as H0.
    rw (inv_wg s Hinv) He /= in H0.
    apply list_elem_of_split_length in Hj as (l1 & l2 & Hl' & _).
    rw Hl' sumZ_app /= Hsd in H0.
    pose proof (sumZ_nonneg server_weight (s_servers s) server_weight_nonneg).
    pose proof (sumZ_nonneg shutdown_weight l1 shutdown_weight_nonneg).
    pose proof (sumZ_nonneg shutdown_weight l2 shutdown_weight_nonneg). lia.
Qed.

Section RunFacts.
Context (snapshot : stat → infos → infos * infos).
Implicit Types (s : state) (ev : event).


Lemma inv_init ctx st : inv (init snapshot ctx st).
Proof.
  unfold init. destruct (snapshot st ∅) as [last captured].
  constructor; simpl; [done|done| |done].
  intros i srv [_ <-]%list_lookup_singleton_Some. done.
Qed.

Lemma inv_server_event s s' i srv pc d :
  inv s → s_servers s !! i = Some srv → sent pc = sent (srv_pc srv) →
  srv_pc srv ≠ Exited → d = (if decide (pc = Exited) then -1 else 0)%Z →
  s' = add_wg d (set_servers (set_pc i pc (s_servers s)) s) → inv s'.
Proof. intros. subst s'. by eapply inv_set_pc. Qed.

Lemma add_wg_0 s : add_wg 0 s = s.
Proof. destruct s. unfold add_wg; simpl. by rw Z.add_0_r. Qed.

Lemma inv_watch_tick s s' st ready : inv s → watch_tick snapshot st ready s = Some s' → inv s'.
Proof.
  intros Hinv. unfold watch_tick. destruct (snapshot st (s_captured s)) as [new captured].
  assert (∀ last, inv (set_infos captured last s)) as Hinfos
    by (intros last; by eapply (inv_frame s)).
  case_bool_decide; [intros [= <-]; apply Hinfos|].
  destruct ready; [|intros [= <-]; apply Hinfos].
  destruct (s_main (set_infos _ _ s)) eqn:Hm; [|done..]. intros [= <-].
  by apply inv_restart.
Qed.

Lemma inv_main_event s s' ev :
  inv s → step snapshot ev s = Some s' →
  ev ∈ [MainCtxDone; MainServerError; MainServerChanClosed; MainKeyWatchClosed] → inv s'.
Proof.
  intros Hinv Hs Hev. apply list_elem_of_In in Hev. simpl in Hev.
  destruct Hev as [<-|[<-|[<-|[<-|[]]]]]; simpl in Hs.
  - destruct (s_main s) eqn:Hm; [|done..]. destruct (s_ctx s); [|done]. simplify_eq.
    apply inv_leave; auto using length_close_server, sumZ_close_server.
    intros i srv (srv' & Hi & Hpc)%lookup_close_server Hsent.
    by rw Hpc (inv_selecting s i srv' Hinv Hm Hi) in Hsent.
  - destruct (s_servers s !! s_current s) as [srv|] eqn:Hi; [|done]. simpl in Hs.
    destruct (s_main s) eqn:Hm; [|done..]. destruct (srv_pc srv) as [|e| | |] eqn:Hpc; [done| |done..].
    simplify_eq. apply inv_leave; auto using length_set_pc.
    + rw (sumZ_set_pc _ _ _ srv) //. unfold server_weight at 2. rw Hpc /=. lia.
    + intros j srv' [[<- _]|Hj]%lookup_set_pc Hsent; [eauto|].
      by rw (inv_selecting s j srv' Hinv Hm Hj) in Hsent.
  - destruct (s_servers s !! s_current s) as [srv|] eqn:Hi; [|done]. simpl in Hs.
    destruct (s_main s) eqn:Hm; [|done..].
    pose proof (inv_selecting s _ srv Hinv Hm Hi) as Hsent.
    by destruct (srv_pc srv).
  - destruct (s_main s) eqn:Hm; [|done..]. destruct (s_keyWatch_closed s); [|done]. simplify_eq.
    apply (inv_frame (set_main (Deferred (CtxErr <$> watchCtx_Err s)) (set_servers (s_servers s) s)));
      [done..|].
    apply inv_leave; auto. intros i srv Hi Hsent.
    by rw (inv_selecting s i srv Hinv Hm Hi) in Hsent.
Qed.

Lemma inv_defers s s' :
  inv s → step snapshot MainDefers s = Some s' ∨ step snapshot MainWaitDone s = Some s' → inv s'.
Proof.
  intros Hinv [Hs|Hs]; simpl in Hs.
  - destruct (s_main s) as [|e| |] eqn:Hm; [done| |done..]. simplify_eq. constructor; simpl.
    + rw (inv_wg s Hinv) Hm /=. lia.
    + apply (inv_current s Hinv).
    + intros i srv Hi Hsent. pose proof (inv_sent s Hinv i srv Hi Hsent) as H. by rw Hm in H.
    + done.
  - destruct (s_main s) as [| |e|] eqn:Hm; [done..| |done].
    destruct (s_wg s =? 0)%Z eqn:Hw; [|done]. simplify_eq. constructor; simpl.
    + by rw (inv_wg s Hinv) Hm.
    + apply (inv_current s Hinv).
    + intros i srv Hi Hsent. pose proof (inv_sent s Hinv i srv Hi Hsent) as H. by rw Hm in H.
    + intros _ _. by apply Z.eqb_eq.
Qed.

Lemma inv_step ev s s' : inv s → step snapshot ev s = Some s' → inv s'.
Proof.
  intros Hinv Hs. destruct ev; try (by apply (inv_main_event _ _ _ Hinv Hs); rw !elem_of_cons; auto 6);
    try (by eapply inv_defers; eauto); simpl in Hs.
  - destruct (s_ctx s); simplify_eq. by eapply (inv_frame s).
  - destruct (s_servers s !! i) as [srv|] eqn:Hi; [|done]. simpl in Hs.
    destruct (srv_pc srv) eqn:Hpc; [|done..].
    destruct (_ && _); simplify_eq. rw -(add_wg_0 (set_servers _ _)).
    by eapply (inv_server_event s _ i srv (Sending e) 0); rw ?Hpc.
  - destruct (s_servers s !! i) as [srv|] eqn:Hi; [|done]. simpl in Hs.
    destruct (srv_pc srv) eqn:Hpc; [done|done| |done..]. simplify_eq.
    rw -(add_wg_0 (set_servers _ _)).
    by eapply (inv_server_event s _ i srv ChanClosed 0); rw ?Hpc.
  - destruct (s_servers s !! i) as [srv|] eqn:Hi; [|done]. simpl in Hs.
    destruct (srv_pc srv) eqn:Hpc; [done..| |done]. simplify_eq.
    by eapply (inv_server_event s _ i srv Exited (-1)); rw ?Hpc.
  - destruct (s_keyWatch_closed s); [done|]. by eapply inv_watch_tick.
  - destruct (watchCtx_Err s); [|done]. destruct (s_keyWatch_closed s); simplify_eq.
    by eapply (inv_frame s).
  - destruct (s_shutdowns s !! j) as [[i| |]|] eqn:Hj; [|done..]. simplify_eq.
    rw -(add_wg_0 (set_shutdowns _ _)). eapply (inv_shutdown s j (ShutPending i)); eauto; done.
  - destruct (s_shutdowns s !! j) as [[i| |]|] eqn:Hj; [done| |done..]. simplify_eq.
    apply (inv_frame (add_wg (-1) (set_shutdowns (<[j:=ShutEnded]> (s_shutdowns s))
                                     (set_servers (s_servers s) s)))); [done..|].
    eapply (inv_shutdown s j ShutRunning); eauto; done.
Qed.

Lemma reachable_inv ctx st s : reachable (step snapshot) (init snapshot ctx st) s → inv s.
Proof. intros Hr. eapply (reachable_ind (step snapshot) inv); eauto using inv_step, inv_init. Qed.

(** [Run]'s exit error never changes once the loop is left. *)
Lemma exit_error_stable s s' e :
  exit_error (s_main s) = Some e → reachable (step snapshot) s s' →
  exit_error (s_main s') = Some e.
Proof.
  apply (reachable_ind (step snapshot) (λ s, exit_error (s_main s) = Some e)).
  clear s s'. intros ev s s' He Hs. destruct ev; simpl in Hs.
  all: try unfold watch_tick in Hs.
  all: destruct (s_main s) eqn:Hm; simpl in He; simplify_eq.
  all: step_cases; rw ?Hm; simpl; congruence.
Qed.

Lemma returned_all_exited ctx st s e :
  reachable (step snapshot) (init snapshot ctx st) s → s_main s = Returned e →
  ∀ srv, srv ∈ s_servers s → srv_pc srv = Exited.
Proof.
  intros Hr%reachable_inv Hm srv Hin.
  pose proof (inv_returned s Hr e Hm) as Hwg. rw (inv_wg s Hr) Hm /= in Hwg.
  pose proof (sumZ_nonneg _ (s_servers s) server_weight_nonneg).
  pose proof (sumZ_nonneg _ (s_shutdowns s) shutdown_weight_nonneg).
  assert (server_weight srv = 0%Z) as Hw.
  { eapply sumZ_zero; [apply server_weight_nonneg| |done]. lia. }
  unfold server_weight in Hw. by case_bool_decide.
Qed.

Lemma returned_single_server ctx st s r :
  reachable (step snapshot) (init snapshot ctx st) s → s_main s = Returned r →
  length (s_servers s) = 1 ∧ ∃ e, r = Some (ServeErr e).
Proof.
  intros Hr Hm. pose proof (reachable_inv _ _ _ Hr) as Hinv.
  pose proof (inv_current s Hinv) as Hcur.
  assert (∀ i srv, s_servers s !! i = Some srv →
            i = s_current s ∧ ∃ e, r = Some (ServeErr e)) as Hall.
  { intros i srv Hi.
    assert (srv_pc srv = Exited) as Hpc
      by (eapply returned_all_exited; [done..|by eapply list_elem_of_lookup_2]).
    destruct (inv_sent s Hinv i srv Hi) as (-> & e & He); [by rw Hpc|].
    rw Hm /= in He. simplify_eq. eauto. }
  destruct (s_servers s) as [|srv l] eqn:Hl; [done|].
  destruct (Hall 0 srv eq_refl) as (H0 & He). split; [|done].
  simpl in *. lia.
Qed.

Lemma servers_grow s s' :
  reachable (step snapshot) s s' → length (s_servers s) ≤ length (s_servers s').
Proof.
  apply (reachable_ind (step snapshot) (λ s', length (s_servers s) ≤ length (s_servers s')));
    [|done].
  clear s'. intros ev s1 s2 Hle Hs. destruct ev; simpl in Hs; try unfold watch_tick in Hs.
  all: step_cases; rw ?length_set_pc ?length_close_server ?length_app //; lia.
Qed.

(** ** Properties *)

(** [Run] returns in one case only: a single server was ever launched and
    the value returned is the error its [ListenAndServeTLS] returned. *)
Theorem Run_returns_only_listen_error ctx st s r :
  reachable (step snapshot) (init snapshot ctx st) s → s_main s = Returned r →
  (∃ e, r = Some (ServeErr e)) ∧ length (s_servers s) = 1 ∧
  ∀ srv, srv ∈ s_servers s → srv_pc srv = Exited.
Proof.
  intros Hr Hm. destruct (returned_single_server _ _ _ _ Hr Hm) as [Hl He].
  repeat split; [done..|]. by eapply returned_all_exited.
Qed.

(** C20: once the loop has been left because the caller's context ended, [Run]
    never returns: closing the server makes its goroutine block forever on the
    unbuffered error channel nobody reads any more, and the deferred [wg.Wait]
    waits for that goroutine. *)
Theorem cancelled_Run_never_returns ctx st s e s' r :
  reachable (step snapshot) (init snapshot ctx st) s →
  exit_error (s_main s) = Some (Some (CtxErr e)) →
  reachable (step snapshot) s s' → s_main s' ≠ Returned r.
Proof.
  intros Hr He Hs' Hm. pose proof (exit_error_stable _ _ _ He Hs') as Hstay.
  destruct (returned_single_server ctx st s' r) as [_ [e' ->]]; [|done|].
  - by eapply reachable_trans.
  - by rw Hm in Hstay.
Qed.

(** Were the watcher ever to trigger a restart, [Run] could no longer
    return at all, not even when the new server fails: the goroutine of the
    replaced server stays blocked on its own error channel. *)
Theorem restarted_Run_never_returns ctx st s s' r :
  reachable (step snapshot) (init snapshot ctx st) s → 2 ≤ length (s_servers s) →
  reachable (step snapshot) s s' → s_main s' ≠ Returned r.
Proof.
  intros Hr Hl Hs' Hm. pose proof (servers_grow _ _ Hs').
  destruct (returned_single_server ctx st s' r) as [Hone _]; [|done|lia].
  by eapply reachable_trans.
Qed.

(** The wait group is balanced: in every reachable state its counter is
    the number of goroutines that still owe a [Done], so it is never negative
    and no [Done] panics. *)
Theorem wait_group_balanced ctx st s :
  reachable (step snapshot) (init snapshot ctx st) s →
  (0 ≤ s_wg s)%Z ∧
  s_wg s = (main_weight (s_main s) + sumZ server_weight (s_servers s)
            + sumZ shutdown_weight (s_shutdowns s))%Z.
Proof.
  intros Hr%reachable_inv. rw (inv_wg s Hr). split; [|done].
  pose proof (sumZ_nonneg _ (s_servers s) server_weight_nonneg).
  pose proof (sumZ_nonneg _ (s_shutdowns s) shutdown_weight_nonneg).
  destruct (s_main s); simpl; lia.
Qed.
End RunFacts.

Section CodedRun.
(** The machine with the snapshot function of the code. *)
Context (paths : list string).

Local Abbreviation snapshot := (getInfos paths).

Lemma coded_no_restart ctx st s :
  reachable (step snapshot) (init snapshot ctx st) s →
  length (s_servers s) = 1 ∧ s_shutdowns s = [] ∧ s_lastInfos s = ∅.
Proof.
  apply (reachable_ind (step snapshot)
           (λ s, length (s_servers s) = 1 ∧ s_shutdowns s = [] ∧ s_lastInfos s = ∅));
    [|done].
  clear s. intros ev s s' (Hl & Hsh & Hlast) Hs. destruct ev; simpl in Hs.
  5:{ unfold watch_tick in Hs. simpl in Hs. rw Hlast bool_decide_eq_true_2 // in Hs.
      step_cases. done. }
  all: rw ?Hsh in Hs; step_cases; rw ?length_set_pc ?length_close_server; done.
Qed.

(** C31: the certificate watcher never fires: [getInfos] fills the captured map
    and returns a fresh empty one, so two snapshots always compare equal and,
    whatever happens to the files, the server is never restarted. *)
Theorem certificates_never_reloaded ctx st s :
  reachable (step snapshot) (init snapshot ctx st) s →
  length (s_servers s) = 1 ∧ s_shutdowns s = [] ∧ s_lastInfos s = ∅.
Proof. apply coded_no_restart. Qed.

Lemma failed_server_returns ctx st s srv e :
  reachable (step snapshot) (init snapshot ctx st) s → s_main s = Selecting →
  s_servers s !! s_current s = Some srv → srv_pc srv = Sending e →
  ∃ s', run (step snapshot)
          [MainServerError; ServerCloseChan 0; ServerDone 0; MainDefers; MainWaitDone] s = Some s' ∧
        s_main s' = Returned (Some (ServeErr e)).
Proof.
  intros Hr Hm Hi Hpc. destruct (coded_no_restart _ _ _ Hr) as (Hl & Hsh & _).
  pose proof (reachable_inv _ _ _ _ Hr) as Hinv.
  pose proof (inv_current s Hinv) as Hcur. rw Hl in Hcur. simplify_eq.
  destruct (s_servers s) as [|srv' [|? ?]] eqn:Hs; simplify_eq/=.
  assert (s_current s = 0) as Hc0 by lia.
  rw Hc0 /= in Hi. simplify_eq.
  pose proof (inv_wg s Hinv) as Hwg. rw Hm Hs Hsh /= in Hwg.
  assert (server_weight srv = 1%Z) as Hw by (unfold server_weight; by rw Hpc).
  rw Hw in Hwg. simpl in Hwg.
  eexists. split.
  - simpl. rw Hs Hc0 /= Hm Hpc /=. rw Hwg /=. reflexivity.
  - reflexivity.
Qed.

(** When the server fails while the main loop is selecting, [Run] can
    always finish and return that error: the send, the closing of the channel
    and the two [Done]s unblock the deferred [wg.Wait]. *)
Theorem listen_error_is_returned ctx st s srv e :
  reachable (step snapshot) (init snapshot ctx st) s → s_main s = Selecting →
  s_servers s !! s_current s = Some srv → srv_pc srv = Sending e →
  ∃ s', reachable (step snapshot) s s' ∧ s_main s' = Returned (Some (ServeErr e)).
Proof.
  intros Hr Hm Hi Hpc. destruct (failed_server_returns ctx st s srv e Hr Hm Hi Hpc) as (s' & Hs' & ?).
  exists s'. split; [by eexists|done].
Qed.

(** The loop can also be left through the watcher's closed channel, and
    then the HTTP server is not even closed: it keeps serving while [Run]
    waits for it. *)
Theorem watcher_exit_leaves_server_open st :
  ∃ s, reachable (step snapshot) (init snapshot None st) s ∧ s_main s = Waiting (Some (CtxErr Canceled)) ∧
       s_servers s = [{| srv_pc := Serving; srv_closed := false |}].
Proof.
  eexists. split.
  - exists [CtxCancel Canceled; WatchStop; MainKeyWatchClosed; MainDefers]. reflexivity.
  - split; reflexivity.
Qed.
End CodedRun.

(** ** Witnesses *)

Module RunWitness.
Definition no_files : stat := λ _, Err "no such file".
Definition two_files := ["server.pem"; "server-key.pem"].
Definition coded := getInfos two_files.

(** A snapshot function that does return what it read. *)
Definition reading (st : stat) (captured : infos) : infos * infos :=
  let m := foldl (λ m v, <[v := info_of (st v)]> m) ∅ two_files in (m, m).
Definition touched (t : Z) : stat := λ _, Ok t.

Definition run_to (snap : stat → infos → infos * infos) (es : list event) : state :=
  default (init snap None no_files) (run (step snap) es (init snap None no_files)).

Definition failing := [ServeReturns 0 (ListenError "bind: address already in use")].
Definition failed := run_to coded (failing ++
  [MainServerError; ServerCloseChan 0; ServerDone 0; MainDefers; MainWaitDone]).

Lemma Run_returns_only_listen_error_witness :
  s_main failed = Returned (Some (ServeErr (ListenError "bind: address already in use"))) ∧
  length (s_servers failed) = 1.
Proof.
  split; [(vm_compute; reflexivity)|].
  apply (Run_returns_only_listen_error coded None no_files failed
           (Some (ServeErr (ListenError "bind: address already in use")))); [|(vm_compute; reflexivity)].
  exists (failing ++ [MainServerError; ServerCloseChan 0; ServerDone 0; MainDefers; MainWaitDone]).
  (vm_compute; reflexivity).
Defined.

(** SIGTERM: the loop closes the server and waits; the server goroutine gets
    [ErrServerClosed] and blocks. *)
Definition stopping := [CtxCancel Canceled; MainCtxDone].
Definition stuck := [ServeReturns 0 ErrServerClosed; WatchStop; MainDefers].

Lemma cancelled_Run_never_returns_witness :
  s_main (run_to coded (stopping ++ stuck)) ≠ Returned (Some (CtxErr Canceled)).
Proof.
  apply (cancelled_Run_never_returns coded None no_files (run_to coded stopping) Canceled).
  - exists stopping. (vm_compute; reflexivity).
  - (vm_compute; reflexivity).
  - exists stuck. (vm_compute; reflexivity).
Defined.

Definition reload := [WatchTick (touched 5) true; ServeReturns 1 (ListenError "boom")].

Lemma restarted_Run_never_returns_witness :
  s_main (run_to reading (reload ++ [MainServerError; MainDefers])) ≠ Returned (Some (CtxErr Canceled)).
Proof.
  apply (restarted_Run_never_returns reading None no_files (run_to reading reload)).
  - exists reload. (vm_compute; reflexivity).
  - vm_compute. lia.
  - exists [MainServerError; MainDefers]. (vm_compute; reflexivity).
Defined.

Lemma wait_group_balanced_witness : (0 ≤ s_wg (run_to coded stopping))%Z.
Proof.
  apply (wait_group_balanced coded None no_files). exists stopping. (vm_compute; reflexivity).
Defined.

Lemma certificates_never_reloaded_witness :
  length (s_servers (run_to coded [WatchTick (touched 5) true; WatchTick (touched 6) true])) = 1.
Proof.
  apply (certificates_never_reloaded two_files None no_files).
  exists [WatchTick (touched 5) true; WatchTick (touched 6) true]. (vm_compute; reflexivity).
Defined.

Lemma listen_error_is_returned_witness :
  ∃ s', reachable (step coded) (run_to coded failing) s' ∧
    s_main s' = Returned (Some (ServeErr (ListenError "bind: address already in use"))).
Proof.
  apply (listen_error_is_returned two_files None no_files (run_to coded failing)
           {| srv_pc := Sending (ListenError "bind: address already in use"); srv_closed := false |}).
  - exists failing. (vm_compute; reflexivity).
  - (vm_compute; reflexivity).
  - (vm_compute; reflexivity).
  - (vm_compute; reflexivity).
Defined.
End RunWitness.
