(* ===== verification/Process.v ===== *)
(** * The webhook process

    [main] of [cmd/cel-admission-webhook/main.go] around the server loop of
    [ServerRun]: the construction of the clients, then the worker goroutine that
    runs the CEL plugin, the goroutine that runs the webhook server, the context
    they share, the wait group [main] waits on, and the signal that ends the
    process ([Commands] has the flags).  The shared [serverContext] is the context [s_ctx] of the server
    loop. *)
From S2P Require Import Prelude ServerRun.

(** ** Set-up *)

Section Setup.
Context {Config Custom Kube Dynamic Extensions : Type}.

(** [loadClientConfig]: the kubeconfig rules, else the in-cluster configuration. *)
Definition loadClientConfig (kubeConfig inCluster : result string Config) : result string Config :=
  match kubeConfig with
  | Ok config => Ok config
  | Err _ => inCluster
  end.

(** What [main] prints before it gives up. *)
Definition failedTo (what err : string) : string := "Failed to " +:+ what +:+ ": " +:+ err.

Definition orFail {A} (what : string) (r : result string A) : result string A :=
  match r with Ok a => Ok a | Err e => Err (failedTo what e) end.

(** The fallible part of [main], in its order. *)
Definition main_setup (restConfig : result string Config)
    (newCustom : Config → result string Custom) (newKube : Config → result string Kube)
    (newDynamic : Config → result string Dynamic) (newExtensions : Config → result string Extensions) :
    result string (Custom * Kube * Dynamic * Extensions) :=
  config ← orFail "load Client Configuration" restConfig;
  customClient ← orFail "create crd client" (newCustom config);
  kubeClient ← orFail "create kubernetes client" (newKube config);
  dynamicClient ← orFail "create dynamic client" (newDynamic config);
  apiextensionsClient ← orFail "create apiextensions client" (newExtensions config);
  Ok (customClient, kubeClient, dynamicClient, apiextensionsClient).
End Setup.

(** ** State *)

(** A goroutine of [main]: in [Run]; past it, before [serverCancel()]; before
    [waitGroup.Done()]; ended. *)
Inductive goroutine := Running | Returning | Signalling | Ended.

#[export] Instance goroutine_eq_dec : EqDecision goroutine.
Proof. solve_decision. Defined.

Record process := {
  pr_run : state;          (* webhook.Run(serverContext) *)
  pr_worker : goroutine;   (* r.Run(serverContext) of the plugin *)
  pr_server : goroutine;
  pr_exited : bool;        (* main is past waitGroup.Wait() *)
  pr_wg : Z;
}.

Definition with_run (r : state) (p : process) : process :=
  {| pr_run := r; pr_worker := pr_worker p; pr_server := pr_server p;
     pr_exited := pr_exited p; pr_wg := pr_wg p |}.
Definition with_worker (g : goroutine) (d : Z) (p : process) : process :=
  {| pr_run := pr_run p; pr_worker := g; pr_server := pr_server p;
     pr_exited := pr_exited p; pr_wg := pr_wg p + d |}.
Definition with_server (g : goroutine) (d : Z) (p : process) : process :=
  {| pr_run := pr_run p; pr_worker := pr_worker p; pr_server := g;
     pr_exited := pr_exited p; pr_wg := pr_wg p + d |}.

(** ** Events *)

Inductive pevent :=
| Signal                  (* SIGINT or SIGTERM: the root context is cancelled *)
| RunStep (ev : event)    (* the server loop moves *)
| WorkerReturns           (* the evaluator's Run returns: it waits for its stop channel *)
| WorkerCancels
| WorkerDone
| ServerReturns           (* webhook.Run has returned *)
| ServerCancels
| ServerWgDone
| MainExits.              (* waitGroup.Wait() returns *)

Section Process.
Context (snapshot : stat → infos → infos * infos).
Implicit Types (p : process) (s : state).

(** [serverCancel()], and what a signal does to [serverContext], a child of the
    root context; once ended a context stays as it is. *)
Definition serverCancel s : state :=
  match ServerRun.step snapshot (CtxCancel Canceled) s with Some s' => s' | None => s end.

Definition pstep (ev : pevent) p : option process :=
  match ev with
  | Signal => Some (with_run (serverCancel (pr_run p)) p)
  | RunStep (CtxCancel _) => None
  | RunStep ev => s ← ServerRun.step snapshot ev (pr_run p); Some (with_run s p)
  | WorkerReturns =>
      match pr_worker p, s_ctx (pr_run p) with
      | Running, Some _ => Some (with_worker Returning 0 p)
      | _, _ => None
      end
  | WorkerCancels =>
      match pr_worker p with
      | Returning => Some (with_worker Signalling 0 (with_run (serverCancel (pr_run p)) p))
      | _ => None
      end
  | WorkerDone =>
      match pr_worker p with Signalling => Some (with_worker Ended (-1) p) | _ => None end
  | ServerReturns =>
      match pr_server p, s_main (pr_run p) with
      | Running, Returned _ => Some (with_server Returning 0 p)
      | _, _ => None
      end
  | ServerCancels =>
      match pr_server p with
      | Returning => Some (with_server Signalling 0 (with_run (serverCancel (pr_run p)) p))
      | _ => None
      end
  | ServerWgDone =>
      match pr_server p with Signalling => Some (with_server Ended (-1) p) | _ => None end
  | MainExits =>
      if negb (pr_exited p) && (pr_wg p =? 0)%Z
      then Some {| pr_run := pr_run p; pr_worker := pr_worker p; pr_server := pr_server p;
                   pr_exited := true; pr_wg := pr_wg p |}
      else None
  end.

(** [main] at [waitGroup.Wait()]: both goroutines started, the wait group at 2. *)
Definition pinit (st : stat) : process :=
  {| pr_run := ServerRun.init snapshot None st; pr_worker := Running; pr_server := Running;
     pr_exited := false; pr_wg := 2 |}.

(** ** Invariants *)

Definition owes (g : goroutine) : Z := match g with Ended => 0 | _ => 1 end.
Definition past_cancel (g : goroutine) : bool :=
  match g with Signalling | Ended => true | _ => false end.

Record pinv p : Prop := {
  pinv_wg : pr_wg p = (owes (pr_worker p) + owes (pr_server p))%Z;
  pinv_worker : pr_worker p ≠ Running → s_ctx (pr_run p) ≠ None;
  pinv_server : pr_server p ≠ Running → ∃ r, s_main (pr_run p) = Returned r;
  pinv_cancel : past_cancel (pr_server p) = true → s_ctx (pr_run p) ≠ None;
  pinv_exited : pr_exited p = true → pr_worker p = Ended ∧ pr_server p = Ended;
}.

Lemma serverCancel_reachable s : reachable (ServerRun.step snapshot) s (serverCancel s).
Proof.
  unfold serverCancel. destruct (ServerRun.step _ _ s) as [s'|] eqn:Hs; [|apply reachable_refl].
  eapply reachable_step; [apply reachable_refl|done].
Qed.

Lemma serverCancel_ctx s : s_ctx (serverCancel s) ≠ None.
Proof. unfold serverCancel. simpl. by destruct (s_ctx s) eqn:E; rw ?E. Qed.

Lemma serverCancel_main s : s_main (serverCancel s) = s_main s.
Proof. unfold serverCancel. simpl. by destruct (s_ctx s). Qed.

Lemma step_ctx ev s s' :
  ServerRun.step snapshot ev s = Some s' → s_ctx s ≠ None → s_ctx s' ≠ None.
Proof.
  intros Hs Hne. destruct ev; simpl in Hs; try unfold watch_tick in Hs; step_cases; try done; congruence.
Qed.

Lemma step_returned ev s s' r :
  ServerRun.step snapshot ev s = Some s' → s_main s = Returned r → s_main s' = Returned r.
Proof.
  intros Hs Hm. destruct ev; simpl in Hs; try unfold watch_tick in Hs; step_cases; try done; congruence.
Qed.

Lemma pinv_init st : pinv (pinit st).
Proof. by split. Qed.

(** A step that only moves the server loop. *)
Lemma pinv_with_run p s :
  pinv p → (s_ctx (pr_run p) ≠ None → s_ctx s ≠ None) →
  (∀ r, s_main (pr_run p) = Returned r → s_main s = Returned r) → pinv (with_run s p).
Proof.
  intros [Hwg Hw Hs Hc He] Hctx Hret. split; simpl; [done|auto| |auto|done].
  intros Hne. destruct (Hs Hne) as [r Hr]. eauto.
Qed.

Lemma pinv_cancelled p : pinv p → pinv (with_run (serverCancel (pr_run p)) p).
Proof.
  intros Hp. apply pinv_with_run; [done|intros; apply serverCancel_ctx|].
  intros r. by rw serverCancel_main.
Qed.

Lemma owes_live g : g ≠ Ended → owes g = 1%Z.
Proof. by destruct g. Qed.

Lemma pinv_worker_moves p g :
  pinv p → s_ctx (pr_run p) ≠ None → pr_worker p ≠ Ended → pinv (with_worker g (owes g - 1) p).
Proof.
  intros [Hwg Hw Hs Hc He] Hctx Hne. split; simpl; [|done..|].
  - rw Hwg (owes_live _ Hne). lia.
  - intros [? _]%He. done.
Qed.

Lemma pinv_server_moves p g r :
  pinv p → s_main (pr_run p) = Returned r → pr_server p ≠ Ended →
  (past_cancel g = true → s_ctx (pr_run p) ≠ None) → pinv (with_server g (owes g - 1) p).
Proof.
  intros [Hwg Hw Hs Hc He] Hret Hne Hg. split; simpl; [|done|by eauto|done|].
  - rw Hwg (owes_live _ Hne). lia.
  - intros [_ ?]%He. done.
Qed.

Lemma RunStep_inv ev p p' :
  pstep (RunStep ev) p = Some p' →
  ∃ s, ServerRun.step snapshot ev (pr_run p) = Some s ∧ p' = with_run s p.
Proof.
  intros Hs. simpl in Hs.
  destruct ev; [done|..]; apply bind_Some in Hs as (s & Hr & Hs); simplify_eq; eauto.
Qed.

Lemma pinv_step ev p p' : pinv p → pstep ev p = Some p' → pinv p'.
Proof.
  intros Hp Hs. pose proof Hp as [Hwg Hw Hsv Hc He]. destruct ev; simpl in Hs.
  - simplify_eq. by apply pinv_cancelled.
  - apply RunStep_inv in Hs as (s & Hr & ->).
    apply pinv_with_run; [done|by eapply step_ctx|]. intros r. by eapply step_returned.
  - step_cases. apply (pinv_worker_moves p Returning Hp); congruence.
  - step_cases. apply (pinv_worker_moves _ Signalling (pinv_cancelled p Hp)); simpl;
      [apply serverCancel_ctx|congruence].
  - step_cases. apply (pinv_worker_moves p Ended Hp); [apply Hw|]; congruence.
  - step_cases. by eapply (pinv_server_moves p Returning _ Hp); [|congruence|].
  - step_cases. destruct Hsv as [r Hr]; [congruence|].
    eapply (pinv_server_moves _ Signalling r (pinv_cancelled p Hp)); simpl;
      [by rw serverCancel_main|congruence|intros; apply serverCancel_ctx].
  - step_cases. destruct Hsv as [r Hr]; [congruence|].
    apply (pinv_server_moves p Ended r Hp); [done|congruence|intros; by apply Hc].
  - step_cases. apply andb_true_iff in H as [_ Hz%Z.eqb_eq]. split; simpl; [done..|].
    intros _. rw Hwg in Hz. by destruct (pr_worker p), (pr_server p).
Qed.

Lemma reachable_pinv st p : reachable pstep (pinit st) p → pinv p.
Proof. apply (reachable_ind pstep pinv pinv_step), pinv_init. Qed.

(** What the process does to its server loop is a run of the server loop. *)
Lemma pstep_run ev p p' :
  pstep ev p = Some p' → reachable (ServerRun.step snapshot) (pr_run p) (pr_run p').
Proof.
  intros Hs. destruct ev as [|ev| | | | | | |].
  2:{ apply RunStep_inv in Hs as (s & Hr & ->). eapply reachable_step; [apply reachable_refl|done]. }
  all: cbn [pstep] in Hs; repeat case_match; simplify_eq;
    first [apply reachable_refl|apply serverCancel_reachable].
Qed.

Lemma reachable_run p p' :
  reachable pstep p p' → reachable (ServerRun.step snapshot) (pr_run p) (pr_run p').
Proof.
  apply (reachable_ind pstep (λ p', reachable (ServerRun.step snapshot) (pr_run p) (pr_run p')));
    [|apply reachable_refl].
  intros ev p1 p2 Hr Hs. eapply reachable_trans; [done|]. by eapply pstep_run.
Qed.

(** A process whose server loop left through its context does not exit. *)
Lemma left_by_context_stays st p e p' :
  reachable pstep (pinit st) p → exit_error (s_main (pr_run p)) = Some (Some (CtxErr e)) →
  reachable pstep p p' → pr_exited p' = false.
Proof.
  intros Hp He Hp'. destruct (pr_exited p') eqn:Hx; [exfalso|done].
  assert (reachable pstep (pinit st) p') as Hp2 by by eapply reachable_trans.
  destruct (pinv_exited _ (reachable_pinv _ _ Hp2) Hx) as [_ Hend].
  destruct (pinv_server _ (reachable_pinv _ _ Hp2)) as [r Hr]; [by rw Hend|].
  destruct (returned_single_server snapshot None st (pr_run p') r) as [_ [e' ->]];
    [by apply (reachable_run (pinit st))|done|].
  pose proof (exit_error_stable _ _ _ _ He (reachable_run _ _ Hp')) as Hs. by rw Hr in Hs.
Qed.

(** ** Progress *)

Lemma run_lift evs p s :
  (∀ e, CtxCancel e ∉ evs) → run (ServerRun.step snapshot) evs (pr_run p) = Some s →
  run pstep (RunStep <$> evs) p = Some (with_run s p).
Proof.
  revert p. induction evs as [|ev evs IH]; intros p Hno Hrun; simpl in Hrun.
  - simplify_eq. by destruct p.
  - apply bind_Some in Hrun as (s1 & Hs1 & Hrun). cbn [fmap list_fmap run].
    assert (pstep (RunStep ev) p = Some (with_run s1 p)) as ->.
    { cbn [pstep]. destruct ev as [e| | | | | | | | | | | | |]; [|by rw Hs1..].
      exfalso. apply (Hno e). left. }
    apply (IH (with_run s1 p)); [|done]. intros e Hin. apply (Hno e). by right.
Qed.

Lemma worker_finishes p :
  s_ctx (pr_run p) ≠ None →
  ∃ p', reachable pstep p p' ∧ pr_worker p' = Ended ∧ pr_server p' = pr_server p.
Proof.
  intros Hctx. destruct (s_ctx (pr_run p)) as [e|] eqn:Hc; [clear Hctx|done].
  destruct (pr_worker p) eqn:Hw.
  - eexists. split; [exists [WorkerReturns; WorkerCancels; WorkerDone]; cbn; rw Hw Hc; reflexivity|done].
  - eexists. split; [exists [WorkerCancels; WorkerDone]; cbn; rw Hw; reflexivity|done].
  - eexists. split; [exists [WorkerDone]; cbn; rw Hw; reflexivity|done].
  - exists p. split; [apply reachable_refl|done].
Qed.

Lemma server_finishes p r :
  s_main (pr_run p) = Returned r → pr_server p = Running →
  ∃ p', reachable pstep p p' ∧ pr_server p' = Ended ∧ s_ctx (pr_run p') ≠ None.
Proof.
  intros Hm Hs. eexists. split; [exists [ServerReturns; ServerCancels; ServerWgDone]|].
  - cbn. rw Hs Hm. reflexivity.
  - split; [done|]. apply serverCancel_ctx.
Qed.

Lemma ended_process_exits st p :
  reachable pstep (pinit st) p → pr_worker p = Ended → pr_server p = Ended →
  ∃ p', reachable pstep p p' ∧ pr_exited p' = true.
Proof.
  intros Hp Hw Hs. pose proof (pinv_wg _ (reachable_pinv _ _ Hp)) as Hwg. rw Hw Hs /= in Hwg.
  destruct (pr_exited p) eqn:Hx; [exists p; split; [apply reachable_refl|done]|].
  eexists. split; [exists [MainExits]; cbn; rw Hx Hwg; reflexivity|done].
Qed.

(** ** Properties *)

(** The process ends in one way only: its server could not listen or serve.
    When [main] is past [waitGroup.Wait()], [webhook.Run] has returned the error
    of [ListenAndServeTLS], both goroutines have ended and the shared context is
    cancelled. *)
Theorem process_exits_only_on_serve_error st p :
  reachable pstep (pinit st) p → pr_exited p = true →
  (∃ e, s_main (pr_run p) = Returned (Some (ServeErr e))) ∧
  pr_worker p = Ended ∧ pr_server p = Ended ∧ s_ctx (pr_run p) ≠ None.
Proof.
  intros Hp Hx. pose proof (reachable_pinv _ _ Hp) as Hinv.
  destruct (pinv_exited _ Hinv Hx) as [Hw Hs].
  destruct (pinv_server _ Hinv) as [r Hr]; [by rw Hs|].
  destruct (returned_single_server snapshot None st (pr_run p) r) as [_ [e ->]];
    [by apply (reachable_run (pinit st))|done|].
  split_and!; [by eexists|done|done|]. apply (pinv_worker _ Hinv). by rw Hw.
Qed.

(** C21: a signal does not end the process: from every reachable state in which
    the server is being served, the signal and the server loop's reaction to it
    lead to a state from which [main] never gets past [waitGroup.Wait()]. *)
Theorem signal_hangs_process st p :
  reachable pstep (pinit st) p → s_main (pr_run p) = Selecting →
  ∃ p', run pstep [Signal; RunStep MainCtxDone] p = Some p' ∧
        ∀ p'', reachable pstep p' p'' → pr_exited p'' = false.
Proof.
  intros Hp Hm.
  destruct (s_ctx (serverCancel (pr_run p))) as [e|] eqn:Hc; [|by apply serverCancel_ctx in Hc].
  eexists. split.
  - cbn [run pstep mbind option_bind]. cbn. rw serverCancel_main Hm Hc. reflexivity.
  - intros p''. eapply (left_by_context_stays st _ e); [|done].
    eapply (reachable_trans _ _ p); [done|].
    exists [Signal; RunStep MainCtxDone]. cbn. rw serverCancel_main Hm Hc. reflexivity.
Qed.
End Process.

Section CodedProcess.
Context (paths : list string).

(** A server that cannot serve does end the process: while the loop waits, an
    error of [ListenAndServeTLS] leads to [main] getting past [waitGroup.Wait()],
    the worker being told to stop on the way. *)
Theorem serve_error_ends_process st p srv e :
  reachable (pstep (getInfos paths)) (pinit (getInfos paths) st) p →
  s_main (pr_run p) = Selecting →
  s_servers (pr_run p) !! s_current (pr_run p) = Some srv → srv_pc srv = Sending e →
  ∃ p', reachable (pstep (getInfos paths)) p p' ∧ pr_exited p' = true.
Proof.
  intros Hp Hm Hi Hpc.
  assert (pr_server p = Running) as Hs.
  { destruct (decide (pr_server p = Running)) as [|Hne]; [done|].
    destruct (pinv_server _ (reachable_pinv _ _ _ Hp) Hne) as [r Hr]. congruence. }
  destruct (failed_server_returns paths None st (pr_run p) srv e) as (s & Hrun & Hret);
    [by apply (reachable_run _ (pinit (getInfos paths) st))|done..|].
  apply run_lift in Hrun; [|set_solver].
  destruct (server_finishes (getInfos paths) (with_run s p) _ Hret Hs) as (p2 & H2 & Hs2 & Hc2).
  destruct (worker_finishes (getInfos paths) p2 Hc2) as (p3 & H3 & Hw3 & Hs3).
  assert (reachable (pstep (getInfos paths)) p p3) as Hr3.
  { eapply reachable_trans; [by eexists|]. by eapply reachable_trans. }
  destruct (ended_process_exits (getInfos paths) st p3) as (p4 & H4 & Hx);
    [by eapply reachable_trans|done|congruence|].
  exists p4. split; [by eapply reachable_trans|done].
Qed.
End CodedProcess.

(** ** Witnesses *)
Module ProcessWitness.
Definition files : stat := λ _, Ok 1%Z.
Definition snapshot := getInfos ["server.pem"; "server-key.pem"].
Definition after (evs : list pevent) : process :=
  default (pinit snapshot files) (run (pstep snapshot) evs (pinit snapshot files)).

Definition fails : list pevent := [RunStep (ServeReturns 0 (ListenError "address in use"))].
Definition exits : list pevent :=
  fails ++
  (RunStep <$> [MainServerError; ServerCloseChan 0; ServerDone 0; MainDefers; MainWaitDone]) ++
  [ServerReturns; ServerCancels; ServerWgDone; WorkerReturns; WorkerCancels; WorkerDone; MainExits].

Lemma process_exits_only_on_serve_error_witness :
  ∃ e, s_main (pr_run (after exits)) = Returned (Some (ServeErr e)).
Proof.
  apply (process_exits_only_on_serve_error snapshot files (after exits));
    [exists exits; vm_compute; reflexivity|vm_compute; reflexivity].
Defined.

Lemma signal_hangs_process_witness :
  ∃ p', run (pstep snapshot) [Signal; RunStep MainCtxDone] (pinit snapshot files) = Some p' ∧
        ∀ p'', reachable (pstep snapshot) p' p'' → pr_exited p'' = false.
Proof.
  apply (signal_hangs_process snapshot files (pinit snapshot files));
    [exists []; reflexivity|reflexivity].
Defined.

Lemma serve_error_ends_process_witness :
  ∃ p', reachable (pstep snapshot) (after fails) p' ∧ pr_exited p' = true.
Proof.
  apply (serve_error_ends_process _ files (after fails)
           {| srv_pc := Sending (ListenError "address in use"); srv_closed := false |}
           (ListenError "address in use"));
    [exists fails; vm_compute; reflexivity|vm_compute; reflexivity..].
Defined.
End ProcessWitness.
