(* ===== verification/SchemaResolver.v ===== *)
(** * The caching schema resolver

    [pkg/controller/schemaresolver/resolver.go]: the discovery-backed resolver
    with its cache, the informer handlers that purge it, and the interleavings of
    concurrent [ResolveSchema] calls with those handlers.  The discovery client
    is a dependency: its answers arrive as the arguments of the steps that ask. *)
From S2P Require Import Prelude GoStrings ApiMachinery.

Section Resolver.
Context {Schema : Type}.

(** What [ResolveSchema] returns and the cache stores: [( *Schema, error )]. *)
Record cacheEntry := { ce_error : option error; ce_schema : option Schema }.

Abbreviation schemaCache := (gmap GroupVersionKind cacheEntry).

(** [resolveSchemaFromCache]: the comma-ok read under the read lock. *)
Definition resolveSchemaFromCache (cache : schemaCache) (gvk : GroupVersionKind)
    : bool * cacheEntry :=
  match cache !! gvk with
  | Some entry => (true, entry)
  | None => (false, {| ce_error := None; ce_schema := None |})
  end.

(** [purgeCRDFromCache]: delete every key with the group and kind. *)
Definition matchesGroupKind (gk : GroupKind) (k : GroupVersionKind) : bool :=
  bool_decide (gvk_Group k = gk_Group gk) && bool_decide (gvk_Kind k = gk_Kind gk).

Definition purgeCRDFromCache (gk : GroupKind) (cache : schemaCache) : schemaCache :=
  filter (λ '(k, _), matchesGroupKind gk k = false) cache.

(** [ResolveSchema] run without interference; [discover] is the embedded
    [ClientDiscoveryResolver.ResolveSchema]. *)
Definition ResolveSchema (discover : GroupVersionKind → cacheEntry)
    (gvk : GroupVersionKind) (cache : schemaCache) : cacheEntry * schemaCache :=
  match resolveSchemaFromCache cache gvk with
  | (true, entry) => (entry, cache)
  | (false, _) => let res := discover gvk in (res, <[gvk := res]> cache)
  end.

(** A custom resource definition: the group, version and kind of the object
    itself ([GetObjectKind().GroupVersionKind()]) and the group and kind its
    spec defines. *)
Record CustomResourceDefinition := {
  crd_TypeMeta : GroupVersionKind;
  crd_Spec_Group : string;
  crd_Spec_Names_Kind : string;
}.

(** What an informer hands to a handler. *)
Inductive informerObject :=
| CRD (crd : CustomResourceDefinition)
| DeletedFinalStateUnknown (key : string) (obj : option CustomResourceDefinition).

Inductive informerEvent :=
| AddFunc (obj : informerObject)
| UpdateFunc (oldObj newObj : informerObject)
| DeleteFunc (obj : informerObject).

(** [obj.( *v1.CustomResourceDefinition )]: [None] is the panic. *)
Definition asCRD (obj : informerObject) : option CustomResourceDefinition :=
  match obj with CRD crd => Some crd | DeletedFinalStateUnknown _ _ => None end.

Definition purgeFor (crd : CustomResourceDefinition) : schemaCache → schemaCache :=
  purgeCRDFromCache (gvk_GroupKind (crd_TypeMeta crd)).

(** The three handlers of [Controller.Run]. *)
Definition handleEvent (ev : informerEvent) (cache : schemaCache) : option schemaCache :=
  match ev with
  | AddFunc obj => crd ← asCRD obj; Some (purgeFor crd cache)
  | UpdateFunc oldObj newObj =>
      oldCrd ← asCRD oldObj;
      newCrd ← asCRD newObj;
      Some (purgeFor newCrd (purgeFor oldCrd cache))
  | DeleteFunc obj => crd ← asCRD obj; Some (purgeFor crd cache)
  end.

(** ** Interleavings

    A call is two critical sections: the lookup under the read lock, and, after
    a miss, discovery plus store under the write lock.  Other calls and
    handlers run in between. *)
Record state := {
  r_cache : schemaCache;
  r_missed : gmap nat GroupVersionKind;          (* calls between the two sections *)
  r_answers : list (GroupVersionKind * cacheEntry);    (* what calls returned, newest first *)
  r_discovered : list (GroupVersionKind * cacheEntry); (* what discovery answered, newest first *)
}.

Inductive event :=
| Lookup (call : nat) (gvk : GroupVersionKind)
| Fill (call : nat) (answer : cacheEntry)
| Informer (ev : informerEvent).

Definition step (e : event) (s : state) : option state :=
  match e with
  | Lookup call gvk =>
      match r_missed s !! call with
      | Some _ => None
      | None =>
          match resolveSchemaFromCache (r_cache s) gvk with
          | (true, entry) =>
              Some {| r_cache := r_cache s; r_missed := r_missed s;
                      r_answers := (gvk, entry) :: r_answers s; r_discovered := r_discovered s |}
          | (false, _) =>
              Some {| r_cache := r_cache s; r_missed := <[call := gvk]> (r_missed s);
                      r_answers := r_answers s; r_discovered := r_discovered s |}
          end
      end
  | Fill call res =>
      gvk ← r_missed s !! call;
      Some {| r_cache := <[gvk := res]> (r_cache s); r_missed := delete call (r_missed s);
              r_answers := (gvk, res) :: r_answers s;
              r_discovered := (gvk, res) :: r_discovered s |}
  | Informer ev =>
      cache ← handleEvent ev (r_cache s);
      Some {| r_cache := cache; r_missed := r_missed s; r_answers := r_answers s;
              r_discovered := r_discovered s |}
  end.

(** [New]: an empty cache. *)
Definition init : state :=
  {| r_cache := ∅; r_missed := ∅; r_answers := []; r_discovered := [] |}.

(** ** Lemmas *)

Lemma lookup_purge gk cache k :
  purgeCRDFromCache gk cache !! k = if matchesGroupKind gk k then None else cache !! k.
Proof.
  unfold purgeCRDFromCache. destruct (matchesGroupKind gk k) eqn:Hm.
  - apply map_lookup_filter_None. right. intros e _. by rw Hm.
  - destruct (cache !! k) as [e|] eqn:Hk.
    + by apply map_lookup_filter_Some.
    + apply map_lookup_filter_None. by left.
Qed.

Lemma purge_subseteq gk cache : purgeCRDFromCache gk cache ⊆ cache.
Proof. apply map_filter_subseteq. Qed.

Lemma handleEvent_subseteq ev cache cache' :
  handleEvent ev cache = Some cache' → cache' ⊆ cache.
Proof.
  destruct ev; simpl; intros; step_cases; try apply purge_subseteq.
  etrans; apply purge_subseteq.
Qed.

(** The group-kinds an event purges. *)
Definition purged_by (ev : informerEvent) : list GroupKind :=
  let gk obj := match asCRD obj with Some c => [gvk_GroupKind (crd_TypeMeta c)] | None => [] end in
  match ev with
  | AddFunc obj | DeleteFunc obj => gk obj
  | UpdateFunc oldObj newObj => gk oldObj ++ gk newObj
  end.

Lemma matchesGroupKind_true gk k : matchesGroupKind gk k = true ↔ gvk_GroupKind k = gk.
Proof.
  unfold matchesGroupKind, gvk_GroupKind. destruct gk, k; simpl.
  rw andb_true_iff !bool_decide_eq_true. split; [by intros [-> ->]|by intros [= -> ->]].
Qed.

Lemma handleEvent_keeps ev cache cache' k :
  handleEvent ev cache = Some cache' → gvk_GroupKind k ∉ purged_by ev →
  cache' !! k = cache !! k.
Proof.
  assert (∀ crd c, gvk_GroupKind k ≠ gvk_GroupKind (crd_TypeMeta crd) →
                   purgeFor crd c !! k = c !! k) as Hkeep.
  { intros crd c Hne. unfold purgeFor. rw lookup_purge.
    destruct (matchesGroupKind _ k) eqn:Hm; [|done]. by apply matchesGroupKind_true in Hm. }
  destruct ev as [[crd|]|[crd1|] [crd2|]|[crd|]]; simpl; intros Hs Hn; simplify_eq/=;
    rw ?Hkeep //; intros Heq; apply Hn; rw Heq; apply list_elem_of_In; simpl; auto.
Qed.
End Resolver.

Arguments cacheEntry : clear implicits.
Arguments state : clear implicits.
Arguments event : clear implicits.

(** ** Properties *)

Section ResolverFacts.
Context {Schema : Type}.
Implicit Types (cache : gmap GroupVersionKind (cacheEntry Schema)) (s : state Schema).


(** A purge removes exactly the entries of the group and kind, in every
    version, and leaves the others as they are. *)
Theorem purge_exact gk cache k :
  purgeCRDFromCache gk cache !! k =
  if decide (gvk_Group k = gk_Group gk ∧ gvk_Kind k = gk_Kind gk) then None else cache !! k.
Proof.
  rw lookup_purge. case_decide as Hd.
  - destruct Hd as [Hg Hk]. unfold matchesGroupKind. by rw !bool_decide_eq_true_2.
  - destruct (matchesGroupKind gk k) eqn:Hm; [|done].
    apply matchesGroupKind_true in Hm as <-. by destruct Hd.
Qed.

(** A resolution of a cached kind answers from the cache without asking
    discovery; one of an uncached kind answers what discovery answers and
    caches it, errors included, so that resolving again gives the same answer
    whatever discovery would say by then. *)
Theorem ResolveSchema_caches (d1 d2 : GroupVersionKind → cacheEntry Schema) gvk cache :
  let '(r1, cache1) := ResolveSchema d1 gvk cache in
  r1 = default (d1 gvk) (cache !! gvk) ∧
  cache1 !! gvk = Some r1 ∧ (∀ k, k ≠ gvk → cache1 !! k = cache !! k) ∧
  ResolveSchema d2 gvk cache1 = (r1, cache1).
Proof.
  unfold ResolveSchema, resolveSchemaFromCache. destruct (cache !! gvk) as [e|] eqn:Hk; simpl.
  - by rw Hk.
  - rw lookup_insert_eq. repeat split. intros k Hne. by rw lookup_insert_ne.
Qed.

(** Everything cached or answered once came from discovery for that very kind. *)
Definition sound s : Prop :=
  (∀ k e, r_cache s !! k = Some e → (k, e) ∈ r_discovered s) ∧
  (∀ a, a ∈ r_answers s → a ∈ r_discovered s).

Lemma sound_step e s s' : sound s → step e s = Some s' → sound s'.
Proof.
  intros [Hc Ha] Hs. destruct e as [call gvk|call res|ev]; simpl in Hs.
  - unfold resolveSchemaFromCache in Hs. step_cases; split; simpl; try done.
    intros a [->|Hin]%elem_of_cons; auto.
  - step_cases. split; simpl.
    + intros k e. destruct (decide (x = k)) as [->|Hne].
      * rw lookup_insert_eq. intros [= ->]. by left.
      * rw lookup_insert_ne //. intros; right; auto.
    + intros a [->|Hin]%elem_of_cons; [by left|right; auto].
  - step_cases. split; simpl; [|done]. intros k e Hk. apply Hc.
    eapply lookup_weaken; [done|]. by eapply handleEvent_subseteq.
Qed.

(** Under every interleaving of concurrent resolutions and informer events,
    each answer given for a kind is one discovery gave for that kind. *)
Theorem answers_come_from_discovery s a :
  reachable (step (Schema := Schema)) init s →
  a ∈ r_answers s → a ∈ r_discovered s.
Proof.
  intros Hr. assert (sound s) as [_ Ha]; [|apply Ha].
  eapply (reachable_ind step sound); [apply sound_step| |done].
  split; [intros k e Hk; by rw /= lookup_empty in Hk|by intros a' H%elem_of_nil].
Qed.

(** Events that leave the kind [k] alone: no purge of its group-kind, and no
    call still in flight that would overwrite its entry. *)
Definition undisturbed (k : GroupVersionKind) (e : event Schema) : Prop :=
  match e with Informer ev => gvk_GroupKind k ∉ purged_by ev | _ => True end.

Lemma cached_stays k entry es s s' :
  r_cache s !! k = Some entry → (∀ call gvk, r_missed s !! call = Some gvk → gvk ≠ k) →
  Forall (undisturbed k) es → run step es s = Some s' →
  r_cache s' !! k = Some entry ∧
  ∀ a, a ∈ r_answers s' → a.1 = k → a ∈ r_answers s ∨ a = (k, entry).
Proof.
  intros Hc Hm Hes. revert s Hc Hm. induction Hes as [|e es He _ IH]; simpl; intros s Hc Hm Hrun.
  { simplify_eq. auto. }
  apply bind_Some in Hrun as (s1 & Hs & Hrun).
  assert (r_cache s1 !! k = Some entry ∧
          (∀ call gvk, r_missed s1 !! call = Some gvk → gvk ≠ k) ∧
          (∀ a, a ∈ r_answers s1 → a.1 = k → a ∈ r_answers s ∨ a = (k, entry)))
    as (Hc1 & Hm1 & Ha1).
  { destruct e as [call gvk|call res|ev]; simpl in Hs.
    - unfold resolveSchemaFromCache in Hs. step_cases; repeat split; try done.
      + intros a [->|Hin]%elem_of_cons Hk; simplify_eq/=; auto.
      + intros call' gvk' [[_ <-]|[_ Hin]]%lookup_insert_Some; [congruence|eauto].
      + auto.
    - step_cases. assert (x ≠ k) as Hne by eauto. rw lookup_insert_ne //.
      repeat split; [done| |].
      + intros call' gvk' [_ Hin]%lookup_delete_Some. eauto.
      + intros a [->|Hin]%elem_of_cons Hk; simplify_eq/=; auto.
    - apply bind_Some in Hs as (cache' & Hev & Hs). simplify_eq/=.
      rw (handleEvent_keeps _ _ _ _ Hev He). auto. }
  destruct (IH s1 Hc1 Hm1 Hrun) as [Hc' Ha']. split; [done|].
  intros a Hin Hk. destruct (Ha' a Hin Hk) as [Hin1|]; [|by right].
  by apply Ha1.
Qed.

(** C37: stale for ever.  Once an answer for a kind is cached and no call for that kind
    that missed the cache is still in flight (such a call would overwrite the answer with
    its own), every later resolution of that kind returns that same answer, an error
    included, under any events that only concern custom resource definitions whose own
    object kind is not that kind: the handlers purge by the kind of the definition
    object, not by the kind it defines. *)
Theorem cached_answer_is_never_refreshed s k entry es s' entry' :
  r_cache s !! k = Some entry →
  (∀ call gvk, r_missed s !! call = Some gvk → gvk ≠ k) →
  Forall (undisturbed k) es → run step es s = Some s' →
  (k, entry') ∈ r_answers s' → (k, entry') ∈ r_answers s ∨ entry' = entry.
Proof.
  intros Hc Hm Hes Hrun Hin.
  destruct (cached_stays k entry es s s' Hc Hm Hes Hrun) as [_ Ha].
  destruct (Ha _ Hin eq_refl) as [H|H]; [by left|right; by simplify_eq].
Qed.

(** An update of a custom resource definition does not purge the kind it
    defines: unless the definition object itself is of that group and kind,
    every version of the defined kind keeps its cached schema. *)
Theorem crd_update_keeps_defined_kind old new version cache cache' :
  gvk_GroupKind (crd_TypeMeta old) ≠
    {| gk_Group := crd_Spec_Group new; gk_Kind := crd_Spec_Names_Kind new |} →
  gvk_GroupKind (crd_TypeMeta new) ≠
    {| gk_Group := crd_Spec_Group new; gk_Kind := crd_Spec_Names_Kind new |} →
  handleEvent (UpdateFunc (CRD old) (CRD new)) cache = Some cache' →
  let k := {| gvk_Group := crd_Spec_Group new; gvk_Version := version;
              gvk_Kind := crd_Spec_Names_Kind new |} in
  cache' !! k = cache !! k.
Proof.
  intros Hold Hnew Hev k. apply (handleEvent_keeps _ _ _ _ Hev). simpl.
  rw !not_elem_of_cons. repeat split; [done..|apply not_elem_of_nil].
Qed.

(** A deletion the watch missed reaches the delete handler as a tombstone,
    and the handler's type assertion panics on it; a deletion delivered as the
    definition itself is handled. *)
Theorem tombstone_panics key obj crd cache :
  handleEvent (DeleteFunc (DeletedFinalStateUnknown key obj)) cache = None ∧
  is_Some (handleEvent (DeleteFunc (CRD crd)) cache).
Proof. split; [done|by eexists]. Qed.
End ResolverFacts.

(** ** Witnesses

    A definition of kind [Widget] as a typed client delivers it: the object's own
    type metadata is empty. *)
Module ResolverWitness.
Definition widget : CustomResourceDefinition :=
  {| crd_TypeMeta := {| gvk_Group := ""; gvk_Version := ""; gvk_Kind := "" |};
     crd_Spec_Group := "demo.io"; crd_Spec_Names_Kind := "Widget" |}.
Definition widget_v1 := {| gvk_Group := "demo.io"; gvk_Version := "v1"; gvk_Kind := "Widget" |}.
Definition not_found : cacheEntry nat :=
  {| ce_error := Some (ErrorString "schema not found"); ce_schema := None |}.
Definition found : cacheEntry nat := {| ce_error := None; ce_schema := Some 7 |}.

Definition state_after (es : list (event nat)) : state nat := default init (run step es init).

Definition miss : list (event nat) := [Lookup 0 widget_v1; Fill 0 not_found].
Definition later : list (event nat) :=
  [Informer (AddFunc (CRD widget)); Informer (UpdateFunc (CRD widget) (CRD widget)); Lookup 1 widget_v1].

Lemma answers_come_from_discovery_witness :
  (widget_v1, not_found) ∈ r_discovered (state_after (miss ++ later)).
Proof.
  apply (answers_come_from_discovery (state_after (miss ++ later))).
  - apply reachable_default. vm_compute. reflexivity.
  - vm_compute. left.
Defined.

Lemma cached_answer_is_never_refreshed_witness :
  (widget_v1, not_found) ∈ r_answers (state_after miss) ∨ not_found = not_found.
Proof.
  apply (cached_answer_is_never_refreshed (state_after miss) widget_v1 not_found later
           (state_after (miss ++ later)) not_found).
  - vm_compute. reflexivity.
  - intros call gvk H. vm_compute in H. discriminate.
  - repeat constructor; simpl; rw !not_elem_of_cons;
      repeat split; try discriminate; apply not_elem_of_nil.
  - apply run_split. vm_compute. reflexivity.
  - vm_compute. left.
Defined.

Definition held : gmap GroupVersionKind (cacheEntry nat) := {[widget_v1 := not_found]}.
Definition updated : option (gmap GroupVersionKind (cacheEntry nat)) :=
  handleEvent (UpdateFunc (CRD widget) (CRD widget)) held.

Lemma crd_update_keeps_defined_kind_witness :
  default ∅ updated !! widget_v1 = held !! widget_v1.
Proof.
  apply (crd_update_keeps_defined_kind widget widget "v1" held (default ∅ updated));
    [discriminate|discriminate|].
  change (updated = Some (default ∅ updated)).
  assert (bool_decide (is_Some updated) = true) as Hu by (vm_compute; reflexivity).
  apply bool_decide_eq_true in Hu as [m Hm]. rw Hm. reflexivity.
Defined.
End ResolverWitness.
