(* ===== verification/TransformedClient.v ===== *)
(** * The transforming API client

    [pkg/controller/transformed_client.go]: a typed Kubernetes client for [T]
    implemented by a client for [R] and a pair of conversions.  Pointers are
    options (nil is [None]); a call threads the world [W] of the API server and
    ends in a value, an error, or a panic. *)
From S2P Require Import Prelude GoStrings ApiMachinery.

(** How a Go call ends. *)
Inductive outcome (A : Type) : Type :=
| Done (r : result error A)
| Panic (msg : string).
Arguments Done {A} r.
Arguments Panic {A} msg.

#[export] Instance outcome_ret : MRet outcome := λ A a, Done (Ok a).
#[export] Instance outcome_bind : MBind outcome := λ A B f m,
  match m with
  | Done (Ok a) => f a
  | Done (Err e) => Done (Err e)
  | Panic msg => Panic msg
  end.

(** Running a conversion on the result of a call that returned. *)
Definition then_convert {A B W} (f : A → result error B) (m : outcome A * W) : outcome B * W :=
  match m with
  | (Done (Ok a), w) => (Done (f a), w)
  | (Done (Err e), w) => (Done (Err e), w)
  | (Panic msg, w) => (Panic msg, w)
  end.

(** ** metav1 lists *)

(** A list type with an [Items] field; a nil slice is [None]. *)
Record KList (A : Type) := {
  l_TypeMeta : TypeMeta;
  l_ListMeta : ListMeta;
  l_Items : option (list A);
}.
Arguments Build_KList {A}.
Arguments l_TypeMeta {A}.
Arguments l_ListMeta {A}.
Arguments l_Items {A}.

(** [getItems]: the reflected [Items] field; a nil slice gives nil. *)
Definition getItems {A} (listObj : KList A) : list A := default [] (l_Items listObj).

(** [listWithItems]: a zero list value whose [Items] is set. *)
Definition listWithItems {A} (items : list A) : KList A :=
  {| l_TypeMeta := zero_TypeMeta; l_ListMeta := zero_ListMeta; l_Items := Some items |}.

(** ** Watch events *)

Inductive EventType := Added | Modified | Deleted | Bookmark | ErrorEvent.

(** The dynamic type of an event's object: the replacement type, the target
    type, or anything else ([metav1.Status] in error events). *)
Inductive runtimeObject (T R : Type) :=
| ObjR (r : option R)
| ObjT (t : option T)
| ObjOther (description : string).
Arguments ObjR {T R}.
Arguments ObjT {T R}.
Arguments ObjOther {T R}.

Record Event (T R : Type) := { ev_Type : EventType; ev_Object : runtimeObject T R }.
Arguments Build_Event {T R}.
Arguments ev_Type {T R}.
Arguments ev_Object {T R}.

(** [watch.Filter]: every event goes through [f] in order; a dropped one is
    skipped. *)
Definition Filter {E} (f : E → E * bool) (stream : list E) : list E :=
  omap (λ e, let '(out, keep) := f e in if keep then Some out else None) stream.

(** ** ClientInterface *)

Section Clients.
Context {Opts W : Type}.

Record ClientInterface (T EvObj : Type) := {
  Create : option T → Opts → W → outcome (option T) * W;
  Update : option T → Opts → W → outcome (option T) * W;
  (* ClientInterfaceWithStatus, when the client implements it *)
  UpdateStatus : option (option T → Opts → W → outcome (option T) * W);
  Delete : string → Opts → W → outcome unit * W;
  DeleteCollection : Opts → Opts → W → outcome unit * W;
  Get : string → Opts → W → outcome (option T) * W;
  List : Opts → W → outcome (option (KList T)) * W;
  Watch : Opts → W → outcome (list EvObj) * W;
  Patch : string → string → string → Opts → list string → W → outcome (option T) * W;
}.
End Clients.
Arguments ClientInterface : clear implicits.
Arguments Build_ClientInterface {Opts W T EvObj}.
Arguments Create {Opts W T EvObj}.
Arguments Update {Opts W T EvObj}.
Arguments UpdateStatus {Opts W T EvObj}.
Arguments Delete {Opts W T EvObj}.
Arguments DeleteCollection {Opts W T EvObj}.
Arguments Get {Opts W T EvObj}.
Arguments List {Opts W T EvObj}.
Arguments Watch {Opts W T EvObj}.
Arguments Patch {Opts W T EvObj}.

(** ** TransformedClient *)

Section Transformed.
Context {Opts W T R : Type}.
Context (ReplacementClient : ClientInterface Opts W R (Event T R)).
Context (To : option R → result error (option T)) (From : option T → result error (option R)).

(** The body shared by [Create], [Update] and [UpdateStatus]. *)
Definition write_through (op : option R → Opts → W → outcome (option R) * W)
    (object : option T) (opts : Opts) (w : W) : outcome (option T) * W :=
  match From object with
  | Err err => (Done (Err err), w)
  | Ok converted => then_convert To (op converted opts w)
  end.

Definition tc_Create := write_through (Create ReplacementClient).
Definition tc_Update := write_through (Update ReplacementClient).

(** The type assertion to [ClientInterfaceWithStatus] comes after [From]. *)
Definition tc_UpdateStatus (object : option T) (opts : Opts) (w : W) : outcome (option T) * W :=
  match From object with
  | Err err => (Done (Err err), w)
  | Ok converted =>
      match UpdateStatus ReplacementClient with
      | None => (Panic "interface conversion: missing method UpdateStatus", w)
      | Some op => then_convert To (op converted opts w)
      end
  end.

Definition tc_Delete : string → Opts → W → outcome unit * W := Delete ReplacementClient.
Definition tc_DeleteCollection : Opts → Opts → W → outcome unit * W :=
  DeleteCollection ReplacementClient.

Definition tc_Get (name : string) (opts : Opts) (w : W) : outcome (option T) * W :=
  then_convert To (Get ReplacementClient name opts w).

(** The loop of [List]: convert each item, stop at the first error, panic on
    the dereference of a nil result. *)
Fixpoint convertItems (items : list R) : outcome (list T) :=
  match items with
  | [] => Done (Ok [])
  | v :: items' =>
      match To (Some v) with
      | Err err => Done (Err err)
      | Ok None => Panic "nil pointer dereference"
      | Ok (Some t) => ts ← convertItems items'; Done (Ok (t :: ts))
      end
  end.

Definition tc_List (opts : Opts) (w : W) : outcome (option (KList T)) * W :=
  match List ReplacementClient opts w with
  | (Done (Err err), w') => (Done (Err err), w')
  | (Panic msg, w') => (Panic msg, w')
  | (Done (Ok None), w') => (Panic "reflect: FieldByName on zero Value", w')
  | (Done (Ok (Some value)), w') =>
      (newItems ← convertItems (getItems value); Done (Ok (Some (listWithItems newItems))), w')
  end.

(** The filter function of [Watch]. *)
Definition watchFilter (inEv : Event T R) : Event T R * bool :=
  match ev_Object inEv with
  | ObjR asR =>
      match To asR with
      | Err _ => (inEv, false)
      | Ok converted => ({| ev_Type := ev_Type inEv; ev_Object := ObjT converted |}, true)
      end
  | _ => (inEv, true)
  end.

Definition tc_Watch (opts : Opts) (w : W) : outcome (list (Event T R)) * W :=
  then_convert (λ stream, Ok (Filter watchFilter stream)) (Watch ReplacementClient opts w).

Definition tc_Patch (name pt data : string) (opts : Opts) (subresources : list string) (w : W) : outcome (option T) * W :=
  (Panic "transform patch unsupported", w).

Definition tc_Apply {A : Type} (object : A) (opts : Opts) (w : W) : outcome (option T) * W :=
  (Panic "transform apply unsupported", w).
Definition tc_ApplyStatus {A : Type} (object : A) (opts : Opts) (w : W)
    : outcome (option T) * W :=
  (Panic "transform applystatus unsupported", w).

Definition TransformedClient : ClientInterface Opts W T (Event T R) :=
  {| Create := tc_Create; Update := tc_Update; UpdateStatus := Some tc_UpdateStatus;
     Delete := tc_Delete; DeleteCollection := tc_DeleteCollection; Get := tc_Get;
     List := tc_List; Watch := tc_Watch; Patch := tc_Patch |}.

(** *** Lemmas *)

Lemma convertItems_Ok items ts :
  convertItems items = Done (Ok ts) ↔ Forall2 (λ v t, To (Some v) = Ok (Some t)) items ts.
Proof.
  revert ts. induction items as [|v items IH]; intros ts; simpl.
  - split; [intros [= <-]; constructor|by inversion 1].
  - split.
    + destruct (To (Some v)) as [[t|]|] eqn:Hv; [|done..].
      destruct (convertItems items) as [[ts'|]|]; [|done..].
      intros [= <-]. constructor; [done|]. by apply IH.
    + inversion 1 as [|? t ? ts' Hv Hts]; subst. apply IH in Hts. by rw Hv Hts.
Qed.

Lemma convertItems_Err items err :
  convertItems items = Done (Err err) ↔
  ∃ pre v post ts, items = pre ++ v :: post ∧ convertItems pre = Done (Ok ts) ∧
                   To (Some v) = Err err.
Proof.
  split.
  - induction items as [|v items IH]; simpl; [done|].
    destruct (To (Some v)) as [[t|]|e] eqn:Hv; [|done|].
    + destruct (convertItems items) as [[ts'|e]|]; [done| |done]. intros [= ->].
      destruct (IH eq_refl) as (pre & u & post & ts & -> & Hpre & Hu).
      exists (v :: pre), u, post, (t :: ts). by rw /= Hv Hpre.
    + intros [= ->]. by exists [], v, items, [].
  - intros (pre & v & post & ts & -> & Hpre & Hv). revert ts Hpre.
    induction pre as [|u pre IH]; intros ts; simpl; [by rw Hv|].
    destruct (To (Some u)) as [[t|]|]; [|done..].
    destruct (convertItems pre) as [[ts'|]|]; [|done..]. intros _. by erewrite IH.
Qed.
End Transformed.

(** ** The read-your-writes contract

    What a controller relies on: an object that was created can be read back.
    [name_of] is the object's name. *)
Class ReadYourWrites {Opts W T EvObj} (client : ClientInterface Opts W T EvObj)
    (name_of : T → string) : Prop :=
  read_your_writes o opts w t w1 :
    Create client o opts w = (Done (Ok (Some t)), w1) →
    ∀ gopts, ∃ w2, Get client (name_of t) gopts w1 = (Done (Ok (Some t)), w2).

(** ** Properties *)

Section TransformedFacts.
Context {Opts W T R : Type}.
Context (client : ClientInterface Opts W R (Event T R)).
Context (To : option R → result error (option T)) (From : option T → result error (option R)).
Implicit Types (opts : Opts) (w : W).

Lemma then_convert_Ok {A B} (f : A → result error B) (m : outcome A * W) b w' :
  then_convert f m = (Done (Ok b), w') ↔ ∃ a, m = (Done (Ok a), w') ∧ f a = Ok b.
Proof.
  destruct m as [[[a|e]|msg] w]; simpl; split; try done; try by intros (? & ? & _).
  - intros [= ? <-]. eauto.
  - by intros (? & [= <- <-] & ->).
Qed.

(** Reading back through the conversion what was written through it. *)
Lemma transformed_ryw name_of_R name_of_T :
  ReadYourWrites client name_of_R →
  (∀ r t, To (Some r) = Ok (Some t) → name_of_T t = name_of_R r) →
  To None = Ok None →
  ReadYourWrites (TransformedClient client To From) name_of_T.
Proof.
  intros Hryw Hname Hnil o opts w t w1 Hc gopts. simpl in *.
  unfold tc_Create, write_through in Hc. destruct (From o) as [r|]; [|done].
  apply then_convert_Ok in Hc as ([r'|] & Hc & Ht); [|by rw Hnil in Ht].
  destruct (Hryw r opts w r' w1 Hc gopts) as [w2 Hg].
  exists w2. unfold tc_Get. rw (Hname r' t) // Hg. by rw /= Ht.
Qed.

(** An object that does not convert is never sent: [Create], [Update] and
    [UpdateStatus] return the conversion's error and leave the API server as
    it was. *)
Theorem unconvertible_object_not_sent object opts w err :
  From object = Err err →
  tc_Create client To From object opts w = (Done (Err err), w) ∧
  tc_Update client To From object opts w = (Done (Err err), w) ∧
  tc_UpdateStatus client To From object opts w = (Done (Err err), w).
Proof.
  intros Hf. unfold tc_Create, tc_Update, tc_UpdateStatus, write_through. by rw Hf.
Qed.

(** A write is not undone when its answer does not convert back: [Create]
    and [Update] return the conversion's error in a world where the object was
    written. *)
Theorem error_after_write op object r r' opts w w' err :
  op ∈ [Create client; Update client] →
  From object = Ok r → op r opts w = (Done (Ok r'), w') → To r' = Err err →
  write_through To From op object opts w = (Done (Err err), w').
Proof. intros _ Hf Hop Ht. unfold write_through. rw Hf Hop. by rw /= Ht. Qed.

(** [List] succeeds exactly when the replacement's list does and every item
    converts; it then holds the converted items in order, and its type and
    list metadata are zero. *)
Theorem List_converts_items opts w l w' :
  tc_List client To opts w = (Done (Ok (Some l)), w') ↔
  ∃ value items, List client opts w = (Done (Ok (Some value)), w') ∧
    Forall2 (λ r t, To (Some r) = Ok (Some t)) (getItems value) items ∧
    l = {| l_TypeMeta := zero_TypeMeta; l_ListMeta := zero_ListMeta; l_Items := Some items |}.
Proof.
  unfold tc_List. split.
  - destruct (List client opts w) as [[[[value|]|]|] w1]; [|done..].
    destruct (convertItems To (getItems value)) as [[ts|]|] eqn:Hc; [|done..].
    intros [= <- <-]. exists value, ts. by apply convertItems_Ok in Hc.
  - intros (value & items & -> & Hc%convertItems_Ok & ->). by rw Hc.
Qed.

(** The list metadata is lost: whatever resource version and continue token
    the API server put on the list, the caller gets none, so a paginated list
    looks complete and a watch cannot start from the listed version. *)
Theorem List_drops_metadata opts w value w' l w'' :
  List client opts w = (Done (Ok (Some value)), w') →
  tc_List client To opts w = (Done (Ok (Some l)), w'') →
  lm_ResourceVersion (l_ListMeta l) = "" ∧ lm_Continue (l_ListMeta l) = "".
Proof.
  unfold tc_List. intros ->. destruct (convertItems To (getItems value)) as [[ts|]|]; [|done..].
  by intros [= <- _].
Qed.

(** [List] never returns a partial list: its error is the conversion error
    of the first item that fails, all items before it having converted. *)
Theorem List_fails_at_first_item opts w value w' err :
  List client opts w = (Done (Ok (Some value)), w') →
  tc_List client To opts w = (Done (Err err), w') ↔
  ∃ pre r post ts, getItems value = pre ++ r :: post ∧
    Forall2 (λ r t, To (Some r) = Ok (Some t)) pre ts ∧ To (Some r) = Err err.
Proof.
  unfold tc_List. intros ->. split.
  - destruct (convertItems To (getItems value)) as [[ts|e]|] eqn:Hc; [done| |done].
    intros [= ->]. apply convertItems_Err in Hc as (pre & r & post & ts & ? & Hpre & ?).
    exists pre, r, post, ts. by apply convertItems_Ok in Hpre.
  - intros (pre & r & post & ts & Hi & Hpre%convertItems_Ok & Hr).
    assert (convertItems To (getItems value) = Done (Err err)) as ->; [|done].
    apply convertItems_Err. eauto 8.
Qed.

(** The event a watcher sees for an event of the replacement's watch, if any. *)
Definition seen (e : Event T R) : option (Event T R) :=
  match ev_Object e with
  | ObjR r => match To r with
              | Ok t => Some {| ev_Type := ev_Type e; ev_Object := ObjT t |}
              | Err _ => None
              end
  | _ => Some e
  end.

(** A watch delivers the replacement's events in order: each object of the
    replacement type converted, its event type kept; objects of other types
    (errors, bookmarks of another type) unchanged; and only the events whose
    object does not convert are left out. *)
Theorem Watch_delivers_converted opts w stream w' :
  Watch client opts w = (Done (Ok stream), w') →
  tc_Watch client To opts w = (Done (Ok (omap seen stream)), w').
Proof.
  intros Hw. unfold tc_Watch. rw Hw /=. do 3 f_equal. unfold Filter.
  apply list_omap_ext. apply Forall2_same_length_lookup. split; [done|].
  intros i e e' He He'. simplify_eq. unfold watchFilter, seen.
  destruct (ev_Object e) as [r| |]; [|done..]. by destruct (To r).
Qed.

(** If the replacement client lets its callers read their writes and the
    conversion keeps names, so does the transformed client: it refines the same
    contract. *)
Theorem transformed_reads_its_writes name_of_R name_of_T :
  ReadYourWrites client name_of_R →
  (∀ r t, To (Some r) = Ok (Some t) → name_of_T t = name_of_R r) →
  To None = Ok None →
  ReadYourWrites (TransformedClient client To From) name_of_T.
Proof. apply transformed_ryw. Qed.
End TransformedFacts.

(** ** Witnesses

    An API server that stores named objects; the object called "bad" does not
    convert in either direction. *)
Module TransformedWitness.
Definition demo_store := gmap string nat.

Definition conversion (o : option string) : result error (option string) :=
  if bool_decide (o = Some "bad") then Err (ErrorString "cannot convert") else Ok o.

Definition put (o : option string) (opts : nat) (w : demo_store) :
    outcome (option string) * demo_store :=
  match o with
  | Some name => (Done (Ok (Some name)), <[name := opts]> w)
  | None => (Done (Err (ErrorString "nil object")), w)
  end.

Definition served : KList string :=
  {| l_TypeMeta := zero_TypeMeta;
     l_ListMeta := {| lm_SelfLink := ""; lm_ResourceVersion := "815"; lm_Continue := "next";
                      lm_RemainingItemCount := Some 3%Z |};
     l_Items := Some ["a"; "b"] |}.

Definition demo_events : list (Event string string) :=
  [{| ev_Type := Added; ev_Object := ObjR (Some "a") |};
   {| ev_Type := Modified; ev_Object := ObjR (Some "bad") |};
   {| ev_Type := ErrorEvent; ev_Object := ObjOther "Status" |}].

Definition demo_client (l : KList string) :
    ClientInterface nat demo_store string (Event string string) :=
  {| Create := put; Update := put; UpdateStatus := None;
     Delete := λ name _ w, (Done (Ok tt), delete name w);
     DeleteCollection := λ _ _ _, (Done (Ok tt), ∅);
     Get := λ name _ w,
       match w !! name with
       | Some _ => (Done (Ok (Some name)), w)
       | None => (Done (Err (StatusError (NewNotFound {| gr_Group := ""; gr_Resource := "" |} name))), w)
       end;
     List := λ _ w, (Done (Ok (Some l)), w);
     Watch := λ _ w, (Done (Ok demo_events), w);
     Patch := λ _ _ _ _ _ w, (Panic "unused", w) |}.

Definition to_bad (o : option string) : result error (option string) := conversion (Some "bad").

Lemma unconvertible_object_not_sent_witness :
  tc_Create (demo_client served) conversion conversion (Some "bad") 1 ∅
    = (Done (Err (ErrorString "cannot convert")), ∅).
Proof.
  apply (unconvertible_object_not_sent (demo_client served) conversion conversion (Some "bad") 1 ∅).
  reflexivity.
Defined.

Lemma error_after_write_witness :
  write_through to_bad conversion (Create (demo_client served)) (Some "a") 1 ∅
    = (Done (Err (ErrorString "cannot convert")), {["a" := 1]}).
Proof.
  apply (error_after_write (demo_client served) to_bad conversion (Create (demo_client served))
           (Some "a") (Some "a") (Some "a")).
  - left.
  - reflexivity.
  - reflexivity.
  - reflexivity.
Defined.

Lemma List_drops_metadata_witness :
  lm_ResourceVersion (l_ListMeta served) = "815" ∧
  lm_ResourceVersion (l_ListMeta (listWithItems ["a"; "b"])) = "" ∧
  lm_Continue (l_ListMeta (listWithItems ["a"; "b"])) = "".
Proof.
  split; [reflexivity|].
  apply (List_drops_metadata (demo_client served) conversion 0 ∅ served ∅ _ ∅); reflexivity.
Defined.

Lemma List_fails_at_first_item_witness :
  tc_List (demo_client (listWithItems ["a"; "bad"; "b"])) conversion 0 ∅
    = (Done (Err (ErrorString "cannot convert")), ∅).
Proof.
  apply (List_fails_at_first_item (demo_client (listWithItems ["a"; "bad"; "b"])) conversion 0 ∅
           (listWithItems ["a"; "bad"; "b"]) ∅ (ErrorString "cannot convert")); [reflexivity|].
  exists ["a"], "bad", ["b"], ["a"]. split; [reflexivity|].
  split; [repeat constructor|reflexivity].
Defined.

Lemma Watch_delivers_converted_witness :
  tc_Watch (demo_client served) conversion 0 ∅ =
    (Done (Ok [{| ev_Type := Added; ev_Object := ObjT (Some "a") |};
               {| ev_Type := ErrorEvent; ev_Object := ObjOther "Status" |}]), ∅).
Proof.
  apply (Watch_delivers_converted (demo_client served) conversion 0 ∅ demo_events ∅).
  reflexivity.
Defined.

Lemma demo_client_ryw : ReadYourWrites (demo_client served) (λ name, name).
Proof.
  intros [name|] opts w t w1 Hc gopts; simpl in *; [|discriminate].
  injection Hc as <- <-. rw lookup_insert_eq. eauto.
Qed.

Lemma transformed_reads_its_writes_witness :
  ReadYourWrites (TransformedClient (demo_client served) conversion conversion) (λ name, name).
Proof.
  apply (transformed_reads_its_writes (demo_client served) conversion conversion (λ name, name)).
  - apply demo_client_ryw.
  - intros r t. unfold conversion. case_bool_decide; [discriminate|]. by intros [= ->].
  - reflexivity.
Defined.
End TransformedWitness.
