(* ===== verification/Json.v ===== *)
(** * encoding/json on trees

    What the program uses of Go's [encoding/json]: values are encoded to and
    decoded from JSON trees (the text between is not modelled), with struct tags,
    [omitempty], nil pointers and slices as null, the replacement of invalid
    UTF-8 in strings, and decoding that leaves absent and null fields zero.
    Objects are looked up by exact field name, which is how the encoder wrote
    them. *)
From S2P Require Import Prelude GoStrings.
From Stdlib Require Import Ascii Eqdep_dec Bool.

(** ** UTF-8 *)

Definition in_range (lo hi : nat) (c : ascii) : bool :=
  (lo <=? nat_of_ascii c) && (nat_of_ascii c <=? hi).
Definition continuation : ascii → bool := in_range 128 191.
Definition ascii_byte (a : ascii) : bool := nat_of_ascii a <? 128.

(** The well-formed sequences of two, three and four bytes. *)
Definition utf8_2 (a b : ascii) : bool := in_range 194 223 a && continuation b.
Definition utf8_3 (a b c : ascii) : bool :=
  ((in_range 224 224 a && in_range 160 191 b)
   || ((in_range 225 236 a || in_range 238 239 a) && continuation b)
   || (in_range 237 237 a && in_range 128 159 b)) && continuation c.
Definition utf8_4 (a b c d : ascii) : bool :=
  ((in_range 240 240 a && in_range 144 191 b)
   || (in_range 241 243 a && continuation b)
   || (in_range 244 244 a && in_range 128 143 b)) && continuation c && continuation d.

(** U+FFFD in UTF-8. *)
Definition replacement (s : string) : string :=
  String (ascii_of_nat 239) (String (ascii_of_nat 191) (String (ascii_of_nat 189) s)).

(** The string a JSON string literal denotes once Go has encoded it: every byte
    that is not part of a well-formed sequence becomes U+FFFD. *)
Fixpoint toValidUTF8 (s : string) : string :=
  match s with
  | "" => ""
  | String a s1 =>
      if ascii_byte a then String a (toValidUTF8 s1)
      else match s1 with
           | "" => replacement (toValidUTF8 s1)
           | String b s2 =>
               if utf8_2 a b then String a (String b (toValidUTF8 s2))
               else match s2 with
                    | "" => replacement (toValidUTF8 s1)
                    | String c s3 =>
                        if utf8_3 a b c then String a (String b (String c (toValidUTF8 s3)))
                        else match s3 with
                             | "" => replacement (toValidUTF8 s1)
                             | String d s4 =>
                                 if utf8_4 a b c d
                                 then String a (String b (String c (String d (toValidUTF8 s4))))
                                 else replacement (toValidUTF8 s1)
                             end
                    end
           end
  end.

Lemma utf8_3_not_2 a b c : utf8_3 a b c = true → utf8_2 a b = false.
Proof.
  unfold utf8_3, utf8_2, in_range. intros H.
  destruct (nat_of_ascii a <=? 223) eqn:Ha; [|by rw andb_false_r].
  apply Nat.leb_le in Ha. apply andb_true_iff in H as [H _].
  rw !orb_true_iff !andb_true_iff !orb_true_iff !andb_true_iff !Nat.leb_le in H. lia.
Qed.

Lemma utf8_4_not_3 a b c d : utf8_4 a b c d = true → utf8_2 a b = false ∧ utf8_3 a b c = false.
Proof.
  unfold utf8_4, utf8_3, utf8_2, in_range. intros H.
  assert (240 ≤ nat_of_ascii a) as Ha.
  { apply andb_true_iff in H as [H _]. apply andb_true_iff in H as [H _].
    rw !orb_true_iff !andb_true_iff !Nat.leb_le in H. lia. }
  assert (∀ k, k < 240 → (nat_of_ascii a <=? k) = false) as Hk
    by (intros k ?; apply Nat.leb_gt; lia).
  rw !Hk; [lia..|]. by rw !andb_false_r.
Qed.

Lemma utf8_2_lead a b : utf8_2 a b = true → ascii_byte a = false.
Proof.
  unfold utf8_2, in_range, ascii_byte. rw !andb_true_iff !Nat.leb_le.
  intros. apply Nat.ltb_ge. lia.
Qed.
Lemma utf8_3_lead a b c : utf8_3 a b c = true → ascii_byte a = false.
Proof.
  unfold utf8_3, in_range, ascii_byte. intros H. apply andb_true_iff in H as [H _].
  rw !orb_true_iff !andb_true_iff !orb_true_iff !andb_true_iff !Nat.leb_le in H.
  apply Nat.ltb_ge. lia.
Qed.
Lemma utf8_4_lead a b c d : utf8_4 a b c d = true → ascii_byte a = false.
Proof.
  unfold utf8_4, in_range, ascii_byte. intros H.
  apply andb_true_iff in H as [H _]. apply andb_true_iff in H as [H _].
  rw !orb_true_iff !andb_true_iff !Nat.leb_le in H. apply Nat.ltb_ge. lia.
Qed.

Lemma toValidUTF8_replacement s :
  toValidUTF8 (replacement s) = replacement (toValidUTF8 s).
Proof. reflexivity. Qed.

(** Encoding an already encoded string changes nothing. *)
Lemma toValidUTF8_idem s : toValidUTF8 (toValidUTF8 s) = toValidUTF8 s.
Proof.
  assert (∀ n s, String.length s < n → toValidUTF8 (toValidUTF8 s) = toValidUTF8 s) as H;
    [|by apply (H (S (String.length s))); lia].
  clear s. induction n as [|n IH]; intros s Hn; [lia|].
  destruct s as [|a s1]; [done|]. simpl in Hn.
  assert (toValidUTF8 (replacement (toValidUTF8 s1)) = replacement (toValidUTF8 s1)) as Hrep
    by (rw toValidUTF8_replacement IH //; lia).
  cbn [toValidUTF8]. destruct (ascii_byte a) eqn:Ha.
  { cbn [toValidUTF8]. rw Ha IH //. lia. }
  destruct s1 as [|b s2]; [done|]. destruct (utf8_2 a b) eqn:H2.
  { cbn [toValidUTF8]. rw Ha H2 IH //. simpl in Hn. lia. }
  destruct s2 as [|c s3]; [done|]. destruct (utf8_3 a b c) eqn:H3.
  { cbn [toValidUTF8]. rw Ha H2 H3 IH //. simpl in Hn. lia. }
  destruct s3 as [|d s4]; [done|]. destruct (utf8_4 a b c d) eqn:H4; [|done].
  cbn [toValidUTF8]. rw Ha H2 H3 H4 IH //. simpl in Hn. lia.
Qed.

Lemma toValidUTF8_empty s : toValidUTF8 s = "" ↔ s = "".
Proof.
  split; [|by intros ->]. destruct s as [|a s]; [done|].
  cbn [toValidUTF8]. by repeat case_match.
Qed.

(** ** Trees and codecs *)

#[warnings="-register-all"] Inductive json : Type :=
| JNull
| JBool (b : bool)
| JNum (n : Z)
| JStr (s : string)
| JArr (items : list json)
| JObj (fields : list (string * json)).

(** [zero]: the type's zero value; [isEmptyValue]: what [omitempty] leaves out. *)
Class JsonCodec (A : Type) := {
  zero : A;
  isEmptyValue : A → bool;
  toJSON : A → json;
  fromJSON : json → result string A;
}.

Definition typeError {A} : result string A := Err "json: cannot unmarshal value".

(** *** Base types *)

#[export] Instance string_codec : JsonCodec string := {|
  zero := "";
  isEmptyValue s := bool_decide (s = "");
  toJSON s := JStr (toValidUTF8 s);
  fromJSON j := match j with JNull => Ok "" | JStr s => Ok s | _ => typeError end;
|}.

Definition in_int64 (z : Z) : bool := ((- 2 ^ 63 <=? z) && (z <? 2 ^ 63))%Z.

Record int64 := mk_int64 { i64 : Z; i64_range : in_int64 i64 = true }.

#[export] Instance int64_codec : JsonCodec int64 := {|
  zero := mk_int64 0 eq_refl;
  isEmptyValue n := bool_decide (i64 n = 0%Z);
  toJSON n := JNum (i64 n);
  fromJSON j :=
    match j with
    | JNull => Ok (mk_int64 0 eq_refl)
    | JNum z => match decide (in_int64 z = true) with
                | left H => Ok (mk_int64 z H)
                | right _ => typeError
                end
    | _ => typeError
    end;
|}.

(** A pointer: nil is null and empty. *)
#[export] Instance pointer_codec {A} `{JsonCodec A} : JsonCodec (option A) := {|
  zero := None;
  isEmptyValue p := match p with None => true | Some _ => false end;
  toJSON p := match p with None => JNull | Some x => toJSON x end;
  fromJSON j := match j with JNull => Ok None | _ => Some <$> fromJSON j end;
|}.

(** A slice: nil ([None]) is null; nil and the empty slice are both empty. *)
Record slice (A : Type) := mk_slice { elems : option (list A) }.
Arguments mk_slice {A}.
Arguments elems {A}.

#[export] Instance slice_codec {A} `{JsonCodec A} : JsonCodec (slice A) := {|
  zero := mk_slice None;
  isEmptyValue s := match elems s with None | Some [] => true | Some (_ :: _) => false end;
  toJSON s := match elems s with None => JNull | Some xs => JArr (toJSON <$> xs) end;
  fromJSON j :=
    match j with
    | JNull => Ok (mk_slice None)
    | JArr js => xs ← mapE fromJSON js; Ok (mk_slice (Some xs))
    | _ => typeError
    end;
|}.

(** *** Structs *)

(** A field with its JSON name and its [omitempty] flag. *)
Definition field {A} `{JsonCodec A} (name : string) (omitempty : bool) (x : A)
    : list (string * json) :=
  if omitempty && isEmptyValue x then [] else [(name, toJSON x)].

Fixpoint lookup_field (name : string) (fs : list (string * json)) : option json :=
  match fs with
  | [] => None
  | (n, v) :: fs' => if bool_decide (n = name) then Some v else lookup_field name fs'
  end.

(** Decoding one field of a zero struct. *)
Definition getField {A} `{JsonCodec A} (name : string) (fs : list (string * json)) : result string A :=
  match lookup_field name fs with None => Ok zero | Some v => fromJSON v end.

(** A struct's codec from its fields; a struct value is never empty. *)
Definition struct_codec {A} (z : A) (encode : A → list (string * json))
    (decode : list (string * json) → result string A) : JsonCodec A := {|
  zero := z;
  isEmptyValue _ := false;
  toJSON x := JObj (encode x);
  fromJSON j := match j with JNull => Ok z | JObj fs => decode fs | _ => typeError end;
|}.

(** ** Conversion through JSON

    [conv x] is what decoding the encoding of [x] at another type gives:
    [conv_spec] for values [omitempty] keeps, [conv_empty] for those it may drop. *)
Class Conv (A B : Type) `{JsonCodec A, JsonCodec B} := {
  conv : A → B;
  conv_spec x : isEmptyValue x = false → fromJSON (toJSON x) = Ok (conv x);
  conv_empty x : isEmptyValue x = true → conv x = zero;
}.

(** The types whose empty values survive without [omitempty] too. *)
Class StrictConv (A B : Type) `{Conv A B} : Prop :=
  conv_strict x : fromJSON (toJSON x) = Ok (conv x).

(** Values that never encode as null, so that a pointer to them decodes back. *)
Class NonNull (A : Type) `{JsonCodec A} : Prop := non_null (x : A) : toJSON x ≠ JNull.

(** Converting twice is converting once. *)
Class ConvTrans (A B C : Type) `{Conv A B, Conv B C, Conv A C} : Prop :=
  conv_trans (x : A) : conv (conv x : B) = (conv x : C).

#[export, refine] Instance string_conv : Conv string string := {| conv := toValidUTF8 |}.
Proof.
  - intros s _. done.
  - intros s Hs. apply bool_decide_eq_true in Hs as ->. done.
Defined.
#[export] Instance string_strict : StrictConv string string.
Proof. intros s. done. Qed.
#[export] Instance string_nonnull : NonNull string.
Proof. intros s. done. Qed.
#[export] Instance string_trans : ConvTrans string string string.
Proof. intros s. apply toValidUTF8_idem. Qed.

Lemma int64_roundtrip (n : int64) : fromJSON (toJSON n) = Ok n.
Proof.
  destruct n as [z Hz]. simpl. destruct (decide (in_int64 z = true)) as [H|]; [|done].
  by rw (Eqdep_dec.UIP_dec Bool.bool_dec H Hz).
Qed.

#[export, refine] Instance int64_conv : Conv int64 int64 := {| conv := id |}.
Proof.
  - intros n _. apply int64_roundtrip.
  - intros [z Hz] H. simpl in *. apply bool_decide_eq_true in H. subst z.
    unfold id. f_equal. apply (Eqdep_dec.UIP_dec Bool.bool_dec).
Defined.
#[export] Instance int64_trans : ConvTrans int64 int64 int64.
Proof. intros n. done. Qed.

#[export, refine] Instance pointer_conv {A B} `{StrictConv A B, !NonNull A} :
  Conv (option A) (option B) := {| conv := fmap conv |}.
Proof.
  - intros [x|] _; [|done]. simpl. pose proof (non_null x). pose proof (conv_strict x) as Hx.
    destruct (toJSON x); [done|..]; by rw Hx.
  - by intros [x|] Hx.
Defined.
#[export] Instance pointer_strict {A B} `{StrictConv A B, !NonNull A} :
  StrictConv (option A) (option B).
Proof. intros [x|]; [|done]. by apply (conv_spec (Some x)). Qed.
#[export] Instance pointer_trans {A B C} `{!JsonCodec A, !JsonCodec B, !JsonCodec C}
  `{!Conv A B, !StrictConv A B, !Conv B C, !StrictConv B C, !Conv A C, !StrictConv A C}
  `{!NonNull A, !NonNull B, !ConvTrans A B C} :
  ConvTrans (option A) (option B) (option C).
Proof. intros [x|]; [|done]. simpl. f_equal. apply conv_trans. Qed.

(** A kept slice converts element by element; a dropped one becomes nil. *)
Definition conv_slice {A B} `{Conv A B} (s : slice A) : slice B :=
  mk_slice match elems s with
           | None | Some [] => None
           | Some xs => Some (conv <$> xs)
           end.

#[export, refine] Instance slice_conv {A B} `{StrictConv A B} : Conv (slice A) (slice B) :=
  {| conv := conv_slice |}.
Proof.
  - intros [[[|x xs]|]] Hs; [done| |done]. cbn [toJSON slice_codec elems fromJSON].
    assert (mapE fromJSON (toJSON <$> x :: xs) = Ok (conv <$> x :: xs)) as Hm.
    { apply mapE_Ok, Forall2_fmap, Forall_Forall2_diag, Forall_forall. intros y _.
      apply conv_strict. }
    by rw Hm.
  - by intros [[[|x xs]|]] Hs.
Defined.
#[export] Instance slice_trans {A B C} `{!JsonCodec A, !JsonCodec B, !JsonCodec C}
  `{!Conv A B, !StrictConv A B, !Conv B C, !StrictConv B C, !Conv A C, !StrictConv A C}
  `{!ConvTrans A B C} : ConvTrans (slice A) (slice B) (slice C).
Proof.
  intros [[[|x xs]|]]; [done| |done]. unfold conv; simpl. unfold conv_slice; simpl. do 3 f_equal.
  - apply conv_trans.
  - induction xs as [|y ys IH]; [done|]. cbn. f_equal; [apply conv_trans|apply IH].
Qed.

(** *** Fields *)

Section Fields.
Context {A B : Type} `{Conv A B}.
Implicit Types (name n : string) (rest : list (string * json)).

Lemma lookup_field_skip name n omit (x : A) rest :
  n ≠ name → lookup_field name (field n omit x ++ rest) = lookup_field name rest.
Proof.
  intros Hne. unfold field. destruct (omit && isEmptyValue x); [done|].
  simpl. by rw bool_decide_eq_false_2.
Qed.

(** A field tagged [omitempty] decodes to the conversion of its value. *)
Lemma getField_omit name (x : A) rest :
  lookup_field name rest = None → getField name (field name true x ++ rest) = Ok (conv x : B).
Proof.
  intros Hrest. unfold getField, field. destruct (isEmptyValue x) eqn:He; simpl.
  - rw Hrest. by rw conv_empty.
  - rw bool_decide_eq_true_2 //. by apply conv_spec.
Qed.

(** And so does one without the tag, for the strict types. *)
Lemma getField_keep `{!StrictConv A B} name (x : A) rest :
  getField name (field name false x ++ rest) = Ok (conv x : B).
Proof.
  unfold getField, field. simpl. rw bool_decide_eq_true_2 //.
Qed.

(** A tag that differs between the two types does not matter. *)
Lemma getField_any `{!StrictConv A B} name omit (x : A) rest :
  lookup_field name rest = None → getField name (field name omit x ++ rest) = Ok (conv x : B).
Proof. destruct omit; [apply getField_omit|intros _; apply getField_keep]. Qed.

Lemma getField_skip name n omit (x : A) rest {C} `{JsonCodec C} :
  n ≠ name → getField (A := C) name (field n omit x ++ rest) = getField name rest.
Proof. intros Hne. unfold getField. by rw lookup_field_skip. Qed.
End Fields.

Lemma lookup_field_nil name : lookup_field name [] = None.
Proof. done. Qed.
