(* ===== verification/ApiTypes.v ===== *)
(** * The policy API types, in both dialects

    [pkg/apis/admissionregistration.x-k8s.io/v1alpha1/types.go] (the [CRD]
    dialect) and the Kubernetes types they copy,
    [k8s.io/api/admissionregistration/v1alpha1] (the [Native] dialect).  The two
    packages declare the same structs; where their JSON tags differ, the codec
    depends on the dialect.  Each type has its codec, its conversion to the other
    dialect, and the facts the conversion functions need: the conversion never
    fails, never gives null, and twice is once. *)
From S2P Require Import Prelude GoStrings ApiMachinery Json.

Inductive dialect := CRD | Native.

(** The fields that are [omitempty] in the native dialect only. *)
Definition omit_native (d : dialect) : bool :=
  match d with CRD => false | Native => true end.

(** ** Proof steps shared by the struct types *)

(** [lookup_field] finds nothing in a list of differently named fields. *)
Ltac no_field := cbn [concat]; rw -?app_assoc; repeat (rw lookup_field_skip; [done|]); done.

Lemma bind_Ok_eq {A B} (m : result string A) (k : A → result string B) a r :
  m = Ok a → k a = r → m ≫= k = r.
Proof. by intros ->. Qed.

(** Decodes one field: skips those before it, then converts. *)
Ltac get_field :=
  lazymatch goal with |- _ ≫= _ = _ => eapply bind_Ok_eq end;
  [ repeat (etransitivity; [apply getField_skip; done|]);
    first [ apply getField_keep
          | apply getField_omit; no_field
          | apply getField_any; no_field ]
  | cbv beta ].

(** The two laws of a struct's [Conv] instance, from its codec. *)
Tactic Notation "struct_spec" reference(C) :=
  intros [] _; cbn [toJSON fromJSON struct_codec C concat]; rw -?app_assoc;
  repeat get_field; done.
Ltac struct_nonempty :=
  let H := fresh in intros ? H; change (false = true) in H; discriminate H.

Ltac struct_strict := let x := fresh in intros x; by apply conv_spec.
Tactic Notation "struct_trans" reference(I) := intros []; cbn [conv I]; f_equal; apply conv_trans.

(** ** Small structs *)

Record ExpressionWarning (d : dialect) := { ew_FieldRef : string; ew_Warning : string }.
Arguments Build_ExpressionWarning {d}.
Arguments ew_FieldRef {d}.
Arguments ew_Warning {d}.

#[export] Instance ExpressionWarning_codec d : JsonCodec (ExpressionWarning d) := struct_codec
  {| ew_FieldRef := zero; ew_Warning := zero |}
  (λ w, concat [field "fieldRef" false (ew_FieldRef w); field "warning" false (ew_Warning w)])
  (λ fs, f ← getField "fieldRef" fs; w ← getField "warning" fs;
         Ok {| ew_FieldRef := f; ew_Warning := w |}).
#[export, refine] Instance ExpressionWarning_conv d e :
  Conv (ExpressionWarning d) (ExpressionWarning e) :=
  {| conv w := {| ew_FieldRef := conv (ew_FieldRef w); ew_Warning := conv (ew_Warning w) |} |}.
Proof. { struct_spec ExpressionWarning_codec. } struct_nonempty. Defined.
#[export] Instance ExpressionWarning_strict d e :
  StrictConv (ExpressionWarning d) (ExpressionWarning e).
Proof. struct_strict. Qed.
#[export] Instance ExpressionWarning_nonnull d : NonNull (ExpressionWarning d).
Proof. done. Qed.
#[export] Instance ExpressionWarning_trans d e f :
  ConvTrans (ExpressionWarning d) (ExpressionWarning e) (ExpressionWarning f).
Proof. struct_trans ExpressionWarning_conv. Qed.

Record TypeChecking (d : dialect) := {
  tc_ExpressionWarnings : slice (ExpressionWarning d);
}.
Arguments Build_TypeChecking {d}.
Arguments tc_ExpressionWarnings {d}.

#[export] Instance TypeChecking_codec d : JsonCodec (TypeChecking d) := struct_codec
  {| tc_ExpressionWarnings := zero |}
  (λ x, concat [field "expressionWarnings" true (tc_ExpressionWarnings x)])
  (λ fs, f0 ← getField "expressionWarnings" fs;
         Ok {| tc_ExpressionWarnings := f0 |}).
#[export, refine] Instance TypeChecking_conv d e : Conv (TypeChecking d) (TypeChecking e) :=
  {| conv x := {| tc_ExpressionWarnings := conv (tc_ExpressionWarnings x) |} |}.
Proof. { struct_spec TypeChecking_codec. } struct_nonempty. Defined.
#[export] Instance TypeChecking_strict d e : StrictConv (TypeChecking d) (TypeChecking e).
Proof. struct_strict. Qed.
#[export] Instance TypeChecking_nonnull d : NonNull (TypeChecking d).
Proof. done. Qed.
#[export] Instance TypeChecking_trans d e f : ConvTrans (TypeChecking d) (TypeChecking e) (TypeChecking f).
Proof. struct_trans TypeChecking_conv. Qed.

Record ParamKind (d : dialect) := {
  pk_APIVersion : string;
  pk_Kind : string;
}.
Arguments Build_ParamKind {d}.
Arguments pk_APIVersion {d}.
Arguments pk_Kind {d}.

#[export] Instance ParamKind_codec d : JsonCodec (ParamKind d) := struct_codec
  {| pk_APIVersion := zero;
     pk_Kind := zero |}
  (λ x, concat [field "apiVersion" (omit_native d) (pk_APIVersion x);
                field "kind" (omit_native d) (pk_Kind x)])
  (λ fs, f0 ← getField "apiVersion" fs;
         f1 ← getField "kind" fs;
         Ok {| pk_APIVersion := f0;
               pk_Kind := f1 |}).
#[export, refine] Instance ParamKind_conv d e : Conv (ParamKind d) (ParamKind e) :=
  {| conv x := {| pk_APIVersion := conv (pk_APIVersion x);
                  pk_Kind := conv (pk_Kind x) |} |}.
Proof. { struct_spec ParamKind_codec. } struct_nonempty. Defined.
#[export] Instance ParamKind_strict d e : StrictConv (ParamKind d) (ParamKind e).
Proof. struct_strict. Qed.
#[export] Instance ParamKind_nonnull d : NonNull (ParamKind d).
Proof. done. Qed.
#[export] Instance ParamKind_trans d e f : ConvTrans (ParamKind d) (ParamKind e) (ParamKind f).
Proof. struct_trans ParamKind_conv. Qed.

Record Validation (d : dialect) := {
  va_Expression : string;
  va_Message : string;
  va_Reason : option string;
  va_MessageExpression : string;
}.
Arguments Build_Validation {d}.
Arguments va_Expression {d}.
Arguments va_Message {d}.
Arguments va_Reason {d}.
Arguments va_MessageExpression {d}.

#[export] Instance Validation_codec d : JsonCodec (Validation d) := struct_codec
  {| va_Expression := zero;
     va_Message := zero;
     va_Reason := zero;
     va_MessageExpression := zero |}
  (λ x, concat [field "expression" false (va_Expression x);
                field "message" true (va_Message x);
                field "reason" true (va_Reason x);
                field "messageExpression" true (va_MessageExpression x)])
  (λ fs, f0 ← getField "expression" fs;
         f1 ← getField "message" fs;
         f2 ← getField "reason" fs;
         f3 ← getField "messageExpression" fs;
         Ok {| va_Expression := f0;
               va_Message := f1;
               va_Reason := f2;
               va_MessageExpression := f3 |}).
#[export, refine] Instance Validation_conv d e : Conv (Validation d) (Validation e) :=
  {| conv x := {| va_Expression := conv (va_Expression x);
                  va_Message := conv (va_Message x);
                  va_Reason := conv (va_Reason x);
                  va_MessageExpression := conv (va_MessageExpression x) |} |}.
Proof. { struct_spec Validation_codec. } struct_nonempty. Defined.
#[export] Instance Validation_strict d e : StrictConv (Validation d) (Validation e).
Proof. struct_strict. Qed.
#[export] Instance Validation_nonnull d : NonNull (Validation d).
Proof. done. Qed.
#[export] Instance Validation_trans d e f : ConvTrans (Validation d) (Validation e) (Validation f).
Proof. struct_trans Validation_conv. Qed.

Record AuditAnnotation (d : dialect) := {
  aa_Key : string;
  aa_ValueExpression : string;
}.
Arguments Build_AuditAnnotation {d}.
Arguments aa_Key {d}.
Arguments aa_ValueExpression {d}.

#[export] Instance AuditAnnotation_codec d : JsonCodec (AuditAnnotation d) := struct_codec
  {| aa_Key := zero;
     aa_ValueExpression := zero |}
  (λ x, concat [field "key" false (aa_Key x);
                field "valueExpression" false (aa_ValueExpression x)])
  (λ fs, f0 ← getField "key" fs;
         f1 ← getField "valueExpression" fs;
         Ok {| aa_Key := f0;
               aa_ValueExpression := f1 |}).
#[export, refine] Instance AuditAnnotation_conv d e : Conv (AuditAnnotation d) (AuditAnnotation e) :=
  {| conv x := {| aa_Key := conv (aa_Key x);
                  aa_ValueExpression := conv (aa_ValueExpression x) |} |}.
Proof. { struct_spec AuditAnnotation_codec. } struct_nonempty. Defined.
#[export] Instance AuditAnnotation_strict d e : StrictConv (AuditAnnotation d) (AuditAnnotation e).
Proof. struct_strict. Qed.
#[export] Instance AuditAnnotation_nonnull d : NonNull (AuditAnnotation d).
Proof. done. Qed.
#[export] Instance AuditAnnotation_trans d e f : ConvTrans (AuditAnnotation d) (AuditAnnotation e) (AuditAnnotation f).
Proof. struct_trans AuditAnnotation_conv. Qed.

Record MatchCondition (d : dialect) := {
  mc_Name : string;
  mc_Expression : string;
}.
Arguments Build_MatchCondition {d}.
Arguments mc_Name {d}.
Arguments mc_Expression {d}.

#[export] Instance MatchCondition_codec d : JsonCodec (MatchCondition d) := struct_codec
  {| mc_Name := zero;
     mc_Expression := zero |}
  (λ x, concat [field "name" false (mc_Name x);
                field "expression" false (mc_Expression x)])
  (λ fs, f0 ← getField "name" fs;
         f1 ← getField "expression" fs;
         Ok {| mc_Name := f0;
               mc_Expression := f1 |}).
#[export, refine] Instance MatchCondition_conv d e : Conv (MatchCondition d) (MatchCondition e) :=
  {| conv x := {| mc_Name := conv (mc_Name x);
                  mc_Expression := conv (mc_Expression x) |} |}.
Proof. { struct_spec MatchCondition_codec. } struct_nonempty. Defined.
#[export] Instance MatchCondition_strict d e : StrictConv (MatchCondition d) (MatchCondition e).
Proof. struct_strict. Qed.
#[export] Instance MatchCondition_nonnull d : NonNull (MatchCondition d).
Proof. done. Qed.
#[export] Instance MatchCondition_trans d e f : ConvTrans (MatchCondition d) (MatchCondition e) (MatchCondition f).
Proof. struct_trans MatchCondition_conv. Qed.

Record ParamRef (d : dialect) := {
  pr_Name : string;
  pr_Namespace : string;
}.
Arguments Build_ParamRef {d}.
Arguments pr_Name {d}.
Arguments pr_Namespace {d}.

#[export] Instance ParamRef_codec d : JsonCodec (ParamRef d) := struct_codec
  {| pr_Name := zero;
     pr_Namespace := zero |}
  (λ x, concat [field "name" true (pr_Name x);
                field "namespace" true (pr_Namespace x)])
  (λ fs, f0 ← getField "name" fs;
         f1 ← getField "namespace" fs;
         Ok {| pr_Name := f0;
               pr_Namespace := f1 |}).
#[export, refine] Instance ParamRef_conv d e : Conv (ParamRef d) (ParamRef e) :=
  {| conv x := {| pr_Name := conv (pr_Name x);
                  pr_Namespace := conv (pr_Namespace x) |} |}.
Proof. { struct_spec ParamRef_codec. } struct_nonempty. Defined.
#[export] Instance ParamRef_strict d e : StrictConv (ParamRef d) (ParamRef e).
Proof. struct_strict. Qed.
#[export] Instance ParamRef_nonnull d : NonNull (ParamRef d).
Proof. done. Qed.
#[export] Instance ParamRef_trans d e f : ConvTrans (ParamRef d) (ParamRef e) (ParamRef f).
Proof. struct_trans ParamRef_conv. Qed.

(** ** Resource rules

    [v1.Rule] and [v1.RuleWithOperations] are aliases, the same type in both
    dialects; they are embedded, so their fields are encoded in the outer object. *)

Abbreviation ScopeType := string (only parsing).
Abbreviation OperationType := string (only parsing).
Abbreviation FailurePolicyType := string (only parsing).
Abbreviation MatchPolicyType := string (only parsing).
Abbreviation ValidationAction := string (only parsing).

Record Rule := {
  ru_APIGroups : slice string;
  ru_APIVersions : slice string;
  ru_Resources : slice string;
  ru_Scope : option ScopeType;
}.

Record RuleWithOperations := { rw_Operations : slice OperationType; rw_Rule : Rule }.

Record NamedRuleWithOperations (d : dialect) := {
  nr_ResourceNames : slice string;
  nr_RuleWithOperations : RuleWithOperations;
}.
Arguments Build_NamedRuleWithOperations {d}.
Arguments nr_ResourceNames {d}.
Arguments nr_RuleWithOperations {d}.

#[export] Instance NamedRuleWithOperations_codec d : JsonCodec (NamedRuleWithOperations d) :=
  struct_codec
  {| nr_ResourceNames := zero;
     nr_RuleWithOperations :=
       {| rw_Operations := zero;
          rw_Rule := {| ru_APIGroups := zero; ru_APIVersions := zero;
                        ru_Resources := zero; ru_Scope := zero |} |} |}
  (λ x, let r := nr_RuleWithOperations x in
        concat [field "resourceNames" true (nr_ResourceNames x);
                field "operations" true (rw_Operations r);
                field "apiGroups" true (ru_APIGroups (rw_Rule r));
                field "apiVersions" true (ru_APIVersions (rw_Rule r));
                field "resources" true (ru_Resources (rw_Rule r));
                field "scope" true (ru_Scope (rw_Rule r))])
  (λ fs, names ← getField "resourceNames" fs;
         operations ← getField "operations" fs;
         groups ← getField "apiGroups" fs;
         versions ← getField "apiVersions" fs;
         resources ← getField "resources" fs;
         scope ← getField "scope" fs;
         Ok {| nr_ResourceNames := names;
               nr_RuleWithOperations :=
                 {| rw_Operations := operations;
                    rw_Rule := {| ru_APIGroups := groups; ru_APIVersions := versions;
                                  ru_Resources := resources; ru_Scope := scope |} |} |}).
#[export, refine] Instance NamedRuleWithOperations_conv d e :
  Conv (NamedRuleWithOperations d) (NamedRuleWithOperations e) :=
  {| conv x :=
       let r := nr_RuleWithOperations x in
       {| nr_ResourceNames := conv (nr_ResourceNames x);
          nr_RuleWithOperations :=
            {| rw_Operations := conv (rw_Operations r);
               rw_Rule := {| ru_APIGroups := conv (ru_APIGroups (rw_Rule r));
                             ru_APIVersions := conv (ru_APIVersions (rw_Rule r));
                             ru_Resources := conv (ru_Resources (rw_Rule r));
                             ru_Scope := conv (ru_Scope (rw_Rule r)) |} |} |} |}.
Proof. { struct_spec NamedRuleWithOperations_codec. } struct_nonempty. Defined.
#[export] Instance NamedRuleWithOperations_strict d e :
  StrictConv (NamedRuleWithOperations d) (NamedRuleWithOperations e).
Proof. struct_strict. Qed.
#[export] Instance NamedRuleWithOperations_nonnull d : NonNull (NamedRuleWithOperations d).
Proof. done. Qed.
#[export] Instance NamedRuleWithOperations_trans d e f :
  ConvTrans (NamedRuleWithOperations d) (NamedRuleWithOperations e) (NamedRuleWithOperations f).
Proof.
  intros [? []]. cbn [conv NamedRuleWithOperations_conv].
  repeat (f_equal; try apply conv_trans).
Qed.

(** ** The vendored metav1 types

    [metav1.ObjectMeta], [metav1.LabelSelector] and [metav1.Condition] are not
    the program's.  Encoding an [ObjectMeta] can fail (a managed field may hold
    malformed raw JSON); the other two always encode. *)

Class MetaV1 := {
  ObjectMeta : Type;
  LabelSelector : Type;
  Condition : Type;
  zero_ObjectMeta : ObjectMeta;
  marshalObjectMeta : ObjectMeta → result string json;
  unmarshalObjectMeta : json → result string ObjectMeta;
  LabelSelector_codec :: JsonCodec LabelSelector;
  Condition_codec :: JsonCodec Condition;
}.

(** What the program relies on: what encodes decodes, to a value ([reread]) that
    encodes again and decodes to itself.  [ObjectMeta] and [Condition] stand for
    the values whose timestamps RFC 3339 can express. *)
Class MetaV1Laws `{MetaV1} := {
  reread : ObjectMeta → ObjectMeta;
  marshal_nonnull m j : marshalObjectMeta m = Ok j → j ≠ JNull;
  reread_decodes m j : marshalObjectMeta m = Ok j → unmarshalObjectMeta j = Ok (reread m);
  reread_encodes m j : marshalObjectMeta m = Ok j → ∃ j', marshalObjectMeta (reread m) = Ok j';
  reread_reread m : reread (reread m) = reread m;
  LabelSelector_conv :: Conv LabelSelector LabelSelector;
  LabelSelector_strict :: StrictConv LabelSelector LabelSelector;
  LabelSelector_nonnull :: NonNull LabelSelector;
  LabelSelector_trans :: ConvTrans LabelSelector LabelSelector LabelSelector;
  Condition_conv :: Conv Condition Condition;
  Condition_strict :: StrictConv Condition Condition;
  Condition_trans :: ConvTrans Condition Condition Condition;
}.
#[global] Arguments MetaV1Laws : clear implicits.
#[global] Arguments MetaV1Laws {_}.

Record MatchResources `{!MetaV1} (d : dialect) := {
  mr_NamespaceSelector : option LabelSelector;
  mr_ObjectSelector : option LabelSelector;
  mr_ResourceRules : slice (NamedRuleWithOperations d);
  mr_ExcludeResourceRules : slice (NamedRuleWithOperations d);
  mr_MatchPolicy : option MatchPolicyType;
}.
Arguments Build_MatchResources {_ d}.
Arguments mr_NamespaceSelector {_ d}.
Arguments mr_ObjectSelector {_ d}.
Arguments mr_ResourceRules {_ d}.
Arguments mr_ExcludeResourceRules {_ d}.
Arguments mr_MatchPolicy {_ d}.

#[export] Instance MatchResources_codec `{!MetaV1} d : JsonCodec (MatchResources d) := struct_codec
  {| mr_NamespaceSelector := zero;
     mr_ObjectSelector := zero;
     mr_ResourceRules := zero;
     mr_ExcludeResourceRules := zero;
     mr_MatchPolicy := zero |}
  (λ x, concat [field "namespaceSelector" true (mr_NamespaceSelector x);
                field "objectSelector" true (mr_ObjectSelector x);
                field "resourceRules" true (mr_ResourceRules x);
                field "excludeResourceRules" true (mr_ExcludeResourceRules x);
                field "matchPolicy" true (mr_MatchPolicy x)])
  (λ fs, f0 ← getField "namespaceSelector" fs;
         f1 ← getField "objectSelector" fs;
         f2 ← getField "resourceRules" fs;
         f3 ← getField "excludeResourceRules" fs;
         f4 ← getField "matchPolicy" fs;
         Ok {| mr_NamespaceSelector := f0;
               mr_ObjectSelector := f1;
               mr_ResourceRules := f2;
               mr_ExcludeResourceRules := f3;
               mr_MatchPolicy := f4 |}).
#[export, refine] Instance MatchResources_conv `{!MetaV1, !MetaV1Laws} d e : Conv (MatchResources d) (MatchResources e) :=
  {| conv x := {| mr_NamespaceSelector := conv (mr_NamespaceSelector x);
                  mr_ObjectSelector := conv (mr_ObjectSelector x);
                  mr_ResourceRules := conv (mr_ResourceRules x);
                  mr_ExcludeResourceRules := conv (mr_ExcludeResourceRules x);
                  mr_MatchPolicy := conv (mr_MatchPolicy x) |} |}.
Proof. { struct_spec MatchResources_codec. } struct_nonempty. Defined.
#[export] Instance MatchResources_strict `{!MetaV1, !MetaV1Laws} d e : StrictConv (MatchResources d) (MatchResources e).
Proof. struct_strict. Qed.
#[export] Instance MatchResources_nonnull `{!MetaV1} d : NonNull (MatchResources d).
Proof. done. Qed.
#[export] Instance MatchResources_trans `{!MetaV1, !MetaV1Laws} d e f : ConvTrans (MatchResources d) (MatchResources e) (MatchResources f).
Proof. struct_trans MatchResources_conv. Qed.

Record ValidatingAdmissionPolicySpec `{!MetaV1} (d : dialect) := {
  ps_ParamKind : option (ParamKind d);
  ps_MatchConstraints : option (MatchResources d);
  ps_Validations : slice (Validation d);
  ps_FailurePolicy : option FailurePolicyType;
  ps_AuditAnnotations : slice (AuditAnnotation d);
  ps_MatchConditions : slice (MatchCondition d);
}.
Arguments Build_ValidatingAdmissionPolicySpec {_ d}.
Arguments ps_ParamKind {_ d}.
Arguments ps_MatchConstraints {_ d}.
Arguments ps_Validations {_ d}.
Arguments ps_FailurePolicy {_ d}.
Arguments ps_AuditAnnotations {_ d}.
Arguments ps_MatchConditions {_ d}.

#[export] Instance ValidatingAdmissionPolicySpec_codec `{!MetaV1} d : JsonCodec (ValidatingAdmissionPolicySpec d) := struct_codec
  {| ps_ParamKind := zero;
     ps_MatchConstraints := zero;
     ps_Validations := zero;
     ps_FailurePolicy := zero;
     ps_AuditAnnotations := zero;
     ps_MatchConditions := zero |}
  (λ x, concat [field "paramKind" true (ps_ParamKind x);
                field "matchConstraints" (omit_native d) (ps_MatchConstraints x);
                field "validations" true (ps_Validations x);
                field "failurePolicy" true (ps_FailurePolicy x);
                field "auditAnnotations" true (ps_AuditAnnotations x);
                field "matchConditions" true (ps_MatchConditions x)])
  (λ fs, f0 ← getField "paramKind" fs;
         f1 ← getField "matchConstraints" fs;
         f2 ← getField "validations" fs;
         f3 ← getField "failurePolicy" fs;
         f4 ← getField "auditAnnotations" fs;
         f5 ← getField "matchConditions" fs;
         Ok {| ps_ParamKind := f0;
               ps_MatchConstraints := f1;
               ps_Validations := f2;
               ps_FailurePolicy := f3;
               ps_AuditAnnotations := f4;
               ps_MatchConditions := f5 |}).
#[export, refine] Instance ValidatingAdmissionPolicySpec_conv `{!MetaV1, !MetaV1Laws} d e : Conv (ValidatingAdmissionPolicySpec d) (ValidatingAdmissionPolicySpec e) :=
  {| conv x := {| ps_ParamKind := conv (ps_ParamKind x);
                  ps_MatchConstraints := conv (ps_MatchConstraints x);
                  ps_Validations := conv (ps_Validations x);
                  ps_FailurePolicy := conv (ps_FailurePolicy x);
                  ps_AuditAnnotations := conv (ps_AuditAnnotations x);
                  ps_MatchConditions := conv (ps_MatchConditions x) |} |}.
Proof. { struct_spec ValidatingAdmissionPolicySpec_codec. } struct_nonempty. Defined.
#[export] Instance ValidatingAdmissionPolicySpec_strict `{!MetaV1, !MetaV1Laws} d e : StrictConv (ValidatingAdmissionPolicySpec d) (ValidatingAdmissionPolicySpec e).
Proof. struct_strict. Qed.
#[export] Instance ValidatingAdmissionPolicySpec_nonnull `{!MetaV1} d : NonNull (ValidatingAdmissionPolicySpec d).
Proof. done. Qed.
#[export] Instance ValidatingAdmissionPolicySpec_trans `{!MetaV1, !MetaV1Laws} d e f : ConvTrans (ValidatingAdmissionPolicySpec d) (ValidatingAdmissionPolicySpec e) (ValidatingAdmissionPolicySpec f).
Proof. struct_trans ValidatingAdmissionPolicySpec_conv. Qed.

Record ValidatingAdmissionPolicyStatus `{!MetaV1} (d : dialect) := {
  pt_ObservedGeneration : int64;
  pt_TypeChecking : option (TypeChecking d);
  pt_Conditions : slice Condition;
}.
Arguments Build_ValidatingAdmissionPolicyStatus {_ d}.
Arguments pt_ObservedGeneration {_ d}.
Arguments pt_TypeChecking {_ d}.
Arguments pt_Conditions {_ d}.

#[export] Instance ValidatingAdmissionPolicyStatus_codec `{!MetaV1} d : JsonCodec (ValidatingAdmissionPolicyStatus d) := struct_codec
  {| pt_ObservedGeneration := zero;
     pt_TypeChecking := zero;
     pt_Conditions := zero |}
  (λ x, concat [field "observedGeneration" true (pt_ObservedGeneration x);
                field "typeChecking" true (pt_TypeChecking x);
                field "conditions" true (pt_Conditions x)])
  (λ fs, f0 ← getField "observedGeneration" fs;
         f1 ← getField "typeChecking" fs;
         f2 ← getField "conditions" fs;
         Ok {| pt_ObservedGeneration := f0;
               pt_TypeChecking := f1;
               pt_Conditions := f2 |}).
#[export, refine] Instance ValidatingAdmissionPolicyStatus_conv `{!MetaV1, !MetaV1Laws} d e : Conv (ValidatingAdmissionPolicyStatus d) (ValidatingAdmissionPolicyStatus e) :=
  {| conv x := {| pt_ObservedGeneration := conv (pt_ObservedGeneration x);
                  pt_TypeChecking := conv (pt_TypeChecking x);
                  pt_Conditions := conv (pt_Conditions x) |} |}.
Proof. { struct_spec ValidatingAdmissionPolicyStatus_codec. } struct_nonempty. Defined.
#[export] Instance ValidatingAdmissionPolicyStatus_strict `{!MetaV1, !MetaV1Laws} d e : StrictConv (ValidatingAdmissionPolicyStatus d) (ValidatingAdmissionPolicyStatus e).
Proof. struct_strict. Qed.
#[export] Instance ValidatingAdmissionPolicyStatus_nonnull `{!MetaV1} d : NonNull (ValidatingAdmissionPolicyStatus d).
Proof. done. Qed.
#[export] Instance ValidatingAdmissionPolicyStatus_trans `{!MetaV1, !MetaV1Laws} d e f : ConvTrans (ValidatingAdmissionPolicyStatus d) (ValidatingAdmissionPolicyStatus e) (ValidatingAdmissionPolicyStatus f).
Proof. struct_trans ValidatingAdmissionPolicyStatus_conv. Qed.

Record ValidatingAdmissionPolicyBindingSpec `{!MetaV1} (d : dialect) := {
  bs_PolicyName : string;
  bs_ParamRef : option (ParamRef d);
  bs_MatchResources : option (MatchResources d);
  bs_ValidationActions : slice ValidationAction;
}.
Arguments Build_ValidatingAdmissionPolicyBindingSpec {_ d}.
Arguments bs_PolicyName {_ d}.
Arguments bs_ParamRef {_ d}.
Arguments bs_MatchResources {_ d}.
Arguments bs_ValidationActions {_ d}.

#[export] Instance ValidatingAdmissionPolicyBindingSpec_codec `{!MetaV1} d : JsonCodec (ValidatingAdmissionPolicyBindingSpec d) := struct_codec
  {| bs_PolicyName := zero;
     bs_ParamRef := zero;
     bs_MatchResources := zero;
     bs_ValidationActions := zero |}
  (λ x, concat [field "policyName" (omit_native d) (bs_PolicyName x);
                field "paramRef" true (bs_ParamRef x);
                field "matchResources" true (bs_MatchResources x);
                field "validationActions" true (bs_ValidationActions x)])
  (λ fs, f0 ← getField "policyName" fs;
         f1 ← getField "paramRef" fs;
         f2 ← getField "matchResources" fs;
         f3 ← getField "validationActions" fs;
         Ok {| bs_PolicyName := f0;
               bs_ParamRef := f1;
               bs_MatchResources := f2;
               bs_ValidationActions := f3 |}).
#[export, refine] Instance ValidatingAdmissionPolicyBindingSpec_conv `{!MetaV1, !MetaV1Laws} d e : Conv (ValidatingAdmissionPolicyBindingSpec d) (ValidatingAdmissionPolicyBindingSpec e) :=
  {| conv x := {| bs_PolicyName := conv (bs_PolicyName x);
                  bs_ParamRef := conv (bs_ParamRef x);
                  bs_MatchResources := conv (bs_MatchResources x);
                  bs_ValidationActions := conv (bs_ValidationActions x) |} |}.
Proof. { struct_spec ValidatingAdmissionPolicyBindingSpec_codec. } struct_nonempty. Defined.
#[export] Instance ValidatingAdmissionPolicyBindingSpec_strict `{!MetaV1, !MetaV1Laws} d e : StrictConv (ValidatingAdmissionPolicyBindingSpec d) (ValidatingAdmissionPolicyBindingSpec e).
Proof. struct_strict. Qed.
#[export] Instance ValidatingAdmissionPolicyBindingSpec_nonnull `{!MetaV1} d : NonNull (ValidatingAdmissionPolicyBindingSpec d).
Proof. done. Qed.
#[export] Instance ValidatingAdmissionPolicyBindingSpec_trans `{!MetaV1, !MetaV1Laws} d e f : ConvTrans (ValidatingAdmissionPolicyBindingSpec d) (ValidatingAdmissionPolicyBindingSpec e) (ValidatingAdmissionPolicyBindingSpec f).
Proof. struct_trans ValidatingAdmissionPolicyBindingSpec_conv. Qed.

(** ** The two resources

    [json.Marshal] and [json.Unmarshal] at the top-level types.  [TypeMeta] is
    embedded; [metadata], [spec] and [status] are structs, so [omitempty] never
    drops them. *)

Section Resources.
Context `{!MetaV1}.
Implicit Types (d e : dialect) (t : TypeMeta) (fs : list (string * json)).

Definition encodeTypeMeta t : list (string * json) :=
  concat [field "kind" true (tm_Kind t); field "apiVersion" true (tm_APIVersion t)].

Definition decodeTypeMeta fs : result string TypeMeta :=
  kind ← getField "kind" fs; apiVersion ← getField "apiVersion" fs;
  Ok {| tm_Kind := kind; tm_APIVersion := apiVersion |}.

Definition decodeMetadata fs : result string ObjectMeta :=
  match lookup_field "metadata" fs with
  | None | Some JNull => Ok zero_ObjectMeta
  | Some j => unmarshalObjectMeta j
  end.

Record ValidatingAdmissionPolicy d := {
  p_TypeMeta : TypeMeta;
  p_ObjectMeta : ObjectMeta;
  p_Spec : ValidatingAdmissionPolicySpec d;
  p_Status : ValidatingAdmissionPolicyStatus d;
}.

Record ValidatingAdmissionPolicyBinding d := {
  b_TypeMeta : TypeMeta;
  b_ObjectMeta : ObjectMeta;
  b_Spec : ValidatingAdmissionPolicyBindingSpec d;
}.
End Resources.
Arguments Build_ValidatingAdmissionPolicy {_ d}.
Arguments p_TypeMeta {_ d}.
Arguments p_ObjectMeta {_ d}.
Arguments p_Spec {_ d}.
Arguments p_Status {_ d}.
Arguments Build_ValidatingAdmissionPolicyBinding {_ d}.
Arguments b_TypeMeta {_ d}.
Arguments b_ObjectMeta {_ d}.
Arguments b_Spec {_ d}.

(** What [json.Marshal] and [json.Unmarshal] do with a type that has its own
    metadata. *)
Class Resource {M : MetaV1} (P : dialect → Type) := {
  typeMeta {d} : P d → TypeMeta;
  setTypeMeta {d} : TypeMeta → P d → P d;
  objectMeta {d} : P d → ObjectMeta;
  Marshal {d} : P d → result string json;
  Unmarshal {e} : json → result string (P e);
}.

#[export] Instance policy_resource `{!MetaV1} : Resource ValidatingAdmissionPolicy := {|
  typeMeta _ := p_TypeMeta;
  setTypeMeta _ t p :=
    {| p_TypeMeta := t; p_ObjectMeta := p_ObjectMeta p; p_Spec := p_Spec p; p_Status := p_Status p |};
  objectMeta _ := p_ObjectMeta;
  Marshal _ p :=
    metadata ← marshalObjectMeta (p_ObjectMeta p);
    Ok (JObj (encodeTypeMeta (p_TypeMeta p) ++ [("metadata", metadata)]
              ++ concat [field "spec" true (p_Spec p); field "status" true (p_Status p)]));
  Unmarshal _ j :=
    match j with
    | JNull => Ok {| p_TypeMeta := zero_TypeMeta; p_ObjectMeta := zero_ObjectMeta;
                     p_Spec := zero; p_Status := zero |}
    | JObj fs =>
        t ← decodeTypeMeta fs; m ← decodeMetadata fs;
        spec ← getField "spec" fs; status ← getField "status" fs;
        Ok {| p_TypeMeta := t; p_ObjectMeta := m; p_Spec := spec; p_Status := status |}
    | _ => typeError
    end;
|}.

#[export] Instance binding_resource `{!MetaV1} : Resource ValidatingAdmissionPolicyBinding := {|
  typeMeta _ := b_TypeMeta;
  setTypeMeta _ t b :=
    {| b_TypeMeta := t; b_ObjectMeta := b_ObjectMeta b; b_Spec := b_Spec b |};
  objectMeta _ := b_ObjectMeta;
  Marshal _ b :=
    metadata ← marshalObjectMeta (b_ObjectMeta b);
    Ok (JObj (encodeTypeMeta (b_TypeMeta b) ++ [("metadata", metadata)]
              ++ concat [field "spec" true (b_Spec b)]));
  Unmarshal _ j :=
    match j with
    | JNull => Ok {| b_TypeMeta := zero_TypeMeta; b_ObjectMeta := zero_ObjectMeta; b_Spec := zero |}
    | JObj fs =>
        t ← decodeTypeMeta fs; m ← decodeMetadata fs; spec ← getField "spec" fs;
        Ok {| b_TypeMeta := t; b_ObjectMeta := m; b_Spec := spec |}
    | _ => typeError
    end;
|}.

(** What decoding an encoding at the other dialect gives, and how it commutes
    with the type metadata. *)
Definition convTypeMeta (t : TypeMeta) : TypeMeta :=
  {| tm_Kind := conv (tm_Kind t); tm_APIVersion := conv (tm_APIVersion t) |}.

Class ResourceLaws {M : MetaV1} {L : MetaV1Laws} (P : dialect → Type) {R : Resource P} := {
  decoded {d e} : P d → P e;
  Marshal_Err {d} (p : P d) err :
    Marshal p = Err err ↔ marshalObjectMeta (objectMeta p) = Err err;
  Unmarshal_Marshal {d e} (p : P d) j : Marshal p = Ok j → Unmarshal j = Ok (decoded p : P e);
  objectMeta_decoded {d e} (p : P d) : objectMeta (decoded p : P e) = reread (objectMeta p);
  typeMeta_decoded {d e} (p : P d) : typeMeta (decoded p : P e) = convTypeMeta (typeMeta p);
  decoded_decoded {d e f} (p : P d) : decoded (decoded p : P e) = (decoded p : P f);
  decoded_setTypeMeta {d e} t (p : P d) :
    decoded (setTypeMeta t p) = setTypeMeta (convTypeMeta t) (decoded p : P e);
  typeMeta_set {d} t (p : P d) : typeMeta (setTypeMeta t p) = t;
  objectMeta_set {d} t (p : P d) : objectMeta (setTypeMeta t p) = objectMeta p;
  set_set {d} t t' (p : P d) : setTypeMeta t (setTypeMeta t' p) = setTypeMeta t p;
  set_typeMeta {d} (p : P d) : setTypeMeta (typeMeta p) p = p;
}.

Section Decoding.
Context `{!MetaV1, !MetaV1Laws}.

(** Fields that are not the metadata are looked up past it, and conversely. *)
Lemma lookup_metadata t m rest :
  lookup_field "metadata" (encodeTypeMeta t ++ ("metadata", m) :: rest) = Some m.
Proof. unfold encodeTypeMeta. cbn [concat]. by rw -!app_assoc !lookup_field_skip. Qed.

Lemma getField_past_head {A} `{JsonCodec A} name t m rest :
  name ∉ ["kind"; "apiVersion"; "metadata"] →
  getField (A := A) name (encodeTypeMeta t ++ ("metadata", m) :: rest) = getField name rest.
Proof.
  intros Hn. unfold encodeTypeMeta. cbn [concat]. rw -!app_assoc.
  rw !getField_skip; [set_solver..|]. unfold getField. simpl.
  rw bool_decide_eq_false_2 //. set_solver.
Qed.

Lemma decodeTypeMeta_head t m rest :
  lookup_field "kind" rest = None → lookup_field "apiVersion" rest = None →
  decodeTypeMeta (encodeTypeMeta t ++ ("metadata", m) :: rest) = Ok (convTypeMeta t).
Proof.
  intros Hk Ha. unfold decodeTypeMeta, encodeTypeMeta. cbn [concat]. rw -!app_assoc.
  repeat get_field. done.
Qed.
Lemma decodeMetadata_head t m j rest :
  marshalObjectMeta m = Ok j → j ≠ JNull →
  decodeMetadata (encodeTypeMeta t ++ ("metadata", j) :: rest) = Ok (reread m).
Proof.
  intros Hm Hj. unfold decodeMetadata. rw lookup_metadata.
  destruct j; [done|by apply reread_decodes..].
Qed.

Lemma convTypeMeta_idem t : convTypeMeta (convTypeMeta t) = convTypeMeta t.
Proof. destruct t. unfold convTypeMeta. cbn. by rw !toValidUTF8_idem. Qed.

#[export, refine] Instance policy_laws : ResourceLaws ValidatingAdmissionPolicy :=
  {| decoded d e p := {| p_TypeMeta := convTypeMeta (p_TypeMeta p);
                         p_ObjectMeta := reread (p_ObjectMeta p);
                         p_Spec := conv (p_Spec p); p_Status := conv (p_Status p) |} |}.
Proof.
  - intros d p err. simpl. by destruct (marshalObjectMeta _).
  - intros d e p j. cbn [Marshal Unmarshal policy_resource].
    intros (m & Hm & [= <-])%bind_Ok. cbn [app].
    eapply bind_Ok_eq; [by apply decodeTypeMeta_head|].
    eapply bind_Ok_eq; [by apply decodeMetadata_head; [|eapply marshal_nonnull]|].
    rw !getField_past_head; [set_solver..|].
    eapply bind_Ok_eq; [exact (conv_strict (p_Spec p))|].
    eapply bind_Ok_eq; [exact (conv_strict (p_Status p))|]. done.
  - done.
  - done.
  - intros d e f p. f_equal; [apply convTypeMeta_idem|apply reread_reread|apply conv_trans..].
  - done.
  - done.
  - done.
  - done.
  - by intros d [].
Defined.

#[export, refine] Instance binding_laws : ResourceLaws ValidatingAdmissionPolicyBinding :=
  {| decoded d e b := {| b_TypeMeta := convTypeMeta (b_TypeMeta b);
                         b_ObjectMeta := reread (b_ObjectMeta b);
                         b_Spec := conv (b_Spec b) |} |}.
Proof.
  - intros d b err. simpl. by destruct (marshalObjectMeta _).
  - intros d e b j. cbn [Marshal Unmarshal binding_resource].
    intros (m & Hm & [= <-])%bind_Ok. cbn [app].
    eapply bind_Ok_eq; [by apply decodeTypeMeta_head|].
    eapply bind_Ok_eq; [by apply decodeMetadata_head; [|eapply marshal_nonnull]|].
    rw !getField_past_head; [set_solver..|].
    eapply bind_Ok_eq; [exact (conv_strict (b_Spec b))|]. done.
  - done.
  - done.
  - intros d e f b. f_equal; [apply convTypeMeta_idem|apply reread_reread|apply conv_trans..].
  - done.
  - done.
  - done.
  - done.
  - by intros d [].
Defined.
End Decoding.
