(* ===== verification/GoHeap.v ===== *)
(** * Go memory

    Allocations, pointers, slices and maps, for the code whose point is not to
    share memory: a heap of typed arrays, a pointer as an allocation and an index,
    a slice as an allocation, an offset and a length.  [DeepCopyable] is what the
    deep-copy functions of a type compute, [DeepCopyLaws] what they promise: the
    copy has the same contents, no allocation in common with the original, and
    nothing that was allocated before is written.  Pointers and slices of types
    that keep the promise keep it. *)
From S2P Require Import Prelude.

#[local] Set Warnings "-register-all".

(** The contents of a value, as [reflect.DeepEqual] compares them. *)
Inductive tree :=
| TString (s : string)
| TInt (n : Z)
| TBool (b : bool)
| TMap (m : gmap string string)
| TNil
| TPtr (t : tree)
| TList (ts : list tree)
| TPair (t u : tree).

Abbreviation loc := positive (only parsing).

Section Heap.
Context {ty : Type} `{!EqDecision ty} {cellty : ty → Type}.

Local Abbreviation cell t vs := (@existT ty (λ t', list (cellty t')) t vs).

Definition heap := gmap loc { t : ty & list (cellty t) }.
Implicit Types (h : heap) (t : ty) (l : loc).

(** Code that reads and allocates memory; [None] is a run-time panic. *)
Definition mem (A : Type) : Type := heap → option (A * heap).

(** The elements of an allocation of type [t]. *)
Definition cells t (c : { t : ty & list (cellty t) }) : option (list (cellty t)) :=
  match decide (projT1 c = t) with
  | left e => Some (eq_rect _ (λ t, list (cellty t)) (projT2 c) _ e)
  | right _ => None
  end.

Definition array h t l : option (list (cellty t)) := h !! l ≫= cells t.
Definition elem h t l (i : nat) : option (cellty t) := array h t l ≫= (.!! i).

Definition loadElem t l (i : nat) : mem (cellty t) := λ h,
  (λ v, (v, h)) <$> elem h t l i.

(** [make([]T, n)] and, with one element, [new(T)]. *)
Definition alloc t (vs : list (cellty t)) : mem loc := λ h,
  let l := fresh (dom h) in Some (l, <[l := cell t vs]> h).

(** A write to an element; out of range it panics. *)
Definition storeElem t l (i : nat) (v : cellty t) : mem unit := λ h,
  match array h t l with
  | Some vs =>
      if bool_decide (i < length vs) then Some (tt, <[l := cell t (<[i := v]> vs)]> h) else None
  | None => None
  end.

#[export] Instance mem_ret : MRet mem := λ A a h, Some (a, h).
#[export] Instance mem_bind : MBind mem := λ A B f m h,
  match m h with Some (a, h') => f a h' | None => None end.

Lemma cells_same t vs : cells t (cell t vs) = Some vs.
Proof.
  unfold cells. simpl. destruct (decide (t = t)) as [e|]; [|done].
  by rw (proof_irrel e eq_refl).
Qed.

Lemma array_insert h t l vs : array (<[l := cell t vs]> h) t l = Some vs.
Proof. unfold array. by rw lookup_insert_eq /= cells_same. Qed.

Lemma array_lookup h t l vs : array h t l = Some vs → h !! l = Some (cell t vs).
Proof.
  unfold array. intros ([t' vs'] & -> & Hc)%bind_Some. unfold cells in Hc. simpl in Hc.
  destruct (decide (t' = t)) as [->|]; [|done]. by injection Hc as ->.
Qed.

(** [h'] has every allocation of [h], unchanged. *)
Lemma array_mono h h' t l vs : h ⊆ h' → array h t l = Some vs → array h' t l = Some vs.
Proof.
  intros Hsub. unfold array. intros (c & Hl & Hc)%bind_Some.
  by rw (lookup_weaken _ _ _ _ Hl Hsub).
Qed.

Lemma alloc_spec h t vs :
  ∃ l, alloc t vs h = Some (l, <[l := cell t vs]> h) ∧ h !! l = None.
Proof. eexists. split; [done|]. apply not_elem_of_dom, is_fresh. Qed.

Lemma array_dom h t l vs : array h t l = Some vs → l ∈ dom h.
Proof. unfold array. intros (c & Hl & _)%bind_Some. by eapply elem_of_dom_2. Qed.

Lemma fresh_disjoint h l : h !! l = None → ({[l]} : gset loc) ## dom h.
Proof. intros Hl%not_elem_of_dom. set_solver. Qed.

(** ** What a deep copy promises *)

Class DeepCopyable (A : Type) := {
  read : heap → A → option tree;
  foot : heap → A → gset loc;
  DeepCopyInto : A → mem A;
}.

(** [copied h a r]: the outcome [r] of copying [a] in the heap [h]. *)
Definition copied `{DeepCopyable A} h (a : A) (r : option (A * heap)) : Prop :=
  ∃ a' h', r = Some (a', h') ∧ h ⊆ h' ∧ read h' a' = read h a ∧ foot h' a' ## dom h.

Class DeepCopyLaws (A : Type) `{!DeepCopyable A} : Prop := {
  read_local h h' (a : A) :
    (∀ l, l ∈ foot h a → h' !! l = h !! l) → read h' a = read h a ∧ foot h' a = foot h a;
  read_foot h (a : A) : is_Some (read h a) → foot h a ⊆ dom h;
  copy_spec h (a : A) : is_Some (read h a) → copied h a (DeepCopyInto a h);
}.

Section Laws.
Context `{DeepCopyLaws A}.

Lemma read_mono h h' (a : A) :
  is_Some (read h a) → h ⊆ h' → read h' a = read h a ∧ foot h' a = foot h a.
Proof.
  intros Hr Hsub. apply read_local. intros l Hl.
  apply read_foot in Hr. destruct (proj1 (elem_of_dom h l)) as [c Hc]; [set_solver|].
  rw Hc. by eapply lookup_weaken.
Qed.

Lemma read_insert h l c (a : A) :
  l ∉ foot h a → read (<[l := c]> h) a = read h a ∧ foot (<[l := c]> h) a = foot h a.
Proof. intros Hl. apply read_local. intros l' Hl'. rw lookup_insert_ne //. set_solver. Qed.
End Laws.

(** A value without allocations is its own copy. *)
Lemma copied_same `{DeepCopyable A} h (a : A) : foot h a = ∅ → copied h a (Some (a, h)).
Proof. intros Hf. exists a, h. set_solver. Qed.

(** ** Flat values: [*out = *in] *)

Definition flat {A} (view : A → tree) : DeepCopyable A :=
  {| read _ a := Some (view a); foot _ _ := ∅; DeepCopyInto a := mret a |}.

Lemma flat_laws {A} (view : A → tree) : @DeepCopyLaws A (flat view).
Proof. split; [done|set_solver|]. intros h a _. by apply copied_same. Qed.

#[export] Instance string_copyable : DeepCopyable string := flat TString.
#[export] Instance string_laws : DeepCopyLaws string := flat_laws TString.
#[export] Instance Z_copyable : DeepCopyable Z := flat TInt.
#[export] Instance Z_laws : DeepCopyLaws Z := flat_laws TInt.
#[export] Instance bool_copyable : DeepCopyable bool := flat TBool.
#[export] Instance bool_laws : DeepCopyLaws bool := flat_laws TBool.
(** ** Pairs, and structs as tuples of their fields *)

#[export] Instance pair_copyable `{DeepCopyable A, DeepCopyable B} : DeepCopyable (A * B) :=
  {| read h p :=
       match read h p.1, read h p.2 with Some t, Some u => Some (TPair t u) | _, _ => None end;
     foot h p := foot h p.1 ∪ foot h p.2;
     DeepCopyInto p := a ← DeepCopyInto p.1; b ← DeepCopyInto p.2; mret (a, b) |}.

#[export] Instance pair_laws `{DeepCopyLaws A, DeepCopyLaws B} : DeepCopyLaws (A * B).
Proof.
  split.
  - intros h h' [a b] Hl. cbn in *.
    destruct (read_local h h' a) as [-> ->]; [set_solver|].
    by destruct (read_local h h' b) as [-> ->]; [set_solver|].
  - intros h [a b] [t Ht]. cbn in *.
    destruct (read h a) eqn:Ha; [|done]. destruct (read h b) eqn:Hb; [|done].
    pose proof (read_foot h a (mk_is_Some _ _ Ha)).
    pose proof (read_foot h b (mk_is_Some _ _ Hb)). set_solver.
  - intros h [a b] [t Ht]. cbn in Ht.
    destruct (read h a) eqn:Ha; [|done]. destruct (read h b) eqn:Hb; [|done].
    destruct (copy_spec h a) as (a' & h1 & Ea & Hs1 & Ra & Fa); [eauto|].
    destruct (read_mono h h1 b) as [Rb1 _]; [eauto|done|].
    destruct (copy_spec h1 b) as (b' & h2 & Eb & Hs2 & Rb & Fb); [rw Rb1; eauto|].
    destruct (read_mono h1 h2 a') as [Ra2 Fa2]; [rw Ra; eauto|done|].
    exists (a', b'), h2. cbn. unfold mbind, mem_bind. rw Ea Eb. split_and!; [done| | |].
    + by trans h1.
    + by rw Ra2 Ra Rb Rb1.
    + apply subseteq_dom in Hs1. rw Fa2. set_solver.
Qed.

(** A struct with the contents and footprint of the tuple of its fields, and the
    deep copy [copy] of its own. *)
Definition struct {S A} `{DeepCopyable A} (fields : S → A) (copy : S → mem S) : DeepCopyable S :=
  {| read h s := read h (fields s); foot h s := foot h (fields s); DeepCopyInto := copy |}.

Lemma struct_laws {S A} `{DeepCopyLaws A} (fields : S → A) (build : A → S) copy :
  (∀ a, fields (build a) = a) →
  (∀ s h, copy s h = (a ← DeepCopyInto (fields s); mret (build a)) h) →
  @DeepCopyLaws S (struct fields copy).
Proof.
  intros Hfb Hcopy. split.
  - intros h h' s. apply (read_local h h' (fields s)).
  - intros h s. apply (read_foot h (fields s)).
  - intros h s Hs. destruct (copy_spec h (fields s) Hs) as (a' & h' & E & ? & ? & ?).
    exists (build a'), h'. cbn. rw Hcopy !Hfb. unfold mbind, mem_bind. by rw E.
Qed.

(** ** Pointers *)

Inductive ptr (t : ty) := PNil | Ptr (l : loc) (i : nat).
Arguments PNil {t}.
Arguments Ptr {t} l i.

(** The zero value [new] and [make] fill memory with. *)
Class Zero (A : Type) := zero : A.

(** [if in.F != nil { *out = new(T); ( *in).DeepCopyInto( *out) }], and the method
    [DeepCopy]. *)
Definition DeepCopy {t} `{!Zero (cellty t), !DeepCopyable (cellty t)} (p : ptr t) : mem (ptr t) :=
  match p with
  | PNil => mret PNil
  | Ptr l i =>
      out ← alloc t [zero];
      v ← loadElem t l i;
      v' ← DeepCopyInto v;
      storeElem t out 0 v';;
      mret (Ptr out 0)
  end.

(** [if in.F != nil { *out = new(T); **out = **in }]. *)
Definition copyFlatPtr {t} `{!Zero (cellty t)} (p : ptr t) : mem (ptr t) :=
  match p with
  | PNil => mret PNil
  | Ptr l i =>
      out ← alloc t [zero];
      v ← loadElem t l i;
      storeElem t out 0 v;;
      mret (Ptr out 0)
  end.

#[export] Instance ptr_copyable {t} `{!Zero (cellty t), !DeepCopyable (cellty t)} :
  DeepCopyable (ptr t) :=
  {| read h p := match p with
                 | PNil => Some TNil
                 | Ptr l i => v ← elem h t l i; TPtr <$> read h v
                 end;
     foot h p := match p with
                 | PNil => ∅
                 | Ptr l i => {[l]} ∪ from_option (foot h) ∅ (elem h t l i)
                 end;
     DeepCopyInto := DeepCopy |}.

Lemma elem_local h h' t l i : h' !! l = h !! l → elem h' t l i = elem h t l i.
Proof. unfold elem, array. by intros ->. Qed.

Lemma elem_dom h t l i v : elem h t l i = Some v → l ∈ dom h.
Proof. unfold elem. intros (vs & Ha & _)%bind_Some. by eapply array_dom. Qed.

Lemma elem_mono h h' t l i v : h ⊆ h' → elem h t l i = Some v → elem h' t l i = Some v.
Proof.
  unfold elem. intros Hs (vs & Ha & Hv)%bind_Some. by rw (array_mono _ _ _ _ _ Hs Ha).
Qed.

Lemma storeElem_array h t l i v vs :
  array h t l = Some vs → i < length vs →
  storeElem t l i v h = Some (tt, <[l := cell t (<[i := v]> vs)]> h).
Proof. intros Ha Hi. unfold storeElem. by rw Ha bool_decide_eq_true_2. Qed.

Lemma subseteq_insert_new h l c : h !! l = None → h ⊆ <[l := c]> h.
Proof. by apply insert_subseteq. Qed.

Lemma subseteq_insert_other h0 h l c : h0 !! l = None → h0 ⊆ h → h0 ⊆ <[l := c]> h.
Proof.
  intros Hl Hs. apply map_subseteq_spec. intros l' c' Hl'.
  rw lookup_insert_ne; [intros ->; by rw Hl in Hl'|]. by eapply lookup_weaken.
Qed.

#[export] Instance ptr_laws {t} `{!Zero (cellty t), DeepCopyLaws (cellty t)} : DeepCopyLaws (ptr t).
Proof.
  split.
  - intros h h' [|l i] Hl; [done|]. cbn in *.
    rw (elem_local h h' t l i); [apply Hl; set_solver|].
    destruct (elem h t l i) as [v|]; [|done]. simpl in *.
    by destruct (read_local h h' v) as [-> ->]; [set_solver|].
  - intros h [|l i] [u Hu]; [set_solver|]. cbn in *.
    destruct (elem h t l i) as [v|] eqn:He; [|done]. simpl in *.
    apply fmap_Some in Hu as (u' & Hu & _).
    pose proof (read_foot h v (mk_is_Some _ _ Hu)). apply elem_dom in He. set_solver.
  - intros h [|l i] [u Hu]; [by apply copied_same|]. cbn in Hu.
    destruct (elem h t l i) as [v|] eqn:He; [|done]. simpl in Hu.
    apply fmap_Some in Hu as (u' & Hu & ->).
    destruct (alloc_spec h t [zero]) as (out & Eo & Ho).
    set (h0 := <[out := cell t [zero]]> h).
    assert (h ⊆ h0) as Hs0 by by apply subseteq_insert_new.
    destruct (read_mono h h0 v) as [R0 _]; [eauto|done|].
    destruct (copy_spec h0 v) as (v' & h1 & Ev & Hs1 & R1 & F1); [rw R0; eauto|].
    assert (array h1 t out = Some [zero]) as Ha.
    { apply (array_mono h0); [done|]. apply array_insert. }
    assert (out ∉ foot h1 v') as Hout by (apply subseteq_dom in Hs0; set_solver).
    destruct (read_insert h1 out (cell t [v']) v' Hout) as [R2 F2].
    exists (Ptr out 0), (<[out := cell t [v']]> h1). split_and!.
    + cbn. unfold mbind, mem_bind. rw Eo. unfold loadElem.
      rw (elem_mono _ _ _ _ _ _ Hs0 He) /= Ev (storeElem_array _ _ _ _ _ _ Ha) //. simpl. lia.
    + apply subseteq_insert_other; [done|]. by trans h0.
    + cbn. rw He. unfold elem. rw array_insert /=. by rw R2 R1 R0.
    + cbn. unfold elem. rw array_insert /=. rw F2.
      apply not_elem_of_dom in Ho. apply subseteq_dom in Hs0. set_solver.
Qed.

(** Where the elements are flat, the two ways of copying agree. *)
Lemma copyFlatPtr_deep {t} `{!Zero (cellty t), !DeepCopyable (cellty t)} (p : ptr t) h :
  (∀ v : cellty t, DeepCopyInto v = mret v) → copyFlatPtr p h = DeepCopyInto p h.
Proof.
  intros Hflat. destruct p; [done|]. cbn. unfold mbind, mem_bind.
  destruct (alloc t [zero] h) as [[? ?]|]; [|done]. destruct (loadElem _ _ _ _) as [[? ?]|]; [|done].
  by rw Hflat.
Qed.
(** ** Slices *)

Inductive slice (t : ty) := SNil | Slice (l : loc) (off len : nat).
Arguments SNil {t}.
Arguments Slice {t} l off len.

(** The elements of a slice; [None] when it reaches past its array. *)
Definition elements {t} h l off len : option (list (cellty t)) :=
  vs ← array h t l;
  if bool_decide (off + len ≤ length vs) then Some (take len (drop off vs)) else None.

(** [for i := range *in { ( *in)[i].DeepCopyInto(&( *out)[i]) }]. *)
Fixpoint copyLoop {t} `{!DeepCopyable (cellty t)} (src : loc) (off : nat) (out : loc)
    (idxs : list nat) : mem unit :=
  match idxs with
  | [] => mret tt
  | i :: idxs' =>
      v ← loadElem t src (off + i);
      v' ← DeepCopyInto v;
      storeElem t out i v';;
      copyLoop src off out idxs'
  end.

(** [if in.F != nil { *out = make([]T, len( *in)); for ... }]. *)
Definition copySlice {t} `{!Zero (cellty t), !DeepCopyable (cellty t)} (s : slice t) : mem (slice t) :=
  match s with
  | SNil => mret SNil
  | Slice l off len =>
      out ← alloc t (replicate len zero);
      copyLoop l off out (seq 0 len);;
      mret (Slice out 0 len)
  end.

(** Go's [copy] of as many elements as [idxs] has. *)
Fixpoint copyElems t (src : loc) (off : nat) (out : loc) (idxs : list nat) : mem unit :=
  match idxs with
  | [] => mret tt
  | i :: idxs' =>
      v ← loadElem t src (off + i);
      storeElem t out i v;;
      copyElems t src off out idxs'
  end.

(** [if in.F != nil { *out = make([]T, len( *in)); copy( *out, *in) }]. *)
Definition copyFlatSlice {t} `{!Zero (cellty t)} (s : slice t) : mem (slice t) :=
  match s with
  | SNil => mret SNil
  | Slice l off len =>
      out ← alloc t (replicate len zero);
      copyElems t l off out (seq 0 len);;
      mret (Slice out 0 len)
  end.

#[export] Instance slice_copyable {t} `{!Zero (cellty t), !DeepCopyable (cellty t)} :
  DeepCopyable (slice t) :=
  {| read h s := match s with
                 | SNil => Some TNil
                 | Slice l off len => vs ← elements h l off len; TList <$> mapM (read h) vs
                 end;
     foot h s := match s with
                 | SNil => ∅
                 | Slice l off len =>
                     {[l]} ∪ from_option (λ vs, ⋃ (foot h <$> vs)) ∅ (elements (t := t) h l off len)
                 end;
     DeepCopyInto := copySlice |}.

Lemma elements_Some {t} h l off len (xs : list (cellty t)) :
  elements h l off len = Some xs →
  length xs = len ∧ l ∈ dom h ∧ ∀ i x, xs !! i = Some x → elem h t l (off + i) = Some x.
Proof.
  unfold elements. intros (vs & Ha & Hx)%bind_Some. case_bool_decide; [|done]. injection Hx as <-.
  split_and!; [rw length_take length_drop; lia|by eapply array_dom|].
  intros i x Hx. apply lookup_take_Some in Hx as [Hx _].
  unfold elem. by rw Ha /= -lookup_drop.
Qed.

Lemma elements_mono {t} h h' l off len (xs : list (cellty t)) :
  h ⊆ h' → elements h l off len = Some xs → elements h' l off len = Some xs.
Proof.
  intros Hs. unfold elements. intros (vs & Ha & Hx)%bind_Some.
  by rw (array_mono _ _ _ _ _ Hs Ha).
Qed.

Lemma elements_whole {t} h l (xs : list (cellty t)) :
  array h t l = Some xs → elements h l 0 (length xs) = Some xs.
Proof.
  intros Ha. unfold elements. rw Ha /= bool_decide_eq_true_2 //. by rw drop_0 firstn_all.
Qed.

(** [ys], of [h], are copies of [xs], of [h0], made in allocations of their own. *)
Definition copies `{DeepCopyable A} (h0 h : heap) (D : gset loc) (ys xs : list A) : Prop :=
  Forall2 (λ y x, read h y = read h0 x ∧ foot h y ## D) ys xs.

Lemma mapM_Forall2 {A B C} (f : A → option C) (g : B → option C) xs ys :
  Forall2 (λ x y, f x = g y) xs ys → mapM f xs = mapM g ys.
Proof. induction 1 as [|x y xs ys Hxy _ IH]; [done|]. simpl. by rw Hxy IH. Qed.

Lemma copies_read `{DeepCopyable A} h0 h D (ys xs : list A) :
  copies h0 h D ys xs → mapM (read h) ys = mapM (read h0) xs ∧ ⋃ (foot h <$> ys) ## D.
Proof.
  intros Hc. split.
  - apply mapM_Forall2. by eapply Forall2_impl; [done|intros ?? []].
  - induction Hc as [|y x ys xs [_ Hf] _ IH]; [set_solver|]. cbn. set_solver.
Qed.

Section Copies.
Context `{DeepCopyLaws A}.
Implicit Types (xs ys : list A) (D : gset loc).

Lemma copies_mono h0 h h' D ys xs :
  (∀ x, x ∈ xs → is_Some (read h0 x)) → h ⊆ h' → copies h0 h D ys xs → copies h0 h' D ys xs.
Proof.
  intros Hx Hs Hc. induction Hc as [|y x ys xs [Hr Hf] Hc IH]; constructor.
  - assert (is_Some (read h y)) as Hy by (rw Hr; apply Hx; set_solver).
    destruct (read_mono h h' y Hy Hs) as [-> ->]. done.
  - apply IH. set_solver.
Qed.

Lemma copies_insert h0 h D l c ys xs :
  l ∈ D → copies h0 h D ys xs → copies h0 (<[l := c]> h) D ys xs.
Proof.
  intros Hl Hc. eapply Forall2_impl; [exact Hc|]. intros y x [Hr Hf]. cbn beta.
  by destruct (read_insert h l c y) as [-> ->]; [set_solver|].
Qed.
End Copies.

Section Loop.
Context {t} `{!Zero (cellty t), DeepCopyLaws (cellty t)} (h0 : heap) (src out : loc) (off : nat).
Context (xs : list (cellty t)) (Hout : h0 !! out = None).
Context (Hxs : ∀ i x, xs !! i = Some x → elem h0 t src (off + i) = Some x).
Context (Hread : ∀ x, x ∈ xs → is_Some (read h0 x)).

(** After [i] rounds: the first [i] elements are copies, the heap has grown. *)
Definition loop_inv (i : nat) (h : heap) : Prop :=
  ∃ ys, h0 ⊆ h ∧ array h t out = Some ys ∧ length ys = length xs ∧
        copies h0 h (dom h0 ∪ {[out]}) (take i ys) (take i xs).

Lemma copyLoop_round i h x :
  loop_inv i h → xs !! i = Some x →
  ∃ h', (∀ idxs, copyLoop (t := t) src off out (i :: idxs) h = copyLoop src off out idxs h') ∧
        loop_inv (S i) h'.
Proof.
  intros (ys & Hs & Ha & Hlen & Hc) Hx.
  assert (is_Some (read h0 x)) as Hrx by by apply Hread, (list_elem_of_lookup_2 _ i).
  destruct (read_mono h0 h x Hrx Hs) as [Rx _].
  destruct (copy_spec h x) as (x' & h1 & Ex & Hs1 & R1 & F1); [by rw Rx|].
  pose proof (array_mono _ _ _ _ _ Hs1 Ha) as Ha1. apply array_dom in Ha as Hd.
  assert (i < length ys) as Hi by (rw Hlen; by eapply lookup_lt_Some).
  assert (out ∉ foot h1 x') as Hfo by set_solver.
  exists (<[out := cell t (<[i := x']> ys)]> h1). split.
  - intros idxs. simpl. unfold mbind, mem_bind, loadElem.
    rw (elem_mono _ _ _ _ _ _ Hs (Hxs _ _ Hx)) /= Ex.
    by rw (storeElem_array _ _ _ _ _ _ Ha1 Hi).
  - exists (<[i := x']> ys). split_and!.
    + apply subseteq_insert_other; [done|]. by trans h.
    + apply array_insert.
    + by rw length_insert.
    + rw (take_S_r xs i x Hx) (take_S_r (<[i := x']> ys) i x'); [by apply list_lookup_insert_eq|].
      rw take_insert_ge //. apply Forall2_app; [|constructor; [|constructor]].
      * apply copies_insert; [set_solver|]. apply (copies_mono h0 h); [|done..].
        intros y [j [Hj _]%lookup_take_Some]%list_elem_of_lookup_1.
        by apply Hread, (list_elem_of_lookup_2 _ j).
      * destruct (read_insert h1 out (cell t (<[i := x']> ys)) x' Hfo) as [-> ->].
        rw R1 Rx. split; [done|]. apply subseteq_dom in Hs. set_solver.
Qed.

Lemma copyLoop_spec todo i h :
  i + todo = length xs → loop_inv i h →
  ∃ h', copyLoop (t := t) src off out (seq i todo) h = Some (tt, h') ∧ loop_inv (length xs) h'.
Proof.
  revert i h. induction todo as [|todo IH]; intros i h Hi Hinv.
  - exists h. split; [done|]. by rw -Hi Nat.add_0_r.
  - destruct (lookup_lt_is_Some_2 xs i) as [x Hx]; [lia|].
    destruct (copyLoop_round i h x Hinv Hx) as (h' & E & Hinv').
    destruct (IH (S i) h') as (h'' & E' & Hinv''); [lia|done|].
    exists h''. split; [|done]. rw -E'. apply E.
Qed.
End Loop.

Section SliceLaws.
Context {t} `{!Zero (cellty t), DeepCopyLaws (cellty t)}.
Implicit Types (s : slice t).

Lemma slice_local h h' s :
  (∀ l, l ∈ foot h s → h' !! l = h !! l) → read h' s = read h s ∧ foot h' s = foot h s.
Proof.
  destruct s as [|l off len]; [done|]. cbn. intros Hl.
  assert (elements (t := t) h' l off len = elements h l off len) as ->.
  { unfold elements, array. by rw Hl; [set_solver|]. }
  destruct (elements h l off len) as [vs|]; [|done]. simpl in *.
  assert (∀ v, v ∈ vs → read h' v = read h v ∧ foot h' v = foot h v) as Hv.
  { intros v Hv. apply read_local. intros l' Hl'. apply Hl, elem_of_union_r, elem_of_union_list.
    exists (foot h v). split; [by apply list_elem_of_fmap_2|done]. }
  split; f_equal.
  - apply Forall_mapM_ext, Forall_forall. intros v ?. by apply Hv.
  - f_equal. apply list_fmap_ext. intros i v Hi. by apply Hv, (list_elem_of_lookup_2 _ i).
Qed.

Lemma slice_read_Some h l off len :
  is_Some (read h (Slice l off len : slice t)) →
  ∃ xs, elements h l off len = Some xs ∧ ∀ x, x ∈ xs → is_Some (read h x).
Proof.
  intros [u Hu]. cbn in Hu. apply bind_Some in Hu as (xs & He & (us & Hu & _)%fmap_Some).
  exists xs. split; [done|]. apply Forall_forall, (mapM_is_Some_1 (read h)). by rw Hu.
Qed.

Lemma slice_foot h s : is_Some (read h s) → foot h s ⊆ dom h.
Proof.
  destruct s as [|l off len]; [set_solver|]. intros (xs & He & Hx)%slice_read_Some. cbn. rw He /=.
  apply elements_Some in He as (_ & Hd & _). apply union_subseteq. split; [set_solver|].
  intros l' (X & HX & Hl')%elem_of_union_list. apply list_elem_of_fmap in HX as (v & -> & Hv).
  by eapply read_foot; [apply Hx|].
Qed.

Lemma slice_copy h s : is_Some (read h s) → copied h s (copySlice s h).
Proof.
  destruct s as [|l off len]; [intros; by apply copied_same|]. intros (xs & He & Hx)%slice_read_Some.
  destruct (elements_Some _ _ _ _ _ He) as (Hlen & _ & Hi).
  destruct (alloc_spec h t (replicate len zero)) as (out & Eo & Ho).
  destruct (copyLoop_spec h l out off xs Ho Hi Hx len 0 (<[out := cell t (replicate len zero)]> h))
    as (h' & E & ys & Hs & Ha & Hl & Hc); [lia| |].
  { exists (replicate len zero). split_and!; [by apply subseteq_insert_new|apply array_insert| |].
    - by rw length_replicate.
    - rw !take_0. constructor. }
  rw firstn_all -Hl firstn_all in Hc. apply copies_read in Hc as [Hr Hf].
  exists (Slice out 0 len), h'. split_and!.
  - cbn. unfold mbind, mem_bind. by rw Eo E.
  - done.
  - cbn. rw -Hlen -Hl elements_whole // Hl Hlen He /=. by rw Hr.
  - cbn. rw -Hlen -Hl elements_whole //=. apply not_elem_of_dom in Ho. set_solver.
Qed.

#[export] Instance slice_laws : DeepCopyLaws (slice t).
Proof. split; [apply slice_local|apply slice_foot|apply slice_copy]. Qed.
End SliceLaws.

(** Where the elements are flat, [copy] does what the loop does. *)
Lemma copyFlatSlice_deep {t} `{!Zero (cellty t), !DeepCopyable (cellty t)} (s : slice t) h :
  (∀ v : cellty t, DeepCopyInto v = mret v) → copyFlatSlice s h = DeepCopyInto s h.
Proof.
  intros Hflat. destruct s as [|l off len]; [done|]. cbn. unfold mbind, mem_bind.
  destruct (alloc t _ h) as [[out h0]|]; [|done].
  assert (∀ idxs h, copyElems t l off out idxs h = copyLoop l off out idxs h) as ->; [|done].
  induction idxs as [|i idxs IH]; intros h1; [done|]. simpl. unfold mbind, mem_bind.
  destruct (loadElem _ _ _ _) as [[? ?]|]; [|done]. rw Hflat /=.
  by destruct (storeElem _ _ _ _ _) as [[? ?]|].
Qed.
End Heap.
Arguments heap {ty} cellty.
Arguments mem {ty} cellty A.
Arguments PNil {ty t}.
Arguments Ptr {ty t} l i.
Arguments SNil {ty t}.
Arguments Slice {ty t} l off len.
