(* ===== verification/DeepCopy.v ===== *)
(** * Deep copies of the API types

    [pkg/apis/admissionregistration.x-k8s.io/v1alpha1/zz_generated.deepcopy.go] and
    the vendored deep copies it calls, on the structs as they lie in memory:
    pointers, slices and maps refer to the heap of [GoHeap].  [X_DeepCopyInto]
    returns the struct the Go method writes to [out]; what it starts with,
    [*out = *in], is the flat fields taken from [in].  The type of [time.Time]'s
    zone pointer is an immutable value, so a zone is its name. *)
From S2P Require Import Prelude ApiMachinery GoHeap.

(** ** The types that are pointed to or lie in arrays *)

Inductive ty :=
  | TyString | TyInt64 | TyByte | TyBool | TyStrMap | TyTime | TyFieldsV1 | TyOwnerReference
  | TyManagedFieldsEntry | TyRequirement | TyLabelSelector | TyCondition | TyNamedRule
  | TyMatchResources | TyAuditAnnotation | TyMatchCondition | TyExpressionWarning | TyParamKind
  | TyParamRef | TyValidation | TyTypeChecking | TyPolicySpec | TyPolicyStatus | TyBindingSpec
  | TyPolicy | TyBinding | TyPolicyList | TyBindingList.

#[export] Instance ty_eq_dec : EqDecision ty.
Proof. solve_decision. Defined.

(** [map[string]string]. *)
Inductive gomap := MNil | MRef (l : loc).

(** ** The structs *)

Record Time := {
  t_wall : Z;
  t_ext : Z;
  t_zone : string;
}.

Record OwnerReference := {
  or_APIVersion : string;
  or_Kind : string;
  or_Name : string;
  or_UID : string;
  or_Controller : ptr TyBool;
  or_BlockOwnerDeletion : ptr TyBool;
}.

Record FieldsV1 := {
  fv_Raw : slice TyByte;
}.

Record ManagedFieldsEntry := {
  mf_Manager : string;
  mf_Operation : string;
  mf_APIVersion : string;
  mf_Time : ptr TyTime;
  mf_FieldsType : string;
  mf_FieldsV1 : ptr TyFieldsV1;
  mf_Subresource : string;
}.

Record ObjectMeta := {
  om_Name : string;
  om_GenerateName : string;
  om_Namespace : string;
  om_SelfLink : string;
  om_UID : string;
  om_ResourceVersion : string;
  om_Generation : Z;
  om_CreationTimestamp : Time;
  om_DeletionTimestamp : ptr TyTime;
  om_DeletionGracePeriodSeconds : ptr TyInt64;
  om_Labels : gomap;
  om_Annotations : gomap;
  om_OwnerReferences : slice TyOwnerReference;
  om_Finalizers : slice TyString;
  om_ManagedFields : slice TyManagedFieldsEntry;
}.

Record ListMeta := {
  lm_SelfLink : string;
  lm_ResourceVersion : string;
  lm_Continue : string;
  lm_RemainingItemCount : ptr TyInt64;
}.

Record LabelSelectorRequirement := {
  lr_Key : string;
  lr_Operator : string;
  lr_Values : slice TyString;
}.

Record LabelSelector := {
  ls_MatchLabels : gomap;
  ls_MatchExpressions : slice TyRequirement;
}.

Record Condition := {
  co_Type : string;
  co_Status : string;
  co_ObservedGeneration : Z;
  co_LastTransitionTime : Time;
  co_Reason : string;
  co_Message : string;
}.

Record Rule := {
  ru_APIGroups : slice TyString;
  ru_APIVersions : slice TyString;
  ru_Resources : slice TyString;
  ru_Scope : ptr TyString;
}.

Record RuleWithOperations := {
  ro_Operations : slice TyString;
  ro_Rule : Rule;
}.

Record NamedRuleWithOperations := {
  nr_ResourceNames : slice TyString;
  nr_RuleWithOperations : RuleWithOperations;
}.

Record MatchResources := {
  mr_NamespaceSelector : ptr TyLabelSelector;
  mr_ObjectSelector : ptr TyLabelSelector;
  mr_ResourceRules : slice TyNamedRule;
  mr_ExcludeResourceRules : slice TyNamedRule;
  mr_MatchPolicy : ptr TyString;
}.

Record AuditAnnotation := {
  aa_Key : string;
  aa_ValueExpression : string;
}.

Record MatchCondition := {
  mc_Name : string;
  mc_Expression : string;
}.

Record ExpressionWarning := {
  ew_FieldRef : string;
  ew_Warning : string;
}.

Record ParamKind := {
  pk_APIVersion : string;
  pk_Kind : string;
}.

Record ParamRef := {
  pr_Name : string;
  pr_Namespace : string;
}.

Record Validation := {
  va_Expression : string;
  va_Message : string;
  va_Reason : ptr TyString;
  va_MessageExpression : string;
}.

Record TypeChecking := {
  tc_ExpressionWarnings : slice TyExpressionWarning;
}.

Record ValidatingAdmissionPolicySpec := {
  ps_ParamKind : ptr TyParamKind;
  ps_MatchConstraints : ptr TyMatchResources;
  ps_Validations : slice TyValidation;
  ps_FailurePolicy : ptr TyString;
  ps_AuditAnnotations : slice TyAuditAnnotation;
  ps_MatchConditions : slice TyMatchCondition;
}.

Record ValidatingAdmissionPolicyStatus := {
  pt_ObservedGeneration : Z;
  pt_TypeChecking : ptr TyTypeChecking;
  pt_Conditions : slice TyCondition;
}.

Record ValidatingAdmissionPolicyBindingSpec := {
  bs_PolicyName : string;
  bs_ParamRef : ptr TyParamRef;
  bs_MatchResources : ptr TyMatchResources;
  bs_ValidationActions : slice TyString;
}.

Record ValidatingAdmissionPolicy := {
  p_TypeMeta : TypeMeta;
  p_ObjectMeta : ObjectMeta;
  p_Spec : ValidatingAdmissionPolicySpec;
  p_Status : ValidatingAdmissionPolicyStatus;
}.

Record ValidatingAdmissionPolicyBinding := {
  b_TypeMeta : TypeMeta;
  b_ObjectMeta : ObjectMeta;
  b_Spec : ValidatingAdmissionPolicyBindingSpec;
}.

Record ValidatingAdmissionPolicyList := {
  pl_TypeMeta : TypeMeta;
  pl_ListMeta : ListMeta;
  pl_Items : slice TyPolicy;
}.

Record ValidatingAdmissionPolicyBindingList := {
  bl_TypeMeta : TypeMeta;
  bl_ListMeta : ListMeta;
  bl_Items : slice TyBinding;
}.

Definition cellty (t : ty) : Type :=
  match t with
  | TyString => string
  | TyInt64 => Z
  | TyByte => Z
  | TyBool => bool
  | TyStrMap => gmap string string
  | TyTime => Time
  | TyFieldsV1 => FieldsV1
  | TyOwnerReference => OwnerReference
  | TyManagedFieldsEntry => ManagedFieldsEntry
  | TyRequirement => LabelSelectorRequirement
  | TyLabelSelector => LabelSelector
  | TyCondition => Condition
  | TyNamedRule => NamedRuleWithOperations
  | TyMatchResources => MatchResources
  | TyAuditAnnotation => AuditAnnotation
  | TyMatchCondition => MatchCondition
  | TyExpressionWarning => ExpressionWarning
  | TyParamKind => ParamKind
  | TyParamRef => ParamRef
  | TyValidation => Validation
  | TyTypeChecking => TypeChecking
  | TyPolicySpec => ValidatingAdmissionPolicySpec
  | TyPolicyStatus => ValidatingAdmissionPolicyStatus
  | TyBindingSpec => ValidatingAdmissionPolicyBindingSpec
  | TyPolicy => ValidatingAdmissionPolicy
  | TyBinding => ValidatingAdmissionPolicyBinding
  | TyPolicyList => ValidatingAdmissionPolicyList
  | TyBindingList => ValidatingAdmissionPolicyBindingList
  end.

Abbreviation Heap := (heap cellty).
Abbreviation Mem := (mem cellty).

(** ** Zero values *)

#[export] Instance string_zero : Zero string := "".
#[export] Instance Z_zero : Zero Z := 0%Z.
#[export] Instance bool_zero : Zero bool := false.
#[export] Instance map_zero : Zero (gmap string string) := (∅ : gmap string string).
#[export] Instance gomap_zero : Zero gomap := MNil.
#[export] Instance ptr_zero (t : ty) : Zero (ptr t) := PNil.
#[export] Instance slice_zero (t : ty) : Zero (slice t) := SNil.
#[export] Instance TypeMeta_zero : Zero TypeMeta := {| tm_Kind := zero; tm_APIVersion := zero |}.
#[export] Instance Time_zero : Zero Time :=
  {| t_wall := zero; t_ext := zero; t_zone := zero |}.
#[export] Instance OwnerReference_zero : Zero OwnerReference :=
  {| or_APIVersion := zero; or_Kind := zero; or_Name := zero; or_UID := zero;
     or_Controller := zero; or_BlockOwnerDeletion := zero |}.
#[export] Instance FieldsV1_zero : Zero FieldsV1 :=
  {| fv_Raw := zero |}.
#[export] Instance ManagedFieldsEntry_zero : Zero ManagedFieldsEntry :=
  {| mf_Manager := zero; mf_Operation := zero; mf_APIVersion := zero; mf_Time := zero;
     mf_FieldsType := zero; mf_FieldsV1 := zero; mf_Subresource := zero |}.
#[export] Instance ObjectMeta_zero : Zero ObjectMeta :=
  {| om_Name := zero; om_GenerateName := zero; om_Namespace := zero; om_SelfLink := zero;
     om_UID := zero; om_ResourceVersion := zero; om_Generation := zero;
     om_CreationTimestamp := zero; om_DeletionTimestamp := zero;
     om_DeletionGracePeriodSeconds := zero; om_Labels := zero; om_Annotations := zero;
     om_OwnerReferences := zero; om_Finalizers := zero; om_ManagedFields := zero |}.
#[export] Instance ListMeta_zero : Zero ListMeta :=
  {| lm_SelfLink := zero; lm_ResourceVersion := zero; lm_Continue := zero;
     lm_RemainingItemCount := zero |}.
#[export] Instance LabelSelectorRequirement_zero : Zero LabelSelectorRequirement :=
  {| lr_Key := zero; lr_Operator := zero; lr_Values := zero |}.
#[export] Instance LabelSelector_zero : Zero LabelSelector :=
  {| ls_MatchLabels := zero; ls_MatchExpressions := zero |}.
#[export] Instance Condition_zero : Zero Condition :=
  {| co_Type := zero; co_Status := zero; co_ObservedGeneration := zero;
     co_LastTransitionTime := zero; co_Reason := zero; co_Message := zero |}.
#[export] Instance Rule_zero : Zero Rule :=
  {| ru_APIGroups := zero; ru_APIVersions := zero; ru_Resources := zero; ru_Scope := zero |}.
#[export] Instance RuleWithOperations_zero : Zero RuleWithOperations :=
  {| ro_Operations := zero; ro_Rule := zero |}.
#[export] Instance NamedRuleWithOperations_zero : Zero NamedRuleWithOperations :=
  {| nr_ResourceNames := zero; nr_RuleWithOperations := zero |}.
#[export] Instance MatchResources_zero : Zero MatchResources :=
  {| mr_NamespaceSelector := zero; mr_ObjectSelector := zero; mr_ResourceRules := zero;
     mr_ExcludeResourceRules := zero; mr_MatchPolicy := zero |}.
#[export] Instance AuditAnnotation_zero : Zero AuditAnnotation :=
  {| aa_Key := zero; aa_ValueExpression := zero |}.
#[export] Instance MatchCondition_zero : Zero MatchCondition :=
  {| mc_Name := zero; mc_Expression := zero |}.
#[export] Instance ExpressionWarning_zero : Zero ExpressionWarning :=
  {| ew_FieldRef := zero; ew_Warning := zero |}.
#[export] Instance ParamKind_zero : Zero ParamKind :=
  {| pk_APIVersion := zero; pk_Kind := zero |}.
#[export] Instance ParamRef_zero : Zero ParamRef :=
  {| pr_Name := zero; pr_Namespace := zero |}.
#[export] Instance Validation_zero : Zero Validation :=
  {| va_Expression := zero; va_Message := zero; va_Reason := zero; va_MessageExpression := zero |}.
#[export] Instance TypeChecking_zero : Zero TypeChecking :=
  {| tc_ExpressionWarnings := zero |}.
#[export] Instance ValidatingAdmissionPolicySpec_zero : Zero ValidatingAdmissionPolicySpec :=
  {| ps_ParamKind := zero; ps_MatchConstraints := zero; ps_Validations := zero;
     ps_FailurePolicy := zero; ps_AuditAnnotations := zero; ps_MatchConditions := zero |}.
#[export] Instance ValidatingAdmissionPolicyStatus_zero : Zero ValidatingAdmissionPolicyStatus :=
  {| pt_ObservedGeneration := zero; pt_TypeChecking := zero; pt_Conditions := zero |}.
#[export] Instance ValidatingAdmissionPolicyBindingSpec_zero :
  Zero ValidatingAdmissionPolicyBindingSpec :=
  {| bs_PolicyName := zero; bs_ParamRef := zero; bs_MatchResources := zero;
     bs_ValidationActions := zero |}.
#[export] Instance ValidatingAdmissionPolicy_zero : Zero ValidatingAdmissionPolicy :=
  {| p_TypeMeta := zero; p_ObjectMeta := zero; p_Spec := zero; p_Status := zero |}.
#[export] Instance ValidatingAdmissionPolicyBinding_zero :
  Zero ValidatingAdmissionPolicyBinding :=
  {| b_TypeMeta := zero; b_ObjectMeta := zero; b_Spec := zero |}.
#[export] Instance ValidatingAdmissionPolicyList_zero : Zero ValidatingAdmissionPolicyList :=
  {| pl_TypeMeta := zero; pl_ListMeta := zero; pl_Items := zero |}.
#[export] Instance ValidatingAdmissionPolicyBindingList_zero :
  Zero ValidatingAdmissionPolicyBindingList :=
  {| bl_TypeMeta := zero; bl_ListMeta := zero; bl_Items := zero |}.

(** ** Maps *)

(** [( *out)[key] = val] for the pairs in the order [range] gives them, which Go
    does not specify; [map_to_list] is one. *)
Fixpoint mapLoop (out : loc) (kvs : list (string * string)) : Mem unit :=
  match kvs with
  | [] => mret tt
  | (key, val) :: kvs' =>
      m ← loadElem TyStrMap out 0;
      storeElem TyStrMap out 0 (<[key := val]> (m : gmap string string));;
      mapLoop out kvs'
  end.

(** [if in.F != nil { *out = make(map[string]string); for key, val := range *in ... }]. *)
Definition copyMap (m : gomap) : Mem gomap :=
  match m with
  | MNil => mret MNil
  | MRef l =>
      out ← alloc TyStrMap [∅];
      kvs ← loadElem TyStrMap l 0;
      mapLoop out (map_to_list (kvs : gmap string string));;
      mret (MRef out)
  end.

#[export] Instance gomap_copyable : DeepCopyable (cellty := cellty) gomap :=
  {| read h m := match m with MNil => Some TNil | MRef l => TMap <$> elem h TyStrMap l 0 end;
     foot h m := match m with MNil => ∅ | MRef l => {[l]} end;
     DeepCopyInto := copyMap |}.

Lemma foldl_insert_perm (kvs : list (string * string)) (m : gmap string string) :
  foldl (λ m kv, <[kv.1 := kv.2]> m) m kvs = list_to_map (reverse kvs) ∪ m.
Proof.
  revert m. induction kvs as [|[k v] kvs IH]; intros m; cbn [foldl].
  - by rw /= map_empty_union.
  - rw IH reverse_cons list_to_map_app /=. by rw -(assoc_L (∪)) -insert_union_singleton_l.
Qed.

Lemma list_to_map_reverse (m : gmap string string) :
  (list_to_map (reverse (map_to_list m)) : gmap string string) = m.
Proof.
  rw -{2}(list_to_map_to_list m). apply list_to_map_proper; [|apply reverse_Permutation].
  rw fmap_reverse reverse_Permutation. apply NoDup_fst_map_to_list.
Qed.

Lemma mapLoop_spec out kvs (m : gmap string string) (h : Heap) :
  array h TyStrMap out = Some [m] →
  mapLoop out kvs h
  = Some (tt, <[out := existT TyStrMap [foldl (λ m kv, <[kv.1 := kv.2]> m) m kvs]]> h).
Proof.
  revert m h. induction kvs as [|[k v] kvs IH]; intros m h Ha.
  - simpl. rw insert_id //. by apply array_lookup.
  - cbn [mapLoop foldl fst snd]. unfold mbind, mem_bind, loadElem, elem. rw Ha. cbn.
    rw (storeElem_array _ _ _ _ _ _ Ha); [simpl; lia|]. cbn.
    erewrite (IH (<[k := v]> m)); [|refine (array_insert (cellty := cellty) _ TyStrMap out _)].
    by rw insert_insert_eq.
Qed.

#[export] Instance gomap_laws : DeepCopyLaws (cellty := cellty) gomap.
Proof.
  split.
  - intros h h' [|l] Hl; [done|]. cbn in *. rw (elem_local h h'); [apply Hl; set_solver|done].
  - intros h [|l] [u Hu]; [set_solver|]. cbn in *. apply fmap_Some in Hu as (m & Hm & _).
    apply (elem_dom (cellty := cellty) h TyStrMap l 0) in Hm. by apply singleton_subseteq_l.
  - intros h [|l] [u Hu]; [by apply copied_same|]. cbn in Hu.
    apply fmap_Some in Hu as (m & Hm & _). cbn in m.
    destruct (alloc_spec h TyStrMap [∅ : gmap string string]) as (out & Eo & Ho).
    pose proof (subseteq_insert_new h out (existT TyStrMap [∅ : gmap string string]) Ho) as Hs.
    eexists (MRef out), _. split_and!.
    + cbn. unfold mbind, mem_bind. rw Eo. unfold loadElem at 1.
      rw (elem_mono (cellty := cellty) _ _ TyStrMap _ _ _ Hs Hm). cbn.
      erewrite mapLoop_spec; [|refine (array_insert (cellty := cellty) _ TyStrMap out _)].
      rw insert_insert_eq.
      rw foldl_insert_perm map_union_empty list_to_map_reverse. done.
    + by apply subseteq_insert_new.
    + cbn. unfold elem at 1. by rw array_insert Hm.
    + by apply fresh_disjoint.
Qed.


(** ** Structs *)

Lemma bind_ext {A B} (m m' : Mem A) (k k' : A → Mem B) h :
  m h = m' h → (∀ a h', k a h' = k' a h') → (m ≫= k) h = (m' ≫= k') h.
Proof. unfold mbind, mem_bind. intros -> Hk. by destruct (m' h) as [[]|]. Qed.

Lemma bind_ret {A B} (a : A) (k : A → Mem B) h : (mret a ≫= k) h = k a h.
Proof. done. Qed.

Lemma bind_pair {A B C} `{!DeepCopyable (cellty := cellty) A, !DeepCopyable (cellty := cellty) B}
    (p : A * B) (k : A * B → Mem C) h :
  (DeepCopyInto p ≫= k) h = (DeepCopyInto p.1 ≫= λ a, DeepCopyInto p.2 ≫= λ b, k (a, b)) h.
Proof.
  cbn. unfold mbind, mem_bind. destruct (DeepCopyInto p.1 h) as [[a h']|]; [|done].
  by destruct (DeepCopyInto p.2 h') as [[]|].
Qed.

(** A struct's deep copy is the copy of its fields in order. *)
Ltac copy_field :=
  lazymatch goal with
  | |- _ = (DeepCopyInto (_, _) ≫= _) _ => etransitivity; [|symmetry; apply bind_pair]; cbn [fst snd]
  | |- _ = _ =>
      first [ etransitivity; [apply bind_ret|]
            | etransitivity; [|symmetry; apply bind_ret]
            | apply bind_ext;
              [solve [reflexivity | apply copyFlatPtr_deep; reflexivity
                     | apply copyFlatSlice_deep; reflexivity]
              |intros ??] ]; cbn beta
  end.
Ltac struct_copy copy :=
  let s := fresh in let h := fresh in
  intros s h; destruct s; unfold copy; repeat copy_field; reflexivity.

#[export] Instance TypeMeta_copyable : DeepCopyable (cellty := cellty) TypeMeta :=
  struct (λ x, (tm_Kind x, tm_APIVersion x)) mret.
#[export] Instance TypeMeta_laws : DeepCopyLaws (cellty := cellty) TypeMeta.
Proof.
  apply (struct_laws _ (λ '(kind, version), {| tm_Kind := kind; tm_APIVersion := version |}));
    [by intros []|by intros []].
Qed.

Definition Time_DeepCopyInto (in_ : Time) : Mem Time :=
  mret in_.
#[export] Instance Time_copyable : DeepCopyable (cellty := cellty) Time :=
  struct (λ x, (t_wall x, t_ext x, t_zone x))
    Time_DeepCopyInto.
#[export] Instance Time_laws : DeepCopyLaws (cellty := cellty) Time.
Proof.
  apply (struct_laws _ (λ '(x0, x1, x2), Build_Time x0 x1 x2));
    [by intros [[? ?] ?]|struct_copy Time_DeepCopyInto].
Qed.

Definition OwnerReference_DeepCopyInto (in_ : OwnerReference) : Mem OwnerReference :=
  controller ← copyFlatPtr (or_Controller in_);
  blockOwnerDeletion ← copyFlatPtr (or_BlockOwnerDeletion in_);
  mret {| or_APIVersion := or_APIVersion in_; or_Kind := or_Kind in_; or_Name := or_Name in_;
         or_UID := or_UID in_; or_Controller := controller;
         or_BlockOwnerDeletion := blockOwnerDeletion |}.
#[export] Instance OwnerReference_copyable : DeepCopyable (cellty := cellty) OwnerReference :=
  struct (λ x, (or_APIVersion x, or_Kind x, or_Name x, or_UID x, or_Controller x,
                 or_BlockOwnerDeletion x))
    OwnerReference_DeepCopyInto.
#[export] Instance OwnerReference_laws : DeepCopyLaws (cellty := cellty) OwnerReference.
Proof.
  apply (struct_laws _ (λ '(x0, x1, x2, x3, x4, x5), Build_OwnerReference x0 x1 x2 x3 x4 x5));
    [by intros [[[[[? ?] ?] ?] ?] ?]|struct_copy OwnerReference_DeepCopyInto].
Qed.

Definition FieldsV1_DeepCopyInto (in_ : FieldsV1) : Mem FieldsV1 :=
  raw ← copyFlatSlice (fv_Raw in_);
  mret {| fv_Raw := raw |}.
#[export] Instance FieldsV1_copyable : DeepCopyable (cellty := cellty) FieldsV1 :=
  struct (λ x, (fv_Raw x))
    FieldsV1_DeepCopyInto.
#[export] Instance FieldsV1_laws : DeepCopyLaws (cellty := cellty) FieldsV1.
Proof.
  apply (struct_laws _ (λ x0, Build_FieldsV1 x0));
    [by intros|struct_copy FieldsV1_DeepCopyInto].
Qed.

Definition ManagedFieldsEntry_DeepCopyInto (in_ : ManagedFieldsEntry) : Mem ManagedFieldsEntry :=
  time ← DeepCopy (mf_Time in_);
  fieldsV1 ← DeepCopy (mf_FieldsV1 in_);
  mret {| mf_Manager := mf_Manager in_; mf_Operation := mf_Operation in_;
         mf_APIVersion := mf_APIVersion in_; mf_Time := time; mf_FieldsType := mf_FieldsType in_;
         mf_FieldsV1 := fieldsV1; mf_Subresource := mf_Subresource in_ |}.
#[export] Instance ManagedFieldsEntry_copyable :
  DeepCopyable (cellty := cellty) ManagedFieldsEntry :=
  struct (λ x, (mf_Manager x, mf_Operation x, mf_APIVersion x, mf_Time x, mf_FieldsType x,
                 mf_FieldsV1 x, mf_Subresource x))
    ManagedFieldsEntry_DeepCopyInto.
#[export] Instance ManagedFieldsEntry_laws : DeepCopyLaws (cellty := cellty) ManagedFieldsEntry.
Proof.
  apply (struct_laws _ (λ '(x0, x1, x2, x3, x4, x5, x6), Build_ManagedFieldsEntry x0 x1 x2 x3 x4
    x5 x6));
    [by intros [[[[[[? ?] ?] ?] ?] ?] ?]|struct_copy ManagedFieldsEntry_DeepCopyInto].
Qed.

Definition ObjectMeta_DeepCopyInto (in_ : ObjectMeta) : Mem ObjectMeta :=
  creationTimestamp ← Time_DeepCopyInto (om_CreationTimestamp in_);
  deletionTimestamp ← DeepCopy (om_DeletionTimestamp in_);
  deletionGracePeriodSeconds ← copyFlatPtr (om_DeletionGracePeriodSeconds in_);
  labels ← copyMap (om_Labels in_);
  annotations ← copyMap (om_Annotations in_);
  ownerReferences ← copySlice (om_OwnerReferences in_);
  finalizers ← copyFlatSlice (om_Finalizers in_);
  managedFields ← copySlice (om_ManagedFields in_);
  mret {| om_Name := om_Name in_; om_GenerateName := om_GenerateName in_;
         om_Namespace := om_Namespace in_; om_SelfLink := om_SelfLink in_; om_UID := om_UID in_;
         om_ResourceVersion := om_ResourceVersion in_; om_Generation := om_Generation in_;
         om_CreationTimestamp := creationTimestamp; om_DeletionTimestamp := deletionTimestamp;
         om_DeletionGracePeriodSeconds := deletionGracePeriodSeconds; om_Labels := labels;
         om_Annotations := annotations; om_OwnerReferences := ownerReferences;
         om_Finalizers := finalizers; om_ManagedFields := managedFields |}.
#[export] Instance ObjectMeta_copyable : DeepCopyable (cellty := cellty) ObjectMeta :=
  struct (λ x, (om_Name x, om_GenerateName x, om_Namespace x, om_SelfLink x, om_UID x,
                 om_ResourceVersion x, om_Generation x, om_CreationTimestamp x,
                 om_DeletionTimestamp x, om_DeletionGracePeriodSeconds x, om_Labels x,
                 om_Annotations x, om_OwnerReferences x, om_Finalizers x, om_ManagedFields x))
    ObjectMeta_DeepCopyInto.
#[export] Instance ObjectMeta_laws : DeepCopyLaws (cellty := cellty) ObjectMeta.
Proof.
  apply (struct_laws _ (λ '(x0, x1, x2, x3, x4, x5, x6, x7, x8, x9, x10, x11, x12, x13, x14),
    Build_ObjectMeta
    x0 x1 x2 x3 x4 x5 x6 x7 x8 x9 x10 x11 x12 x13 x14));
    [by intros [[[[[[[[[[[[[[? ?] ?] ?] ?] ?] ?] ?] ?] ?] ?] ?] ?] ?] ?]|struct_copy ObjectMeta_DeepCopyInto].
Qed.

Definition ListMeta_DeepCopyInto (in_ : ListMeta) : Mem ListMeta :=
  remainingItemCount ← copyFlatPtr (lm_RemainingItemCount in_);
  mret {| lm_SelfLink := lm_SelfLink in_; lm_ResourceVersion := lm_ResourceVersion in_;
         lm_Continue := lm_Continue in_; lm_RemainingItemCount := remainingItemCount |}.
#[export] Instance ListMeta_copyable : DeepCopyable (cellty := cellty) ListMeta :=
  struct (λ x, (lm_SelfLink x, lm_ResourceVersion x, lm_Continue x, lm_RemainingItemCount x))
    ListMeta_DeepCopyInto.
#[export] Instance ListMeta_laws : DeepCopyLaws (cellty := cellty) ListMeta.
Proof.
  apply (struct_laws _ (λ '(x0, x1, x2, x3), Build_ListMeta x0 x1 x2 x3));
    [by intros [[[? ?] ?] ?]|struct_copy ListMeta_DeepCopyInto].
Qed.

Definition LabelSelectorRequirement_DeepCopyInto (in_ : LabelSelectorRequirement) :
  Mem LabelSelectorRequirement :=
  values ← copyFlatSlice (lr_Values in_);
  mret {| lr_Key := lr_Key in_; lr_Operator := lr_Operator in_; lr_Values := values |}.
#[export] Instance LabelSelectorRequirement_copyable :
  DeepCopyable (cellty := cellty) LabelSelectorRequirement :=
  struct (λ x, (lr_Key x, lr_Operator x, lr_Values x))
    LabelSelectorRequirement_DeepCopyInto.
#[export] Instance LabelSelectorRequirement_laws :
  DeepCopyLaws (cellty := cellty) LabelSelectorRequirement.
Proof.
  apply (struct_laws _ (λ '(x0, x1, x2), Build_LabelSelectorRequirement x0 x1 x2));
    [by intros [[? ?] ?]|struct_copy LabelSelectorRequirement_DeepCopyInto].
Qed.

Definition LabelSelector_DeepCopyInto (in_ : LabelSelector) : Mem LabelSelector :=
  matchLabels ← copyMap (ls_MatchLabels in_);
  matchExpressions ← copySlice (ls_MatchExpressions in_);
  mret {| ls_MatchLabels := matchLabels; ls_MatchExpressions := matchExpressions |}.
#[export] Instance LabelSelector_copyable : DeepCopyable (cellty := cellty) LabelSelector :=
  struct (λ x, (ls_MatchLabels x, ls_MatchExpressions x))
    LabelSelector_DeepCopyInto.
#[export] Instance LabelSelector_laws : DeepCopyLaws (cellty := cellty) LabelSelector.
Proof.
  apply (struct_laws _ (λ '(x0, x1), Build_LabelSelector x0 x1));
    [by intros [? ?]|struct_copy LabelSelector_DeepCopyInto].
Qed.

Definition Condition_DeepCopyInto (in_ : Condition) : Mem Condition :=
  lastTransitionTime ← Time_DeepCopyInto (co_LastTransitionTime in_);
  mret {| co_Type := co_Type in_; co_Status := co_Status in_;
         co_ObservedGeneration := co_ObservedGeneration in_;
         co_LastTransitionTime := lastTransitionTime; co_Reason := co_Reason in_;
         co_Message := co_Message in_ |}.
#[export] Instance Condition_copyable : DeepCopyable (cellty := cellty) Condition :=
  struct (λ x, (co_Type x, co_Status x, co_ObservedGeneration x, co_LastTransitionTime x,
                 co_Reason x, co_Message x))
    Condition_DeepCopyInto.
#[export] Instance Condition_laws : DeepCopyLaws (cellty := cellty) Condition.
Proof.
  apply (struct_laws _ (λ '(x0, x1, x2, x3, x4, x5), Build_Condition x0 x1 x2 x3 x4 x5));
    [by intros [[[[[? ?] ?] ?] ?] ?]|struct_copy Condition_DeepCopyInto].
Qed.

Definition Rule_DeepCopyInto (in_ : Rule) : Mem Rule :=
  aPIGroups ← copyFlatSlice (ru_APIGroups in_);
  aPIVersions ← copyFlatSlice (ru_APIVersions in_);
  resources ← copyFlatSlice (ru_Resources in_);
  scope ← copyFlatPtr (ru_Scope in_);
  mret {| ru_APIGroups := aPIGroups; ru_APIVersions := aPIVersions; ru_Resources := resources;
         ru_Scope := scope |}.
#[export] Instance Rule_copyable : DeepCopyable (cellty := cellty) Rule :=
  struct (λ x, (ru_APIGroups x, ru_APIVersions x, ru_Resources x, ru_Scope x))
    Rule_DeepCopyInto.
#[export] Instance Rule_laws : DeepCopyLaws (cellty := cellty) Rule.
Proof.
  apply (struct_laws _ (λ '(x0, x1, x2, x3), Build_Rule x0 x1 x2 x3));
    [by intros [[[? ?] ?] ?]|struct_copy Rule_DeepCopyInto].
Qed.

Definition RuleWithOperations_DeepCopyInto (in_ : RuleWithOperations) : Mem RuleWithOperations :=
  operations ← copyFlatSlice (ro_Operations in_);
  rule ← Rule_DeepCopyInto (ro_Rule in_);
  mret {| ro_Operations := operations; ro_Rule := rule |}.
#[export] Instance RuleWithOperations_copyable :
  DeepCopyable (cellty := cellty) RuleWithOperations :=
  struct (λ x, (ro_Operations x, ro_Rule x))
    RuleWithOperations_DeepCopyInto.
#[export] Instance RuleWithOperations_laws : DeepCopyLaws (cellty := cellty) RuleWithOperations.
Proof.
  apply (struct_laws _ (λ '(x0, x1), Build_RuleWithOperations x0 x1));
    [by intros [? ?]|struct_copy RuleWithOperations_DeepCopyInto].
Qed.

Definition NamedRuleWithOperations_DeepCopyInto (in_ : NamedRuleWithOperations) :
  Mem NamedRuleWithOperations :=
  resourceNames ← copyFlatSlice (nr_ResourceNames in_);
  ruleWithOperations ← RuleWithOperations_DeepCopyInto (nr_RuleWithOperations in_);
  mret {| nr_ResourceNames := resourceNames; nr_RuleWithOperations := ruleWithOperations |}.
#[export] Instance NamedRuleWithOperations_copyable :
  DeepCopyable (cellty := cellty) NamedRuleWithOperations :=
  struct (λ x, (nr_ResourceNames x, nr_RuleWithOperations x))
    NamedRuleWithOperations_DeepCopyInto.
#[export] Instance NamedRuleWithOperations_laws :
  DeepCopyLaws (cellty := cellty) NamedRuleWithOperations.
Proof.
  apply (struct_laws _ (λ '(x0, x1), Build_NamedRuleWithOperations x0 x1));
    [by intros [? ?]|struct_copy NamedRuleWithOperations_DeepCopyInto].
Qed.

Definition MatchResources_DeepCopyInto (in_ : MatchResources) : Mem MatchResources :=
  namespaceSelector ← DeepCopy (mr_NamespaceSelector in_);
  objectSelector ← DeepCopy (mr_ObjectSelector in_);
  resourceRules ← copySlice (mr_ResourceRules in_);
  excludeResourceRules ← copySlice (mr_ExcludeResourceRules in_);
  matchPolicy ← copyFlatPtr (mr_MatchPolicy in_);
  mret {| mr_NamespaceSelector := namespaceSelector; mr_ObjectSelector := objectSelector;
         mr_ResourceRules := resourceRules; mr_ExcludeResourceRules := excludeResourceRules;
         mr_MatchPolicy := matchPolicy |}.
#[export] Instance MatchResources_copyable : DeepCopyable (cellty := cellty) MatchResources :=
  struct (λ x, (mr_NamespaceSelector x, mr_ObjectSelector x, mr_ResourceRules x,
                 mr_ExcludeResourceRules x, mr_MatchPolicy x))
    MatchResources_DeepCopyInto.
#[export] Instance MatchResources_laws : DeepCopyLaws (cellty := cellty) MatchResources.
Proof.
  apply (struct_laws _ (λ '(x0, x1, x2, x3, x4), Build_MatchResources x0 x1 x2 x3 x4));
    [by intros [[[[? ?] ?] ?] ?]|struct_copy MatchResources_DeepCopyInto].
Qed.

Definition AuditAnnotation_DeepCopyInto (in_ : AuditAnnotation) : Mem AuditAnnotation :=
  mret in_.
#[export] Instance AuditAnnotation_copyable : DeepCopyable (cellty := cellty) AuditAnnotation :=
  struct (λ x, (aa_Key x, aa_ValueExpression x))
    AuditAnnotation_DeepCopyInto.
#[export] Instance AuditAnnotation_laws : DeepCopyLaws (cellty := cellty) AuditAnnotation.
Proof.
  apply (struct_laws _ (λ '(x0, x1), Build_AuditAnnotation x0 x1));
    [by intros [? ?]|struct_copy AuditAnnotation_DeepCopyInto].
Qed.

Definition MatchCondition_DeepCopyInto (in_ : MatchCondition) : Mem MatchCondition :=
  mret in_.
#[export] Instance MatchCondition_copyable : DeepCopyable (cellty := cellty) MatchCondition :=
  struct (λ x, (mc_Name x, mc_Expression x))
    MatchCondition_DeepCopyInto.
#[export] Instance MatchCondition_laws : DeepCopyLaws (cellty := cellty) MatchCondition.
Proof.
  apply (struct_laws _ (λ '(x0, x1), Build_MatchCondition x0 x1));
    [by intros [? ?]|struct_copy MatchCondition_DeepCopyInto].
Qed.

Definition ExpressionWarning_DeepCopyInto (in_ : ExpressionWarning) : Mem ExpressionWarning :=
  mret in_.
#[export] Instance ExpressionWarning_copyable :
  DeepCopyable (cellty := cellty) ExpressionWarning :=
  struct (λ x, (ew_FieldRef x, ew_Warning x))
    ExpressionWarning_DeepCopyInto.
#[export] Instance ExpressionWarning_laws : DeepCopyLaws (cellty := cellty) ExpressionWarning.
Proof.
  apply (struct_laws _ (λ '(x0, x1), Build_ExpressionWarning x0 x1));
    [by intros [? ?]|struct_copy ExpressionWarning_DeepCopyInto].
Qed.

Definition ParamKind_DeepCopyInto (in_ : ParamKind) : Mem ParamKind :=
  mret in_.
#[export] Instance ParamKind_copyable : DeepCopyable (cellty := cellty) ParamKind :=
  struct (λ x, (pk_APIVersion x, pk_Kind x))
    ParamKind_DeepCopyInto.
#[export] Instance ParamKind_laws : DeepCopyLaws (cellty := cellty) ParamKind.
Proof.
  apply (struct_laws _ (λ '(x0, x1), Build_ParamKind x0 x1));
    [by intros [? ?]|struct_copy ParamKind_DeepCopyInto].
Qed.

Definition ParamRef_DeepCopyInto (in_ : ParamRef) : Mem ParamRef :=
  mret in_.
#[export] Instance ParamRef_copyable : DeepCopyable (cellty := cellty) ParamRef :=
  struct (λ x, (pr_Name x, pr_Namespace x))
    ParamRef_DeepCopyInto.
#[export] Instance ParamRef_laws : DeepCopyLaws (cellty := cellty) ParamRef.
Proof.
  apply (struct_laws _ (λ '(x0, x1), Build_ParamRef x0 x1));
    [by intros [? ?]|struct_copy ParamRef_DeepCopyInto].
Qed.

Definition Validation_DeepCopyInto (in_ : Validation) : Mem Validation :=
  reason ← copyFlatPtr (va_Reason in_);
  mret {| va_Expression := va_Expression in_; va_Message := va_Message in_; va_Reason := reason;
         va_MessageExpression := va_MessageExpression in_ |}.
#[export] Instance Validation_copyable : DeepCopyable (cellty := cellty) Validation :=
  struct (λ x, (va_Expression x, va_Message x, va_Reason x, va_MessageExpression x))
    Validation_DeepCopyInto.
#[export] Instance Validation_laws : DeepCopyLaws (cellty := cellty) Validation.
Proof.
  apply (struct_laws _ (λ '(x0, x1, x2, x3), Build_Validation x0 x1 x2 x3));
    [by intros [[[? ?] ?] ?]|struct_copy Validation_DeepCopyInto].
Qed.

Definition TypeChecking_DeepCopyInto (in_ : TypeChecking) : Mem TypeChecking :=
  expressionWarnings ← copyFlatSlice (tc_ExpressionWarnings in_);
  mret {| tc_ExpressionWarnings := expressionWarnings |}.
#[export] Instance TypeChecking_copyable : DeepCopyable (cellty := cellty) TypeChecking :=
  struct (λ x, (tc_ExpressionWarnings x))
    TypeChecking_DeepCopyInto.
#[export] Instance TypeChecking_laws : DeepCopyLaws (cellty := cellty) TypeChecking.
Proof.
  apply (struct_laws _ (λ x0, Build_TypeChecking x0));
    [by intros|struct_copy TypeChecking_DeepCopyInto].
Qed.

Definition ValidatingAdmissionPolicySpec_DeepCopyInto (in_ : ValidatingAdmissionPolicySpec) :
  Mem ValidatingAdmissionPolicySpec :=
  paramKind ← copyFlatPtr (ps_ParamKind in_);
  matchConstraints ← DeepCopy (ps_MatchConstraints in_);
  validations ← copySlice (ps_Validations in_);
  failurePolicy ← copyFlatPtr (ps_FailurePolicy in_);
  auditAnnotations ← copyFlatSlice (ps_AuditAnnotations in_);
  matchConditions ← copyFlatSlice (ps_MatchConditions in_);
  mret {| ps_ParamKind := paramKind; ps_MatchConstraints := matchConstraints;
         ps_Validations := validations; ps_FailurePolicy := failurePolicy;
         ps_AuditAnnotations := auditAnnotations; ps_MatchConditions := matchConditions |}.
#[export] Instance ValidatingAdmissionPolicySpec_copyable :
  DeepCopyable (cellty := cellty) ValidatingAdmissionPolicySpec :=
  struct (λ x, (ps_ParamKind x, ps_MatchConstraints x, ps_Validations x, ps_FailurePolicy x,
                 ps_AuditAnnotations x, ps_MatchConditions x))
    ValidatingAdmissionPolicySpec_DeepCopyInto.
#[export] Instance ValidatingAdmissionPolicySpec_laws :
  DeepCopyLaws (cellty := cellty) ValidatingAdmissionPolicySpec.
Proof.
  apply (struct_laws _ (λ '(x0, x1, x2, x3, x4, x5), Build_ValidatingAdmissionPolicySpec x0 x1 x2
    x3 x4 x5));
    [by intros [[[[[? ?] ?] ?] ?] ?]|struct_copy ValidatingAdmissionPolicySpec_DeepCopyInto].
Qed.

Definition ValidatingAdmissionPolicyStatus_DeepCopyInto (in_ : ValidatingAdmissionPolicyStatus) :
  Mem ValidatingAdmissionPolicyStatus :=
  typeChecking ← DeepCopy (pt_TypeChecking in_);
  conditions ← copySlice (pt_Conditions in_);
  mret {| pt_ObservedGeneration := pt_ObservedGeneration in_; pt_TypeChecking := typeChecking;
         pt_Conditions := conditions |}.
#[export] Instance ValidatingAdmissionPolicyStatus_copyable :
  DeepCopyable (cellty := cellty) ValidatingAdmissionPolicyStatus :=
  struct (λ x, (pt_ObservedGeneration x, pt_TypeChecking x, pt_Conditions x))
    ValidatingAdmissionPolicyStatus_DeepCopyInto.
#[export] Instance ValidatingAdmissionPolicyStatus_laws :
  DeepCopyLaws (cellty := cellty) ValidatingAdmissionPolicyStatus.
Proof.
  apply (struct_laws _ (λ '(x0, x1, x2), Build_ValidatingAdmissionPolicyStatus x0 x1 x2));
    [by intros [[? ?] ?]|struct_copy ValidatingAdmissionPolicyStatus_DeepCopyInto].
Qed.

Definition ValidatingAdmissionPolicyBindingSpec_DeepCopyInto (in_ : ValidatingAdmissionPolicyBindingSpec) :
  Mem ValidatingAdmissionPolicyBindingSpec :=
  paramRef ← copyFlatPtr (bs_ParamRef in_);
  matchResources ← DeepCopy (bs_MatchResources in_);
  validationActions ← copyFlatSlice (bs_ValidationActions in_);
  mret {| bs_PolicyName := bs_PolicyName in_; bs_ParamRef := paramRef;
         bs_MatchResources := matchResources; bs_ValidationActions := validationActions |}.
#[export] Instance ValidatingAdmissionPolicyBindingSpec_copyable :
  DeepCopyable (cellty := cellty) ValidatingAdmissionPolicyBindingSpec :=
  struct (λ x, (bs_PolicyName x, bs_ParamRef x, bs_MatchResources x, bs_ValidationActions x))
    ValidatingAdmissionPolicyBindingSpec_DeepCopyInto.
#[export] Instance ValidatingAdmissionPolicyBindingSpec_laws :
  DeepCopyLaws (cellty := cellty) ValidatingAdmissionPolicyBindingSpec.
Proof.
  apply (struct_laws _ (λ '(x0, x1, x2, x3), Build_ValidatingAdmissionPolicyBindingSpec x0 x1 x2
    x3));
    [by intros [[[? ?] ?] ?]|struct_copy ValidatingAdmissionPolicyBindingSpec_DeepCopyInto].
Qed.

Definition ValidatingAdmissionPolicy_DeepCopyInto (in_ : ValidatingAdmissionPolicy) :
  Mem ValidatingAdmissionPolicy :=
  objectMeta ← ObjectMeta_DeepCopyInto (p_ObjectMeta in_);
  spec ← ValidatingAdmissionPolicySpec_DeepCopyInto (p_Spec in_);
  status ← ValidatingAdmissionPolicyStatus_DeepCopyInto (p_Status in_);
  mret {| p_TypeMeta := p_TypeMeta in_; p_ObjectMeta := objectMeta; p_Spec := spec;
         p_Status := status |}.
#[export] Instance ValidatingAdmissionPolicy_copyable :
  DeepCopyable (cellty := cellty) ValidatingAdmissionPolicy :=
  struct (λ x, (p_TypeMeta x, p_ObjectMeta x, p_Spec x, p_Status x))
    ValidatingAdmissionPolicy_DeepCopyInto.
#[export] Instance ValidatingAdmissionPolicy_laws :
  DeepCopyLaws (cellty := cellty) ValidatingAdmissionPolicy.
Proof.
  apply (struct_laws _ (λ '(x0, x1, x2, x3), Build_ValidatingAdmissionPolicy x0 x1 x2 x3));
    [by intros [[[? ?] ?] ?]|struct_copy ValidatingAdmissionPolicy_DeepCopyInto].
Qed.

Definition ValidatingAdmissionPolicyBinding_DeepCopyInto (in_ : ValidatingAdmissionPolicyBinding) :
  Mem ValidatingAdmissionPolicyBinding :=
  objectMeta ← ObjectMeta_DeepCopyInto (b_ObjectMeta in_);
  spec ← ValidatingAdmissionPolicyBindingSpec_DeepCopyInto (b_Spec in_);
  mret {| b_TypeMeta := b_TypeMeta in_; b_ObjectMeta := objectMeta; b_Spec := spec |}.
#[export] Instance ValidatingAdmissionPolicyBinding_copyable :
  DeepCopyable (cellty := cellty) ValidatingAdmissionPolicyBinding :=
  struct (λ x, (b_TypeMeta x, b_ObjectMeta x, b_Spec x))
    ValidatingAdmissionPolicyBinding_DeepCopyInto.
#[export] Instance ValidatingAdmissionPolicyBinding_laws :
  DeepCopyLaws (cellty := cellty) ValidatingAdmissionPolicyBinding.
Proof.
  apply (struct_laws _ (λ '(x0, x1, x2), Build_ValidatingAdmissionPolicyBinding x0 x1 x2));
    [by intros [[? ?] ?]|struct_copy ValidatingAdmissionPolicyBinding_DeepCopyInto].
Qed.

Definition ValidatingAdmissionPolicyList_DeepCopyInto (in_ : ValidatingAdmissionPolicyList) :
  Mem ValidatingAdmissionPolicyList :=
  listMeta ← ListMeta_DeepCopyInto (pl_ListMeta in_);
  items ← copySlice (pl_Items in_);
  mret {| pl_TypeMeta := pl_TypeMeta in_; pl_ListMeta := listMeta; pl_Items := items |}.
#[export] Instance ValidatingAdmissionPolicyList_copyable :
  DeepCopyable (cellty := cellty) ValidatingAdmissionPolicyList :=
  struct (λ x, (pl_TypeMeta x, pl_ListMeta x, pl_Items x))
    ValidatingAdmissionPolicyList_DeepCopyInto.
#[export] Instance ValidatingAdmissionPolicyList_laws :
  DeepCopyLaws (cellty := cellty) ValidatingAdmissionPolicyList.
Proof.
  apply (struct_laws _ (λ '(x0, x1, x2), Build_ValidatingAdmissionPolicyList x0 x1 x2));
    [by intros [[? ?] ?]|struct_copy ValidatingAdmissionPolicyList_DeepCopyInto].
Qed.

Definition ValidatingAdmissionPolicyBindingList_DeepCopyInto (in_ : ValidatingAdmissionPolicyBindingList) :
  Mem ValidatingAdmissionPolicyBindingList :=
  listMeta ← ListMeta_DeepCopyInto (bl_ListMeta in_);
  items ← copySlice (bl_Items in_);
  mret {| bl_TypeMeta := bl_TypeMeta in_; bl_ListMeta := listMeta; bl_Items := items |}.
#[export] Instance ValidatingAdmissionPolicyBindingList_copyable :
  DeepCopyable (cellty := cellty) ValidatingAdmissionPolicyBindingList :=
  struct (λ x, (bl_TypeMeta x, bl_ListMeta x, bl_Items x))
    ValidatingAdmissionPolicyBindingList_DeepCopyInto.
#[export] Instance ValidatingAdmissionPolicyBindingList_laws :
  DeepCopyLaws (cellty := cellty) ValidatingAdmissionPolicyBindingList.
Proof.
  apply (struct_laws _ (λ '(x0, x1, x2), Build_ValidatingAdmissionPolicyBindingList x0 x1 x2));
    [by intros [[? ?] ?]|struct_copy ValidatingAdmissionPolicyBindingList_DeepCopyInto].
Qed.

(** ** The methods [DeepCopy] and [DeepCopyObject] *)

Definition AuditAnnotation_DeepCopy :
  ptr TyAuditAnnotation → Mem (ptr TyAuditAnnotation) := DeepCopy.
Definition ExpressionWarning_DeepCopy :
  ptr TyExpressionWarning → Mem (ptr TyExpressionWarning) := DeepCopy.
Definition MatchCondition_DeepCopy :
  ptr TyMatchCondition → Mem (ptr TyMatchCondition) := DeepCopy.
Definition MatchResources_DeepCopy :
  ptr TyMatchResources → Mem (ptr TyMatchResources) := DeepCopy.
Definition NamedRuleWithOperations_DeepCopy : ptr TyNamedRule → Mem (ptr TyNamedRule) := DeepCopy.
Definition ParamKind_DeepCopy : ptr TyParamKind → Mem (ptr TyParamKind) := DeepCopy.
Definition ParamRef_DeepCopy : ptr TyParamRef → Mem (ptr TyParamRef) := DeepCopy.
Definition TypeChecking_DeepCopy : ptr TyTypeChecking → Mem (ptr TyTypeChecking) := DeepCopy.
Definition ValidatingAdmissionPolicy_DeepCopy : ptr TyPolicy → Mem (ptr TyPolicy) := DeepCopy.
Definition ValidatingAdmissionPolicyBinding_DeepCopy :
  ptr TyBinding → Mem (ptr TyBinding) := DeepCopy.
Definition ValidatingAdmissionPolicyBindingList_DeepCopy :
  ptr TyBindingList → Mem (ptr TyBindingList) := DeepCopy.
Definition ValidatingAdmissionPolicyBindingSpec_DeepCopy :
  ptr TyBindingSpec → Mem (ptr TyBindingSpec) := DeepCopy.
Definition ValidatingAdmissionPolicyList_DeepCopy :
  ptr TyPolicyList → Mem (ptr TyPolicyList) := DeepCopy.
Definition ValidatingAdmissionPolicySpec_DeepCopy :
  ptr TyPolicySpec → Mem (ptr TyPolicySpec) := DeepCopy.
Definition ValidatingAdmissionPolicyStatus_DeepCopy :
  ptr TyPolicyStatus → Mem (ptr TyPolicyStatus) := DeepCopy.
Definition Validation_DeepCopy : ptr TyValidation → Mem (ptr TyValidation) := DeepCopy.

(** A [runtime.Object] holding a pointer of type [t], or nil. *)
Definition DeepCopyObject {t} `{!Zero (cellty t), !DeepCopyable (cellty t)} (p : ptr t) :
    Mem (option (ptr t)) :=
  c ← DeepCopy p;
  match c with PNil => mret None | Ptr _ _ => mret (Some c) end.

Definition ValidatingAdmissionPolicy_DeepCopyObject :
  ptr TyPolicy → Mem (option (ptr TyPolicy)) := DeepCopyObject.
Definition ValidatingAdmissionPolicyBinding_DeepCopyObject :
  ptr TyBinding → Mem (option (ptr TyBinding)) := DeepCopyObject.
Definition ValidatingAdmissionPolicyBindingList_DeepCopyObject :
  ptr TyBindingList → Mem (option (ptr TyBindingList)) := DeepCopyObject.
Definition ValidatingAdmissionPolicyList_DeepCopyObject :
  ptr TyPolicyList → Mem (option (ptr TyPolicyList)) := DeepCopyObject.

(** ** Independence *)

(** Later assignments, each to one allocation. *)
Definition assign (ws : list (loc * { t : ty & list (cellty t) })) (h : Heap) : Heap :=
  foldl (λ h w, <[w.1 := w.2]> h) h ws.

Lemma read_assign `{!DeepCopyable (cellty := cellty) A, !DeepCopyLaws (cellty := cellty) A}
    ws (h : Heap) (a : A) :
  (∀ w, w ∈ ws → w.1 ∉ foot h a) → read (assign ws h) a = read h a.
Proof.
  revert h. induction ws as [|w ws IH]; intros h Hw; [done|]. cbn.
  destruct (read_insert h w.1 w.2 a) as [<- Hf]; [apply Hw; set_solver|].
  apply IH. intros w' Hw'. rw Hf. apply Hw. set_solver.
Qed.

(** The original and the copy are equal, and stay what they are whatever is
    written to the allocations of the other. *)
Definition independent_copy {t} `{!Zero (cellty t), !DeepCopyable (cellty t)}
    (h : Heap) (p : ptr t) (r : option (ptr t * Heap)) : Prop :=
  ∃ q h', r = Some (q, h') ∧ read h' q = read h p ∧ read h' p = read h p ∧
    (∀ ws, (∀ w, w ∈ ws → w.1 ∈ foot h p) → read (assign ws h') q = read h p) ∧
    (∀ ws, (∀ w, w ∈ ws → w.1 ∈ foot h' q) → read (assign ws h') p = read h p).

Lemma DeepCopy_independent {t} `{!Zero (cellty t), !DeepCopyable (cellty t), !DeepCopyLaws (cellty t)}
    (h : Heap) (p : ptr t) :
  is_Some (read h p) → independent_copy h p (DeepCopy p h).
Proof.
  intros Hp. destruct (copy_spec h p Hp) as (q & h' & E & Hs & Hr & Hf).
  destruct (read_mono h h' p Hp Hs) as [Rp Fp]. pose proof (read_foot h p Hp) as Hd.
  exists q, h'. split_and!; [done..| |].
  - intros ws Hw. rw read_assign //. intros w ? ?. by eapply Hf, Hd, Hw.
  - intros ws Hw. rw read_assign //. intros w Hin Hp'. rw Fp in Hp'.
    by eapply Hf; [apply Hw|apply Hd].
Qed.

(** C28: deep copies of policies, bindings and their lists have the contents of
    the original and share no memory with it: whatever is assigned to the memory
    of one, at any depth, the other still reads the same. *)
Theorem api_copies_are_independent (h : Heap) :
  (∀ p, is_Some (read h p) → independent_copy h p (ValidatingAdmissionPolicy_DeepCopy p h)) ∧
  (∀ p, is_Some (read h p) → independent_copy h p (ValidatingAdmissionPolicyBinding_DeepCopy p h)) ∧
  (∀ p, is_Some (read h p) → independent_copy h p (ValidatingAdmissionPolicyList_DeepCopy p h)) ∧
  (∀ p, is_Some (read h p) → independent_copy h p (ValidatingAdmissionPolicyBindingList_DeepCopy p h)).
Proof. split_and!; intros p Hp; by apply DeepCopy_independent. Qed.

(** [DeepCopyObject] of a nil pointer is the nil interface, not an interface
    holding a nil pointer, and of any other pointer it is a copy. *)
Theorem DeepCopyObject_nil_iff {t} `{!Zero (cellty t), !DeepCopyable (cellty t), !DeepCopyLaws (cellty t)}
    (h : Heap) (p : ptr t) :
  is_Some (read h p) →
  ∃ o h', DeepCopyObject p h = Some (o, h') ∧ (o = None ↔ p = PNil) ∧
          ∀ q, o = Some q → DeepCopy p h = Some (q, h').
Proof.
  intros Hp. destruct p as [|l i]; [by exists None, h|].
  destruct (copy_spec h (Ptr l i) Hp) as (q & h' & E & _).
  change (DeepCopy (Ptr l i) h = Some (q, h')) in E.
  unfold DeepCopyObject, mbind at 1, mem_bind at 1. rw E. destruct q as [|l' i'].
  - exfalso. revert E. unfold DeepCopy, mbind, mem_bind.
    destruct (alloc _ _ _) as [[]|]; [|done]. destruct (loadElem _ _ _ _) as [[]|]; [|done].
    destruct (DeepCopyInto _ _) as [[]|]; [|done]. by destruct (storeElem _ _ _ _ _) as [[]|].
  - exists (Some (Ptr l' i')), h'. split_and!; [done| |]; naive_solver.
Qed.

Module CopyWitness.
(** A list of one policy in which fields share memory: the two selectors are the
    same object and the strings lie in one array. *)
Definition selector :
  LabelSelector := {| ls_MatchLabels := MRef 2; ls_MatchExpressions := SNil |}.
Definition rule : NamedRuleWithOperations :=
  {| nr_ResourceNames := SNil;
     nr_RuleWithOperations :=
       {| ro_Operations := Slice 4 0 1;
          ro_Rule := {| ru_APIGroups := Slice 4 1 1; ru_APIVersions := SNil;
                        ru_Resources := Slice 4 0 2; ru_Scope := PNil |} |} |}.
Definition constraints : MatchResources :=
  {| mr_NamespaceSelector := Ptr 3 0; mr_ObjectSelector := Ptr 3 0;
     mr_ResourceRules := Slice 5 0 1; mr_ExcludeResourceRules := SNil; mr_MatchPolicy := Ptr 4 1 |}.
Definition policy : ValidatingAdmissionPolicy :=
  {| p_TypeMeta := zero;
     p_ObjectMeta := zero;
     p_Spec := {| ps_ParamKind := PNil; ps_MatchConstraints := Ptr 6 0; ps_Validations := SNil;
                  ps_FailurePolicy := Ptr 4 0; ps_AuditAnnotations := SNil; ps_MatchConditions := SNil |};
     p_Status := zero |}.
Definition policies : ValidatingAdmissionPolicyList :=
  {| pl_TypeMeta := zero; pl_ListMeta := zero; pl_Items := Slice 7 0 1 |}.

Definition memory : Heap :=
  list_to_map
    [(2%positive, existT TyStrMap [{[ "env" := "prod" ]} : gmap string string]);
     (3%positive, existT TyLabelSelector [selector]);
     (4%positive, existT TyString ["Fail"; "pods"]);
     (5%positive, existT TyNamedRule [rule]);
     (6%positive, existT TyMatchResources [constraints]);
     (7%positive, existT TyPolicy [policy]);
     (8%positive, existT TyPolicyList [policies])].

Lemma api_copies_are_independent_witness :
  independent_copy memory (Ptr 8 0) (ValidatingAdmissionPolicyList_DeepCopy (Ptr 8 0) memory).
Proof. apply (api_copies_are_independent memory). vm_compute. by eexists. Defined.

Lemma DeepCopyObject_nil_iff_witness :
  ∃ o h', DeepCopyObject (t := TyPolicyList) (Ptr 8 0) memory = Some (o, h') ∧
          (o = None ↔ (Ptr 8 0 : ptr TyPolicyList) = PNil) ∧
          ∀ q, o = Some q → ValidatingAdmissionPolicyList_DeepCopy (Ptr 8 0) memory = Some (q, h').
Proof. apply DeepCopyObject_nil_iff. vm_compute. by eexists. Defined.
End CopyWitness.

