(* ===== verification/InjectedClient.v ===== *)
(** * The client that serves the native policy API from the CRDs

    [pkg/controller/admissionregistration.x-k8s.io/v1alpha1/injected_client.go]:
    the conversions between the CRD and the native policy types, and the
    [kubernetes.Interface] whose policy clients are [TransformedClient]s over the
    CRD clients.  The conversions are written once over [Resource], the source's
    policy and binding versions being its two instances. *)
From S2P Require Import Prelude GoStrings ApiMachinery TransformedClient Json ApiTypes.


(** ** The conversions *)

Section Conversions.
Context `{!MetaV1} {P : dialect → Type} {R : Resource P}.

(** [if len(res.APIVersion) > 0 { res.APIVersion = apiVersion }] *)
Definition stampAPIVersion {d} (apiVersion : string) (res : P d) : P d :=
  if bool_decide (tm_APIVersion (typeMeta res) = "") then res
  else setTypeMeta {| tm_Kind := tm_Kind (typeMeta res); tm_APIVersion := apiVersion |} res.

(** The body of the four conversions: nil to nil, then [json.Marshal],
    [json.Unmarshal] at the other type, and the API version. *)
Definition convertThroughJSON {d e} (apiVersion : string) (vap : option (P d))
    : result error (option (P e)) :=
  match vap with
  | None => Ok None
  | Some vap =>
      match Marshal vap with
      | Err err => Err (ErrorString err)
      | Ok toJson =>
          match Unmarshal toJson with
          | Err err => Err (ErrorString err)
          | Ok res => Ok (Some (stampAPIVersion apiVersion res))
          end
      end
  end.
End Conversions.

Section Named.
Context `{!MetaV1}.

Definition NativeToCRDPolicy : option (ValidatingAdmissionPolicy Native) →
    result error (option (ValidatingAdmissionPolicy CRD)) :=
  convertThroughJSON "admissionregistration.x-k8s.io/v1alpha1".
Definition CRDToNativePolicy : option (ValidatingAdmissionPolicy CRD) →
    result error (option (ValidatingAdmissionPolicy Native)) :=
  convertThroughJSON "apiregistration.k8s.io/v1alpha1".
Definition NativeToCRDPolicyBinding : option (ValidatingAdmissionPolicyBinding Native) →
    result error (option (ValidatingAdmissionPolicyBinding CRD)) :=
  convertThroughJSON "admissionregistration.x-k8s.io/v1alpha1".
Definition CRDToNativePolicyBinding : option (ValidatingAdmissionPolicyBinding CRD) →
    result error (option (ValidatingAdmissionPolicyBinding Native)) :=
  convertThroughJSON "apiregistration.k8s.io/v1alpha1".
End Named.

(** ** The wrapped clientset *)

Section Clientset.
Context `{!MetaV1} {Opts W Rest Others : Type}.

(** The typed clients of the policy API group, native or CRD; its events carry
    objects of either. *)
Record AdmissionregistrationV1alpha1Interface (d : dialect) := {
  RESTClient : Rest;
  ValidatingAdmissionPolicies :
    ClientInterface Opts W (ValidatingAdmissionPolicy d)
      (Event (ValidatingAdmissionPolicy Native) (ValidatingAdmissionPolicy CRD));
  ValidatingAdmissionPolicyBindings :
    ClientInterface Opts W (ValidatingAdmissionPolicyBinding d)
      (Event (ValidatingAdmissionPolicyBinding Native) (ValidatingAdmissionPolicyBinding CRD));
}.
Arguments RESTClient {d}.
Arguments ValidatingAdmissionPolicies {d}.
Arguments ValidatingAdmissionPolicyBindings {d}.

(** [kubernetes.Interface] and [versioned.Interface]: the policy group's client
    and the other groups. *)
Record Clientset (d : dialect) := {
  AdmissionregistrationV1alpha1 : AdmissionregistrationV1alpha1Interface d;
  otherGroups : Others;
}.
Arguments AdmissionregistrationV1alpha1 {d}.
Arguments otherGroups {d}.

(** A [replacedClient] embeds the native client and overrides two methods. *)
Definition replacedClient (target : AdmissionregistrationV1alpha1Interface Native)
    (replacement : AdmissionregistrationV1alpha1Interface CRD)
    : AdmissionregistrationV1alpha1Interface Native :=
  {| RESTClient := RESTClient target;
     ValidatingAdmissionPolicies :=
       TransformedClient (ValidatingAdmissionPolicies replacement)
         CRDToNativePolicy NativeToCRDPolicy;
     ValidatingAdmissionPolicyBindings :=
       TransformedClient (ValidatingAdmissionPolicyBindings replacement)
         CRDToNativePolicyBinding NativeToCRDPolicyBinding |}.

Definition NewWrappedClient (client : Clientset Native) (customClient : Clientset CRD)
    : Clientset Native :=
  {| AdmissionregistrationV1alpha1 :=
       replacedClient (AdmissionregistrationV1alpha1 client)
         (AdmissionregistrationV1alpha1 customClient);
     otherGroups := otherGroups client |}.
End Clientset.
Arguments AdmissionregistrationV1alpha1Interface {_} Opts W Rest d.
Arguments RESTClient {_ Opts W Rest d}.
Arguments ValidatingAdmissionPolicies {_ Opts W Rest d}.
Arguments ValidatingAdmissionPolicyBindings {_ Opts W Rest d}.
Arguments Clientset {_} Opts W Rest Others d.
Arguments AdmissionregistrationV1alpha1 {_ Opts W Rest Others d}.
Arguments otherGroups {_ Opts W Rest Others d}.

(** ** Facts about the conversions *)

Section Facts.
Context `{!MetaV1, !MetaV1Laws} {P : dialect → Type} {R : Resource P} {L : ResourceLaws P}.
Implicit Types (d e : dialect) (v : string).

(** The value a conversion gives: the decoded object, stamped. *)
Definition converted {d e} v (p : P d) : P e := stampAPIVersion v (decoded p).

Lemma convert_Some {d e} v (p : P d) j :
  marshalObjectMeta (objectMeta p) = Ok j →
  convertThroughJSON (e := e) v (Some p) = Ok (Some (converted v p)).
Proof.
  intros Hj. unfold convertThroughJSON.
  destruct (Marshal p) as [k|err] eqn:Hm.
  - by rw (Unmarshal_Marshal (e := e) p k Hm).
  - apply Marshal_Err in Hm. congruence.
Qed.

Lemma convert_Ok_inv {d e} v (p : P d) (r : option (P e)) :
  convertThroughJSON v (Some p) = Ok r →
  (∃ j, marshalObjectMeta (objectMeta p) = Ok j) ∧ r = Some (converted v p).
Proof.
  intros Hc. destruct (marshalObjectMeta (objectMeta p)) as [j|err] eqn:Hm.
  - rw (convert_Some v p j Hm) in Hc. injection Hc as <-. eauto.
  - apply Marshal_Err in Hm. unfold convertThroughJSON in Hc. by rw Hm in Hc.
Qed.

Lemma convert_Err {d e} v (p : P d) err :
  convertThroughJSON (e := e) v (Some p) = Err err ↔
  ∃ msg, marshalObjectMeta (objectMeta p) = Err msg ∧ err = ErrorString msg.
Proof.
  destruct (marshalObjectMeta (objectMeta p)) as [j|msg] eqn:Hm.
  - rw (convert_Some v p j Hm). split; [done|by intros (? & ? & _)].
  - pose proof Hm as Hm'. apply Marshal_Err in Hm'. unfold convertThroughJSON. rw Hm'.
    split; [intros [= <-]; eauto|by intros (? & [= <-] & ->)].
Qed.

(** The type metadata of a converted object. *)
Definition stamped v (t : TypeMeta) : TypeMeta :=
  {| tm_Kind := toValidUTF8 (tm_Kind t);
     tm_APIVersion := if bool_decide (tm_APIVersion t = "") then "" else v |}.

Lemma converted_eq {d e} v (p : P d) :
  converted v p = setTypeMeta (stamped v (typeMeta p)) (decoded p : P e).
Proof.
  unfold converted, stampAPIVersion, stamped. rw typeMeta_decoded. cbn.
  rw (bool_decide_ext _ _ (toValidUTF8_empty (tm_APIVersion (typeMeta p)))).
  case_bool_decide as Ha; [|done].
  rw -{1}[decoded p]set_typeMeta typeMeta_decoded. unfold convTypeMeta. cbn. by rw Ha.
Qed.

Lemma objectMeta_converted {d e} v (p : P d) :
  objectMeta (converted v p : P e) = reread (objectMeta p).
Proof. by rw converted_eq objectMeta_set objectMeta_decoded. Qed.

(** Converting a converted object is converting the original. *)
Lemma converted_converted {d e f} v w (p : P d) :
  v ≠ "" → converted w (converted v p : P e) = (converted w p : P f).
Proof.
  intros Hv. rw !converted_eq typeMeta_set decoded_setTypeMeta decoded_decoded set_set.
  f_equal. unfold stamped. cbn. rw toValidUTF8_idem. f_equal.
  by repeat case_bool_decide.
Qed.

Lemma round_trip {d} v w (p : P d) j :
  v ≠ "" → marshalObjectMeta (objectMeta p) = Ok j →
  convertThroughJSON v (Some p) = Ok (Some (converted v p : P CRD)) ∧
  convertThroughJSON w (Some (converted v p : P CRD)) =
    Ok (Some (setTypeMeta (stamped w (typeMeta p)) (decoded p) : P Native)).
Proof.
  intros Hv Hj. split; [by eapply convert_Some|].
  destruct (reread_encodes _ _ Hj) as [j' Hj'].
  erewrite convert_Some; [|by rw objectMeta_converted]. by rw converted_converted // converted_eq.
Qed.
End Facts.

(** ** Properties *)

Section Conversion.
Context `{!MetaV1, !MetaV1Laws}.

(** C19: a native policy whose metadata encodes survives the trip to the CRD type
    and back: both conversions succeed, and kind, metadata, every field of the
    spec and of the status come back, normalised as JSON normalises them
    (invalid UTF-8 replaced, empty slices nil); only a non-empty API version is
    replaced. *)
Theorem policy_round_trip (p : ValidatingAdmissionPolicy Native) j :
  marshalObjectMeta (p_ObjectMeta p) = Ok j →
  ∃ c n, NativeToCRDPolicy (Some p) = Ok (Some c) ∧ CRDToNativePolicy (Some c) = Ok (Some n) ∧
    n = {| p_TypeMeta := stamped "apiregistration.k8s.io/v1alpha1" (p_TypeMeta p);
           p_ObjectMeta := reread (p_ObjectMeta p);
           p_Spec := conv (p_Spec p); p_Status := conv (p_Status p) |}.
Proof.
  intros Hj. eexists _, _. unfold NativeToCRDPolicy, CRDToNativePolicy.
  by edestruct (round_trip "admissionregistration.x-k8s.io/v1alpha1"
    "apiregistration.k8s.io/v1alpha1" p j) as [-> ->].
Qed.

(** The same for bindings: kind, metadata and spec come back, normalised. *)
Theorem binding_round_trip (b : ValidatingAdmissionPolicyBinding Native) j :
  marshalObjectMeta (b_ObjectMeta b) = Ok j →
  ∃ c n, NativeToCRDPolicyBinding (Some b) = Ok (Some c) ∧
    CRDToNativePolicyBinding (Some c) = Ok (Some n) ∧
    n = {| b_TypeMeta := stamped "apiregistration.k8s.io/v1alpha1" (b_TypeMeta b);
           b_ObjectMeta := reread (b_ObjectMeta b); b_Spec := conv (b_Spec b) |}.
Proof.
  intros Hj. eexists _, _. unfold NativeToCRDPolicyBinding, CRDToNativePolicyBinding.
  by edestruct (round_trip "admissionregistration.x-k8s.io/v1alpha1"
    "apiregistration.k8s.io/v1alpha1" b j) as [-> ->].
Qed.

(** The trip normalises once: a policy that came back from the CRD type is
    unchanged by another trip. *)
Theorem round_trip_is_stable (p n : ValidatingAdmissionPolicy Native) c :
  NativeToCRDPolicy (Some p) = Ok (Some c) → CRDToNativePolicy (Some c) = Ok (Some n) →
  ∃ c', NativeToCRDPolicy (Some n) = Ok (Some c') ∧ CRDToNativePolicy (Some c') = Ok (Some n).
Proof.
  intros [[j Hj] [= ->]]%convert_Ok_inv [_ [= ->]]%convert_Ok_inv.
  destruct (reread_encodes _ _ Hj) as [j' Hj'].
  eexists. split; [eapply convert_Some; by rw !objectMeta_converted reread_reread|].
  unfold CRDToNativePolicy.
  erewrite convert_Some; [|by rw !objectMeta_converted !reread_reread].
  by rw !converted_converted.
Qed.

(** Every conversion maps nil to nil, and fails on an object exactly when its
    metadata does not encode, with the encoder's error; decoding never fails. *)
Theorem conversion_fails_iff_metadata {P : dialect → Type} `{ResourceLaws P} d e v :
  convertThroughJSON (P := P) (d := d) (e := e) v None = Ok None ∧
  ∀ (p : P d) err,
    convertThroughJSON (e := e) v (Some p) = Err err ↔
    ∃ msg, marshalObjectMeta (objectMeta p) = Err msg ∧ err = ErrorString msg.
Proof. split; [done|]. intros p err. apply convert_Err. Qed.

(** A policy or binding read through the wrapped client with a type says it
    belongs to the group apiregistration.k8s.io, which is not the group of the
    policies. *)
Theorem native_objects_name_wrong_group
    (c : ValidatingAdmissionPolicy CRD) n (c' : ValidatingAdmissionPolicyBinding CRD) n' :
  CRDToNativePolicy (Some c) = Ok (Some n) → tm_APIVersion (p_TypeMeta c) ≠ "" →
  CRDToNativePolicyBinding (Some c') = Ok (Some n') → tm_APIVersion (b_TypeMeta c') ≠ "" →
  ∀ v, v ∈ [tm_APIVersion (p_TypeMeta n); tm_APIVersion (b_TypeMeta n')] →
    v = "apiregistration.k8s.io/v1alpha1" ∧ HasPrefix v "admissionregistration.k8s.io/" = false.
Proof.
  intros [_ [= ->]]%convert_Ok_inv Hc [_ [= ->]]%convert_Ok_inv Hc' v Hv.
  rw !converted_eq in Hv. cbn in Hv. unfold stamped in Hv. cbn in Hv.
  rw !bool_decide_eq_false_2 // in Hv.
  apply elem_of_cons in Hv as [->|[->|Hv%elem_of_nil]%elem_of_cons]; done.
Qed.
End Conversion.

Section Wrapped.
Context `{!MetaV1, !MetaV1Laws} {Opts W Rest Others : Type}.
Context (client : Clientset Opts W Rest Others Native).
Context (customClient : Clientset Opts W Rest Others CRD).

Abbreviation wrapped_policies :=
  (ValidatingAdmissionPolicies (AdmissionregistrationV1alpha1 (NewWrappedClient client customClient))).
Abbreviation custom_policies :=
  (ValidatingAdmissionPolicies (AdmissionregistrationV1alpha1 customClient)).

(** Listing the policies of the wrapped client lists the custom resources:
    when their metadata encodes, every one of them is in the answer, in order,
    with its spec and status. *)
Theorem wrapped_List_returns_all opts w value w' :
  List custom_policies opts w = (Done (Ok (Some value)), w') →
  (∀ c, c ∈ getItems value → is_ok (marshalObjectMeta (p_ObjectMeta c)) = true) →
  ∃ l, List wrapped_policies opts w = (Done (Ok (Some l)), w') ∧
    getItems l = (λ c, {| p_TypeMeta := stamped "apiregistration.k8s.io/v1alpha1" (p_TypeMeta c);
                          p_ObjectMeta := reread (p_ObjectMeta c);
                          p_Spec := conv (p_Spec c); p_Status := conv (p_Status c) |})
                 <$> getItems value.
Proof.
  intros Hl Hitems. eexists. split.
  - cbn. unfold tc_List. rw Hl.
    assert (convertItems CRDToNativePolicy (getItems value) =
            Done (Ok (converted "apiregistration.k8s.io/v1alpha1" <$> getItems value))) as ->; [|done].
    apply convertItems_Ok, Forall2_fmap_r, Forall_Forall2_diag, Forall_forall.
    intros c Hc%Hitems. destruct (marshalObjectMeta (p_ObjectMeta c)) as [j|] eqn:Hj; [|done].
    by eapply convert_Some.
  - cbn. apply list_fmap_ext. intros _ c _. by rw converted_eq.
Qed.

(** A policy created through the wrapped client is sent to the custom API
    with the CRD's API version (if it had one) and its spec; what the custom API
    answers is what the caller gets, converted. *)
Theorem wrapped_Create_sends_custom p j opts w c' w' j' :
  marshalObjectMeta (p_ObjectMeta p) = Ok j →
  Create custom_policies
    (Some {| p_TypeMeta := stamped "admissionregistration.x-k8s.io/v1alpha1" (p_TypeMeta p);
             p_ObjectMeta := reread (p_ObjectMeta p);
             p_Spec := conv (p_Spec p); p_Status := conv (p_Status p) |}) opts w
    = (Done (Ok (Some c')), w') →
  marshalObjectMeta (p_ObjectMeta c') = Ok j' →
  ∃ n, Create wrapped_policies (Some p) opts w = (Done (Ok (Some n)), w') ∧
       p_Spec n = conv (p_Spec c') ∧ p_Status n = conv (p_Status c') ∧
       p_ObjectMeta n = reread (p_ObjectMeta c').
Proof.
  intros Hj Hcreate Hj'. exists (converted "apiregistration.k8s.io/v1alpha1" c').
  split; [|by rw converted_eq].
  assert (NativeToCRDPolicy (Some p) =
          Ok (Some (converted "admissionregistration.x-k8s.io/v1alpha1" p))) as Hp
    by by eapply convert_Some.
  cbn. unfold tc_Create, write_through. rw Hp converted_eq Hcreate. unfold then_convert.
  assert (CRDToNativePolicy (Some c') =
          Ok (Some (converted "apiregistration.k8s.io/v1alpha1" c'))) as ->; [|done].
  by eapply convert_Some.
Qed.

(** When the custom client lets its callers read their writes and re-reading
    metadata keeps names, so does the wrapped client, for policies. *)
Theorem wrapped_reads_its_writes (name : ObjectMeta → string) :
  (∀ m, name (reread m) = name m) →
  ReadYourWrites custom_policies (λ c, name (p_ObjectMeta c)) →
  ReadYourWrites wrapped_policies (λ n, name (p_ObjectMeta n)).
Proof.
  intros Hname Hryw. apply (transformed_ryw _ _ _ (λ c, name (p_ObjectMeta c))); [done| |done].
  intros c n [_ [= ->]]%convert_Ok_inv. rw converted_eq. apply Hname.
Qed.
End Wrapped.

(** ** Witnesses

    Metadata that is a name; the name "bad" does not encode.  Label selectors and
    conditions are strings, wrapped so that they are not null. *)
Module InjectedWitness.
#[export] Instance demo_meta : MetaV1 := {|
  ObjectMeta := string;
  LabelSelector := ParamRef CRD;
  Condition := ExpressionWarning CRD;
  zero_ObjectMeta := "";
  marshalObjectMeta name :=
    if bool_decide (name = "bad") then Err "json: error calling MarshalJSON"
    else Ok (JObj [("name", JStr name)]);
  unmarshalObjectMeta j :=
    match j with JObj fs => getField "name" fs | _ => typeError end;
|}.
#[export, refine] Instance demo_laws : MetaV1Laws := {| reread name := name |}.
Proof.
  - intros name j. cbn. case_bool_decide; [done|]. by intros [= <-].
  - intros name j. cbn. case_bool_decide; [done|]. by intros [= <-].
  - eauto.
  - done.
Defined.

Definition demo_spec (d : dialect) : ValidatingAdmissionPolicySpec d :=
  {| ps_ParamKind := None;
     ps_MatchConstraints := Some
       {| mr_NamespaceSelector := None; mr_ObjectSelector := None;
          mr_ResourceRules := mk_slice (Some
            [{| nr_ResourceNames := mk_slice None;
                nr_RuleWithOperations :=
                  {| rw_Operations := mk_slice (Some ["CREATE"]);
                     rw_Rule := {| ru_APIGroups := mk_slice (Some ["apps"]);
                                   ru_APIVersions := mk_slice (Some ["v1"]);
                                   ru_Resources := mk_slice (Some ["deployments"]);
                                   ru_Scope := None |} |} |}]);
          mr_ExcludeResourceRules := mk_slice (Some []);
          mr_MatchPolicy := Some "Exact" |};
     ps_Validations := mk_slice (Some
       [{| va_Expression := "object.spec.replicas <= 5"; va_Message := ""; va_Reason := None;
           va_MessageExpression := "" |}]);
     ps_FailurePolicy := Some "Fail";
     ps_AuditAnnotations := mk_slice None;
     ps_MatchConditions := mk_slice None |}.

Definition demo_policy (d : dialect) (apiVersion name : string) : ValidatingAdmissionPolicy d :=
  {| p_TypeMeta := {| tm_Kind := "ValidatingAdmissionPolicy"; tm_APIVersion := apiVersion |};
     p_ObjectMeta := name : @ObjectMeta demo_meta;
     p_Spec := demo_spec d;
     p_Status := zero |}.

Definition demo_binding (d : dialect) (apiVersion : string) : ValidatingAdmissionPolicyBinding d :=
  {| b_TypeMeta := {| tm_Kind := "ValidatingAdmissionPolicyBinding"; tm_APIVersion := apiVersion |};
     b_ObjectMeta := "binding" : @ObjectMeta demo_meta;
     b_Spec := {| bs_PolicyName := "replicas"; bs_ParamRef := None; bs_MatchResources := None;
                  bs_ValidationActions := mk_slice (Some ["Deny"]) |} |}.

Definition native_version : string := "admissionregistration.k8s.io/v1alpha1".
Definition crd_version : string := "admissionregistration.x-k8s.io/v1alpha1".

Lemma policy_round_trip_witness :
  ∃ c n, NativeToCRDPolicy (Some (demo_policy Native native_version "replicas")) = Ok (Some c) ∧
    CRDToNativePolicy (Some c) = Ok (Some n) ∧ ps_Validations (p_Spec n) = ps_Validations (demo_spec Native).
Proof.
  destruct (policy_round_trip (demo_policy Native native_version "replicas")
              (JObj [("name", JStr "replicas")])) as (c & n & Hc & Hn & ->); [reflexivity|].
  exists c. eexists. split; [exact Hc|]. split; [exact Hn|]. reflexivity.
Defined.

Lemma binding_round_trip_witness :
  ∃ c n, NativeToCRDPolicyBinding (Some (demo_binding Native native_version)) = Ok (Some c) ∧
    CRDToNativePolicyBinding (Some c) = Ok (Some n) ∧
    b_Spec n = b_Spec (demo_binding Native native_version).
Proof.
  destruct (binding_round_trip (demo_binding Native native_version)
              (JObj [("name", JStr "binding")])) as (c & n & Hc & Hn & ->); [reflexivity|].
  exists c. eexists. split; [exact Hc|]. split; [exact Hn|]. reflexivity.
Defined.

Lemma conversion_fails_iff_metadata_witness :
  NativeToCRDPolicy None = Ok None ∧
  NativeToCRDPolicy (Some (demo_policy Native native_version "bad")) =
    Err (ErrorString "json: error calling MarshalJSON").
Proof.
  destruct (conversion_fails_iff_metadata (P := ValidatingAdmissionPolicy) Native CRD
              "admissionregistration.x-k8s.io/v1alpha1") as [Hnil Herr].
  split; [exact Hnil|]. apply Herr. eexists. split; reflexivity.
Defined.

Definition crd_policy : ValidatingAdmissionPolicy CRD :=
  converted "admissionregistration.x-k8s.io/v1alpha1" (demo_policy Native native_version "replicas").
Definition back_policy : ValidatingAdmissionPolicy Native :=
  converted "apiregistration.k8s.io/v1alpha1" crd_policy.

Lemma round_trip_is_stable_witness :
  ∃ c', NativeToCRDPolicy (Some back_policy) = Ok (Some c') ∧
        CRDToNativePolicy (Some c') = Ok (Some back_policy).
Proof.
  apply (round_trip_is_stable (demo_policy Native native_version "replicas") back_policy crd_policy);
    (eapply convert_Some; reflexivity).
Defined.

Definition read_policy : ValidatingAdmissionPolicy Native :=
  converted "apiregistration.k8s.io/v1alpha1" (demo_policy CRD crd_version "replicas").
Definition read_binding : ValidatingAdmissionPolicyBinding Native :=
  converted "apiregistration.k8s.io/v1alpha1" (demo_binding CRD crd_version).

Lemma native_objects_name_wrong_group_witness :
  HasPrefix (tm_APIVersion (p_TypeMeta read_policy)) "admissionregistration.k8s.io/" = false.
Proof.
  assert (CRDToNativePolicy (Some (demo_policy CRD crd_version "replicas")) =
          Ok (Some read_policy)) as Hp by (eapply convert_Some; reflexivity).
  assert (CRDToNativePolicyBinding (Some (demo_binding CRD crd_version)) =
          Ok (Some read_binding)) as Hb by (eapply convert_Some; reflexivity).
  refine (proj2 (native_objects_name_wrong_group _ _ _ _ Hp _ Hb _ _ _));
    [discriminate|discriminate|left].
Defined.

(** A custom API server that stores policies by name. *)
Definition policy_store := gmap string (ValidatingAdmissionPolicy CRD).

Definition store_put (o : option (ValidatingAdmissionPolicy CRD)) (opts : unit) (w : policy_store) :
    outcome (option (ValidatingAdmissionPolicy CRD)) * policy_store :=
  match o with
  | Some p => (Done (Ok (Some p)), <[p_ObjectMeta p : string := p]> w)
  | None => (Done (Err (ErrorString "nil object")), w)
  end.

Definition store_client : ClientInterface unit policy_store (ValidatingAdmissionPolicy CRD)
    (Event (ValidatingAdmissionPolicy Native) (ValidatingAdmissionPolicy CRD)) :=
  {| Create := store_put; Update := store_put; UpdateStatus := Some store_put;
     Delete := λ name _ w, (Done (Ok tt), delete name w);
     DeleteCollection := λ _ _ _, (Done (Ok tt), ∅);
     Get := λ name _ w,
       match w !! name with
       | Some p => (Done (Ok (Some p)), w)
       | None => (Done (Err (ErrorString "not found")), w)
       end;
     List := λ _ w, (Done (Ok (Some (listWithItems (map_to_list w).*2))), w);
     Watch := λ _ w, (Done (Ok []), w);
     Patch := λ _ _ _ _ _ w, (Panic "unused", w) |}.

Definition idle_client {T E} : ClientInterface unit policy_store T E :=
  {| Create := λ _ _ w, (Panic "unused", w); Update := λ _ _ w, (Panic "unused", w);
     UpdateStatus := None; Delete := λ _ _ w, (Panic "unused", w);
     DeleteCollection := λ _ _ w, (Panic "unused", w); Get := λ _ _ w, (Panic "unused", w);
     List := λ _ w, (Panic "unused", w); Watch := λ _ w, (Panic "unused", w);
     Patch := λ _ _ _ _ _ w, (Panic "unused", w) |}.

Definition custom_clientset : Clientset unit policy_store unit unit CRD :=
  {| AdmissionregistrationV1alpha1 :=
       {| RESTClient := tt; ValidatingAdmissionPolicies := store_client;
          ValidatingAdmissionPolicyBindings := idle_client |};
     otherGroups := tt |}.
Definition native_clientset : Clientset unit policy_store unit unit Native :=
  {| AdmissionregistrationV1alpha1 :=
       {| RESTClient := tt; ValidatingAdmissionPolicies := idle_client;
          ValidatingAdmissionPolicyBindings := idle_client |};
     otherGroups := tt |}.

Abbreviation wrapped :=
  (ValidatingAdmissionPolicies
     (AdmissionregistrationV1alpha1 (NewWrappedClient native_clientset custom_clientset))).

Lemma wrapped_List_returns_all_witness :
  ∃ l, List wrapped tt {["replicas" := crd_policy]} = (Done (Ok (Some l)), {["replicas" := crd_policy]})
       ∧ length (getItems l) = 1.
Proof.
  destruct (wrapped_List_returns_all native_clientset custom_clientset tt {["replicas" := crd_policy]}
              (listWithItems [crd_policy]) {["replicas" := crd_policy]}) as (l & Hl & Hitems).
  - reflexivity.
  - intros c Hc. apply list_elem_of_singleton in Hc as ->. reflexivity.
  - exists l. split; [exact Hl|]. rw Hitems. reflexivity.
Defined.

Lemma wrapped_Create_sends_custom_witness :
  ∃ n w', Create wrapped (Some (demo_policy Native native_version "replicas")) tt ∅
            = (Done (Ok (Some n)), w') ∧ ps_Validations (p_Spec n) = ps_Validations (demo_spec Native).
Proof.
  edestruct (wrapped_Create_sends_custom native_clientset custom_clientset
              (demo_policy Native native_version "replicas")) as (n & Hn & Hspec & _).
  - reflexivity.
  - reflexivity.
  - reflexivity.
  - eexists n, _. split; [exact Hn|]. rw Hspec. reflexivity.
Defined.

Lemma store_client_ryw : ReadYourWrites store_client (λ c, p_ObjectMeta c : string).
Proof.
  intros [p|] opts w t w1 Hc gopts; simpl in *; [|discriminate].
  injection Hc as <- <-. rw lookup_insert_eq. eauto.
Qed.

Lemma wrapped_reads_its_writes_witness : ReadYourWrites wrapped (λ n, p_ObjectMeta n : string).
Proof.
  apply (wrapped_reads_its_writes native_clientset custom_clientset (λ m, m)).
  - intros m. reflexivity.
  - apply store_client_ryw.
Defined.
End InjectedWitness.
