(* ===== verification/Workqueue.v ===== *)
(** * The work queue

    [k8s.io/client-go/util/workqueue], on which the generic controller runs: the
    deduplicating queue ([queue.go]), the delayed adds ([delaying_queue.go]) and
    the per-item exponential back-off ([default_rate_limiters.go]).  Every method
    holds the queue's lock, so a method is one step; metrics are left out.  A
    specification with two sets (what needs work, what is being worked on) is
    refined by the queue. *)
From S2P Require Import Prelude.

Section Queue.
Context {Item : Type} `{Countable Item}.
Implicit Types (x y : Item).

(** [Type] of [queue.go]. *)
Record wq := {
  q_queue : list Item;
  q_dirty : gset Item;
  q_processing : gset Item;
  q_shuttingDown : bool;
  q_drain : bool;
}.
Implicit Types q : wq.

Definition newQueue : wq :=
  {| q_queue := []; q_dirty := ∅; q_processing := ∅; q_shuttingDown := false; q_drain := false |}.

Definition Add (item : Item) (q : wq) : wq :=
  if q_shuttingDown q then q
  else if bool_decide (item ∈ q_dirty q) then q
  else {| q_queue := if bool_decide (item ∈ q_processing q) then q_queue q
                     else q_queue q ++ [item];
          q_dirty := {[item]} ∪ q_dirty q;
          q_processing := q_processing q;
          q_shuttingDown := q_shuttingDown q;
          q_drain := q_drain q |}.

Definition Len (q : wq) : nat := length (q_queue q).

(** [Get]: [None] is a caller that waits on the condition variable;
    [Some (None, _)] tells it to stop. *)
Definition Get (q : wq) : option (option Item * wq) :=
  match q_queue q with
  | [] => if q_shuttingDown q then Some (None, q) else None
  | item :: rest =>
      Some (Some item,
            {| q_queue := rest;
               q_dirty := q_dirty q ∖ {[item]};
               q_processing := {[item]} ∪ q_processing q;
               q_shuttingDown := q_shuttingDown q;
               q_drain := q_drain q |})
  end.

Definition Done (item : Item) (q : wq) : wq :=
  {| q_queue := if bool_decide (item ∈ q_dirty q) then q_queue q ++ [item] else q_queue q;
     q_dirty := q_dirty q;
     q_processing := q_processing q ∖ {[item]};
     q_shuttingDown := q_shuttingDown q;
     q_drain := q_drain q |}.

Definition setDrain (shouldDrain : bool) (q : wq) : wq :=
  {| q_queue := q_queue q; q_dirty := q_dirty q; q_processing := q_processing q;
     q_shuttingDown := q_shuttingDown q; q_drain := shouldDrain |}.

Definition shutdown (q : wq) : wq :=
  {| q_queue := q_queue q; q_dirty := q_dirty q; q_processing := q_processing q;
     q_shuttingDown := true; q_drain := q_drain q |}.

Definition ShutDown (q : wq) : wq := shutdown (setDrain false q).

Definition isProcessing (q : wq) : bool := negb (bool_decide (q_processing q = ∅)).

(** [ShutDownWithDrain] up to its loop, and the loop's exit test. *)
Definition ShutDownWithDrain_begin (q : wq) : wq := shutdown (setDrain true q).
Definition ShutDownWithDrain_returns (q : wq) : bool := negb (isProcessing q && q_drain q).

(** ** Invariant *)

(** The queue holds, once each, the items that need work and are not being
    worked on. *)
Definition wq_inv (q : wq) : Prop :=
  NoDup (q_queue q) ∧ ∀ x, x ∈ q_queue q ↔ x ∈ q_dirty q ∧ x ∉ q_processing q.

Lemma newQueue_inv : wq_inv newQueue.
Proof. split; [constructor|]. intros x. simpl. rw elem_of_nil. set_solver. Qed.

Lemma Add_inv x q : wq_inv q → wq_inv (Add x q).
Proof.
  intros [Hnd Hq]. unfold Add. destruct (q_shuttingDown q); [done|].
  case_bool_decide as Hd; [done|]. case_bool_decide as Hp; split; simpl.
  - done.
  - intros y. rw Hq. set_solver.
  - apply NoDup_app. split; [done|]. split; [|apply NoDup_singleton].
    intros y Hy. apply Hq in Hy. set_solver.
  - intros y. rw elem_of_app list_elem_of_singleton Hq. set_solver.
Qed.

Lemma Get_inv q o q' : wq_inv q → Get q = Some (o, q') → wq_inv q'.
Proof.
  intros [Hnd Hq]. unfold Get. destruct (q_queue q) as [|x rest] eqn:Hr.
  { destruct (q_shuttingDown q); [|done]. intros [= <- <-]. split; by rw Hr. }
  intros [= <- <-]. apply NoDup_cons in Hnd as [Hx Hnd]. split; simpl; [done|].
  intros y. specialize (Hq y). rw elem_of_cons in Hq.
  destruct (decide (y = x)) as [->|Hne]; set_solver.
Qed.

(** The caller of [Done] holds the item. *)
Lemma Done_inv x q : wq_inv q → x ∈ q_processing q → wq_inv (Done x q).
Proof.
  intros [Hnd Hq] Hx. unfold Done. case_bool_decide as Hd; split; simpl.
  - apply NoDup_app. split; [done|]. split; [|apply NoDup_singleton].
    intros y Hy. apply Hq in Hy. set_solver.
  - intros y. rw elem_of_app list_elem_of_singleton Hq.
    destruct (decide (y = x)) as [->|]; set_solver.
  - done.
  - intros y. rw Hq. destruct (decide (y = x)) as [->|]; set_solver.
Qed.

Lemma shutdown_inv q : wq_inv q → wq_inv (shutdown q).
Proof. done. Qed.
Lemma setDrain_inv b q : wq_inv q → wq_inv (setDrain b q).
Proof. done. Qed.
End Queue.
Arguments wq : clear implicits.
Arguments wq Item {_ _}.

(** ** The specification *)

Section Spec.
Context {Item : Type} `{Countable Item}.
Implicit Types q : wq Item.

(** What needs work, what is being worked on, and whether adds are refused. *)
Record spec := { todo : gset Item; active : gset Item; closed : bool }.

Inductive op :=
| OpAdd (x : Item)
| OpGet (x : Item)   (* a caller of [Get] receives [x] *)
| OpStop             (* a caller of [Get] is told to stop *)
| OpDone (x : Item)  (* by the caller that received [x] *)
| OpShutDown
| OpDrain.

Inductive spec_step : op → spec → spec → Prop :=
| spec_add x s :
    closed s = false →
    spec_step (OpAdd x) s {| todo := {[x]} ∪ todo s; active := active s; closed := false |}
| spec_add_closed x s : closed s = true → spec_step (OpAdd x) s s
| spec_get x s :
    x ∈ todo s → x ∉ active s →
    spec_step (OpGet x) s
      {| todo := todo s ∖ {[x]}; active := {[x]} ∪ active s; closed := closed s |}
| spec_stop s : closed s = true → todo s ⊆ active s → spec_step OpStop s s
| spec_done x s :
    x ∈ active s →
    spec_step (OpDone x) s {| todo := todo s; active := active s ∖ {[x]}; closed := closed s |}
| spec_shutdown s :
    spec_step OpShutDown s {| todo := todo s; active := active s; closed := true |}
| spec_drain s :
    spec_step OpDrain s {| todo := todo s; active := active s; closed := true |}.

Inductive spec_run : list op → spec → spec → Prop :=
| spec_run_nil s : spec_run [] s s
| spec_run_cons o ops s1 s2 s3 :
    spec_step o s1 s2 → spec_run ops s2 s3 → spec_run (o :: ops) s1 s3.

(** The queue's own transitions, one per method call. *)
Definition qstep (o : op) (q : wq Item) : option (wq Item) :=
  match o with
  | OpAdd x => Some (Add x q)
  | OpGet x =>
      match Get q with
      | Some (Some y, q') => if bool_decide (x = y) then Some q' else None
      | _ => None
      end
  | OpStop => match Get q with Some (None, q') => Some q' | _ => None end
  | OpDone x => if bool_decide (x ∈ q_processing q) then Some (Done x q) else None
  | OpShutDown => Some (ShutDown q)
  | OpDrain => Some (ShutDownWithDrain_begin q)
  end.

Definition abs (q : wq Item) : spec :=
  {| todo := q_dirty q; active := q_processing q; closed := q_shuttingDown q |}.

Lemma qstep_inv o q q' : wq_inv q → qstep o q = Some q' → wq_inv q'.
Proof.
  intros Hq. destruct o as [x|x| |x| |]; simpl; intros Hs.
  - simplify_eq. by apply Add_inv.
  - destruct (Get q) as [[[y|] q1]|] eqn:Hg; [|done..]. case_bool_decide; simplify_eq.
    by eapply Get_inv.
  - destruct (Get q) as [[[y|] q1]|] eqn:Hg; [done| |done]. simplify_eq. by eapply Get_inv.
  - case_bool_decide; simplify_eq. by apply Done_inv.
  - by simplify_eq.
  - by simplify_eq.
Qed.

(** An empty queue has no work that could be handed out. *)
Lemma empty_queue_idle q : wq_inv q → q_queue q = [] → q_dirty q ⊆ q_processing q.
Proof.
  intros [_ Hq] Hr x Hx. destruct (decide (x ∈ q_processing q)); [done|].
  assert (x ∈ q_queue q) as Hin by by apply Hq. rw Hr in Hin. by apply elem_of_nil in Hin.
Qed.

(** One method call is one step of the specification. *)
Lemma qstep_spec o q q' :
  wq_inv q → qstep o q = Some q' → spec_step o (abs q) (abs q').
Proof.
  intros Hq. destruct o as [x|x| |x| |]; simpl; intros Hs.
  - simplify_eq. unfold Add. destruct (q_shuttingDown q) eqn:Hd.
    + by apply spec_add_closed.
    + case_bool_decide as Hx.
      * assert (abs q = {| todo := {[x]} ∪ todo (abs q); active := active (abs q); closed := false |})
          as Habs by (unfold abs; simpl; rw Hd; f_equal; set_solver).
        rw {2}Habs. by apply spec_add.
      * exact (spec_add x (abs q) Hd).
  - destruct (Get q) as [[[y|] q1]|] eqn:Hg; [|done..]. case_bool_decide; simplify_eq.
    unfold Get in Hg. destruct (q_queue q) as [|z rest] eqn:Hr; [by destruct (q_shuttingDown q)|].
    simplify_eq. destruct Hq as [_ Hq]. destruct (Hq y) as [Hy _]. rw Hr in Hy.
    destruct Hy as [Hd Hp]; [left|]. by apply (spec_get y (abs q)).
  - destruct (Get q) as [[[y|] q1]|] eqn:Hg; [done| |done]. simplify_eq.
    unfold Get in Hg. destruct (q_queue q) as [|z rest] eqn:Hr; [|done].
    destruct (q_shuttingDown q) eqn:Hd; simplify_eq. apply spec_stop; [done|].
    by apply empty_queue_idle.
  - case_bool_decide; simplify_eq. by apply (spec_done x (abs q)).
  - simplify_eq. apply (spec_shutdown (abs q)).
  - simplify_eq. apply (spec_drain (abs q)).
Qed.

Lemma qrun_spec ops q q' :
  wq_inv q → run qstep ops q = Some q' → wq_inv q' ∧ spec_run ops (abs q) (abs q').
Proof.
  revert q. induction ops as [|o ops IH]; simpl; intros q Hq Hr.
  - simplify_eq. split; [done|constructor].
  - destruct (qstep o q) as [q1|] eqn:Hs; simplify_eq/=.
    destruct (IH q1) as [? ?]; [by eapply qstep_inv|done|]. split; [done|].
    econstructor; [by apply qstep_spec|done].
Qed.

End Spec.
Arguments spec : clear implicits.
Arguments spec Item {_ _}.
Arguments op : clear implicits.

(** ** The rate limiter *)

Section RateLimiter.
Context {Item : Type} `{Countable Item}.

(** [ItemExponentialFailureRateLimiter.When]: the delay in nanoseconds and the
    counted failure.  The product of the base delay and a power of two is exact
    in a float64 (an overflow is +Inf); [math.MaxInt64] rounds to [2 ^ 63]. *)
Definition exponential_When (baseDelay maxDelay : Z) (item : Item) (failures : gmap Item nat)
    : Z * gmap Item nat :=
  let exp := default 0 (failures !! item) in
  let failures := <[item := S exp]> failures in
  let backoff := (baseDelay * 2 ^ Z.of_nat exp)%Z in
  if (2 ^ 63 <? backoff)%Z then (maxDelay, failures)
  else if (maxDelay <? backoff)%Z then (maxDelay, failures)
  else (backoff, failures).

Definition exponential_NumRequeues (item : Item) (failures : gmap Item nat) : nat :=
  default 0 (failures !! item).

Definition exponential_Forget (item : Item) (failures : gmap Item nat) : gmap Item nat :=
  delete item failures.

(** [MaxOfRateLimiter.When] over the exponential limiter and the token bucket,
    whose answer is [bucketDelay]. *)
Definition maxOf_When (baseDelay maxDelay bucketDelay : Z) (item : Item)
    (failures : gmap Item nat) : Z * gmap Item nat :=
  let '(curr, failures) := exponential_When baseDelay maxDelay item failures in
  let ret := if (0 <? curr)%Z then curr else 0%Z in
  let ret := if (ret <? bucketDelay)%Z then bucketDelay else ret in
  (ret, failures).

Definition millisecond : Z := 1000000.
Definition second : Z := 1000 * millisecond.

(** [DefaultControllerRateLimiter]: 5 ms doubling up to 1000 s. *)
Definition default_When : Z → Item → gmap Item nat → Z * gmap Item nat :=
  maxOf_When (5 * millisecond) (1000 * second).

Lemma exponential_When_min base cap item failures :
  (0 ≤ cap < 2 ^ 63)%Z →
  (exponential_When base cap item failures).1 =
    Z.min (base * 2 ^ Z.of_nat (exponential_NumRequeues item failures)) cap.
Proof.
  intros Hcap. unfold exponential_When, exponential_NumRequeues.
  set (b := (base * _)%Z). case_match eqn:Hb; [simpl; lia|]. case_match; simpl; lia.
Qed.

Lemma exponential_When_failures base cap item failures :
  (exponential_When base cap item failures).2 =
    <[item := S (exponential_NumRequeues item failures)]> failures.
Proof. unfold exponential_When. by repeat case_match. Qed.

(** Failing [n] times in a row from the counts [failures]. *)
Fixpoint fail_times (n : nat) (bucketDelay : Z) (item : Item) (failures : gmap Item nat)
    : gmap Item nat :=
  match n with
  | O => failures
  | S n' => (default_When bucketDelay item (fail_times n' bucketDelay item failures)).2
  end.

Lemma fail_times_count n bucketDelay item failures :
  exponential_NumRequeues item (fail_times n bucketDelay item failures) =
    n + exponential_NumRequeues item failures.
Proof.
  induction n as [|n IH]; [done|]. simpl. unfold default_When, maxOf_When.
  pose proof (exponential_When_failures (5 * millisecond) (1000 * second) item
    (fail_times n bucketDelay item failures)) as Hf.
  destruct (exponential_When _ _ _ _) as [d f]. simpl in *. subst f.
  unfold exponential_NumRequeues at 1. rw lookup_insert_eq /= IH. done.
Qed.

(** After an item was forgotten, its [n]-th retry in a row waits
    [min (5 ms * 2 ^ n) 1000 s], or longer if the shared token bucket says so:
    never a negative delay, no overflow, and a ceiling of 1000 s plus the
    bucket. *)
Theorem retry_delay_is_capped_exponential n item failures bucketDelay :
  (default_When bucketDelay item
     (fail_times n bucketDelay item (exponential_Forget item failures))).1 =
    Z.max (Z.min (5 * millisecond * 2 ^ Z.of_nat n) (1000 * second)) bucketDelay.
Proof.
  set (f := fail_times n bucketDelay item _).
  assert (exponential_NumRequeues item f = n) as Hn.
  { unfold f. rw fail_times_count. unfold exponential_NumRequeues, exponential_Forget.
    rw lookup_delete_eq /=. lia. }
  unfold default_When, maxOf_When.
  pose proof (exponential_When_min (5 * millisecond) (1000 * second) item f) as Hw.
  destruct (exponential_When _ _ _ _) as [d f']. simpl in *. rw Hw ?Hn; [done|].
  assert (0 < 2 ^ Z.of_nat n)%Z by lia.
  unfold second, millisecond. repeat case_match; lia.
Qed.
End RateLimiter.

(** ** The delaying queue *)

Section Delaying.
Context {Item : Type} `{Countable Item}.
Implicit Types (q : wq Item) (l : list (Item * Z)) (x : Item) (now t : Z).

(** [heap.Push] on the priority queue, kept as a list with the smallest
    [readyAt] first (equal times in insertion order). *)
Fixpoint heap_Push (e : Item * Z) l : list (Item * Z) :=
  match l with
  | [] => [e]
  | e' :: l' => if (e.2 <? e'.2)%Z then e :: l else e' :: heap_Push e l'
  end.

(** [knownEntries[data]]. *)
Fixpoint readyAt x l : option Z :=
  match l with
  | [] => None
  | (y, t) :: l' => if bool_decide (y = x) then Some t else readyAt x l'
  end.

(** [heap.Fix] after lowering the time of an entry. *)
Definition heap_Fix (e : Item * Z) l : list (Item * Z) :=
  heap_Push e (filter (λ e', e'.1 ≠ e.1) l).

(** [insert]: at most one entry per item, at its earliest time. *)
Definition insert_entry (e : Item * Z) l : list (Item * Z) :=
  match readyAt e.1 l with
  | Some t => if (e.2 <? t)%Z then heap_Fix e l else l
  | None => heap_Push e l
  end.

(** The "add ready entries" loop at the top of [waitingLoop]. *)
Fixpoint addReady now l q : list (Item * Z) * wq Item :=
  match l with
  | [] => ([], q)
  | (x, t) :: l' => if (now <? t)%Z then (l, q) else addReady now l' (Add x q)
  end.

(** One entry received from [waitingForAddCh]. *)
Definition receiveEntry now (e : Item * Z) l q : list (Item * Z) * wq Item :=
  if (now <? e.2)%Z then (insert_entry e l, q) else (l, Add e.1 q).

(** [AddAfter] up to its [select]: nothing more to do, or the entry to send on
    [waitingForAddCh], whose [readyAt] is computed when the [select] is entered. *)
Definition AddAfter x (duration now : Z) q : option (Item * Z) * wq Item :=
  if q_shuttingDown q then (None, q)
  else if (duration <=? 0)%Z then (None, Add x q)
  else (Some (x, now + duration)%Z, q).

(** The capacity of [waitingForAddCh]. *)
Definition waitingForAddCap : nat := 1000.

(** The [select]'s send: on a full channel it is not ready, and [AddAfter] blocks.  The
    other case needs [stopCh] closed, which only [ShutDown] of the delaying queue does:
    [ShutDownWithDrain] is the embedded queue's. *)
Definition sendWaitFor (e : Item * Z) (ch : list (Item * Z)) : option (list (Item * Z)) :=
  if length ch <? waitingForAddCap then Some (ch ++ [e]) else None.
#[global] Arguments waitingForAddCap : simpl never.
#[global] Arguments sendWaitFor : simpl never.

(** Where the goroutine of [waitingLoop] is: at the top of its loop; past the check,
    with the time it read; in its [select]; in the inner loop that empties the channel;
    returned. *)
Inductive loop_pc := LTop | LReady (now : Z) | LSelect | LDraining | LReturned.

(** The top of the loop. *)
Definition loop_check now q : loop_pc := if q_shuttingDown q then LReturned else LReady now.

(** *** Lemmas *)

Lemma elem_heap_Push x e l : x ∈ (heap_Push e l).*1 ↔ x = e.1 ∨ x ∈ l.*1.
Proof.
  induction l as [|e' l IH]; simpl; [rw !elem_of_cons elem_of_nil; tauto|].
  case_match; simpl; rw !elem_of_cons ?IH; tauto.
Qed.

Lemma elem_insert_entry x e l : x ∈ (insert_entry e l).*1 ↔ x = e.1 ∨ x ∈ l.*1.
Proof.
  unfold insert_entry. destruct (readyAt e.1 l) as [t|] eqn:Hr; [|apply elem_heap_Push].
  assert (e.1 ∈ l.*1) as He.
  { clear -Hr. induction l as [|[y u] l IH]; simpl in *; [done|].
    case_bool_decide; [subst; left|right; by apply IH]. }
  case_match.
  - unfold heap_Fix. rw elem_heap_Push. split.
    + intros [->|Hx]; [by left|]. right.
      apply list_elem_of_fmap in Hx as (e' & -> & [_ He']%list_elem_of_filter).
      apply list_elem_of_fmap. eauto.
    + intros [->|Hx]; [by left|]. destruct (decide (x = e.1)); [by left|]. right.
      apply list_elem_of_fmap in Hx as (e' & -> & He').
      apply list_elem_of_fmap. exists e'. split; [done|]. by apply list_elem_of_filter.
  - split; [by right|]. by intros [->|].
Qed.

Lemma Add_dirty x q y :
  q_shuttingDown q = false → y ∈ q_dirty (Add x q) ↔ y = x ∨ y ∈ q_dirty q.
Proof. intros Hd. unfold Add. rw Hd. case_bool_decide; simpl; set_solver. Qed.
Lemma Add_frame x q :
  q_processing (Add x q) = q_processing q ∧ q_shuttingDown (Add x q) = q_shuttingDown q ∧
  q_dirty q ⊆ q_dirty (Add x q).
Proof. unfold Add. repeat case_match; simpl; set_solver. Qed.

Lemma sendWaitFor_Some e (ch ch' : list (Item * Z)) :
  sendWaitFor e ch = Some ch' ↔ length ch < waitingForAddCap ∧ ch' = ch ++ [e].
Proof.
  unfold sendWaitFor. destruct (Nat.ltb_spec (length ch) waitingForAddCap); [naive_solver|].
  split; [done|lia].
Qed.

(** Every entry is either still waiting or was added. *)
Lemma addReady_spec now l q l' q' :
  addReady now l q = (l', q') → q_shuttingDown q = false →
  (wq_inv q → wq_inv q') ∧ q_processing q' = q_processing q ∧
  q_shuttingDown q' = q_shuttingDown q ∧
  (∀ x, x ∈ l.*1 ∨ x ∈ q_dirty q ↔ x ∈ l'.*1 ∨ x ∈ q_dirty q').
Proof.
  revert q. induction l as [|[x t] l IH]; simpl; intros q Hr Hd; [by simplify_eq|].
  case_match; simplify_eq/=; [done|].
  destruct (Add_frame x q) as (Hp & Hs & _).
  destruct (IH (Add x q)) as (Hinv & Hp' & Hs' & Hx); [done|by rw Hs|].
  rw Hp' Hs' Hp Hs. split; [intros; by apply Hinv, Add_inv|]. do 2 (split; [done|]).
  intros y. rw -Hx Add_dirty // elem_of_cons. tauto.
Qed.
End Delaying.

(** ** Witness: an item added twice and again while it is being worked on. *)
Module QueueWitness.
Definition calls : list (op nat) :=
  [OpAdd 1; OpAdd 2; OpAdd 1; OpGet 1; OpAdd 1; OpDone 1; OpGet 2; OpDrain; OpAdd 3; OpDone 2;
   OpGet 1; OpDone 1; OpStop].
Definition queue_after : wq nat := default newQueue (run qstep calls newQueue).

End QueueWitness.
