(* ===== verification/Controller.v ===== *)
(** * The generic controller

    [pkg/controller/generic.go], [lister.go] and [informer.go]: a controller that
    reconciles the objects of an informer's cache.  [Lister], [reconcile] and the
    event handlers are functions; the running controller (informer, handlers,
    work queue, the delaying queue's goroutine and its bounded channel, workers,
    shutdown) is an event machine over the vendored queue of [Workqueue].  The reconciler is the caller's code: its answers arrive with the
    events. *)
From S2P Require Import Prelude GoStrings ApiMachinery Admission Workqueue.
From Stdlib Require Import Ascii.

Definition slash : ascii := "/".

(** ** Keys (client-go's tools/cache/store.go) *)

Section Keys.
Context {T : Type} `{MetaAccessor T}.

(** What an informer hands to a handler: an object, or the marker of a
    deletion that was only noticed by a later list. *)
Inductive handlerObject :=
| Object (obj : T)
| DeletedFinalStateUnknown (key : string) (obj : option T).

(** [meta.Accessor] on either. *)
Definition handler_Accessor (o : handlerObject) : option ObjectMetaView :=
  match o with Object obj => Accessor obj | DeletedFinalStateUnknown _ _ => None end.

Definition metaKey (m : ObjectMetaView) : string :=
  if bool_decide (mo_Namespace m ≠ "")
  then mo_Namespace m +:+ "/" +:+ mo_Name m else mo_Name m.

Definition MetaNamespaceKeyFunc (o : handlerObject) : result error string :=
  match handler_Accessor o with
  | None => Err (ErrorString "object has no meta: object does not implement the Object interfaces")
  | Some m => Ok (metaKey m)
  end.
End Keys.
Arguments handlerObject : clear implicits.

Definition SplitMetaNamespaceKey (key : string) : result error (string * string) :=
  match Split key slash with
  | [name] => Ok ("", name)
  | [namespace; name] => Ok (namespace, name)
  | _ => Err (ErrorString ("unexpected key format: " +:+ Quote key))
  end.

(** ** lister.go

    The indexer is the informer's store; [GetByKey] of the vendored thread-safe
    store never returns an error. *)

Section Lister.
Context {T : Type} `{MetaAccessor T}.
Implicit Types (indexer : gmap string T).

Definition namespacedLister_Get indexer (namespace name : string) : result error T :=
  match indexer !! (namespace +:+ "/" +:+ name) with
  | None => Err (StatusError (NewNotFound {| gr_Group := ""; gr_Resource := "" |} name))
  | Some obj => Ok obj
  end.

Definition lister_Get indexer (name : string) : result error T :=
  match indexer !! name with
  | None => Err (StatusError (NewNotFound
      {| gr_Group := "node.k8s.io"; gr_Resource := "validationruleset" |} name))
  | Some obj => Ok obj
  end.

(** [labels.Selector]: whether it is empty, and what it matches; it is asked about
    objects with metadata only. *)
Record Selector := { sel_Empty : bool; sel_Matches : T → bool }.
Implicit Types (selector : Selector) (objs : list T).

(** The loop of [cache.ListAll]: what was appended, and the error that ended it. *)
Fixpoint selectObjects selector objs : list T * option error :=
  match objs with
  | [] => ([], None)
  | m :: objs' =>
      if sel_Empty selector then let '(ret, err) := selectObjects selector objs' in (m :: ret, err)
      else match Accessor m with
           | None => ([], Some errNotObject)
           | Some _ =>
               let '(ret, err) := selectObjects selector objs' in
               (if sel_Matches selector m then m :: ret else ret, err)
           end
  end.

(** [store.List], in the order of the map. *)
Definition store_List indexer : list T := (map_to_list indexer).*2.

Definition ListAll indexer selector : list T * option error :=
  selectObjects selector (store_List indexer).

Definition inNamespace (namespace : string) (obj : T) : bool :=
  match Accessor obj with
  | Some m => bool_decide (mo_Namespace m = namespace)
  | None => false
  end.

(** The search without an index. *)
Fixpoint slowSearch (namespace : string) selector objs : list T * option error :=
  match objs with
  | [] => ([], None)
  | m :: objs' =>
      match Accessor m with
      | None => ([], Some errNotObject)
      | Some view =>
          let '(ret, err) := slowSearch namespace selector objs' in
          (if bool_decide (mo_Namespace view = namespace) && sel_Matches selector m
           then m :: ret else ret, err)
      end
  end.

(** [cache.ListAllByNamespace]; [indexed]: the indexer has the namespace index,
    which gives the objects of the namespace.  The empty namespace is all. *)
Definition ListAllByNamespace (indexed : bool) indexer (namespace : string) selector :
    list T * option error :=
  if bool_decide (namespace = "") then ListAll indexer selector
  else if indexed
  then selectObjects selector (filter (λ obj, inNamespace namespace obj = true) (store_List indexer))
  else slowSearch namespace selector (store_List indexer).

Definition lister_List := ListAll.
Definition namespacedLister_List := ListAllByNamespace.

(** [interface.go]: the two interfaces, and the listers that implement them. *)
Record NamespacedLister := {
  nl_List : Selector → list T * option error;
  nl_Get : string → result error T;
}.
Record Lister := {
  lst_NamespacedLister : NamespacedLister;
  lst_Namespaced : string → NamespacedLister;
}.

Definition namespacedLister (indexed : bool) indexer (namespace : string) : NamespacedLister :=
  {| nl_List := namespacedLister_List indexed indexer namespace;
     nl_Get := namespacedLister_Get indexer namespace |}.
Definition NewLister (indexed : bool) indexer : Lister :=
  {| lst_NamespacedLister := {| nl_List := lister_List indexer; nl_Get := lister_Get indexer |};
     lst_Namespaced := namespacedLister indexed indexer |}.

(** The index only saves time: over objects with metadata, and for a selector
    whose emptiness means that it matches everything, the two searches give the
    same objects. *)
Theorem namespace_index_is_transparent indexer namespace selector :
  (∀ key obj, indexer !! key = Some obj → is_Some (Accessor obj)) →
  (sel_Empty selector = true → ∀ obj, sel_Matches selector obj = true) →
  namespacedLister_List true indexer namespace selector
  = namespacedLister_List false indexer namespace selector.
Proof.
  intros Hmeta Hempty. unfold namespacedLister_List, ListAllByNamespace.
  case_bool_decide; [done|].
  assert (∀ obj, obj ∈ store_List indexer → is_Some (Accessor obj)) as Hall.
  { unfold store_List. intros obj ([key ?] & -> & Hin%elem_of_map_to_list)%list_elem_of_fmap. eauto. }
  induction (store_List indexer) as [|m objs IH]; [done|].
  destruct (Hall m) as [view Hm]; [by left|]. cbn [slowSearch]. rw Hm -IH; [set_solver|].
  assert (inNamespace namespace m = bool_decide (mo_Namespace view = namespace)) as Hin
    by (unfold inNamespace; by rw Hm).
  case_bool_decide as Hns.
  - rw filter_cons_True // /= Hm.
    destruct (selectObjects _ _) as [ret err], (sel_Empty selector) eqn:He; [|done].
    by rw Hempty.
  - rw filter_cons_False; [by rw Hin|]. by destruct (selectObjects _ _).
Qed.
End Lister.
Arguments NamespacedLister : clear implicits.
Arguments Lister : clear implicits.

(** ** reconcile *)

Section Reconcile.
Context {T W : Type}.

(** What [reconcile] does before it calls the reconciler. *)
Inductive lookupResult :=
| InvalidKey                                          (* logged, not an error *)
| LookupFailed (err : error)
| CallReconciler (namespace name : string) (newObj : option T).

Definition reconcile_lookup (indexer : gmap string T) (key : string) : lookupResult :=
  match SplitMetaNamespaceKey key with
  | Err _ => InvalidKey
  | Ok (namespace, name) =>
      match (if bool_decide (namespace ≠ "") then namespacedLister_Get indexer namespace name
             else lister_Get indexer name) with
      | Ok newObj => CallReconciler namespace name (Some newObj)
      | Err err => if negb (IsNotFound (Some err)) then LookupFailed err
                   else CallReconciler namespace name None
      end
  end.

Definition reconcile (reconciler : string → string → option T → W → option error * W)
    (indexer : gmap string T) (key : string) (w : W) : option error * W :=
  match reconcile_lookup indexer key with
  | InvalidKey => (None, w)
  | LookupFailed err => (Some err, w)
  | CallReconciler namespace name newObj => reconciler namespace name newObj w
  end.
End Reconcile.
Arguments lookupResult : clear implicits.

(** ** The running controller *)

(** A worker goroutine: before [wait.Until] first looks at the context; in
    [c.queue.Get()]; with a key; inside the reconciler with the object it was
    given; about to call [AddRateLimited], [Forget], [Done]; in [AddRateLimited], with
    the rate limiter's delay before [AddAfter]'s check, and after it in the [select]
    that sends on the delaying queue's channel; ended ([started]: it ran [runWorker]
    at least once). *)
Inductive worker (T : Type) :=
| WStarting
| WGetting
| WGot (key : string)
| WCalled (key : string) (newObj : option T)
| WRequeue (key : string)
| WAddAfter (key : string) (delay : Z)
| WSending (key : string) (readyAt : Z)
| WForget (key : string)
| WDone (key : string)
| WStopped (started : bool).
Arguments WStarting {T}.
Arguments WGetting {T}.
Arguments WGot {T}.
Arguments WCalled {T}.
Arguments WRequeue {T}.
Arguments WAddAfter {T}.
Arguments WSending {T}.
Arguments WForget {T}.
Arguments WDone {T}.
Arguments WStopped {T}.

(** The goroutine of [Run]: waiting for the cache sync, for the context, in
    [ShutDownWithDrain], in [waitGroup.Wait], returned. *)
Inductive run_pc := RSyncing | RRunning | RDraining | RJoining | RReturned.
#[export] Instance run_pc_eq_dec : EqDecision run_pc.
Proof. solve_decision. Defined.

Inductive notification (T : Type) :=
| NAdd (obj : T)
| NUpdate (oldObj newObj : T)
| NDelete (obj : handlerObject T).
Arguments NAdd {T}.
Arguments NUpdate {T}.
Arguments NDelete {T}.

Section Machine.
Context {T : Type} `{MetaAccessor T}.

Record cstate := {
  c_store : gmap string T;             (* the informer's indexer *)
  c_pending : list (notification T);   (* not yet handled, oldest first *)
  c_queue : wq string;
  c_addCh : list (string * Z);         (* waitingForAddCh *)
  c_waiting : list (string * Z);       (* the delaying queue's heap *)
  c_loop : loop_pc;                    (* the goroutine of waitingLoop *)
  c_failures : gmap string nat;
  c_workers : list (worker T);
  c_run : run_pc;
  c_ctxDone : bool;
  (* bookkeeping of the proofs: the object (absent: none) the reconciler last
     accepted for a key, and the keys deleted with an unknown final state *)
  c_last : gmap string T;
  c_tombstoned : gset string;
}.

Definition with_queue (q : wq string) (s : cstate) : cstate :=
  {| c_store := c_store s; c_pending := c_pending s; c_queue := q; c_addCh := c_addCh s;
     c_waiting := c_waiting s; c_loop := c_loop s; c_failures := c_failures s; c_workers := c_workers s;
     c_run := c_run s; c_ctxDone := c_ctxDone s; c_last := c_last s;
     c_tombstoned := c_tombstoned s |}.
Definition with_worker (i : nat) (w : worker T) (s : cstate) : cstate :=
  {| c_store := c_store s; c_pending := c_pending s; c_queue := c_queue s; c_addCh := c_addCh s;
     c_waiting := c_waiting s; c_loop := c_loop s; c_failures := c_failures s; c_workers := <[i := w]> (c_workers s);
     c_run := c_run s; c_ctxDone := c_ctxDone s; c_last := c_last s;
     c_tombstoned := c_tombstoned s |}.
Definition with_run (r : run_pc) (s : cstate) : cstate :=
  {| c_store := c_store s; c_pending := c_pending s; c_queue := c_queue s; c_addCh := c_addCh s;
     c_waiting := c_waiting s; c_loop := c_loop s; c_failures := c_failures s; c_workers := c_workers s;
     c_run := r; c_ctxDone := c_ctxDone s; c_last := c_last s;
     c_tombstoned := c_tombstoned s |}.
Definition with_delays (addCh waiting : list (string * Z)) (failures : gmap string nat)
    (s : cstate) : cstate :=
  {| c_store := c_store s; c_pending := c_pending s; c_queue := c_queue s; c_addCh := addCh;
     c_waiting := waiting; c_loop := c_loop s; c_failures := failures; c_workers := c_workers s;
     c_run := c_run s; c_ctxDone := c_ctxDone s; c_last := c_last s;
     c_tombstoned := c_tombstoned s |}.
Definition with_loop (l : loop_pc) (s : cstate) : cstate :=
  {| c_store := c_store s; c_pending := c_pending s; c_queue := c_queue s; c_addCh := c_addCh s;
     c_waiting := c_waiting s; c_loop := l; c_failures := c_failures s; c_workers := c_workers s;
     c_run := c_run s; c_ctxDone := c_ctxDone s; c_last := c_last s;
     c_tombstoned := c_tombstoned s |}.
Definition with_store (store : gmap string T) (pending : list (notification T)) (s : cstate)
    : cstate :=
  {| c_store := store; c_pending := pending; c_queue := c_queue s; c_addCh := c_addCh s;
     c_waiting := c_waiting s; c_loop := c_loop s; c_failures := c_failures s; c_workers := c_workers s;
     c_run := c_run s; c_ctxDone := c_ctxDone s; c_last := c_last s;
     c_tombstoned := c_tombstoned s |}.

(** The closure [enqueue]: an object without a key is only logged. *)
Definition enqueue (obj : handlerObject T) (q : wq string) : wq string :=
  match MetaNamespaceKeyFunc obj with
  | Err _ => q
  | Ok key => Add key q
  end.

(** The three handlers of [Run]. *)
Definition handleNotification (n : notification T) (q : wq string) : wq string :=
  match n with
  | NAdd obj => enqueue (Object obj) q
  | NUpdate oldObj newObj =>
      match Accessor oldObj, Accessor newObj with
      | Some oldMeta, Some newMeta =>
          if bool_decide (mo_ResourceVersion oldMeta = mo_ResourceVersion newMeta) then q
          else enqueue (Object newObj) q
      | _, _ => q
      end
  | NDelete obj => enqueue obj q
  end.

(** [processDeltas]: the indexer first, then the notification. *)
Definition informer_upsert (obj : T) (s : cstate) : option cstate :=
  match MetaNamespaceKeyFunc (Object obj) with
  | Err _ => None
  | Ok key =>
      let n := match c_store s !! key with
               | Some old => NUpdate old obj
               | None => NAdd obj
               end in
      Some (with_store (<[key := obj]> (c_store s)) (c_pending s ++ [n]) s)
  end.
Definition informer_delete (obj : T) (s : cstate) : option cstate :=
  match MetaNamespaceKeyFunc (Object obj) with
  | Err _ => None
  | Ok key =>
      Some (with_store (delete key (c_store s)) (c_pending s ++ [NDelete (Object obj)]) s)
  end.
(** A relist that misses the object: the deletion carries the last known state. *)
Definition informer_deleteUnknown (key : string) (s : cstate) : option cstate :=
  obj ← c_store s !! key;
  let n := NDelete (DeletedFinalStateUnknown key (Some obj)) in
  let s' := with_store (delete key (c_store s)) (c_pending s ++ [n]) s in
  Some {| c_store := c_store s'; c_pending := c_pending s'; c_queue := c_queue s';
          c_addCh := c_addCh s'; c_waiting := c_waiting s'; c_loop := c_loop s'; c_failures := c_failures s';
          c_workers := c_workers s'; c_run := c_run s'; c_ctxDone := c_ctxDone s';
          c_last := c_last s'; c_tombstoned := {[key]} ∪ c_tombstoned s' |}.

Inductive cevent :=
| EvUpsert (obj : T)
| EvDelete (obj : T)
| EvDeleteUnknown (key : string)
| EvDeliver
| EvSynced
| EvCtxDone
| EvSyncStopped
| EvStart (i : nat)
| EvGet (i : nat)
| EvLookup (i : nat)
| EvReturn (i : nat) (err : option error)     (* the reconciler returns *)
| EvRequeue (i : nat) (bucketDelay : Z)       (* the rate limiter answers *)
| EvAddAfter (i : nat) (now : Z)
| EvSend (i : nat)
| EvForget (i : nat)
| EvDone (i : nat)
| EvDelayTop (now : Z)
| EvDelayReady
| EvDelayWake                                 (* the heartbeat or the timer *)
| EvDelayReceive (now : Z)
| EvDelayEmpty
| EvShutDown
| EvDrained
| EvJoined.
End Machine.
Arguments cstate : clear implicits.
Arguments cevent : clear implicits.

(** [New]: the options with their defaults. *)
Record ControllerOptions := { o_Name : string; o_Workers : nat }.

Definition defaultOptions (typeName : string) (options : ControllerOptions) : ControllerOptions :=
  let workers := if bool_decide (o_Workers options = 0) then 2 else o_Workers options in
  let name := if bool_decide (o_Name options = "") then typeName +:+ "-controller"
              else o_Name options in
  {| o_Name := name; o_Workers := workers |}.

Section Step.
Context {T : Type} `{MetaAccessor T}.
Context (options : ControllerOptions).
Implicit Types s : cstate T.

Definition init : cstate T :=
  {| c_store := ∅; c_pending := []; c_queue := newQueue; c_addCh := []; c_waiting := []; c_loop := LTop;
     c_failures := ∅; c_workers := []; c_run := RSyncing; c_ctxDone := false;
     c_last := ∅; c_tombstoned := ∅ |}.

(** [wait.Until]: the context is looked at before the first run. *)
Definition worker_start (i : nat) s : option (cstate T) :=
  match c_workers s !! i with
  | Some WStarting => Some (with_worker i (if c_ctxDone s then WStopped false else WGetting) s)
  | _ => None
  end.

(** [c.queue.Get()]; after a shutdown answer [runWorker] returns, and
    [wait.Until] sees the context that caused the shutdown. *)
Definition worker_get (i : nat) s : option (cstate T) :=
  match c_workers s !! i, Get (c_queue s) with
  | Some WGetting, Some (Some key, q) => Some (with_worker i (WGot key) (with_queue q s))
  | Some WGetting, Some (None, q) => Some (with_worker i (WStopped true) (with_queue q s))
  | _, _ => None
  end.

(** The start of [c.reconcile(key)]. *)
Definition worker_lookup (i : nat) s : option (cstate T) :=
  match c_workers s !! i with
  | Some (WGot key) =>
      Some (with_worker i
              match reconcile_lookup (c_store s) key with
              | InvalidKey => WForget key
              | LookupFailed _ => WRequeue key
              | CallReconciler _ _ newObj => WCalled key newObj
              end s)
  | _ => None
  end.

(** The reconciler returns. *)
Definition worker_return (i : nat) (err : option error) s : option (cstate T) :=
  match c_workers s !! i with
  | Some (WCalled key newObj) =>
      match err with
      | Some _ => Some (with_worker i (WRequeue key) s)
      | None =>
          let s := with_worker i (WForget key) s in
          Some {| c_store := c_store s; c_pending := c_pending s; c_queue := c_queue s;
                  c_addCh := c_addCh s; c_waiting := c_waiting s; c_loop := c_loop s; c_failures := c_failures s;
                  c_workers := c_workers s; c_run := c_run s; c_ctxDone := c_ctxDone s;
                  c_last := partial_alter (λ _, newObj) key (c_last s);
                  c_tombstoned := c_tombstoned s |}
      end
  | _ => None
  end.

(** [c.queue.AddRateLimited(key)], on the way to the deferred [Done]: the rate limiter
    is asked for the delay. *)
Definition worker_requeue (i : nat) (bucketDelay : Z) s : option (cstate T) :=
  match c_workers s !! i with
  | Some (WRequeue key) =>
      let '(delay, failures) := default_When bucketDelay key (c_failures s) in
      Some (with_worker i (WAddAfter key delay)
              (with_delays (c_addCh s) (c_waiting s) failures s))
  | _ => None
  end.

(** [AddAfter] looks whether the queue is shutting down, and may go on to its [select]. *)
Definition worker_addAfter (i : nat) (now : Z) s : option (cstate T) :=
  match c_workers s !! i with
  | Some (WAddAfter key delay) =>
      let '(entry, q) := AddAfter key delay now (c_queue s) in
      Some (with_worker i match entry with Some e => WSending key e.2 | None => WDone key end
              (with_queue q s))
  | _ => None
  end.

(** The send, when the channel has room. *)
Definition worker_send (i : nat) s : option (cstate T) :=
  match c_workers s !! i with
  | Some (WSending key readyAt) =>
      addCh ← sendWaitFor (key, readyAt) (c_addCh s);
      Some (with_worker i (WDone key) (with_delays addCh (c_waiting s) (c_failures s) s))
  | _ => None
  end.

Definition worker_forget (i : nat) s : option (cstate T) :=
  match c_workers s !! i with
  | Some (WForget key) =>
      Some (with_worker i (WDone key)
              (with_delays (c_addCh s) (c_waiting s) (exponential_Forget key (c_failures s)) s))
  | _ => None
  end.

Definition worker_done (i : nat) s : option (cstate T) :=
  match c_workers s !! i with
  | Some (WDone key) => Some (with_worker i WGetting (with_queue (Done key (c_queue s)) s))
  | _ => None
  end.

(** [waitingLoop]: the check at the top, the ready entries, a wake-up, an entry from
    the channel (in the [select] or in the inner loop), the inner loop's default. *)
Definition loop_top (now : Z) s : option (cstate T) :=
  match c_loop s with LTop => Some (with_loop (loop_check now (c_queue s)) s) | _ => None end.

Definition loop_ready s : option (cstate T) :=
  match c_loop s with
  | LReady now =>
      let '(waiting, q) := addReady now (c_waiting s) (c_queue s) in
      Some (with_loop LSelect (with_delays (c_addCh s) waiting (c_failures s) (with_queue q s)))
  | _ => None
  end.

Definition loop_wake s : option (cstate T) :=
  match c_loop s with LSelect => Some (with_loop LTop s) | _ => None end.

Definition loop_receive (now : Z) s : option (cstate T) :=
  match c_loop s, c_addCh s with
  | (LSelect | LDraining), e :: rest =>
      let '(waiting, q) := receiveEntry now e (c_waiting s) (c_queue s) in
      Some (with_loop LDraining (with_delays rest waiting (c_failures s) (with_queue q s)))
  | _, _ => None
  end.

Definition loop_empty s : option (cstate T) :=
  match c_loop s, c_addCh s with LDraining, [] => Some (with_loop LTop s) | _, _ => None end.

Definition all_stopped s : bool :=
  forallb (λ w, match w with WStopped _ => true | _ => false end) (c_workers s).

Definition step (e : cevent T) s : option (cstate T) :=
  match e with
  | EvUpsert obj => informer_upsert obj s
  | EvDelete obj => informer_delete obj s
  | EvDeleteUnknown key => informer_deleteUnknown key s
  | EvDeliver =>
      match c_pending s with
      | [] => None
      | n :: rest =>
          Some (with_queue (handleNotification n (c_queue s)) (with_store (c_store s) rest s))
      end
  | EvSynced =>
      match c_run s with
      | RSyncing =>
          Some {| c_store := c_store s; c_pending := c_pending s; c_queue := c_queue s;
                  c_addCh := c_addCh s; c_waiting := c_waiting s; c_loop := c_loop s; c_failures := c_failures s;
                  c_workers := replicate (o_Workers options) WStarting; c_run := RRunning;
                  c_ctxDone := c_ctxDone s; c_last := c_last s; c_tombstoned := c_tombstoned s |}
      | _ => None
      end
  | EvCtxDone =>
      Some {| c_store := c_store s; c_pending := c_pending s; c_queue := c_queue s;
              c_addCh := c_addCh s; c_waiting := c_waiting s; c_loop := c_loop s; c_failures := c_failures s;
              c_workers := c_workers s; c_run := c_run s; c_ctxDone := true;
              c_last := c_last s; c_tombstoned := c_tombstoned s |}
  | EvSyncStopped =>
      match c_run s, c_ctxDone s with
      | RSyncing, true => Some (with_run RReturned s)
      | _, _ => None
      end
  | EvStart i => worker_start i s
  | EvGet i => worker_get i s
  | EvLookup i => worker_lookup i s
  | EvReturn i err => worker_return i err s
  | EvRequeue i bucketDelay => worker_requeue i bucketDelay s
  | EvAddAfter i now => worker_addAfter i now s
  | EvSend i => worker_send i s
  | EvForget i => worker_forget i s
  | EvDone i => worker_done i s
  | EvDelayTop now => loop_top now s
  | EvDelayReady => loop_ready s
  | EvDelayWake => loop_wake s
  | EvDelayReceive now => loop_receive now s
  | EvDelayEmpty => loop_empty s
  | EvShutDown =>
      match c_run s, c_ctxDone s with
      | RRunning, true =>
          Some (with_run RDraining (with_queue (ShutDownWithDrain_begin (c_queue s)) s))
      | _, _ => None
      end
  | EvDrained =>
      match c_run s with
      | RDraining => if ShutDownWithDrain_returns (c_queue s) then Some (with_run RJoining s) else None
      | _ => None
      end
  | EvJoined =>
      match c_run s with
      | RJoining => if all_stopped s then Some (with_run RReturned s) else None
      | _ => None
      end
  end.
End Step.

(** ** Keys and lookups *)

(** A key [MetaNamespaceKeyFunc] makes from names without a slash. *)
Definition valid_key (key : string) : Prop :=
  ∃ m, has_byte slash (mo_Name m) = false ∧ has_byte slash (mo_Namespace m) = false ∧
       key = metaKey m.

Lemma valid_key_split key :
  valid_key key → ∃ m, key = metaKey m ∧
    SplitMetaNamespaceKey key = Ok (mo_Namespace m, mo_Name m).
Proof.
  intros (m & Hn & Hns & ->). exists m. split; [done|]. unfold SplitMetaNamespaceKey, metaKey.
  case_bool_decide as He.
  - by rw (Split_app _ _ slash Hns) (Split_no_sep _ _ Hn).
  - rw (Split_no_sep _ _ Hn). by rw He.
Qed.

(** Looking a valid key up reads the store at that key. *)
Lemma reconcile_lookup_valid {T} (indexer : gmap string T) key :
  valid_key key →
  ∃ ns name, reconcile_lookup indexer key = CallReconciler ns name (indexer !! key).
Proof.
  intros Hk. destruct (valid_key_split key Hk) as (m & -> & Hs).
  exists (mo_Namespace m), (mo_Name m). unfold reconcile_lookup. rw Hs. unfold metaKey.
  case_bool_decide as He.
  - unfold namespacedLister_Get. by destruct (indexer !! _).
  - unfold lister_Get. by destruct (indexer !! _).
Qed.

(** ** Invariants *)

(** The key a worker took from the queue and has not given back. *)
Definition holds {T} (w : worker T) : option string :=
  match w with
  | WGot key | WCalled key _ | WRequeue key | WAddAfter key _ | WSending key _ | WForget key
  | WDone key => Some key
  | WStarting | WGetting | WStopped _ => None
  end.

(** The functions behind [step]. *)
Ltac unfold_step He := unfold informer_upsert, informer_delete, informer_deleteUnknown, worker_start,
  worker_get, worker_lookup, worker_return, worker_requeue, worker_addAfter, worker_send,
  worker_forget, worker_done, loop_top, loop_ready, loop_wake, loop_receive, loop_empty in He.

Section Invariants.
Context {T : Type} `{MetaAccessor T} (options : ControllerOptions).
Implicit Types s : cstate T.

(** The queue's own invariant; the keys being processed are those the workers
    hold, each held by one worker. *)
Record struct_inv s : Prop := {
  si_queue : wq_inv (c_queue s);
  si_excl i j wi wj key :
    c_workers s !! i = Some wi → c_workers s !! j = Some wj →
    holds wi = Some key → holds wj = Some key → i = j;
  si_processing key :
    key ∈ q_processing (c_queue s) ↔ ∃ i w, c_workers s !! i = Some w ∧ holds w = Some key;
  si_syncing : c_run s = RSyncing → c_workers s = [];
}.

(** A step that only touches the queue, without starting or ending work. *)
Lemma struct_inv_queue s s' :
  struct_inv s → wq_inv (c_queue s') → c_workers s' = c_workers s →
  q_processing (c_queue s') = q_processing (c_queue s) →
  (c_run s' = RSyncing → c_run s = RSyncing) → struct_inv s'.
Proof.
  intros [Hq Hx Hp Hr] Hq' Hw Hproc Hrun. split; [done| | |]; rw Hw.
  - apply Hx.
  - intros key. by rw Hproc.
  - auto.
Qed.

(** A step of worker [i] from [w] to [w']: what it holds changes with the
    queue's processing set. *)
Lemma struct_inv_worker s s' i w w' :
  struct_inv s → c_workers s !! i = Some w →
  wq_inv (c_queue s') → c_workers s' = <[i := w']> (c_workers s) →
  (∀ key, key ∈ q_processing (c_queue s') ↔
     (key ∈ q_processing (c_queue s) ∧ holds w ≠ Some key) ∨ holds w' = Some key) →
  (∀ key, holds w' = Some key → holds w = Some key ∨ key ∉ q_processing (c_queue s)) →
  c_run s' = c_run s → struct_inv s'.
Proof.
  intros [Hq Hx Hp Hr] Hi Hq' Hw Hproc Hnew Hrun.
  assert (i < length (c_workers s)) as Hlen by by eapply lookup_lt_Some.
  assert (∀ j wj key, j ≠ i → c_workers s !! j = Some wj → holds wj = Some key →
            holds w' = Some key → False) as Hother.
  { intros j wj key Hne Hj Hkj Hk'. destruct (Hnew key Hk') as [Hk|Hk].
    - by apply Hne, (Hx j i wj w key).
    - apply Hk, Hp. eauto. }
  split; [done| | |].
  - rw Hw. intros j1 j2 w1 w2 key H1 H2 Hk1 Hk2.
    destruct (decide (j1 = i)) as [->|N1], (decide (j2 = i)) as [->|N2]; [done| | |];
      rw ?list_lookup_insert_eq // ?list_lookup_insert_ne // in H1 H2; simplify_eq.
    + by destruct (Hother j2 w2 key).
    + by destruct (Hother j1 w1 key).
    + by apply (Hx j1 j2 w1 w2 key).
  - intros key. rw Hproc Hw Hp. split.
    + intros [[(j & wj & Hj & Hk) Hne]|Hk].
      * exists j, wj. split; [|done]. rw list_lookup_insert_ne //. intros <-. congruence.
      * exists i, w'. by rw list_lookup_insert_eq.
    + intros (j & wj & Hj & Hk). destruct (decide (j = i)) as [->|N].
      * rw list_lookup_insert_eq // in Hj. simplify_eq. by right.
      * rw list_lookup_insert_ne // in Hj. left. split; [eauto|].
        intros Hk'. by apply N, (Hx j i wj w key).
  - intros Hs. rw Hrun in Hs. rw (Hr Hs) in Hlen. simpl in Hlen. lia.
Qed.

(** What the queue operations of handlers and delays leave alone. *)
Definition same_work (q q' : wq string) : Prop :=
  (wq_inv q → wq_inv q') ∧ q_processing q' = q_processing q ∧
  q_shuttingDown q' = q_shuttingDown q ∧ q_dirty q ⊆ q_dirty q'.

Lemma same_work_refl q : same_work q q.
Proof. done. Qed.
Lemma same_work_Add key q : same_work q (Add key q).
Proof. destruct (Add_frame key q) as (? & ? & ?). split; [apply Add_inv|done]. Qed.

Lemma same_work_handle (n : notification T) q : same_work q (handleNotification n q).
Proof.
  unfold handleNotification, enqueue.
  repeat case_match; simplify_eq/=; auto using same_work_refl, same_work_Add.
Qed.
Lemma same_work_AddAfter key d now q e q' : AddAfter key d now q = (e, q') → same_work q q'.
Proof.
  unfold AddAfter. intros Ha. repeat case_match; simplify_eq; auto using same_work_refl, same_work_Add.
Qed.
Lemma same_work_receive now e l q l' q' : receiveEntry now e l q = (l', q') → same_work q q'.
Proof.
  unfold receiveEntry. intros Ha. repeat case_match; simplify_eq;
    auto using same_work_refl, same_work_Add.
Qed.
Lemma same_work_ready now l q l' q' : addReady now l q = (l', q') → same_work q q'.
Proof.
  revert q. induction l as [|[x t] l IH]; simpl; intros q Hr; [by simplify_eq|].
  case_match; simplify_eq; [done|]. destruct (IH _ Hr) as (Hi & Hp & Hs & Hd).
  destruct (same_work_Add x q) as (Hi' & Hp' & Hs' & Hd'). split; [auto|].
  rw Hp Hp' Hs Hs'. set_solver.
Qed.

Lemma struct_inv_same_work s s' :
  struct_inv s → same_work (c_queue s) (c_queue s') → c_workers s' = c_workers s →
  (c_run s' = RSyncing → c_run s = RSyncing) → struct_inv s'.
Proof. intros Hs (Hi & Hp & _ & _). intros. eapply struct_inv_queue; eauto. apply Hi, Hs. Qed.

(** A worker step that keeps what it holds. *)
Lemma struct_inv_keeps s s' i w w' :
  struct_inv s → c_workers s !! i = Some w → same_work (c_queue s) (c_queue s') →
  c_workers s' = <[i := w']> (c_workers s) → holds w' = holds w → c_run s' = c_run s →
  struct_inv s'.
Proof.
  intros Hs Hi (Hq & Hp & _ & _) Hw Hh Hr. eapply struct_inv_worker; eauto.
  - apply Hq, Hs.
  - intros key. rw Hp Hh. split.
    + intros Hk. destruct (decide (holds w = Some key)); auto.
    + intros [[? _]|Hk]; [done|]. apply (si_processing s Hs). eauto.
  - intros key. rw Hh. auto.
Qed.

Lemma struct_inv_get i s s' : struct_inv s → worker_get i s = Some s' → struct_inv s'.
Proof.
  intros Hs He. unfold worker_get in He. destruct (c_workers s !! i) as [[]|] eqn:Hi; simplify_eq.
  destruct (Get (c_queue s)) as [[[key|] q]|] eqn:Hg; simplify_eq.
  - pose proof (Get_inv _ _ _ (si_queue s Hs) Hg) as Hq.
    unfold Get in Hg. destruct (q_queue (c_queue s)) as [|k rest] eqn:Hqueue;
      [by destruct (q_shuttingDown _)|]. simplify_eq.
    destruct (proj1 (proj2 (si_queue s Hs) key)) as [_ Hnp]; [rw Hqueue; left|].
    eapply struct_inv_worker; [done|done|done|done| | |done]; simpl.
    + intros k. rw elem_of_union elem_of_singleton. split; [|naive_solver].
      intros [->|?]; auto.
    + intros k [= <-]. by right.
  - unfold Get in Hg. repeat case_match; simplify_eq.
    by eapply struct_inv_keeps; [done|done|apply same_work_refl|..].
Qed.

Lemma struct_inv_done i s s' : struct_inv s → worker_done i s = Some s' → struct_inv s'.
Proof.
  intros Hs He. unfold worker_done in He. destruct (c_workers s !! i) as [[]|] eqn:Hi; simplify_eq.
  assert (key ∈ q_processing (c_queue s)) by (apply (si_processing s Hs); eauto).
  eapply struct_inv_worker; [exact Hs|done|apply Done_inv; [apply Hs|done]|done| |done|done]; simpl.
  intros k. rw elem_of_difference elem_of_singleton. naive_solver.
Qed.

Lemma struct_inv_synced s s' : struct_inv s → step options EvSynced s = Some s' → struct_inv s'.
Proof.
  intros [Hq Hx Hp Hsync] He. simpl in He. destruct (c_run s) eqn:Hr; simplify_eq.
  split; simpl; [done| | |done].
  - intros i j wi wj key Hi. apply lookup_replicate in Hi as [-> _]. done.
  - intros key. rw Hp (Hsync eq_refl). split; [by intros (? & ? & ? & _)|].
    intros (i & w & Hi & Hk). apply lookup_replicate in Hi as [-> _]. done.
Qed.

(** The steps of a worker that keeps its key. *)
Ltac keeps_key Hs := by eapply struct_inv_keeps;
  [exact Hs|done|first [apply same_work_refl|by eapply same_work_AddAfter]|..].
(** The steps of everything else. *)
Ltac same_work Hs := by eapply struct_inv_same_work; [exact Hs
  |first [apply same_work_refl|apply same_work_handle|by eapply same_work_receive
         |by eapply same_work_ready]|..].

Lemma loop_receive_Some now s s' :
  loop_receive now s = Some s' → ∃ e rest l q,
    c_addCh s = e :: rest ∧ c_loop s ≠ LReturned ∧
    receiveEntry now e (c_waiting s) (c_queue s) = (l, q) ∧
    s' = with_loop LDraining (with_delays rest l (c_failures s) (with_queue q s)).
Proof.
  unfold loop_receive. intros He.
  destruct (c_loop s), (c_addCh s) as [|e rest]; try done;
    destruct (receiveEntry _ _ _ _) as [l q] eqn:Hr; simplify_eq; by exists e, rest, l, q.
Qed.

Lemma loop_empty_Some s s' :
  loop_empty s = Some s' → c_loop s = LDraining ∧ c_addCh s = [] ∧ s' = with_loop LTop s.
Proof. unfold loop_empty. intros He. by repeat case_match; simplify_eq. Qed.

Lemma struct_inv_step e s s' : struct_inv s → step options e s = Some s' → struct_inv s'.
Proof.
  intros Hs. destruct e; simpl; intros He.
  - unfold informer_upsert in He. case_match; simplify_eq. same_work Hs.
  - unfold informer_delete in He. case_match; simplify_eq. same_work Hs.
  - unfold informer_deleteUnknown in He. step_cases. same_work Hs.
  - destruct (c_pending s); simplify_eq. same_work Hs.
  - by eapply struct_inv_synced.
  - simplify_eq. same_work Hs.
  - destruct (c_run s), (c_ctxDone s); simplify_eq. same_work Hs.
  - unfold worker_start in He. destruct (c_workers s !! i) as [[]|] eqn:Hi; simplify_eq.
    destruct (c_ctxDone s); keeps_key Hs.
  - by eapply struct_inv_get.
  - unfold worker_lookup in He. destruct (c_workers s !! i) as [[]|] eqn:Hi; simplify_eq.
    destruct (reconcile_lookup (c_store s) key); keeps_key Hs.
  - unfold worker_return in He. destruct (c_workers s !! i) as [[]|] eqn:Hi; simplify_eq.
    destruct err; simplify_eq; keeps_key Hs.
  - unfold worker_requeue in He. destruct (c_workers s !! i) as [[]|] eqn:Hi; simplify_eq.
    destruct (default_When _ _ _) as [d f]. simplify_eq. keeps_key Hs.
  - unfold worker_addAfter in He. destruct (c_workers s !! i) as [[]|] eqn:Hi; simplify_eq.
    destruct (AddAfter _ _ _ _) as [[entry|] q] eqn:Ha; simplify_eq; keeps_key Hs.
  - unfold worker_send in He. destruct (c_workers s !! i) as [[]|] eqn:Hi; simplify_eq.
    destruct (sendWaitFor _ _); simplify_eq/=. keeps_key Hs.
  - unfold worker_forget in He. destruct (c_workers s !! i) as [[]|] eqn:Hi; simplify_eq.
    keeps_key Hs.
  - by eapply struct_inv_done.
  - unfold loop_top in He. case_match; simplify_eq. same_work Hs.
  - unfold loop_ready in He. destruct (c_loop s); simplify_eq.
    destruct (addReady _ _ _) as [l q] eqn:Hr. simplify_eq. same_work Hs.
  - unfold loop_wake in He. case_match; simplify_eq. same_work Hs.
  - apply loop_receive_Some in He as (e & rest & l & q & Ha & Hl & Hr & ->). same_work Hs.
  - apply loop_empty_Some in He as (_ & _ & ->). same_work Hs.
  - destruct (c_run s), (c_ctxDone s); simplify_eq.
    eapply struct_inv_queue; [exact Hs|apply Hs|done..].
  - destruct (c_run s); simplify_eq. case_match; simplify_eq. same_work Hs.
  - destruct (c_run s); simplify_eq. case_match; simplify_eq. same_work Hs.
Qed.

Lemma struct_inv_init : struct_inv init.
Proof.
  split; simpl; [apply newQueue_inv|done| |done].
  intros key. rw elem_of_empty. split; [done|]. by intros (? & ? & ? & _).
Qed.

Lemma reachable_struct s : reachable (step options) init s → struct_inv s.
Proof. apply reachable_ind; [|apply struct_inv_init]. intros e s1 s2. apply struct_inv_step. Qed.
End Invariants.

(** ** No change is lost *)

(** The key a notification puts on the queue. *)
Definition enqueues {T} `{MetaAccessor T} (n : notification T) : option string :=
  match n with
  | NAdd obj => metaKey <$> Accessor obj
  | NUpdate oldObj newObj =>
      oldMeta ← Accessor oldObj; newMeta ← Accessor newObj;
      if bool_decide (mo_ResourceVersion oldMeta = mo_ResourceVersion newMeta) then None
      else Some (metaKey newMeta)
  | NDelete obj => metaKey <$> handler_Accessor obj
  end.

Lemma handleNotification_enqueues {T} `{MetaAccessor T} (n : notification T) q :
  handleNotification n q = match enqueues n with Some key => Add key q | None => q end.
Proof.
  unfold handleNotification, enqueue, enqueues, MetaNamespaceKeyFunc.
  destruct n as [obj|old new|[obj|key obj]]; simpl; [by destruct (Accessor obj)| |
    by destruct (Accessor obj)|done].
  destruct (Accessor old), (Accessor new); simpl; try done. by case_bool_decide.
Qed.

Section Coverage.
Context {T : Type} `{MetaAccessor T} (options : ControllerOptions).
Implicit Types (s : cstate T) (k : string).

(** The objects the API server serves: names have no slash, and a resource version
    identifies an object's state. *)
Context (served : T → Prop).
Context (names_valid : ∀ (obj : T) m, served obj → Accessor obj = Some m →
  has_byte slash (mo_Name m) = false ∧ has_byte slash (mo_Namespace m) = false).
Context (version_identifies : ∀ (o1 o2 : T) m1 m2, served o1 → served o2 →
  Accessor o1 = Some m1 → Accessor o2 = Some m2 → metaKey m1 = metaKey m2 →
  mo_ResourceVersion m1 = mo_ResourceVersion m2 → o1 = o2).

Definition served_event (e : cevent T) : Prop :=
  match e with EvUpsert obj => served obj | _ => True end.

(** A change of [k] is announced or on the queue. *)
Definition queued s k : Prop :=
  (∃ n, n ∈ c_pending s ∧ enqueues n = Some k) ∨ k ∈ q_dirty (c_queue s).
(** [k] waits for its retry. *)
Definition delayed s k : Prop := k ∈ (c_addCh s).*1 ∨ k ∈ (c_waiting s).*1.
(** A worker has [k] and will reconcile or requeue it. *)
Definition carries k (w : worker T) : Prop :=
  match w with
  | WGot k' | WCalled k' _ | WRequeue k' | WAddAfter k' _ | WSending k' _ => k' = k
  | _ => False
  end.
Definition carried s k : Prop := ∃ i w, c_workers s !! i = Some w ∧ carries k w.

Definition key_inv s k : Prop :=
  (c_last s !! k = c_store s !! k ∨ queued s k ∨ delayed s k ∨ carried s k) ∧
  (∀ i o, c_workers s !! i = Some (WCalled k o) → o = c_store s !! k ∨ queued s k).

Lemma key_inv_queued s k : queued s k → key_inv s k.
Proof. intros Hq. split; [by right; left|]. by right. Qed.

(** A step that leaves the object alone and loses no reason to look at it. *)
Lemma key_inv_mono s s' k :
  key_inv s k → c_store s' !! k = c_store s !! k → c_last s' !! k = c_last s !! k →
  (queued s k → queued s' k) → (delayed s k → queued s' k ∨ delayed s' k) →
  (carried s k → queued s' k ∨ delayed s' k ∨ carried s' k) →
  (∀ i o, c_workers s' !! i = Some (WCalled k o) →
     c_workers s !! i = Some (WCalled k o) ∨ o = c_store s' !! k) →
  key_inv s' k.
Proof.
  intros [Hc Hw] Hst Hl Hq Hd Hca Hw'. split.
  - rw Hst Hl. destruct Hc as [?|[?|[?|?]]]; [by left|right; by left; apply Hq| |]; right; tauto.
  - intros i o Hi. rw Hst. destruct (Hw' i o Hi) as [Hi'|Ho]; [|by rw Ho Hst; left].
    destruct (Hw i o Hi'); [by left|right; by apply Hq].
Qed.

(** Worker [i] moves from [w] to [w'], and nothing else changes for [k]. *)
Lemma carried_insert s s' i w w' k :
  c_workers s !! i = Some w → c_workers s' = <[i := w']> (c_workers s) →
  (carries k w → carries k w') → carried s k → carried s' k.
Proof.
  intros Hi Hw Hc (j & wj & Hj & Hk).
  assert (i < length (c_workers s)) by by eapply lookup_lt_Some.
  destruct (decide (j = i)) as [->|Hne].
  - simplify_eq. exists i, w'. rw Hw list_lookup_insert_eq //. auto.
  - exists j, wj. by rw Hw list_lookup_insert_ne.
Qed.

Lemma called_insert s s' i w w' k :
  c_workers s !! i = Some w → c_workers s' = <[i := w']> (c_workers s) →
  (∀ o, w' = WCalled k o → o = c_store s' !! k) →
  ∀ j o, c_workers s' !! j = Some (WCalled k o) →
    c_workers s !! j = Some (WCalled k o) ∨ o = c_store s' !! k.
Proof.
  intros Hi Hw Hnew j o Hj. rw Hw in Hj.
  assert (i < length (c_workers s)) by by eapply lookup_lt_Some.
  destruct (decide (j = i)) as [->|Hne].
  - rw list_lookup_insert_eq // in Hj. simplify_eq. right. by apply Hnew.
  - rw list_lookup_insert_ne // in Hj. by left.
Qed.

Lemma key_inv_worker s s' i w w' k :
  key_inv s k → c_workers s !! i = Some w → c_workers s' = <[i := w']> (c_workers s) →
  c_store s' = c_store s → c_last s' = c_last s →
  (queued s k → queued s' k) → (delayed s k → delayed s' k) →
  (carries k w → carries k w' ∨ queued s' k ∨ delayed s' k) →
  (∀ o, w' = WCalled k o → o = c_store s' !! k) → key_inv s' k.
Proof.
  intros Hk Hi Hw Hst Hl Hq Hd Hc Hcall.
  apply (key_inv_mono s); rw ?Hst ?Hl //; [auto| |].
  - intros (j & wj & Hj & Hcj). destruct (decide (j = i)) as [->|Hne].
    + simplify_eq. destruct (Hc Hcj) as [Hw'|[?|?]]; [|by left|by right; left].
      right; right. exists i, w'. rw Hw list_lookup_insert_eq; [by eapply lookup_lt_Some|done].
    + right; right. exists j, wj. by rw Hw list_lookup_insert_ne.
  - rw -Hst. by eapply called_insert.
Qed.

Lemma queued_pending s s' k :
  c_pending s ⊆ c_pending s' → q_dirty (c_queue s) ⊆ q_dirty (c_queue s') →
  queued s k → queued s' k.
Proof. intros Hp Hd [(n & Hn & He)|Hk]; [left; exists n; auto|right; auto]. Qed.

(** The keys of the store are the keys of its objects, which the server served. *)
Definition store_keyed s : Prop :=
  ∀ k obj, c_store s !! k = Some obj → served obj ∧ ∃ m, Accessor obj = Some m ∧ metaKey m = k.

Lemma MetaNamespaceKeyFunc_Ok (obj : T) key :
  MetaNamespaceKeyFunc (Object obj) = Ok key ↔ ∃ m, Accessor obj = Some m ∧ metaKey m = key.
Proof.
  unfold MetaNamespaceKeyFunc. simpl. destruct (Accessor obj) as [m|]; [|by split; [|intros (? & ? & _)]].
  split; [intros [= <-]; eauto|by intros (? & [= <-] & <-)].
Qed.

Lemma upsert_key_inv obj s s' k :
  store_keyed s → served obj → key_inv s k → informer_upsert obj s = Some s' → key_inv s' k.
Proof.
  intros Hst Hserved Hk Hu. unfold informer_upsert in Hu.
  destruct (MetaNamespaceKeyFunc (Object obj)) as [key|] eqn:Hkey; simplify_eq.
  apply MetaNamespaceKeyFunc_Ok in Hkey as (m & Hm & Hmk).
  assert (∀ n, c_store s !! k = <[key := obj]> (c_store s) !! k →
    key_inv (with_store (<[key := obj]> (c_store s)) (c_pending s ++ [n]) s) k) as Hsame.
  { intros n Heq. apply (key_inv_mono s); auto. apply queued_pending; set_solver. }
  destruct (decide (k = key)) as [->|Hne]; [|apply Hsame; by rw lookup_insert_ne].
  destruct (c_store s !! key) as [old|] eqn:Hold.
  - destruct (Hst key old Hold) as (Hserved' & m' & Hm' & Hmk').
    destruct (decide (mo_ResourceVersion m' = mo_ResourceVersion m)) as [Hv|Hv].
    + apply Hsame. rw lookup_insert_eq. f_equal. eapply version_identifies; eauto. congruence.
    + apply key_inv_queued. left. exists (NUpdate old obj). split; [simpl; set_solver|].
      simpl. rw Hm' Hm /=. rw bool_decide_eq_false_2 //. by rw Hmk.
  - apply key_inv_queued. left. exists (NAdd obj). split; [simpl; set_solver|].
    simpl. by rw Hm /= Hmk.
Qed.

Lemma delete_key_inv obj s s' k :
  key_inv s k → informer_delete obj s = Some s' → key_inv s' k.
Proof.
  intros Hk Hu. unfold informer_delete in Hu.
  destruct (MetaNamespaceKeyFunc (Object obj)) as [key|] eqn:Hkey; simplify_eq.
  apply MetaNamespaceKeyFunc_Ok in Hkey as (m & Hm & Hmk).
  destruct (decide (k = key)) as [->|Hne].
  - apply key_inv_queued. left. exists (NDelete (Object obj)). split; [simpl; set_solver|].
    simpl. by rw Hm /= Hmk.
  - apply (key_inv_mono s); auto; simpl; [by rw lookup_delete_ne|].
    apply queued_pending; set_solver.
Qed.

Lemma deliver_key_inv s s' k :
  key_inv s k → q_shuttingDown (c_queue s) = false →
  step options EvDeliver s = Some s' → key_inv s' k.
Proof.
  intros Hk Hshut He. simpl in He. destruct (c_pending s) as [|n rest] eqn:Hp; simplify_eq.
  rw handleNotification_enqueues.
  apply (key_inv_mono s); auto. intros [(n' & Hn' & Hen)|Hd].
  - rw Hp in Hn'. apply elem_of_cons in Hn' as [->|Hn'].
    + right. simpl. rw Hen. apply Add_dirty; auto.
    + left. eauto.
  - right. simpl. destruct (enqueues n); [|done]. apply Add_dirty; auto.
Qed.

(** Only one worker can be inside the reconciler for the key another holds. *)
Lemma no_other_call s i w k :
  struct_inv s → c_workers s !! i = Some w → holds w = Some k →
  (∀ o, w ≠ WCalled k o) → ∀ j o, c_workers s !! j ≠ Some (WCalled k o).
Proof.
  intros Hs Hi Hk Hnc j o Hj.
  assert (j = i) as -> by by eapply (si_excl s Hs). simplify_eq. by eapply Hnc.
Qed.

Lemma get_key_inv i s s' k :
  struct_inv s' → key_inv s k → worker_get i s = Some s' → key_inv s' k.
Proof.
  intros Hs' Hk He. unfold worker_get in He.
  destruct (c_workers s !! i) as [[]|] eqn:Hi; simplify_eq.
  assert (i < length (c_workers s)) as Hlen by by eapply lookup_lt_Some.
  destruct (Get (c_queue s)) as [[[key|] q]|] eqn:Hg; simplify_eq.
  - destruct (decide (k = key)) as [->|Hne].
    + split.
      * right; right; right. exists i, (WGot key). simpl.
        by rw list_lookup_insert_eq.
      * intros j o Hj. exfalso. revert Hj.
        apply (no_other_call _ i (WGot key)); [done|by rw /= list_lookup_insert_eq|done|done].
    + assert (q_dirty q = q_dirty (c_queue s) ∖ {[key]}) as Hd.
      { unfold Get in Hg. repeat case_match; by simplify_eq. }
      eapply key_inv_worker; [done|done|done|done|done| |done| |done].
      * intros [?|?]; [by left|]. right. simpl. rw Hd. set_solver.
      * done.
  - unfold Get in Hg. repeat case_match; simplify_eq.
    by eapply key_inv_worker.
Qed.

Lemma lookup_key_inv i s s' k :
  valid_key k → key_inv s k → worker_lookup i s = Some s' → key_inv s' k.
Proof.
  intros Hv Hk He. unfold worker_lookup in He.
  destruct (c_workers s !! i) as [[]|] eqn:Hi; simplify_eq.
  destruct (decide (k = key)) as [->|Hne].
  - destruct (reconcile_lookup_valid (c_store s) key Hv) as (ns & name & ->).
    eapply key_inv_worker; [done|done|done|done|done|done|done|by left|].
    by intros o [= <-].
  - eapply key_inv_worker; [done|done|done|done|done|done|done| |].
    + simpl. congruence.
    + intros o. destruct (reconcile_lookup (c_store s) key); [done|done|]. by intros [= ->].
Qed.

Lemma return_key_inv i err s s' k :
  key_inv s k → worker_return i err s = Some s' → key_inv s' k.
Proof.
  intros Hk He. unfold worker_return in He.
  destruct (c_workers s !! i) as [[]|] eqn:Hi; simplify_eq. destruct err; simplify_eq.
  { eapply key_inv_worker; [done|done|done|done|done|done|done|by left|done]. }
  destruct (decide (k = key)) as [->|Hne].
  - destruct Hk as [_ Hcall]. split; simpl.
    + rw lookup_partial_alter_eq. destruct (Hcall i newObj Hi); [by left|by right; left].
    + intros j o Hj. destruct (decide (j = i)) as [->|Hj'].
      * rw list_lookup_insert_eq in Hj; [by eapply lookup_lt_Some|done].
      * rw list_lookup_insert_ne // in Hj. by apply (Hcall j).
  - apply (key_inv_mono s); auto; simpl.
    + by rw lookup_partial_alter_ne.
    + intros Hc. right; right. eapply (carried_insert s _ i); [done|done| |done].
      simpl. congruence.
    + intros j o Hj. left. destruct (decide (j = i)) as [->|Hj'].
      * rw list_lookup_insert_eq in Hj; [by eapply lookup_lt_Some|done].
      * by rw list_lookup_insert_ne // in Hj.
Qed.

Lemma requeue_key_inv i bucketDelay s s' k :
  key_inv s k → worker_requeue i bucketDelay s = Some s' → key_inv s' k.
Proof.
  intros Hk He. unfold worker_requeue in He.
  destruct (c_workers s !! i) as [[]|] eqn:Hi; simplify_eq.
  destruct (default_When _ _ _) as [d f]. simplify_eq.
  eapply key_inv_worker; [done|done|done|done|done|done|done|by left|done].
Qed.

Lemma addAfter_key_inv i now s s' k :
  key_inv s k → q_shuttingDown (c_queue s) = false →
  worker_addAfter i now s = Some s' → key_inv s' k.
Proof.
  intros Hk Hshut He. unfold worker_addAfter in He.
  destruct (c_workers s !! i) as [[]|] eqn:Hi; simplify_eq.
  destruct (AddAfter _ _ _ _) as [entry q] eqn:Ha. simplify_eq.
  pose proof (same_work_AddAfter _ _ _ _ _ _ Ha) as (_ & _ & _ & Hd).
  eapply key_inv_worker; [done|done|done|done|done| |done| |by destruct entry].
  - intros [?|?]; [by left|right; simpl; auto].
  - simpl. intros ->. unfold AddAfter in Ha. rw Hshut in Ha.
    case_match; simplify_eq; [right; left; right|by left]. simpl. apply Add_dirty; auto.
Qed.

(** The key is on the channel before its worker lets go of it. *)
Lemma send_key_inv i s s' k : key_inv s k → worker_send i s = Some s' → key_inv s' k.
Proof.
  intros Hk He. unfold worker_send in He.
  destruct (c_workers s !! i) as [[]|] eqn:Hi; simplify_eq.
  destruct (sendWaitFor _ _) as [addCh|] eqn:Hs; simplify_eq/=.
  apply sendWaitFor_Some in Hs as [_ ->].
  eapply key_inv_worker; [done|done|done|done|done|done| | |done].
  - intros [?|?]; [left|by right]. simpl. rw fmap_app. set_solver.
  - simpl. intros ->. right; right; left. simpl. rw fmap_app. set_solver.
Qed.

Lemma delay_key_inv s l addCh waiting failures q k :
  key_inv s k → q_dirty (c_queue s) ⊆ q_dirty q →
  (delayed s k → k ∈ q_dirty q ∨ k ∈ addCh.*1 ∨ k ∈ waiting.*1) →
  key_inv (with_loop l (with_delays addCh waiting failures (with_queue q s))) k.
Proof.
  intros Hk Hd Hdel. apply (key_inv_mono s); auto.
  - by apply queued_pending.
  - intros [?|[?|?]]%Hdel; [left; by right|right; by left|right; by right].
Qed.

Lemma shutdown_is_final e s s' :
  step options e s = Some s' → q_shuttingDown (c_queue s') = false →
  q_shuttingDown (c_queue s) = false.
Proof.
  assert (∀ q q', same_work q q' → q_shuttingDown q' = false → q_shuttingDown q = false) as Hsw
    by by intros q q' (_ & _ & -> & _).
  destruct e; simpl; intros He; try (by simplify_eq);
    try (by destruct (c_run s); repeat case_match; simplify_eq).
  - unfold informer_upsert in He. case_match; by simplify_eq.
  - unfold informer_delete in He. case_match; by simplify_eq.
  - unfold informer_deleteUnknown in He. by step_cases.
  - destruct (c_pending s); simplify_eq. apply Hsw, same_work_handle.
  - unfold worker_start in He. by repeat case_match; simplify_eq.
  - unfold worker_get, Get in He. repeat case_match; simplify_eq/=; congruence.
  - unfold worker_lookup in He. by repeat case_match; simplify_eq.
  - unfold worker_return in He. by repeat case_match; simplify_eq.
  - unfold worker_requeue in He. by repeat case_match; simplify_eq.
  - unfold worker_addAfter in He. destruct (c_workers s !! i) as [[]|]; simplify_eq.
    destruct (AddAfter _ _ _ _) eqn:Ha. simplify_eq. by eapply Hsw, same_work_AddAfter.
  - unfold worker_send in He. by step_cases.
  - unfold worker_forget in He. by repeat case_match; simplify_eq.
  - unfold worker_done in He. by repeat case_match; simplify_eq.
  - unfold loop_top in He. by case_match; simplify_eq.
  - unfold loop_ready in He. case_match; simplify_eq. case_match eqn:Hr; simplify_eq.
    by eapply Hsw, same_work_ready.
  - unfold loop_wake in He. by case_match; simplify_eq.
  - apply loop_receive_Some in He as (e & rest & l & q & _ & _ & Hr & ->).
    by eapply Hsw, same_work_receive.
  - by apply loop_empty_Some in He as (_ & _ & ->).
Qed.

Definition cover_inv s : Prop :=
  store_keyed s ∧
  (q_shuttingDown (c_queue s) = false →
   ∀ k, valid_key k → k ∉ c_tombstoned s → key_inv s k).

Lemma store_keyed_step e s s' :
  served_event e → store_keyed s → step options e s = Some s' → store_keyed s'.
Proof.
  intros Hserved Hst. destruct e; simpl; intros He.
  1: { unfold informer_upsert in He.
       destruct (MetaNamespaceKeyFunc (Object obj)) as [key|] eqn:Hk; simplify_eq.
       intros k o. simpl. destruct (decide (k = key)) as [->|].
       - rw lookup_insert_eq. intros [= <-]. split; [done|by apply MetaNamespaceKeyFunc_Ok].
       - rw lookup_insert_ne //. apply Hst. }
  1: { unfold informer_delete in He. case_match; simplify_eq.
       intros k o Ho. simpl in Ho. apply lookup_delete_Some in Ho as [_ Ho]. by apply Hst. }
  1: { unfold informer_deleteUnknown in He. step_cases.
       intros k o Ho. simpl in Ho. apply lookup_delete_Some in Ho as [_ Ho]. by apply Hst. }
  all: unfold_step He; step_cases; by simplify_eq.
Qed.

(** Every step keeps the account of a valid key. *)
Lemma key_inv_step e s s' k :
  struct_inv s' → store_keyed s → served_event e → q_shuttingDown (c_queue s) = false →
  q_shuttingDown (c_queue s') = false → valid_key k → k ∉ c_tombstoned s' →
  (c_run s = RSyncing → c_workers s = []) →
  key_inv s k → step options e s = Some s' → key_inv s' k.
Proof.
  intros Hs' Hst Hserved Hshut Hshut' Hv Ht Hsync Hk He. destruct e; simpl in He.
  - by eapply upsert_key_inv.
  - by eapply delete_key_inv.
  - unfold informer_deleteUnknown in He. step_cases.
    apply (key_inv_mono s); auto; simpl; [rw lookup_delete_ne //; set_solver|].
    apply queued_pending; set_solver.
  - by eapply deliver_key_inv.
  - destruct (c_run s) eqn:Hr; simplify_eq. apply (key_inv_mono s); auto; simpl.
    + intros (i & w & Hi & _). by rw (Hsync eq_refl) in Hi.
    + intros i o Hi. by apply lookup_replicate in Hi as [? _].
  - by simplify_eq.
  - by destruct (c_run s), (c_ctxDone s); simplify_eq.
  - unfold worker_start in He. destruct (c_workers s !! i) as [[]|] eqn:Hi; simplify_eq.
    eapply key_inv_worker; [done|done|done|done|done|done|done|done|by destruct (c_ctxDone s)].
  - by eapply get_key_inv.
  - by eapply lookup_key_inv.
  - by eapply return_key_inv.
  - by eapply requeue_key_inv.
  - by eapply addAfter_key_inv.
  - by eapply send_key_inv.
  - unfold worker_forget in He. destruct (c_workers s !! i) as [[]|] eqn:Hi; simplify_eq.
    by eapply key_inv_worker.
  - unfold worker_done in He. destruct (c_workers s !! i) as [[]|] eqn:Hi; simplify_eq.
    by eapply key_inv_worker.
  - unfold loop_top in He. by case_match; simplify_eq.
  - unfold loop_ready in He. destruct (c_loop s); simplify_eq.
    destruct (addReady _ _ _) as [l q] eqn:Hr. simplify_eq.
    destruct (addReady_spec _ _ _ _ _ Hr Hshut) as (_ & _ & _ & Hx).
    pose proof (same_work_ready _ _ _ _ _ Hr) as (_ & _ & _ & Hd).
    apply delay_key_inv; [done|done|]. unfold delayed. specialize (Hx k). tauto.
  - unfold loop_wake in He. by case_match; simplify_eq.
  - apply loop_receive_Some in He as (e & rest & l & q & Ha & _ & Hr & ->).
    pose proof (same_work_receive _ _ _ _ _ _ Hr) as (_ & _ & _ & Hd).
    apply delay_key_inv; [done|done|]. unfold delayed. rw Ha fmap_cons elem_of_cons.
    unfold receiveEntry in Hr. case_match; simplify_eq.
    + rw elem_insert_entry. tauto.
    + rw Add_dirty //. tauto.
  - by apply loop_empty_Some in He as (_ & _ & ->).
  - by destruct (c_run s), (c_ctxDone s); simplify_eq.
  - by destruct (c_run s); repeat case_match; simplify_eq.
  - by destruct (c_run s); repeat case_match; simplify_eq.
Qed.

Lemma cover_inv_init : cover_inv init.
Proof.
  split; [by intros k obj|]. intros _ k _ _. split; [by left|]. intros i o Hi. by destruct i.
Qed.

Lemma cover_inv_step e s1 s2 :
  struct_inv s1 → served_event e → cover_inv s1 → step options e s1 = Some s2 → cover_inv s2.
Proof.
  intros Hs1 Hserved [Hst Hk] He. split; [by eapply store_keyed_step|].
  intros Hshut k Hv Ht. pose proof (shutdown_is_final e s1 s2 He Hshut) as Hshut1.
  eapply key_inv_step; eauto; [by eapply struct_inv_step|apply Hs1|]. apply Hk; [done|done|].
  intros Ht1. apply Ht. clear -He Ht1. revert He.
  destruct e; simpl; intros He; unfold_step He; step_cases; simplify_eq/=;
    set_solver.
Qed.

Lemma run_cover es s : Forall served_event es → run (step options) es init = Some s → cover_inv s.
Proof.
  revert s. induction es as [|e es IH] using rev_ind; intros s Hes Hr.
  { simplify_eq/=. apply cover_inv_init. }
  apply Forall_app in Hes as [Hes [He _]%Forall_cons]. rw run_app in Hr.
  destruct (run (step options) es init) as [s1|] eqn:Hr1; [|done]. simpl in Hr.
  destruct (step options e s1) as [s2|] eqn:Hs; simplify_eq/=.
  eapply (cover_inv_step e s1); [|done|by apply IH|done]. apply (reachable_struct options). by exists es.
Qed.

(** Nothing is announced, queued, delayed or in a worker's hands. *)
Definition quiescent s : Prop :=
  c_pending s = [] ∧ q_queue (c_queue s) = [] ∧ c_addCh s = [] ∧ c_waiting s = [] ∧
  ∀ w, w ∈ c_workers s → holds w = None.

Lemma quiescent_up_to_date es s k :
  Forall served_event es → run (step options) es init = Some s →
  q_shuttingDown (c_queue s) = false → quiescent s → valid_key k → k ∉ c_tombstoned s →
  c_last s !! k = c_store s !! k.
Proof.
  intros Hes Hr Hshut (Hp & Hq & Ha & Hw & Hidle) Hv Ht.
  assert (struct_inv s) as Hs by (apply (reachable_struct options); by exists es).
  assert (q_processing (c_queue s) = ∅) as Hproc.
  { apply set_eq. intros x. rw (si_processing s Hs) elem_of_empty. split; [|done].
    intros (i & w & Hi & Hh). apply list_elem_of_lookup_2 in Hi. by rw (Hidle w Hi) in Hh. }
  pose proof (empty_queue_idle _ (si_queue s Hs) Hq) as Hdirty. rw Hproc in Hdirty.
  destruct (run_cover es s Hes Hr) as [_ Hk]. destruct (Hk Hshut k Hv Ht) as [Hc _].
  destruct Hc as [?|[[(n & Hn & _)|Hd]|[[Hd|Hd]|(i & w & Hi & Hc)]]]; [done|..]; exfalso.
  - rw Hp in Hn. by apply elem_of_nil in Hn.
  - set_solver.
  - rw Ha in Hd. by apply elem_of_nil in Hd.
  - rw Hw in Hd. by apply elem_of_nil in Hd.
  - apply list_elem_of_lookup_2, Hidle in Hi. by destruct w.
Qed.

(** C13: no change is lost: whenever a controller that is not shutting down has
    nothing left to do, the reconciler's last accepted call for every object key
    was with the object as the cache has it now (or with none, if it is gone),
    however adds, updates, deletes, failures, retries and workers interleaved;
    except for keys once deleted with an unknown final state. *)
Theorem quiescent_controller_is_up_to_date es s (obj : T) k :
  Forall served_event es → run (step options) es init = Some s →
  q_shuttingDown (c_queue s) = false → quiescent s →
  served obj → MetaNamespaceKeyFunc (Object obj) = Ok k → k ∉ c_tombstoned s →
  c_last s !! k = c_store s !! k.
Proof.
  intros Hes Hr Hshut Hq Hserved (m & Hm & Hmk)%MetaNamespaceKeyFunc_Ok. eapply quiescent_up_to_date; try done.
  exists m. destruct (names_valid obj m Hserved Hm). auto.
Qed.
End Coverage.

Section Properties.
Context {T : Type} `{MetaAccessor T} (options : ControllerOptions).
Implicit Types s : cstate T.

(** Two workers never process the same key at the same time, from [Get] to
    [Done], the reconciler call included. *)
Theorem one_worker_per_key s i j wi wj k :
  reachable (step options) init s →
  c_workers s !! i = Some wi → c_workers s !! j = Some wj →
  holds wi = Some k → holds wj = Some k → i = j.
Proof. intros Hr. apply (si_excl s (reachable_struct options s Hr)). Qed.

(** [reconcile] gives the reconciler the namespace and name its key was made
    from and the object the cache holds under that key, none if the cache has
    none, and returns its answer; a key that is not of that form is dropped
    without a call and without an error. *)
Theorem reconcile_reads_cache {W} (reconciler : string → string → option T → W → option error * W)
    (indexer : gmap string T) m w :
  has_byte slash (mo_Name m) = false → has_byte slash (mo_Namespace m) = false →
  reconcile reconciler indexer (metaKey m) w =
    reconciler (mo_Namespace m) (mo_Name m) (indexer !! metaKey m) w ∧
  ∀ key, length (Split key slash) ≠ 1 → length (Split key slash) ≠ 2 →
    reconcile reconciler indexer key w = (None, w).
Proof.
  intros Hn Hns. split.
  - unfold reconcile, reconcile_lookup, SplitMetaNamespaceKey, metaKey. case_bool_decide as He.
    + rw (Split_app _ _ slash Hns) (Split_no_sep _ _ Hn) bool_decide_eq_true_2 //.
      unfold namespacedLister_Get. by destruct (indexer !! _).
    + rw (Split_no_sep _ _ Hn) bool_decide_eq_false_2; [by intros []|].
      unfold lister_Get. rw He. by destruct (indexer !! mo_Name m).
  - intros key H1 H2. unfold reconcile, reconcile_lookup, SplitMetaNamespaceKey.
    destruct (Split key slash) as [|a [|b [|c l]]]; done.
Qed.

(** *** Shutdown *)

(** A worker that will come back to [Get]. *)
Definition is_active (w : worker T) : bool :=
  match w with WStarting | WStopped _ => false | _ => true end.

Record drain_inv s : Prop := {
  di_shut i : c_workers s !! i = Some (WStopped true) → q_shuttingDown (c_queue s) = true;
  di_queue i : c_workers s !! i = Some (WStopped true) →
    q_queue (c_queue s) = [] ∨ ∃ j w, c_workers s !! j = Some w ∧ is_active w = true;
  di_returned : c_run s = RReturned → all_stopped s = true;
}.

(** A step that changes neither the workers nor, once adds are refused, the queue. *)
Lemma drain_inv_frame s s' :
  drain_inv s → c_workers s' = c_workers s →
  (q_shuttingDown (c_queue s) = true →
     q_shuttingDown (c_queue s') = true ∧ q_queue (c_queue s') = q_queue (c_queue s)) →
  (c_run s' = RReturned → all_stopped s = true) → drain_inv s'.
Proof.
  intros [Hs Hq Hr] Hw Hqs Hret. split; rw ?Hw.
  - intros i Hi. by apply Hqs, (Hs i).
  - intros i Hi. destruct (Hqs (Hs i Hi)) as [_ ->]. eauto.
  - unfold all_stopped. by rw Hw.
Qed.

(** A step of worker [i] after which it is active, or stops on an empty queue. *)
Lemma drain_inv_worker s s' i w w' :
  drain_inv s → c_workers s !! i = Some w → is_active w = true ∨ w = WStarting →
  c_workers s' = <[i := w']> (c_workers s) → c_run s' = c_run s →
  (q_shuttingDown (c_queue s) = true → q_shuttingDown (c_queue s') = true) →
  is_active w' = true ∨
    (w' = WStopped true ∧ q_queue (c_queue s') = [] ∧ q_shuttingDown (c_queue s') = true) ∨
    (w' = WStopped false ∧ w = WStarting ∧ q_queue (c_queue s') = q_queue (c_queue s)) →
  drain_inv s'.
Proof.
  intros [Hs Hq Hr] Hi Hact Hw Hrun Hshut Hw'.
  assert (i < length (c_workers s)) as Hlen by by eapply lookup_lt_Some.
  assert (∀ j u, j ≠ i → c_workers s' !! j = u → c_workers s !! j = u) as Hne
    by (intros j u Hne Hj; by rw Hw list_lookup_insert_ne // in Hj).
  assert (c_workers s' !! i = Some w') as Hi' by by rw Hw list_lookup_insert_eq.
  split.
  - intros j Hj. destruct (decide (j = i)) as [->|Hji]; [|by apply Hshut, (Hs j), Hne].
    simplify_eq. destruct Hw' as [|[(_ & _ & ?)|(? & _)]]; done.
  - intros j Hj. destruct Hw' as [Hact'|[(-> & Hemp & _)|(-> & -> & Hemp)]].
    + right. eauto.
    + by left.
    + destruct (decide (j = i)) as [->|Hji]; [simplify_eq|].
      destruct (Hq j (Hne j _ Hji Hj)) as [Hq0|(j' & u & Hj' & Hu)]; [left; congruence|].
      right. exists j', u. split; [|done]. rw Hw list_lookup_insert_ne //. intros <-. by simplify_eq.
  - rw Hrun. intros Hret. specialize (Hr Hret). unfold all_stopped in Hr.
    rw forallb_forall in Hr. specialize (Hr w (proj1 (list_elem_of_In _ _) (list_elem_of_lookup_2 _ _ _ Hi))).
    by destruct Hact as [Ha|Ha]; destruct w.
Qed.

Lemma Add_closed (key : string) q : q_shuttingDown q = true → Add key q = q.
Proof. intros Hd. unfold Add. by rw Hd. Qed.

Lemma handle_closed (n : notification T) q :
  q_shuttingDown q = true → handleNotification n q = q.
Proof.
  intros Hd. rw handleNotification_enqueues. destruct (enqueues n); [by apply Add_closed|done].
Qed.

Lemma addReady_closed now l (q : wq string) l' q' :
  addReady now l q = (l', q') → q_shuttingDown q = true → q' = q.
Proof.
  revert q. induction l as [|[x t] l IH]; simpl; intros q Hr Hd; [by simplify_eq|].
  case_match; simplify_eq; [done|]. rw Add_closed // in Hr. by apply IH.
Qed.

Lemma receiveEntry_closed now e l (q : wq string) l' q' :
  receiveEntry now e l q = (l', q') → q_shuttingDown q = true → q' = q.
Proof. unfold receiveEntry. intros Hr Hd. case_match; simplify_eq; [done|]. by apply Add_closed. Qed.

Ltac frame Hd := eapply drain_inv_frame; [exact Hd|done|done|simpl; try done; try apply Hd].
Ltac moves Hd Hi := by eapply drain_inv_worker;
  [exact Hd|exact Hi|by left|reflexivity|reflexivity|done|left].

Lemma drain_inv_step e s s' : drain_inv s → struct_inv s → step options e s = Some s' → drain_inv s'.
Proof.
  intros Hd Hs. destruct e; simpl; intros He.
  - unfold informer_upsert in He. case_match; simplify_eq. frame Hd.
  - unfold informer_delete in He. case_match; simplify_eq. frame Hd.
  - unfold informer_deleteUnknown in He. step_cases. frame Hd.
  - destruct (c_pending s) as [|n rest]; simplify_eq.
    eapply drain_inv_frame; [exact Hd|done| |apply Hd].
    intros Hshut. simpl. by rw handle_closed.
  - destruct (c_run s) eqn:Hr; simplify_eq. split; simpl; [..|done];
      intros i Hi; by apply lookup_replicate in Hi as [? _].
  - simplify_eq. frame Hd.
  - destruct (c_run s) eqn:Hr, (c_ctxDone s); simplify_eq.
    eapply drain_inv_frame; [exact Hd|done|done|].
    intros _. unfold all_stopped. by rw (si_syncing s Hs Hr).
  - unfold worker_start in He. destruct (c_workers s !! i) as [[]|] eqn:Hi; simplify_eq.
    eapply drain_inv_worker; [exact Hd|exact Hi|by right|done|done|done|].
    destruct (c_ctxDone s); [by right; right|by left].
  - unfold worker_get in He. destruct (c_workers s !! i) as [[]|] eqn:Hi; simplify_eq.
    destruct (Get (c_queue s)) as [[[key|] q]|] eqn:Hg; simplify_eq; unfold Get in Hg.
    + eapply drain_inv_worker; [exact Hd|exact Hi|by left|done|done| |by left].
      by repeat case_match; simplify_eq.
    + destruct (q_queue (c_queue s)) eqn:Hq; [|done]. destruct (q_shuttingDown (c_queue s)) eqn:Hsd; simplify_eq.
      eapply drain_inv_worker; [exact Hd|exact Hi|by left|done|done|done|by right; left].
  - unfold worker_lookup in He. destruct (c_workers s !! i) as [[]|] eqn:Hi; simplify_eq.
    destruct (reconcile_lookup (c_store s) key); moves Hd Hi.
  - unfold worker_return in He. destruct (c_workers s !! i) as [[]|] eqn:Hi; simplify_eq.
    destruct err; simplify_eq; moves Hd Hi.
  - unfold worker_requeue in He. destruct (c_workers s !! i) as [[]|] eqn:Hi; simplify_eq.
    destruct (default_When _ _ _). simplify_eq. moves Hd Hi.
  - unfold worker_addAfter in He. destruct (c_workers s !! i) as [[]|] eqn:Hi; simplify_eq.
    destruct (AddAfter _ _ _ _) as [entry q] eqn:Ha. simplify_eq.
    eapply drain_inv_worker; [exact Hd|exact Hi|by left|done|done| |left; by destruct entry].
    destruct (same_work_AddAfter _ _ _ _ _ _ Ha) as (_ & _ & Hsd & _). by rw /= Hsd.
  - unfold worker_send in He. destruct (c_workers s !! i) as [[]|] eqn:Hi; simplify_eq.
    destruct (sendWaitFor _ _); simplify_eq/=. moves Hd Hi.
  - unfold worker_forget in He. destruct (c_workers s !! i) as [[]|] eqn:Hi; simplify_eq.
    moves Hd Hi.
  - unfold worker_done in He. destruct (c_workers s !! i) as [[]|] eqn:Hi; simplify_eq.
    moves Hd Hi.
  - unfold loop_top in He. case_match; simplify_eq. frame Hd.
  - unfold loop_ready in He. destruct (c_loop s); simplify_eq.
    destruct (addReady _ _ _) as [l q] eqn:Hr. simplify_eq.
    eapply drain_inv_frame; [exact Hd|done| |apply Hd]. intros Hsd. simpl.
    by rw (addReady_closed _ _ _ _ _ Hr).
  - unfold loop_wake in He. case_match; simplify_eq. frame Hd.
  - apply loop_receive_Some in He as (e & rest & l & q & _ & _ & Hr & ->).
    eapply drain_inv_frame; [exact Hd|done| |apply Hd]. intros Hsd. simpl.
    by rw (receiveEntry_closed _ _ _ _ _ _ Hr).
  - apply loop_empty_Some in He as (_ & _ & ->). frame Hd.
  - destruct (c_run s) eqn:Hr, (c_ctxDone s); simplify_eq. frame Hd.
  - destruct (c_run s) eqn:Hr; simplify_eq. case_match; simplify_eq. frame Hd.
  - destruct (c_run s) eqn:Hr; simplify_eq. case_match; simplify_eq. frame Hd.
Qed.

Lemma reachable_drain s : reachable (step options) init s → drain_inv s.
Proof.
  apply (reachable_ind_with (step options) struct_inv); [apply reachable_struct| |].
  - split; [by intros []|by intros []|done].
  - intros e s1 s2 Hs1 _ Hd He. by eapply drain_inv_step.
Qed.

(** When [Run] has returned, every worker has ended and no key is being
    processed; and if a worker ever started working, the queue is empty: what
    was queued when the context ended was processed before [Run] returned. *)
Theorem Run_returns_drained s :
  reachable (step options) init s → c_run s = RReturned →
  all_stopped s = true ∧ q_processing (c_queue s) = ∅ ∧
  ∀ i, c_workers s !! i = Some (WStopped true) → q_queue (c_queue s) = [].
Proof.
  intros Hr Hret. pose proof (reachable_drain s Hr) as Hd.
  pose proof (reachable_struct options s Hr) as Hs.
  pose proof (di_returned s Hd Hret) as Hall.
  assert (∀ j w, c_workers s !! j = Some w → ∃ b, w = WStopped b) as Hstopped.
  { intros j w Hj. unfold all_stopped in Hall. rw forallb_forall in Hall.
    specialize (Hall w (proj1 (list_elem_of_In _ _) (list_elem_of_lookup_2 _ _ _ Hj))).
    destruct w; eauto; done. }
  split; [done|]. split.
  - apply set_eq. intros x. rw (si_processing s Hs) elem_of_empty. split; [|done].
    intros (i & w & Hi & Hh). by destruct (Hstopped i w Hi) as [b ->].
  - intros i Hi. destruct (di_queue s Hd i Hi) as [?|(j & w & Hj & Ha)]; [done|].
    by destruct (Hstopped j w Hj) as [b ->].
Qed.
End Properties.

(** ** Witnesses *)
Module ControllerWitness.
(** Versions of one object. *)
Inductive demo_obj := widget (resourceVersion : string).
#[export] Instance demo_accessor : MetaAccessor demo_obj := λ '(widget rv),
  Some {| mo_Name := "widget"; mo_GenerateName := ""; mo_Namespace := "shop";
          mo_ResourceVersion := rv |}.
Definition key : string := "shop/widget".
Definition demo_options : ControllerOptions :=
  defaultOptions "Widget" {| o_Name := ""; o_Workers := 0 |}.

(** Created, updated while the first version is being reconciled; the first
    attempt at the second version fails and is retried. *)
Definition busy_day : list (cevent demo_obj) :=
  [EvSynced; EvStart 0; EvStart 1; EvUpsert (widget "1"); EvDeliver; EvGet 0; EvLookup 0;
   EvUpsert (widget "2"); EvDeliver; EvReturn 0 None; EvForget 0; EvDone 0;
   EvGet 1; EvLookup 1; EvReturn 1 (Some (ErrorString "try again")); EvRequeue 1 0;
   EvDelayTop 50; EvDelayReady; EvAddAfter 1 100; EvSend 1; EvDone 1; EvDelayReceive 101; EvDelayEmpty;
   EvDelayTop 110; EvDelayReady; EvDelayWake; EvDelayTop 5000100; EvDelayReady; EvGet 0; EvLookup 0; EvReturn 0 None; EvForget 0;
   EvDone 0].

(** Created and reconciled, then deleted while the watch was down. *)
Definition missed_delete : list (cevent demo_obj) :=
  [EvSynced; EvStart 0; EvUpsert (widget "1"); EvDeliver; EvGet 0; EvLookup 0; EvReturn 0 None;
   EvForget 0; EvDone 0; EvDeleteUnknown key; EvDeliver].

(** One key is left on the queue when the context ends. *)
Definition stopped : list (cevent demo_obj) :=
  [EvSynced; EvStart 0; EvUpsert (widget "1"); EvDeliver; EvCtxDone; EvShutDown; EvDrained;
   EvStart 1; EvGet 0; EvLookup 0; EvReturn 0 None; EvForget 0; EvDone 0; EvGet 0; EvJoined].

Definition after (es : list (cevent demo_obj)) : cstate demo_obj :=
  default init (run (step demo_options) es init).

Lemma after_reachable es :
  is_Some (run (step demo_options) es init) → reachable (step demo_options) init (after es).
Proof. intros [s Hs]. exists es. unfold after. by rw Hs. Qed.

Definition empty {A} (l : list A) : bool := match l with [] => true | _ => false end.
Definition check_quiescent (s : cstate demo_obj) : bool :=
  empty (c_pending s) && empty (q_queue (c_queue s)) && empty (c_addCh s) && empty (c_waiting s)
  && forallb (λ w, bool_decide (holds w = None)) (c_workers s).

Lemma quiescent_check s : check_quiescent s = true → quiescent s.
Proof.
  unfold check_quiescent. rw !andb_true_iff forallb_forall. intros [[[[Hp Hq] Ha] Hw] Hall].
  split; [by destruct (c_pending s)|]. split; [by destruct (q_queue (c_queue s))|].
  split; [by destruct (c_addCh s)|]. split; [by destruct (c_waiting s)|].
  intros w Hin%list_elem_of_In. specialize (Hall w Hin). by case_bool_decide.
Qed.

Lemma quiescent_controller_is_up_to_date_witness :
  c_store (after busy_day) !! key = Some (widget "2") ∧
  c_last (after busy_day) !! key = Some (widget "2").
Proof.
  split; [vm_compute; reflexivity|].
  transitivity (c_store (after busy_day) !! key); [|vm_compute; reflexivity].
  apply (quiescent_controller_is_up_to_date demo_options (λ _, True)) with (es := busy_day) (obj := widget "2").
  - intros [rv] m _ Hm. injection Hm as <-. split; reflexivity.
  - intros [rv1] [rv2] m1 m2 _ _ H1 H2 _ Hv. injection H1 as <-. injection H2 as <-.
    simpl in Hv. by subst.
  - apply Forall_forall. by intros [] _.
  - vm_compute; reflexivity.
  - vm_compute; reflexivity.
  - apply quiescent_check. vm_compute; reflexivity.
  - exact I.
  - vm_compute; reflexivity.
  - vm_compute. intros Hk. by inversion Hk.
Defined.

Lemma one_worker_per_key_witness :
  let s := after (take 8 busy_day) in
  c_workers s !! 0 = Some (WCalled key (Some (widget "1"))) ∧
  ∀ j wj, c_workers s !! j = Some wj → holds wj = Some key → 0 = j.
Proof.
  split; [vm_compute; reflexivity|]. intros j wj Hj Hk.
  apply (one_worker_per_key demo_options (after (take 8 busy_day)) 0 j
           (WCalled key (Some (widget "1"))) wj key).
  - apply after_reachable. vm_compute. eauto.
  - vm_compute; reflexivity.
  - exact Hj.
  - reflexivity.
  - exact Hk.
Defined.

Definition record (namespace name : string) (obj : option demo_obj)
    (w : list (string * string * option demo_obj)) :=
  (None : option error, (namespace, name, obj) :: w).

Lemma reconcile_reads_cache_witness :
  reconcile record {[key := widget "1"]} key [] = (None, [("shop", "widget", Some (widget "1"))]).
Proof.
  destruct (reconcile_reads_cache record {[key := widget "1"]}
    {| mo_Name := "widget"; mo_GenerateName := ""; mo_Namespace := "shop"; mo_ResourceVersion := "" |}
    []) as [Hr _]; [reflexivity|reflexivity|].
  transitivity (record "shop" "widget" (({[key := widget "1"]} : gmap string demo_obj) !! key) []);
    [exact Hr|vm_compute; reflexivity].
Defined.

Lemma Run_returns_drained_witness :
  c_run (after stopped) = RReturned ∧ q_queue (c_queue (after stopped)) = [].
Proof.
  split; [vm_compute; reflexivity|].
  destruct (Run_returns_drained demo_options (after stopped)) as (_ & _ & Hq).
  - apply after_reachable. vm_compute. eauto.
  - vm_compute; reflexivity.
  - apply (Hq 0). vm_compute; reflexivity.
Defined.
End ControllerWitness.

Section Tombstones.
Import ControllerWitness.

(** C35: a deletion the informer only notices on a relist is lost: its handler
    gets a marker without metadata and leaves the queue as it is; so a
    controller can reach a state with nothing left to do in which the object is
    gone from the cache and the reconciler was last called with it. *)
Theorem tombstone_deletion_is_lost :
  (∀ k (obj : option demo_obj) q,
     handleNotification (NDelete (DeletedFinalStateUnknown k obj)) q = q) ∧
  ∃ s, reachable (step demo_options) init s ∧ q_shuttingDown (c_queue s) = false ∧ quiescent s ∧
    c_store s !! key = None ∧ c_last s !! key = Some (widget "1").
Proof.
  split; [done|]. exists (after missed_delete).
  split; [apply after_reachable; vm_compute; eauto|]. split; [vm_compute; reflexivity|].
  split; [apply quiescent_check; vm_compute; reflexivity|]. split; vm_compute; reflexivity.
Qed.
End Tombstones.
