(* ===== verification/ControllerShutdown.v ===== *)
(** * How the generic controller's shutdown ends

    Once [Run] has asked the queue to shut down ([Controller], [EvShutDown]), no key
    is accepted any more, so a measure of the work left decreases with every step of
    a worker or of [Run], whatever the informer, the delaying queue and the context do
    in between.  As long as [Run] has not returned such a step is possible (the
    reconciler's calls have to return), with one exception: workers that passed
    [AddAfter]'s check before the shutdown and wait to send on the delaying queue's
    full channel.  [waitingLoop] stops receiving when it sees the shutdown, and
    [ShutDownWithDrain] does not close the [stopCh] that would release them, so [Run]
    then never returns. *)
From S2P Require Import Prelude GoStrings ApiMachinery Admission Workqueue Controller.

(** ** The measure *)

(** Steps a worker takes before it needs another key. *)
Definition rank {T} (w : worker T) : Z :=
  match w with
  | WStopped _ => 0 | WGetting => 1 | WStarting => 2 | WDone _ => 2
  | WForget _ | WSending _ _ => 3 | WAddAfter _ _ => 4 | WRequeue _ => 5
  | WCalled _ _ => 6 | WGot _ => 7
  end.

Definition run_rank (r : run_pc) : Z :=
  match r with RSyncing => 4 | RRunning => 3 | RDraining => 2 | RJoining => 1 | RReturned => 0 end.

Definition shutting_down (r : run_pc) : bool :=
  match r with RDraining | RJoining | RReturned => true | _ => false end.

(** The steps of the workers and of [Run]. *)
Definition is_progress {T} (e : cevent T) : bool :=
  match e with
  | EvStart _ | EvGet _ | EvLookup _ | EvReturn _ _ | EvRequeue _ _ | EvAddAfter _ _
  | EvSend _ | EvForget _ | EvDone _
  | EvDrained | EvJoined => true
  | _ => false
  end.

(** A key that needs work takes at most seven steps: it is gotten, looked up,
    reconciled, forgotten or requeued (which is three: the rate limiter, the check, the
    send), and done. *)
Definition work {T} (s : cstate T) : Z :=
  (7 * Z.of_nat (size (q_dirty (c_queue s))) + sumZ rank (c_workers s) + run_rank (c_run s))%Z.

(** ** The delaying queue's channel *)

Definition is_sending {T} (w : worker T) : bool :=
  match w with WSending _ _ => true | _ => false end.
Definition is_stopped {T} (w : worker T) : bool :=
  match w with WStopped _ => true | _ => false end.

Definition to_send {T} (w : worker T) : Z := (if is_sending w then 1 else 0)%Z.

(** The entries on the channel and those about to be sent. *)
Definition load {T} (s : cstate T) : Z :=
  (Z.of_nat (length (c_addCh s)) + sumZ to_send (c_workers s))%Z.

(** The workers left all wait to send on the full channel. *)
Definition blocked {T} (s : cstate T) : Prop :=
  length (c_addCh s) = waitingForAddCap ∧
  (∃ i w, c_workers s !! i = Some w ∧ is_sending w = true) ∧
  ∀ i w, c_workers s !! i = Some w → is_stopped w = true ∨ is_sending w = true.

Section Shutdown.
Context {T : Type} `{MetaAccessor T} (options : ControllerOptions).
Implicit Types (s : cstate T) (e : cevent T).

Lemma rank_nonneg (w : worker T) : (0 ≤ rank w)%Z.
Proof. by destruct w. Qed.

Lemma work_nonneg s : (0 ≤ work s)%Z.
Proof.
  pose proof (sumZ_nonneg rank (c_workers s) rank_nonneg). unfold work.
  assert (0 ≤ run_rank (c_run s))%Z by by destruct (c_run s). lia.
Qed.

(** [Run] has begun the shutdown: the queue refuses keys. *)
Definition closing s : Prop := shutting_down (c_run s) = true ∧ q_shuttingDown (c_queue s) = true.

Lemma step_closing e s s' : closing s → step options e s = Some s' → closing s'.
Proof.
  intros [Hr Hq] He. split.
  - destruct e; simpl in He; unfold_step He; step_cases; simplify_eq/=; done.
  - destruct (q_shuttingDown (c_queue s')) eqn:Hq'; [done|].
    by rw (shutdown_is_final options e s s' He Hq') in Hq.
Qed.

(** A step of worker [i]. *)
Lemma work_worker s s' i w w' :
  c_workers s !! i = Some w → c_workers s' = <[i := w']> (c_workers s) → c_run s' = c_run s →
  (work s' = work s - rank w + rank w' +
     7 * (Z.of_nat (size (q_dirty (c_queue s'))) - Z.of_nat (size (q_dirty (c_queue s)))))%Z.
Proof. intros Hi Hw Hr. unfold work. rw Hw Hr (sumZ_insert _ _ _ _ _ Hi). lia. Qed.

(** A step of anything else: no key is added. *)
Lemma work_other s s' :
  c_workers s' = c_workers s → c_run s' = c_run s → q_dirty (c_queue s') = q_dirty (c_queue s) →
  (work s' ≤ work s)%Z.
Proof. intros Hw Hr Hd. unfold work. by rw Hw Hr Hd. Qed.

Lemma closed_AddAfter (key : string) d now q :
  q_shuttingDown q = true → AddAfter key d now q = (None, q).
Proof. intros Hq. unfold AddAfter. by rw Hq. Qed.

Ltac worker_step Hi := erewrite (work_worker _ _ _ _ _ Hi); [|reflexivity|reflexivity]; simpl; lia.

Lemma worker_step_work e s s' :
  struct_inv s → closing s → is_progress e = true → step options e s = Some s' →
  (work s' < work s)%Z.
Proof.
  intros Hs [Hr Hq] Hp He.
  destruct e as [| | | | | | |i|i|i|i err|i d|i now|i|i|i| | | | | | | |]; try done; simpl in He.
  - unfold worker_start in He. destruct (c_workers s !! i) as [[]|] eqn:Hi; simplify_eq.
    destruct (c_ctxDone s); worker_step Hi.
  - unfold worker_get in He. destruct (c_workers s !! i) as [[]|] eqn:Hi; simplify_eq.
    destruct (Get (c_queue s)) as [[[key|] q]|] eqn:Hg; simplify_eq; unfold Get in Hg.
    + destruct (q_queue (c_queue s)) as [|key' rest] eqn:Hk; [by rw Hq in Hg|]. simplify_eq.
      assert (key ∈ q_dirty (c_queue s)) as Hin
        by (apply (si_queue s Hs); rw Hk; left).
      erewrite (work_worker _ _ _ _ _ Hi); [|reflexivity|reflexivity]. simpl.
      rw size_difference; [set_solver|]. rw size_singleton.
      assert (size (q_dirty (c_queue s)) ≠ 0) by (intros Hz%size_empty_inv; set_solver). lia.
    + destruct (q_queue (c_queue s)); [|done]. rw Hq in Hg. simplify_eq. worker_step Hi.
  - unfold worker_lookup in He. destruct (c_workers s !! i) as [[]|] eqn:Hi; simplify_eq.
    destruct (reconcile_lookup (c_store s) key); worker_step Hi.
  - unfold worker_return in He. destruct (c_workers s !! i) as [[]|] eqn:Hi; simplify_eq.
    destruct err; simplify_eq; worker_step Hi.
  - unfold worker_requeue in He. destruct (c_workers s !! i) as [[]|] eqn:Hi; simplify_eq.
    destruct (default_When _ _ _). simplify_eq. worker_step Hi.
  - unfold worker_addAfter in He. destruct (c_workers s !! i) as [[]|] eqn:Hi; simplify_eq.
    rw closed_AddAfter // in He. simplify_eq. worker_step Hi.
  - unfold worker_send in He. destruct (c_workers s !! i) as [[]|] eqn:Hi; simplify_eq.
    destruct (sendWaitFor _ _); simplify_eq/=. worker_step Hi.
  - unfold worker_forget in He. destruct (c_workers s !! i) as [[]|] eqn:Hi; simplify_eq. worker_step Hi.
  - unfold worker_done in He. destruct (c_workers s !! i) as [[]|] eqn:Hi; simplify_eq. worker_step Hi.
  - destruct (c_run s) eqn:Hrun; simplify_eq. case_match; simplify_eq. unfold work. rw Hrun. simpl. lia.
  - destruct (c_run s) eqn:Hrun; simplify_eq. case_match; simplify_eq. unfold work. rw Hrun. simpl. lia.
Qed.

Lemma other_step_work e s s' :
  closing s → is_progress e = false → step options e s = Some s' → (work s' ≤ work s)%Z.
Proof.
  intros [Hr Hq] Hp He. destruct e; try done; simpl in He.
  - unfold informer_upsert in He. case_match; simplify_eq. by apply work_other.
  - unfold informer_delete in He. case_match; simplify_eq. by apply work_other.
  - unfold informer_deleteUnknown in He. step_cases. by apply work_other.
  - destruct (c_pending s); simplify_eq. apply work_other; simpl; [done..|]. by rw handle_closed.
  - by destruct (c_run s).
  - simplify_eq. by apply work_other.
  - by destruct (c_run s).
  - unfold loop_top in He. case_match; simplify_eq. by apply work_other.
  - unfold loop_ready in He. destruct (c_loop s); simplify_eq.
    destruct (addReady _ _ _) as [l q] eqn:Hl. simplify_eq.
    apply work_other; simpl; [done..|]. by rw (addReady_closed _ _ _ _ _ Hl).
  - unfold loop_wake in He. case_match; simplify_eq. by apply work_other.
  - apply loop_receive_Some in He as (e & rest & l & q & _ & _ & Hl & ->).
    apply work_other; simpl; [done..|]. by rw (receiveEntry_closed _ _ _ _ _ _ Hl).
  - apply loop_empty_Some in He as (_ & _ & ->). by apply work_other.
  - by destruct (c_run s).
Qed.

(** *** The channel *)

(** The channel never holds more than its capacity. *)
Lemma channel_bounded s :
  reachable (step options) init s → length (c_addCh s) ≤ waitingForAddCap.
Proof.
  revert s. apply (reachable_ind_with (step options) (λ _, True)
    (λ s, length (c_addCh s) ≤ waitingForAddCap)); [done|simpl; lia|].
  intros e s s' _ _ IH He. destruct e; simpl in He.
  14: { unfold worker_send in He. destruct (c_workers s !! i) as [[]|]; simplify_eq.
        destruct (sendWaitFor _ _) as [ch|] eqn:Hs; simplify_eq/=.
        apply sendWaitFor_Some in Hs as [Hlt ->]. rw length_app /=. lia. }
  19: { apply loop_receive_Some in He as (e & rest & l & q & Ha & _ & _ & ->). rw Ha in IH.
        simpl in *. lia. }
  19: { by apply loop_empty_Some in He as (_ & _ & ->). }
  all: unfold_step He; step_cases; by simplify_eq/=.
Qed.

Lemma load_worker s s' i w w' :
  c_workers s !! i = Some w → c_workers s' = <[i := w']> (c_workers s) →
  (load s' = load s - to_send w + to_send w' +
     (Z.of_nat (length (c_addCh s')) - Z.of_nat (length (c_addCh s))))%Z.
Proof. intros Hi Hw. unfold load. rw Hw (sumZ_insert _ _ _ _ _ Hi). lia. Qed.

Lemma load_other s s' :
  c_workers s' = c_workers s → length (c_addCh s') ≤ length (c_addCh s) → (load s' ≤ load s)%Z.
Proof. intros Hw Hl. unfold load. rw Hw. lia. Qed.

Ltac worker_load Hi := erewrite (load_worker _ _ _ _ _ Hi); [|reflexivity];
  rw ?length_app; unfold to_send; simpl; lia.

(** Once the queue is closed nothing new is on its way to the channel. *)
Lemma step_load e s s' : closing s → step options e s = Some s' → (load s' ≤ load s)%Z.
Proof.
  intros [Hr Hq] He. destruct e; simpl in He.
  13: { unfold worker_addAfter in He. destruct (c_workers s !! i) as [[]|] eqn:Hi; simplify_eq.
        rw closed_AddAfter // in He. simplify_eq. worker_load Hi. }
  13: { unfold worker_send in He. destruct (c_workers s !! i) as [[]|] eqn:Hi; simplify_eq.
        destruct (sendWaitFor _ _) as [ch|] eqn:Hs; simplify_eq/=.
        apply sendWaitFor_Some in Hs as [_ ->]. worker_load Hi. }
  8-14: unfold worker_start, worker_get, worker_lookup, worker_return, worker_requeue, worker_forget,
    worker_done in He; destruct (c_workers s !! i) as [[]|] eqn:Hi; simplify_eq; step_cases;
    worker_load Hi.
  11: { apply loop_receive_Some in He as (e & rest & l & q & Ha & _ & _ & ->).
        apply load_other; rw ?Ha /=; [done|lia]. }
  all: unfold_step He; step_cases; simplify_eq/=; by apply load_other.
Qed.

(** *** Progress *)

Lemma all_stopped_spec s :
  all_stopped s = true ↔ ∀ i w, c_workers s !! i = Some w → is_stopped w = true.
Proof.
  unfold all_stopped. rw forallb_forall. split; intros Hall.
  - intros i w Hi. apply Hall. by eapply list_elem_of_In, list_elem_of_lookup_2.
  - intros w Hw%list_elem_of_In. apply list_elem_of_lookup in Hw as [i Hi]. by apply (Hall i).
Qed.

(** Without workers left, [Run] goes on. *)
Lemma joined_progress s :
  struct_inv s → closing s → c_run s ≠ RReturned → all_stopped s = true →
  ∃ e, is_progress e = true ∧ is_Some (step options e s).
Proof.
  intros Hs [Hr Hq] Hret Hall.
  assert (q_processing (c_queue s) = ∅) as Hproc.
  { apply set_eq. intros x. rw (si_processing s Hs) elem_of_empty. split; [|done].
    intros (i & w & Hi & Hh). pose proof (proj1 (all_stopped_spec s) Hall i w Hi). by destruct w. }
  destruct (c_run s) eqn:Hrun; try done.
  - exists EvDrained. split; [done|]. simpl. rw Hrun.
    unfold ShutDownWithDrain_returns, isProcessing. by rw bool_decide_eq_true_2 //=; eexists.
  - exists EvJoined. split; [done|]. simpl. rw Hrun Hall. by eexists.
Qed.

(** A worker that has not ended and is not at the channel has a next step. *)
Lemma worker_progress s i w :
  q_shuttingDown (c_queue s) = true → c_workers s !! i = Some w →
  is_stopped w = false → is_sending w = false →
  ∃ e, is_progress e = true ∧ is_Some (step options e s).
Proof.
  intros Hq Hi Hst Hse.
  destruct w; try done; [exists (EvStart i)|exists (EvGet i)|exists (EvLookup i)|exists (EvReturn i None)
    |exists (EvRequeue i 0)|exists (EvAddAfter i 0)|exists (EvForget i)|exists (EvDone i)];
    (split; [done|]); simpl.
  - unfold worker_start. rw Hi. by eexists.
  - unfold worker_get, Get. rw Hi Hq. by destruct (q_queue (c_queue s)); eexists.
  - unfold worker_lookup. rw Hi. by eexists.
  - unfold worker_return. rw Hi. by eexists.
  - unfold worker_requeue. rw Hi. destruct (default_When _ _ _). by eexists.
  - unfold worker_addAfter. by rw Hi closed_AddAfter.
  - unfold worker_forget. rw Hi. by eexists.
  - unfold worker_done. rw Hi. by eexists.
Qed.

(** A state that has not returned has a next step, or is blocked at the channel. *)
Lemma closing_progress s :
  struct_inv s → closing s → length (c_addCh s) ≤ waitingForAddCap → c_run s ≠ RReturned →
  (∃ e, is_progress e = true ∧ is_Some (step options e s)) ∨ blocked s.
Proof.
  intros Hs Hc Hcap Hret.
  destruct (all_stopped s) eqn:Hall; [left; by apply joined_progress|].
  destruct (decide (Exists (λ w, is_stopped w = false ∧ is_sending w = false) (c_workers s))) as [He|He].
  { apply Exists_exists in He as (w & Hw & Hst & Hse). apply list_elem_of_lookup in Hw as [i Hi].
    left. eapply worker_progress; [apply Hc|done..]. }
  assert (∀ i w, c_workers s !! i = Some w → is_stopped w = true ∨ is_sending w = true) as Hws.
  { intros i w Hi. destruct (is_stopped w) eqn:Hst; [by left|]. destruct (is_sending w) eqn:Hse; [by right|].
    exfalso. apply He, Exists_exists. exists w. split; [by eapply list_elem_of_lookup_2|done]. }
  assert (∃ i w, c_workers s !! i = Some w ∧ is_sending w = true) as (i & w & Hi & Hw).
  { destruct (decide (Exists (λ w, is_sending w = true) (c_workers s))) as [Hx|Hx].
    - apply Exists_exists in Hx as (w & Hw & Hse). apply list_elem_of_lookup in Hw as [i Hi]. eauto.
    - exfalso. assert (all_stopped s = true); [|congruence]. apply all_stopped_spec. intros i w Hi.
      destruct (Hws i w Hi) as [|Hse]; [done|]. exfalso. apply Hx, Exists_exists.
      exists w. split; [by eapply list_elem_of_lookup_2|done]. }
  destruct (decide (length (c_addCh s) = waitingForAddCap)) as [Hfull|Hroom].
  { right. split; [done|]. split; [|done]. by exists i, w. }
  left. exists (EvSend i). split; [done|]. simpl. destruct w; try done.
  unfold worker_send. rw Hi. unfold sendWaitFor. rw (proj2 (Nat.ltb_lt _ _)); [lia|]. by eexists.
Qed.

(** Nobody is blocked when the channel has room for those that will send. *)
Lemma blocked_load s : blocked s → (Z.of_nat waitingForAddCap < load s)%Z.
Proof.
  intros (Hfull & (i & w & Hi & Hw) & _). unfold load. rw Hfull.
  pose proof (sumZ_insert to_send _ _ _ WGetting Hi) as Hsum.
  pose proof (sumZ_nonneg to_send (<[i := WGetting]> (c_workers s))) as Hpos.
  assert (to_send w = 1)%Z as Hone by (unfold to_send; by rw Hw).
  rw Hone in Hsum. unfold to_send at 3 in Hsum. simpl in Hsum.
  assert (0 ≤ sumZ to_send (<[i := WGetting]> (c_workers s)))%Z by (apply Hpos; by intros []). lia.
Qed.

(** *** A shutdown that hangs *)

(** A worker waits to send, the channel is full and [waitingLoop] has returned. *)
Definition hung s : Prop :=
  (∃ i w, c_workers s !! i = Some w ∧ is_sending w = true) ∧
  length (c_addCh s) = waitingForAddCap ∧ c_loop s = LReturned ∧ c_run s ≠ RSyncing.

Lemma hung_frame s s' :
  hung s → c_workers s' = c_workers s → c_addCh s' = c_addCh s → c_loop s' = c_loop s →
  c_run s' ≠ RSyncing → hung s'.
Proof. intros (Hw & Hl & Hloop & _) Hw' Ha' Hloop' Hr'. split; [by rw Hw'|]. by rw Ha' Hloop'. Qed.

Lemma hung_worker s s' i w w' :
  hung s → c_workers s !! i = Some w → is_sending w = false →
  c_workers s' = <[i := w']> (c_workers s) → c_addCh s' = c_addCh s → c_loop s' = c_loop s →
  c_run s' = c_run s → hung s'.
Proof.
  intros ((j & wj & Hj & Hse) & Hl & Hloop & Hr) Hi Hno Hw' Ha' Hloop' Hr'.
  split; [|by rw Ha' Hloop' Hr']. exists j, wj. split; [|done]. rw Hw' list_lookup_insert_ne //.
  intros ->. congruence.
Qed.

(** Nothing ever takes the worker out of its send. *)
Lemma hung_step e s s' :
  q_shuttingDown (c_queue s) = true → hung s → step options e s = Some s' → hung s'.
Proof.
  intros Hq Hh He. pose proof Hh as (_ & Hfull & Hloop & Hr). destruct e; simpl in He.
  13: { unfold worker_addAfter in He. destruct (c_workers s !! i) as [[]|] eqn:Hi; simplify_eq.
        rw closed_AddAfter // in He. simplify_eq. by eapply hung_worker. }
  13: { unfold worker_send in He. destruct (c_workers s !! i) as [[]|] eqn:Hi; simplify_eq.
        destruct (sendWaitFor _ _) as [ch|] eqn:Hs; simplify_eq/=.
        apply sendWaitFor_Some in Hs as [Hlt _]. lia. }
  8-14: unfold worker_start, worker_get, worker_lookup, worker_return, worker_requeue, worker_forget,
    worker_done in He; destruct (c_workers s !! i) as [[]|] eqn:Hi; simplify_eq; step_cases;
    by eapply hung_worker.
  all: unfold_step He; rw ?Hloop in He; step_cases; simplify_eq/=; try done; by eapply hung_frame.
Qed.

(** [Run] waits for the workers only after it closed the queue. *)
Lemma draining_closes s :
  reachable (step options) init s → c_run s = RDraining ∨ c_run s = RJoining →
  q_shuttingDown (c_queue s) = true.
Proof.
  revert s. apply (reachable_ind_with (step options) (λ _, True)
    (λ s, c_run s = RDraining ∨ c_run s = RJoining → q_shuttingDown (c_queue s) = true)); [done| |].
  { by intros []. }
  intros e s s' _ _ IH He Hr'.
  destruct (q_shuttingDown (c_queue s')) eqn:Hq'; [done|].
  pose proof (shutdown_is_final options e s s' He Hq') as Hq.
  assert (¬ (c_run s = RDraining ∨ c_run s = RJoining)) as Hno by (intros Hr; by rw (IH Hr) in Hq).
  destruct e; simpl in He; unfold_step He; step_cases; simplify_eq/=;
    tauto || (destruct Hr'; congruence) || done.
Qed.

Lemma draining_closing s :
  reachable (step options) init s → c_run s = RDraining → closing s.
Proof. intros Hr Hd. split; [by rw Hd|apply draining_closes; auto]. Qed.

(** A run of a closing controller: what the steps above add up to. *)
Lemma closing_run es s s' :
  struct_inv s → closing s → run (step options) es s = Some s' →
  (Z.of_nat (length (filter (λ e, is_progress e = true) es)) ≤ work s)%Z ∧
  (load s' ≤ load s)%Z ∧ struct_inv s' ∧ closing s'.
Proof.
  revert s. induction es as [|e es IH]; simpl; intros s Hs Hc Hrun.
  { simplify_eq. split; [apply work_nonneg|]. done. }
  destruct (step options e s) as [s1|] eqn:He; [|done]. simpl in Hrun.
  destruct (IH s1) as (Hlen & Hload & Hs' & Hc');
    [by eapply struct_inv_step|by eapply step_closing|done|].
  pose proof (step_load e s s1 Hc He). split; [|split; [lia|done]].
  destruct (is_progress e) eqn:Hp.
  - rw filter_cons_True //. pose proof (worker_step_work e s s1 Hs Hc Hp He). simpl. lia.
  - rw filter_cons_False; [congruence|]. pose proof (other_step_work e s s1 Hc Hp He). lia.
Qed.

Lemma hung_forever es s s' :
  reachable (step options) init s → closing s → hung s → run (step options) es s = Some s' →
  c_run s' ≠ RReturned.
Proof.
  intros Hreach Hc Hh Hrun Hret.
  assert (reachable (step options) init s') as Hr'.
  { destruct Hreach as [es0 Hes0]. exists (es0 ++ es). by rw run_app Hes0. }
  assert (hung s') as ((i & w & Hi & Hw) & _).
  { clear Hreach Hret Hr'. revert s Hc Hh Hrun. induction es as [|e es IH]; simpl; intros s Hc Hh Hrun.
    { by simplify_eq. }
    destruct (step options e s) as [s1|] eqn:He; [|done]. apply (IH s1); [by eapply step_closing| |done].
    eapply hung_step; [apply Hc|done..]. }
  pose proof (di_returned s' (reachable_drain options s' Hr') Hret) as Hall.
  pose proof (proj1 (all_stopped_spec s') Hall i w Hi). by destruct w.
Qed.

(** ** Properties *)

(** C18: how a shutdown ends.  From the moment [Run] asks the queue to shut down, a
    run of the controller takes at most [work s] steps of workers and of [Run], however
    many events of the informer, the delaying queue and the context come in between.
    Until [Run] has returned such a step is possible, unless every worker that has not
    ended waits to send a retry on the delaying queue's channel and the channel holds
    its 1000 entries ([blocked]).  That cannot happen when, at the start of the
    shutdown, the channel has room for the retries that are already past [AddAfter]'s
    check; when it happens and [waitingLoop] has returned, [Run] never returns. *)
Theorem shutdown_terminates s es s' :
  reachable (step options) init s → c_run s = RDraining → run (step options) es s = Some s' →
  (Z.of_nat (length (filter (λ e, is_progress e = true) es)) ≤ work s)%Z ∧
  (c_run s' = RReturned ∨ (∃ e, is_progress e = true ∧ is_Some (step options e s')) ∨ blocked s') ∧
  ((load s ≤ Z.of_nat waitingForAddCap)%Z → ¬ blocked s') ∧
  (blocked s' → c_loop s' = LReturned →
   ∀ es' s'', run (step options) es' s' = Some s'' → c_run s'' ≠ RReturned).
Proof.
  intros Hreach Hdrain Hrun. pose proof (draining_closing s Hreach Hdrain) as Hc.
  pose proof (reachable_struct options s Hreach) as Hs.
  destruct (closing_run es s s' Hs Hc Hrun) as (Hlen & Hload & Hs' & Hc').
  assert (reachable (step options) init s') as Hr'.
  { destruct Hreach as [es0 Hes0]. exists (es0 ++ es). by rw run_app Hes0. }
  split; [done|]. split; [|split].
  - destruct (decide (c_run s' = RReturned)) as [|Hret]; [by left|right].
    apply closing_progress; auto using channel_bounded.
  - intros Hroom Hb%blocked_load. lia.
  - intros (Hfull & Hw & _) Hloop es' s'' Hrun'. eapply hung_forever; [done|done| |done].
    split; [done|]. split; [done|]. split; [done|]. destruct Hc' as [Hr _]. by intros Hr0; rw Hr0 in Hr.
Qed.
End Shutdown.

(** ** Witnesses

    One key is queued when the context ends; the informer sends one more. *)
Section ShutdownWitness.
Import ControllerWitness.

Definition until_shutdown : list (cevent demo_obj) :=
  [EvSynced; EvStart 0; EvStart 1; EvUpsert (widget "1"); EvDeliver; EvCtxDone; EvShutDown].
Definition winding_down : list (cevent demo_obj) :=
  [EvGet 0; EvUpsert (widget "2"); EvLookup 0; EvDelayTop 0; EvDeliver;
   EvReturn 0 (Some (ErrorString "no")); EvRequeue 0 0; EvAddAfter 0 0; EvGet 1; EvDone 0; EvDrained;
   EvGet 0; EvJoined].

Lemma shutdown_terminates_witness :
  work (after until_shutdown) = 11%Z ∧
  length (filter (λ e, is_progress e = true) winding_down) = 10 ∧
  (10 ≤ work (after until_shutdown))%Z ∧ ¬ blocked (after (until_shutdown ++ winding_down)) ∧
  c_run (after (until_shutdown ++ winding_down)) = RReturned.
Proof.
  split; [vm_compute; reflexivity|]. split; [vm_compute; reflexivity|].
  destruct (shutdown_terminates demo_options (after until_shutdown) winding_down
              (after (until_shutdown ++ winding_down))) as (Hlen & _ & Hroom & _).
  - apply after_reachable. vm_compute. eauto.
  - vm_compute. reflexivity.
  - apply (run_split (step demo_options) until_shutdown winding_down init). vm_compute. reflexivity.
  - split; [exact Hlen|]. split; [|vm_compute; reflexivity].
    apply Hroom. vm_compute. discriminate.
Defined.

(** While [waitingLoop] is at the top of its loop the reconciler fails a thousand times
    and once more; then the context ends. *)
Definition failing_round (rv : string) : list (cevent demo_obj) :=
  [EvUpsert (widget rv); EvDeliver; EvGet 0; EvLookup 0; EvReturn 0 (Some (ErrorString "no"));
   EvRequeue 0 0; EvAddAfter 0 0].
Definition failing_rounds : list (cevent demo_obj) :=
  concat (replicate 500 (failing_round "1" ++ [EvSend 0; EvDone 0] ++
                         failing_round "2" ++ [EvSend 0; EvDone 0])).
Definition bad_day : list (cevent demo_obj) :=
  [EvSynced; EvStart 0; EvStart 1] ++ failing_rounds ++ failing_round "1" ++
  [EvCtxDone; EvShutDown; EvDelayTop 1; EvGet 1].

(** The exception is real: a shutdown can reach a state from which [Run] never returns. *)
Lemma shutdown_can_hang :
  ∃ s, reachable (step demo_options) init s ∧ c_run s = RDraining ∧ blocked s ∧
    c_loop s = LReturned ∧
    ∀ es s', run (step demo_options) es s = Some s' → c_run s' ≠ RReturned.
Proof.
  set (s := after bad_day).
  assert (reachable (step demo_options) init s) as Hr by (apply after_reachable; vm_compute; eauto).
  assert (c_workers s = [WSending key (1000 * second); WStopped true]) as Hw by (vm_compute; reflexivity).
  assert (length (c_addCh s) = waitingForAddCap) as Hfull by (vm_compute; reflexivity).
  assert (c_run s = RDraining) as Hrun by (vm_compute; reflexivity).
  assert (c_loop s = LReturned) as Hloop by (vm_compute; reflexivity).
  clearbody s. exists s. split; [done|]. split; [done|].
  assert (∃ i w, c_workers s !! i = Some w ∧ is_sending w = true) as Hsend
    by (exists 0; rw Hw; by eexists).
  split.
  - split; [done|]. split; [done|]. rw Hw. intros [|[|]] w Hi; simplify_eq/=; auto.
  - split; [done|]. intros es s'. apply (hung_forever demo_options); [done| |].
    + by apply (draining_closing demo_options).
    + split; [done|]. by rw Hrun.
Qed.
End ShutdownWitness.
