(* ===== verification/Factory.v ===== *)
(** * The shared informer factory

    [pkg/generated/informers/externalversions/factory.go] with [generic.go] and the
    typed informers: the factory that creates one informer per type, starts each
    in a goroutine of its own and shuts them down.  Each method holds the
    factory's lock where it touches the maps, so a method is one step; [Shutdown]
    is two, the flag and the wait.  The informers themselves are client-go's:
    [newFunc] gives one for a resync period, and when its [Run] returns and whether
    it has synced arrive with the steps.  The generated listers
    ([pkg/generated/listers]) are here too. *)
From S2P Require Import Prelude GoStrings ApiMachinery Admission Controller.

Section Factory.
Context {RType : Type} `{Countable RType} {Inf Tweak : Type}.
Implicit Types (t : RType) (inf : Inf).

(** [sharedInformerFactory], less the client and the lock. *)
Record sharedInformerFactory := {
  f_namespace : string;
  f_tweakListOptions : option Tweak;
  f_defaultResync : Z;
  f_customResync : gmap RType Z;
  f_informers : gmap RType Inf;
  f_startedInformers : gmap RType bool;
  f_wg : Z;
  f_shuttingDown : bool;
}.
Implicit Types (f : sharedInformerFactory).

(** ** Options and construction *)

Definition SharedInformerOption := sharedInformerFactory → sharedInformerFactory.

Definition WithCustomResyncConfig (resyncConfig : list (RType * Z)) : SharedInformerOption := λ f,
  {| f_namespace := f_namespace f; f_tweakListOptions := f_tweakListOptions f;
     f_defaultResync := f_defaultResync f;
     f_customResync := foldl (λ m kv, <[kv.1 := kv.2]> m) (f_customResync f) resyncConfig;
     f_informers := f_informers f; f_startedInformers := f_startedInformers f;
     f_wg := f_wg f; f_shuttingDown := f_shuttingDown f |}.

Definition WithTweakListOptions (tweak : Tweak) : SharedInformerOption := λ f,
  {| f_namespace := f_namespace f; f_tweakListOptions := Some tweak;
     f_defaultResync := f_defaultResync f; f_customResync := f_customResync f;
     f_informers := f_informers f; f_startedInformers := f_startedInformers f;
     f_wg := f_wg f; f_shuttingDown := f_shuttingDown f |}.

Definition WithNamespace (namespace : string) : SharedInformerOption := λ f,
  {| f_namespace := namespace; f_tweakListOptions := f_tweakListOptions f;
     f_defaultResync := f_defaultResync f; f_customResync := f_customResync f;
     f_informers := f_informers f; f_startedInformers := f_startedInformers f;
     f_wg := f_wg f; f_shuttingDown := f_shuttingDown f |}.

Definition emptyFactory (defaultResync : Z) : sharedInformerFactory :=
  {| f_namespace := ""; f_tweakListOptions := None; f_defaultResync := defaultResync;
     f_customResync := ∅; f_informers := ∅; f_startedInformers := ∅;
     f_wg := 0; f_shuttingDown := false |}.

Definition NewSharedInformerFactoryWithOptions (defaultResync : Z)
    (options : list SharedInformerOption) : sharedInformerFactory :=
  foldl (λ f opt, opt f) (emptyFactory defaultResync) options.

Definition NewSharedInformerFactory (defaultResync : Z) : sharedInformerFactory :=
  NewSharedInformerFactoryWithOptions defaultResync [].

Definition NewFilteredSharedInformerFactory (defaultResync : Z) (namespace : string) (tweak : Tweak) :
    sharedInformerFactory :=
  NewSharedInformerFactoryWithOptions defaultResync
    [WithNamespace namespace; WithTweakListOptions tweak].

(** ** Methods *)

Definition with_informers (m : gmap RType Inf) f : sharedInformerFactory :=
  {| f_namespace := f_namespace f; f_tweakListOptions := f_tweakListOptions f;
     f_defaultResync := f_defaultResync f; f_customResync := f_customResync f;
     f_informers := m; f_startedInformers := f_startedInformers f;
     f_wg := f_wg f; f_shuttingDown := f_shuttingDown f |}.
Definition mark_started t f : sharedInformerFactory :=
  {| f_namespace := f_namespace f; f_tweakListOptions := f_tweakListOptions f;
     f_defaultResync := f_defaultResync f; f_customResync := f_customResync f;
     f_informers := f_informers f; f_startedInformers := <[t := true]> (f_startedInformers f);
     f_wg := f_wg f + 1; f_shuttingDown := f_shuttingDown f |}.
Definition wg_done f : sharedInformerFactory :=
  {| f_namespace := f_namespace f; f_tweakListOptions := f_tweakListOptions f;
     f_defaultResync := f_defaultResync f; f_customResync := f_customResync f;
     f_informers := f_informers f; f_startedInformers := f_startedInformers f;
     f_wg := f_wg f - 1; f_shuttingDown := f_shuttingDown f |}.
Definition mark_shutdown f : sharedInformerFactory :=
  {| f_namespace := f_namespace f; f_tweakListOptions := f_tweakListOptions f;
     f_defaultResync := f_defaultResync f; f_customResync := f_customResync f;
     f_informers := f_informers f; f_startedInformers := f_startedInformers f;
     f_wg := f_wg f; f_shuttingDown := true |}.

(** [f.startedInformers[t]]: false when absent. *)
Definition started f t : bool := default false (f_startedInformers f !! t).

Definition InformerFor t (newFunc : Z → Inf) f : Inf * sharedInformerFactory :=
  match f_informers f !! t with
  | Some informer => (informer, f)
  | None =>
      let resyncPeriod := default (f_defaultResync f) (f_customResync f !! t) in
      let informer := newFunc resyncPeriod in
      (informer, with_informers (<[t := informer]> (f_informers f)) f)
  end.

(** A started goroutine: its type, its informer, and whether [Run] has returned. *)
Record goroutine := { g_type : RType; g_informer : Inf; g_done : bool }.

(** One round of [Start]'s loop. *)
Definition startOne (acc : sharedInformerFactory * list goroutine) (ti : RType * Inf) :
    sharedInformerFactory * list goroutine :=
  let '(f, gs) := acc in
  if started f ti.1 then (f, gs)
  else (mark_started ti.1 f, gs ++ [{| g_type := ti.1; g_informer := ti.2; g_done := false |}]).

Definition Start (f : sharedInformerFactory) (gs : list goroutine) :
    sharedInformerFactory * list goroutine :=
  if f_shuttingDown f then (f, gs)
  else foldl startOne (f, gs) (map_to_list (f_informers f)).

(** [WaitForCacheSync]: the started informers and what waiting for each gave. *)
Definition WaitForCacheSync (synced : Inf → bool) f : gmap RType bool :=
  synced <$> filter (λ ti, started f ti.1 = true) (f_informers f).

(** ** The factory at work *)

Record fstate := { fs_factory : sharedInformerFactory; fs_goroutines : list goroutine }.

Inductive fevent :=
| CallInformerFor (t : RType) (newFunc : Z → Inf)
| CallStart
| RunReturns (i : nat)   (* informer.Run of goroutine i returns, and f.wg.Done() *)
| CallShutdown           (* shuttingDown is set *)
| ShutdownReturns.       (* f.wg.Wait() returns *)

Definition fstep (ev : fevent) (s : fstate) : option fstate :=
  let f := fs_factory s in
  match ev with
  | CallInformerFor t newFunc =>
      Some {| fs_factory := (InformerFor t newFunc f).2; fs_goroutines := fs_goroutines s |}
  | CallStart =>
      let '(f', gs) := Start f (fs_goroutines s) in
      Some {| fs_factory := f'; fs_goroutines := gs |}
  | RunReturns i =>
      g ← fs_goroutines s !! i;
      if g_done g then None
      else Some {| fs_factory := wg_done f;
                   fs_goroutines :=
                     <[i := {| g_type := g_type g; g_informer := g_informer g; g_done := true |}]>
                       (fs_goroutines s) |}
  | CallShutdown => Some {| fs_factory := mark_shutdown f; fs_goroutines := fs_goroutines s |}
  | ShutdownReturns => if f_shuttingDown f && (f_wg f =? 0)%Z then Some s else None
  end.

(** The options there are: the fields of the factory are private to its package. *)
Inductive factoryOption :=
| CustomResync (resyncConfig : list (RType * Z))
| Tweaked (tweak : Tweak)
| Namespaced (namespace : string).

Definition option_func (o : factoryOption) : SharedInformerOption :=
  match o with
  | CustomResync resyncConfig => WithCustomResyncConfig resyncConfig
  | Tweaked tweak => WithTweakListOptions tweak
  | Namespaced namespace => WithNamespace namespace
  end.

Definition finit (defaultResync : Z) (options : list factoryOption) : fstate :=
  {| fs_factory := NewSharedInformerFactoryWithOptions defaultResync (option_func <$> options);
     fs_goroutines := [] |}.

(** ** Invariant *)

Definition running (g : goroutine) : Z := (if g_done g then 0 else 1)%Z.

Record finv (s : fstate) : Prop := {
  finv_nodup : NoDup (g_type <$> fs_goroutines s);
  finv_started t : started (fs_factory s) t = true ↔ t ∈ g_type <$> fs_goroutines s;
  finv_informer g : g ∈ fs_goroutines s →
    f_informers (fs_factory s) !! g_type g = Some (g_informer g);
  finv_wg : f_wg (fs_factory s) = sumZ running (fs_goroutines s);
}.

Lemma finv_init resync options : finv (finit resync options).
Proof.
  assert (∀ f, f_startedInformers f = ∅ → f_wg f = 0%Z →
    let f' := foldl (λ f opt, opt f) f (option_func <$> options) in
    f_startedInformers f' = ∅ ∧ f_wg f' = 0%Z) as Haux.
  { induction options as [|o options IH]; intros f Hs Hw; [done|]. simpl. apply IH; by destruct o. }
  destruct (Haux (emptyFactory resync) eq_refl eq_refl) as [Hs Hw]. split; simpl.
  - constructor.
  - intros t. unfold started. rw Hs lookup_empty. set_solver.
  - set_solver.
  - done.
Qed.

Lemma finv_InformerFor t newFunc f gs :
  finv {| fs_factory := f; fs_goroutines := gs |} →
  finv {| fs_factory := (InformerFor t newFunc f).2; fs_goroutines := gs |}.
Proof.
  intros [Hn Hs Hi Hw]. unfold InformerFor. destruct (f_informers f !! t) eqn:Ht; [done|].
  split; simpl in *; [done|done| |done]. intros g Hg. rw lookup_insert_ne; [|by apply Hi].
  intros ->. by rw (Hi g Hg) in Ht.
Qed.

Lemma finv_startOne f gs t inf :
  finv {| fs_factory := f; fs_goroutines := gs |} → f_informers f !! t = Some inf →
  let '(f', gs') := startOne (f, gs) (t, inf) in
  finv {| fs_factory := f'; fs_goroutines := gs' |} ∧ f_informers f' = f_informers f ∧
  started f' t = true ∧ (∀ t', started f t' = true → started f' t' = true).
Proof.
  intros Hinv Ht. pose proof Hinv as [Hn Hs Hi Hw]. simpl in *.
  destruct (started f t) eqn:Hst; [done|].
  assert (t ∉ g_type <$> gs) as Hnew by (rw -Hs; congruence).
  assert (∀ t', started (mark_started t f) t' = true ↔ t' = t ∨ started f t' = true) as Hm.
  { intros t'. unfold started. simpl. destruct (decide (t = t')) as [->|Hne].
    - rw lookup_insert_eq. naive_solver.
    - rw lookup_insert_ne //. naive_solver. }
  split_and!; [|done|apply Hm; auto|intros t' ?; apply Hm; auto]. split; simpl.
  - rw fmap_app. apply NoDup_app. split_and!; [done| |by apply NoDup_singleton]. set_solver.
  - intros t'. rw Hm fmap_app elem_of_app Hs. set_solver.
  - intros g [?| ->%list_elem_of_singleton]%elem_of_app; [by apply Hi|done].
  - rw Hw sumZ_app. by change (sumZ running [_]) with 1%Z.
Qed.

Lemma finv_startAll (todo : list (RType * Inf)) f gs :
  finv {| fs_factory := f; fs_goroutines := gs |} →
  (∀ t inf, (t, inf) ∈ todo → f_informers f !! t = Some inf) →
  let '(f', gs') := foldl startOne (f, gs) todo in
  finv {| fs_factory := f'; fs_goroutines := gs' |} ∧ f_informers f' = f_informers f ∧
  (∀ t inf, (t, inf) ∈ todo → started f' t = true) ∧
  (∀ t, started f t = true → started f' t = true).
Proof.
  revert f gs. induction todo as [|[t inf] todo IH]; intros f gs Hinv Htodo; simpl.
  { split_and!; [done..| |done]. set_solver. }
  pose proof (finv_startOne f gs t inf Hinv) as H1. simpl in H1.
  destruct (if started f t then _ else _) as [f1 gs1].
  destruct H1 as (Hinv1 & Hf1 & Ht1 & Hm1); [apply Htodo; set_solver|].
  specialize (IH f1 gs1 Hinv1). destruct (foldl startOne (f1, gs1) todo) as [f2 gs2].
  destruct IH as (Hinv2 & Hf2 & Ht2 & Hm2); [rw Hf1; set_solver|].
  split_and!; [done|congruence| |auto].
  intros t' inf' [[= -> ->]|Hin]%elem_of_cons; [by apply Hm2|by eapply Ht2].
Qed.

Lemma Start_spec f gs :
  finv {| fs_factory := f; fs_goroutines := gs |} →
  let '(f', gs') := Start f gs in
  finv {| fs_factory := f'; fs_goroutines := gs' |} ∧ f_informers f' = f_informers f ∧
  (f_shuttingDown f = false → ∀ t, is_Some (f_informers f !! t) → started f' t = true).
Proof.
  intros Hinv. unfold Start. destruct (f_shuttingDown f); [done|].
  pose proof (finv_startAll (map_to_list (f_informers f)) f gs Hinv) as Hall.
  destruct (foldl _ _ _) as [f' gs']. destruct Hall as (? & ? & Hs & _).
  { intros t inf. by rw elem_of_map_to_list. }
  split_and!; [done|done|]. intros _ t [inf Ht]. apply (Hs t inf). by apply elem_of_map_to_list.
Qed.

Lemma finv_step ev s s' : finv s → fstep ev s = Some s' → finv s'.
Proof.
  destruct s as [f gs]. intros Hinv Hs. destruct ev as [t newFunc| |i| |]; simpl in Hs.
  - simplify_eq. by apply finv_InformerFor.
  - pose proof (Start_spec f gs Hinv) as H1. destruct (Start f gs). simplify_eq. apply H1.
  - apply bind_Some in Hs as (g & Hg & Hs). destruct (g_done g) eqn:Hd; [done|]. simplify_eq.
    destruct Hinv as [Hn Hst Hi Hw]. simpl in *.
    assert (g_type <$> <[i := {| g_type := g_type g; g_informer := g_informer g; g_done := true |}]> gs
            = g_type <$> gs) as Hty.
    { rw list_fmap_insert /=. apply list_insert_id. by rw list_lookup_fmap Hg. }
    split; simpl.
    + by rw Hty.
    + intros t. rw Hty. apply Hst.
    + intros g' [j Hj]%list_elem_of_lookup_1.
      apply list_lookup_insert_Some in Hj as [(-> & <- & _)|[_ Hj]]; simpl.
      * apply Hi. by eapply list_elem_of_lookup_2.
      * apply Hi. by eapply list_elem_of_lookup_2.
    + rw (sumZ_insert _ _ _ _ _ Hg) Hw. unfold running at 3 4. rw Hd /=. lia.
  - simplify_eq. by destruct Hinv.
  - by step_cases.
Qed.

Lemma reachable_finv resync options s : reachable fstep (finit resync options) s → finv s.
Proof. apply (reachable_ind fstep finv finv_step), finv_init. Qed.

(** ** What stays *)

Lemma startAll_frame (todo : list (RType * Inf)) f gs :
  let '(f', gs') := foldl startOne (f, gs) todo in
  f_informers f' = f_informers f ∧ f_shuttingDown f' = f_shuttingDown f.
Proof.
  revert f gs. induction todo as [|[t inf] todo IH]; intros f gs; simpl; [done|].
  destruct (started f t); [apply IH|].
  specialize (IH (mark_started t f) (gs ++ [{| g_type := t; g_informer := inf; g_done := false |}])).
  by destruct (foldl _ _ _).
Qed.

Lemma fstep_informers ev s s' t inf :
  fstep ev s = Some s' → f_informers (fs_factory s) !! t = Some inf →
  f_informers (fs_factory s') !! t = Some inf.
Proof.
  destruct s as [f gs]. intros Hs Ht. destruct ev as [t' newFunc| |i| |]; simpl in *.
  - simplify_eq/=. unfold InformerFor. destruct (f_informers f !! t') eqn:Ht'; [done|]. simpl.
    rw lookup_insert_ne //. intros ->. congruence.
  - unfold Start in Hs. destruct (f_shuttingDown f); [by simplify_eq|].
    pose proof (startAll_frame (map_to_list (f_informers f)) f gs) as Hf.
    destruct (foldl _ _ _) as [f' gs']. simplify_eq/=. by rw (proj1 Hf).
  - by step_cases.
  - by simplify_eq.
  - by step_cases.
Qed.

Lemma reachable_informers s s' t inf :
  reachable fstep s s' → f_informers (fs_factory s) !! t = Some inf →
  f_informers (fs_factory s') !! t = Some inf.
Proof.
  intros Hr Ht. revert Hr. apply (reachable_ind fstep (λ s', f_informers (fs_factory s') !! t = Some inf));
    [|done]. intros ev s1 s2 H1 Hs. by eapply fstep_informers.
Qed.

Lemma fstep_stopped ev s s' :
  fstep ev s = Some s' → f_shuttingDown (fs_factory s) = true → (∀ g, g ∈ fs_goroutines s → g_done g = true) →
  fs_goroutines s' = fs_goroutines s ∧ f_shuttingDown (fs_factory s') = true.
Proof.
  destruct s as [f gs]. intros Hs Hd Hall. destruct ev as [t' newFunc| |i| |]; simpl in *.
  - simplify_eq/=. unfold InformerFor. by destruct (f_informers f !! t').
  - unfold Start in Hs. rw Hd in Hs. by simplify_eq.
  - apply bind_Some in Hs as (g & Hg & Hs). rw Hall in Hs; [by eapply list_elem_of_lookup_2|done].
  - by simplify_eq.
  - by step_cases.
Qed.

(** ** Properties *)

(** Informers are shared: once one has been asked for a type, every later
    request for that type, whatever calls come between, gives the same informer,
    and no goroutine ever runs another one of that type. *)
Theorem informers_are_shared resync options s t newFunc inf f s' newFunc' g :
  reachable fstep (finit resync options) s →
  InformerFor t newFunc (fs_factory s) = (inf, f) →
  reachable fstep {| fs_factory := f; fs_goroutines := fs_goroutines s |} s' →
  InformerFor t newFunc' (fs_factory s') = (inf, fs_factory s') ∧
  (g ∈ fs_goroutines s' → g_type g = t → g_informer g = inf).
Proof.
  intros Hr Hf Hr'.
  assert (f_informers f !! t = Some inf) as Ht.
  { unfold InformerFor in Hf. destruct (f_informers (fs_factory s) !! t) eqn:E; simplify_eq/=; [done|].
    by rw lookup_insert_eq. }
  apply (reachable_informers _ _ _ _ Hr') in Ht as Ht'. split; [unfold InformerFor; by rw Ht'|].
  assert (reachable fstep (finit resync options) s') as Hr2.
  { eapply reachable_trans; [|exact Hr']. eapply reachable_step; [exact Hr|].
    instantiate (1 := CallInformerFor t newFunc). simpl. by rw Hf. }
  intros Hg <-. apply (finv_informer _ (reachable_finv _ _ _ Hr2)) in Hg. congruence.
Qed.


(** When [Shutdown] returns, every goroutine the factory ever started has
    ended, and none is started afterwards. *)
Theorem Shutdown_is_complete resync options s s' s'' :
  reachable fstep (finit resync options) s → fstep ShutdownReturns s = Some s' →
  reachable fstep s' s'' →
  fs_goroutines s'' = fs_goroutines s ∧ ∀ g, g ∈ fs_goroutines s'' → g_done g = true.
Proof.
  intros Hr Hs Hr''. pose proof (finv_wg _ (reachable_finv _ _ _ Hr)) as Hwg.
  simpl in Hs. destruct (f_shuttingDown _) eqn:Hd; [|done].
  destruct (f_wg _ =? 0)%Z eqn:Hz; [|done]. apply Z.eqb_eq in Hz. simplify_eq/=. rw Hz in Hwg.
  assert (∀ g, g ∈ fs_goroutines s' → g_done g = true) as Hall.
  { intros g Hg. assert (running g = 0%Z) as Hg0.
    { eapply sumZ_zero; [|done|done]. intros x. unfold running. by destruct (g_done x). }
    unfold running in Hg0. by destruct (g_done g). }
  assert (fs_goroutines s'' = fs_goroutines s' ∧ f_shuttingDown (fs_factory s'') = true) as [-> _];
    [|done].
  revert Hr''. apply (reachable_ind fstep
    (λ s'', fs_goroutines s'' = fs_goroutines s' ∧ f_shuttingDown (fs_factory s'') = true)); [|done].
  intros ev s1 s2 [Hg1 Hd1] Hs1. rw -Hg1. eapply fstep_stopped; [done|done|by rw Hg1].
Qed.
End Factory.
Arguments sharedInformerFactory RType {_ _} Inf Tweak.
Arguments SharedInformerOption RType {_ _} Inf Tweak.
Arguments fstate RType {_ _} Inf Tweak.
Arguments fevent : clear implicits.
Arguments factoryOption : clear implicits.

(** ** The typed informers *)

(** [v1alpha1.SchemeGroupVersion] with a resource, and [v1alpha1.Resource]. *)
Definition GroupName : string := "admissionregistration.x-k8s.io".
Definition WithResource (resource : string) : GroupVersionResource :=
  {| gvr_Group := GroupName; gvr_Version := "v1alpha1"; gvr_Resource := resource |}.
Definition Resource (resource : string) : GroupResource := gvr_GroupResource (WithResource resource).

Section Typed.
Context {ListOptions Informer : Type}.
Abbreviation TweakListOptionsFunc := (ListOptions → ListOptions).

(** [cache.ListWatch]: the resource of the client that lists and watches, and the
    options it is called with. *)
Record ListWatch := {
  lw_resource : string;
  lw_ListOptions : ListOptions → ListOptions;
  lw_WatchOptions : ListOptions → ListOptions;
}.

(** [cache.NewSharedIndexInformer]. *)
Context (NewSharedIndexInformer : ListWatch → string → Z → list string → Informer).

Definition tweaked (tweak : option TweakListOptionsFunc) (options : ListOptions) : ListOptions :=
  match tweak with Some f => f options | None => options end.

Definition NewFilteredValidatingAdmissionPolicyInformer (resyncPeriod : Z) (indexers : list string)
    (tweak : option TweakListOptionsFunc) : Informer :=
  NewSharedIndexInformer
    {| lw_resource := "validatingadmissionpolicies"; lw_ListOptions := tweaked tweak;
       lw_WatchOptions := tweaked tweak |}
    "ValidatingAdmissionPolicy" resyncPeriod indexers.

Definition NewFilteredValidatingAdmissionPolicyBindingInformer (resyncPeriod : Z)
    (indexers : list string) (tweak : option TweakListOptionsFunc) : Informer :=
  NewSharedIndexInformer
    {| lw_resource := "validatingadmissionpolicybindings"; lw_ListOptions := tweaked tweak;
       lw_WatchOptions := tweaked tweak |}
    "ValidatingAdmissionPolicyBinding" resyncPeriod indexers.

Abbreviation factory := (sharedInformerFactory string Informer TweakListOptionsFunc).
Implicit Types (f : factory).

Definition NewValidatingAdmissionPolicyInformer (resyncPeriod : Z) (indexers : list string) : Informer :=
  NewFilteredValidatingAdmissionPolicyInformer resyncPeriod indexers None.
Definition NewValidatingAdmissionPolicyBindingInformer (resyncPeriod : Z) (indexers : list string) :
    Informer :=
  NewFilteredValidatingAdmissionPolicyBindingInformer resyncPeriod indexers None.

(** What a factory hands out on the way to an informer: each part also points to the
    factory, whose state is the argument [f] of the operations. *)
Record group := { grp_namespace : string; grp_tweakListOptions : option TweakListOptionsFunc }.
Record version := { ver_namespace : string; ver_tweakListOptions : option TweakListOptionsFunc }.
Record validatingAdmissionPolicyInformer := { pi_tweakListOptions : option TweakListOptionsFunc }.
Record validatingAdmissionPolicyBindingInformer := { bi_tweakListOptions : option TweakListOptionsFunc }.

Definition Admissionregistration f : group :=
  {| grp_namespace := f_namespace f; grp_tweakListOptions := f_tweakListOptions f |}.
Definition V1alpha1 (g : group) : version :=
  {| ver_namespace := grp_namespace g; ver_tweakListOptions := grp_tweakListOptions g |}.
Definition version_ValidatingAdmissionPolicies (v : version) : validatingAdmissionPolicyInformer :=
  {| pi_tweakListOptions := ver_tweakListOptions v |}.
Definition version_ValidatingAdmissionPolicyBindings (v : version) :
    validatingAdmissionPolicyBindingInformer :=
  {| bi_tweakListOptions := ver_tweakListOptions v |}.

(** The informers' [defaultInformer]: with an index by namespace. *)
Definition policy_defaultInformer (i : validatingAdmissionPolicyInformer) (resyncPeriod : Z) : Informer :=
  NewFilteredValidatingAdmissionPolicyInformer resyncPeriod ["namespace"] (pi_tweakListOptions i).
Definition binding_defaultInformer (i : validatingAdmissionPolicyBindingInformer) (resyncPeriod : Z) :
    Informer :=
  NewFilteredValidatingAdmissionPolicyBindingInformer resyncPeriod ["namespace"] (bi_tweakListOptions i).

Definition policy_Informer (i : validatingAdmissionPolicyInformer) f : Informer * factory :=
  InformerFor "ValidatingAdmissionPolicy" (policy_defaultInformer i) f.
Definition binding_Informer (i : validatingAdmissionPolicyBindingInformer) f : Informer * factory :=
  InformerFor "ValidatingAdmissionPolicyBinding" (binding_defaultInformer i) f.

(** [Lister]: over the indexer of the shared informer, which it requests. *)
Section Lister.
Context {Indexer : Type} (GetIndexer : Informer → Indexer).

Definition policy_Lister (i : validatingAdmissionPolicyInformer) f : Indexer * factory :=
  let '(informer, f) := policy_Informer i f in (GetIndexer informer, f).
Definition binding_Lister (i : validatingAdmissionPolicyBindingInformer) f : Indexer * factory :=
  let '(informer, f) := binding_Informer i f in (GetIndexer informer, f).
End Lister.

(** The typed way from a factory to an informer. *)
Definition ValidatingAdmissionPolicies_Informer f : Informer * factory :=
  policy_Informer (version_ValidatingAdmissionPolicies (V1alpha1 (Admissionregistration f))) f.

Definition ValidatingAdmissionPolicyBindings_Informer f : Informer * factory :=
  binding_Informer (version_ValidatingAdmissionPolicyBindings (V1alpha1 (Admissionregistration f))) f.

Record genericInformer := { gi_informer : Informer; gi_resource : GroupResource }.

Definition ForResource (resource : GroupVersionResource) f : result string genericInformer * factory :=
  let generic (r : Informer * factory) :=
    (Ok {| gi_informer := r.1; gi_resource := gvr_GroupResource resource |}, r.2) in
  if decide (resource = WithResource "validatingadmissionpolicies")
  then generic (ValidatingAdmissionPolicies_Informer f)
  else if decide (resource = WithResource "validatingadmissionpolicybindings")
  then generic (ValidatingAdmissionPolicyBindings_Informer f)
  else (Err ("no informer found for " +:+ gvr_String resource), f).

Lemma InformerFor_twice t newFunc newFunc' f :
  InformerFor t newFunc' (InformerFor t newFunc f).2 = InformerFor t newFunc f.
Proof.
  unfold InformerFor. destruct (f_informers f !! t) eqn:E; simpl; [by rw E|by rw lookup_insert_eq].
Qed.

(** The generic and the typed way give the same informer, and an unknown resource
    leaves the factory alone. *)
Theorem ForResource_shares resource f :
  match ForResource resource f with
  | (Ok gi, f') =>
      gi_resource gi = gvr_GroupResource resource ∧
      (gvr_Resource resource = "validatingadmissionpolicies" →
        ValidatingAdmissionPolicies_Informer f' = (gi_informer gi, f')) ∧
      (gvr_Resource resource = "validatingadmissionpolicybindings" →
        ValidatingAdmissionPolicyBindings_Informer f' = (gi_informer gi, f'))
  | (Err _, f') => f' = f ∧ resource ∉ WithResource <$>
                     ["validatingadmissionpolicies"; "validatingadmissionpolicybindings"]
  end.
Proof.
  unfold ForResource, ValidatingAdmissionPolicies_Informer, ValidatingAdmissionPolicyBindings_Informer,
    policy_Informer, binding_Informer.
  destruct (decide _) as [->|H1]; [|destruct (decide _) as [->|H2]]; simpl.
  - split_and!; [done| |done]. intros _. rw InformerFor_twice. by apply surjective_pairing.
  - split_and!; [done|done|]. intros _. rw InformerFor_twice. by apply surjective_pairing.
  - split; [done|]. set_solver.
Qed.

(** A lister reads the cache of the informer that the factory shares from then on. *)
Theorem lister_shares_informer {Indexer} (GetIndexer : Informer → Indexer) i f indexer f' :
  policy_Lister GetIndexer i f = (indexer, f') →
  ∃ informer, indexer = GetIndexer informer ∧ policy_Informer i f' = (informer, f').
Proof.
  unfold policy_Lister, policy_Informer.
  destruct (InformerFor _ _ f) as [informer f1] eqn:Hi. intros [= <- <-]. exists informer.
  split; [done|]. pose proof (InformerFor_twice "ValidatingAdmissionPolicy" (policy_defaultInformer i)
                                (policy_defaultInformer i) f) as Ht. by rw Hi in Ht.
Qed.

(** The policies are cluster-scoped: the namespace of the factory changes nothing. *)
Theorem WithNamespace_is_ignored namespace f :
  ValidatingAdmissionPolicies_Informer (WithNamespace namespace f) =
  (let '(informer, f') := ValidatingAdmissionPolicies_Informer f in (informer, WithNamespace namespace f')).
Proof.
  unfold ValidatingAdmissionPolicies_Informer, policy_Informer, InformerFor. simpl.
  by destruct (f_informers f !! _).
Qed.
End Typed.

(** ** The generated listers *)

Section Listers.
Context {T : Type} `{MetaAccessor T}.
Implicit Types (indexer : gmap string T).

(** [Get] of a lister whose not-found errors name [resource]. *)
Definition indexer_Get (resource : string) indexer (name : string) : result error T :=
  match indexer !! name with
  | None => Err (StatusError (NewNotFound (Resource resource) name))
  | Some obj => Ok obj
  end.

Definition validatingAdmissionPolicyLister_List indexer (selector : Selector) : list T * option error :=
  ListAll indexer selector.
Definition validatingAdmissionPolicyLister_Get indexer name : result error T :=
  indexer_Get "validatingadmissionpolicy" indexer name.
Definition validatingAdmissionPolicyBindingLister_List indexer (selector : Selector) :
    list T * option error :=
  ListAll indexer selector.
Definition validatingAdmissionPolicyBindingLister_Get indexer name : result error T :=
  indexer_Get "validatingadmissionpolicybinding" indexer name.

Lemma selectObjects_all (selector : Selector (T := T)) objs :
  (∀ obj, obj ∈ objs → is_Some (Accessor obj)) →
  (sel_Empty selector = true → ∀ obj, sel_Matches selector obj = true) →
  selectObjects selector objs = (filter (λ obj, sel_Matches selector obj = true) objs, None).
Proof.
  intros Hmeta Hempty. induction objs as [|m objs IH]; [done|]. cbn [selectObjects].
  rw IH; [intros; apply Hmeta; by right|]. destruct (Hmeta m) as [view Hm]; [by left|]. rw Hm.
  destruct (sel_Empty selector) eqn:He.
  - by rw filter_cons_True; [by apply Hempty|].
  - destruct (sel_Matches selector m) eqn:Hs; [by rw filter_cons_True|].
    by rw filter_cons_False; [by rw Hs|].
Qed.

(** A lister lists exactly the objects its selector matches, [Get] finds exactly
    the keys of the cache, and a miss is a not-found error of the resource. *)
Theorem lister_reads_cache indexer (selector : Selector (T := T)) resource name :
  (∀ key obj, indexer !! key = Some obj → is_Some (Accessor obj)) →
  (sel_Empty selector = true → ∀ obj, sel_Matches selector obj = true) →
  (∃ ret, validatingAdmissionPolicyLister_List indexer selector = (ret, None) ∧
     ∀ obj, obj ∈ ret ↔ sel_Matches selector obj = true ∧ ∃ key, indexer !! key = Some obj) ∧
  (∀ obj, indexer_Get resource indexer name = Ok obj ↔ indexer !! name = Some obj) ∧
  (indexer !! name = None →
     ∃ err, indexer_Get resource indexer name = Err err ∧ IsNotFound (Some err) = true).
Proof.
  intros Hmeta Hempty. assert (∀ obj, obj ∈ store_List indexer ↔ ∃ key, indexer !! key = Some obj) as Hall.
  { intros obj. unfold store_List. rw list_elem_of_fmap. split.
    - intros ([key ?] & -> & Hin%elem_of_map_to_list). eauto.
    - intros [key Hk]. exists (key, obj). split; [done|]. by apply elem_of_map_to_list. }
  split_and!.
  - eexists. split.
    + unfold validatingAdmissionPolicyLister_List, ListAll. rw selectObjects_all; [|done|done].
      intros obj [key Hk]%Hall. eauto.
    + intros obj. by rw list_elem_of_filter Hall.
  - intros obj. unfold indexer_Get. destruct (indexer !! name); naive_solver.
  - intros Hn. unfold indexer_Get. rw Hn. eexists. split; [done|]. apply IsNotFound_NewNotFound.
Qed.
End Listers.

(** ** Witnesses *)
Module FactoryWitness.
Abbreviation demo_step := (fstep (RType := string) (Inf := Z) (Tweak := unit)).
Definition demo_init : fstate string Z unit := finit 30 [Namespaced "default"; CustomResync [("policy", 5%Z)]].
Definition demo_state (evs : list (fevent string Z)) : fstate string Z unit :=
  default demo_init (run demo_step evs demo_init).
Definition requests : list (fevent string Z) :=
  [CallInformerFor "policy" (λ r, r); CallInformerFor "binding" (λ r, r)].
Definition stopping : list (fevent string Z) :=
  requests ++ [CallStart; CallStart; CallShutdown; RunReturns 1; RunReturns 0].

Lemma informers_are_shared_witness :
  InformerFor "policy" (λ _, 0%Z) (fs_factory (demo_state stopping)) = (5%Z, fs_factory (demo_state stopping)).
Proof.
  apply (informers_are_shared 30 [Namespaced "default"; CustomResync [("policy", 5%Z)]] demo_init "policy"
           (λ r, r) 5%Z (InformerFor "policy" (λ r, r) (fs_factory demo_init)).2 (demo_state stopping)
           (λ _, 0%Z) {| g_type := "policy"; g_informer := 5%Z; g_done := false |}).
  - exists []. reflexivity.
  - reflexivity.
  - apply (reachable_split demo_step (take 1 stopping) (drop 1 stopping)). vm_compute. reflexivity.
Defined.


Lemma Shutdown_is_complete_witness :
  fs_goroutines (demo_state (stopping ++ [ShutdownReturns; CallStart])) = fs_goroutines (demo_state stopping).
Proof.
  apply (Shutdown_is_complete 30 [Namespaced "default"; CustomResync [("policy", 5%Z)]]
           (demo_state stopping) (demo_state (stopping ++ [ShutdownReturns]))
           (demo_state (stopping ++ [ShutdownReturns; CallStart]))).
  - apply (reachable_default demo_step stopping). vm_compute. reflexivity.
  - apply (step_default demo_step stopping). vm_compute. reflexivity.
  - apply (reachable_split demo_step (stopping ++ [ShutdownReturns]) [CallStart]). vm_compute. reflexivity.
Defined.
End FactoryWitness.
