(* ===== verification/Interceptor.v ===== *)
(** * The interceptor proxy

    [cmd/interceptor/main.go]: a reverse proxy in front of the API server that
    sends requests for the native policy group to the CRD group and renames the
    group in the answers.  [Rewrite] and [ModifyResponse] are modelled on the
    parts of requests and responses they touch; [httputil.ReverseProxy] is not, and
    the set-up of the proxy is in [Commands]. *)
From S2P Require Import Prelude GoStrings.
From Stdlib Require Import Ascii.

Definition nativeGroup : string := "admissionregistration.k8s.io/v1alpha1".
Definition crdGroup : string := "admissionregistration.x-k8s.io/v1alpha1".

(** ** bufio.Scanner with ScanLines *)

(** [bufio.MaxScanTokenSize]. *)
Definition MaxScanTokenSize : nat := Z.to_nat (64 * 1024).

Definition lf : ascii := ascii_of_nat 10.
Definition cr : ascii := ascii_of_nat 13.

(** [dropCR]: a trailing carriage return is not part of the line. *)
Fixpoint dropCR (line : string) : string :=
  match line with
  | "" => ""
  | String c "" => if bool_decide (c = cr) then "" else line
  | String c rest => String c (dropCR rest)
  end.

(** The lines the scanner yields from [body].  Once its buffer is full without a
    line feed it stops: that line and everything after it are not read.  The last
    line may lack its line feed; an empty one is not a line. *)
Definition scanLines (body : string) : list string :=
  (fix go (parts : list string) : list string :=
     match parts with
     | [] => []
     | [last] =>
         if bool_decide (last = "") || (MaxScanTokenSize <=? String.length last) then []
         else [dropCR last]
     | line :: parts' =>
         if MaxScanTokenSize <=? String.length line then [] else dropCR line :: go parts'
     end) (Split body lf).

(** ** Rewrite *)

Record proxyURL := { url_Path : string; url_RawPath : string }.

(** The request that goes out: [out_Body] and [out_ContentLength] are set when the
    body is replaced. *)
Record outRequest := {
  out_URL : proxyURL;
  out_Accept : option string;
  out_Body : string;
  out_ContentLength : Z;
}.

(** The goroutine that feeds the pipe. *)
Definition pipeBody (body : string) : string :=
  foldr (λ line rest, ReplaceAll line nativeGroup crdGroup +:+ rest) "" (scanLines body).

(** [inPath] is the path of the incoming request, [out] the outgoing request after
    [SetURL]. *)
Definition Rewrite (inPath : string) (out : outRequest) : outRequest :=
  if negb (Contains inPath nativeGroup) then out
  else {| out_URL :=
            {| url_Path := ReplaceAll (url_Path (out_URL out)) nativeGroup crdGroup;
               url_RawPath := ReplaceAll (url_RawPath (out_URL out)) nativeGroup crdGroup |};
          out_Accept := Some "application/json";
          out_Body := pipeBody (out_Body out);
          out_ContentLength := -1 |}.

(** ** ModifyResponse *)

Record response := {
  res_RequestPath : string;   (* response.Request.URL.Path: the outgoing path *)
  res_Body : string;
  res_ContentLength : Z;
  res_ContentLengthHeader : option Z;
}.

(** A read error is returned after the body was replaced by what was read. *)
Definition ModifyResponse (readError : option string) (r : response) : response * option string :=
  if negb (Contains (res_RequestPath r) crdGroup) then (r, None)
  else
    let b := ReplaceAll (res_Body r) crdGroup nativeGroup in
    ({| res_RequestPath := res_RequestPath r;
        res_Body := b;
        res_ContentLength := Z.of_nat (String.length b);
        res_ContentLengthHeader := Some (Z.of_nat (String.length b)) |}, readError).

(** ** Replacing there and back *)

(** The strings [drop i s] for [0 < i < length s]. *)
Fixpoint proper_suffixes (s : string) : list string :=
  match s with
  | "" | String _ "" => []
  | String _ s' => s' :: proper_suffixes s'
  end.

(** Two strings agree as far as the shorter one goes. *)
Fixpoint compatible (s t : string) : bool :=
  match s, t with
  | String a s', String b t' => bool_decide (a = b) && compatible s' t'
  | _, _ => true
  end.

(** No occurrence of [p] can begin inside another one. *)
Definition border_free (p : string) : bool :=
  forallb (λ s, negb (compatible s p)) (proper_suffixes p).

Lemma HasPrefix_app s p : HasPrefix s p = true ↔ ∃ t, s = p +:+ t.
Proof.
  revert s. induction p as [|a p IH]; intros s; simpl.
  - split; [by exists s|done].
  - destruct s as [|b s]; [split; [done|by intros [t Ht]]|].
    rw andb_true_iff bool_decide_eq_true IH. split.
    + intros [-> [t ->]]. by exists t.
    + intros [t Ht]. rw app_cons in Ht. simplify_eq. eauto.
Qed.

Lemma compatible_app_l s t u : HasPrefix (s +:+ u) t = true → compatible s t = true.
Proof.
  revert t. induction s as [|a s IH]; intros t; [done|]. rw app_cons.
  destruct t as [|b t]; simpl; [done|]. rw !andb_true_iff. intros [? ?]. auto.
Qed.

Lemma replace_scan_skip old new p t :
  replace_scan old new (String.length p) (p +:+ t) = replace_scan old new 0 t.
Proof. induction p as [|c p IH]; [done|]. rw app_cons. simpl. apply IH. Qed.

Section RoundTrip.
Context (old new : string).
Implicit Types (s t q : string).

Lemma ReplaceAll_occurrence t : old ≠ "" → ReplaceAll (old +:+ t) old new = new +:+ ReplaceAll t old new.
Proof.
  destruct old as [|c o] eqn:Ho; [done|]. intros _. unfold ReplaceAll. rw app_cons.
  cbn [replace_scan]. assert (HasPrefix (String c (o +:+ t)) (String c o) = true) as ->.
  { apply HasPrefix_app. exists t. by rw app_cons. }
  simpl. rw Nat.sub_0_r. by rw replace_scan_skip.
Qed.

Lemma ReplaceAll_no_occurrence c s :
  HasPrefix (String c s) old = false → ReplaceAll (String c s) old new = String c (ReplaceAll s old new).
Proof. unfold ReplaceAll. cbn [replace_scan]. by intros ->. Qed.

(** A string at the start of the output was at the start of the input, or runs
    into a replaced occurrence. *)
Lemma ReplaceAll_prefix s q :
  old ≠ "" → HasPrefix (ReplaceAll s old new) q = true →
  HasPrefix s q = true ∨
  ∃ q', (q' = q ∨ q' ∈ proper_suffixes q) ∧ q' ≠ "" ∧ compatible new q' = true.
Proof.
  intros Hold. revert q. induction s as [|c s IH]; intros q Hq; [by left|].
  destruct q as [|a q]; [by left|].
  destruct (HasPrefix (String c s) old) eqn:Ho.
  - apply HasPrefix_app in Ho as [t Ht]. rw Ht ReplaceAll_occurrence // in Hq.
    right. exists (String a q). split; [by left|]. split; [done|]. by eapply compatible_app_l.
  - rw ReplaceAll_no_occurrence // in Hq. simpl in Hq. apply andb_true_iff in Hq as [Ha Hq].
    destruct (IH q Hq) as [Hs|(q' & Hq' & Hne & Hc)]; [left; by rw /= Ha Hs|].
    right. exists q'. split; [|done]. right. simpl. destruct q as [|b q]; [|set_solver].
    destruct Hq' as [->|Hq']; [done|]. by apply elem_of_nil in Hq'.
Qed.
End RoundTrip.

Lemma compatible_sym s t : compatible s t = compatible t s.
Proof.
  revert t. induction s as [|a s IH]; intros [|b t]; simpl; try done.
  rw IH. f_equal. by apply bool_decide_ext.
Qed.

Lemma Contains_suffix s t p : Contains (s +:+ t) p = false → Contains t p = false.
Proof.
  induction s as [|c s IH]; [done|]. rw app_cons. cbn [Contains]. intros [_ ?]%orb_false_iff. auto.
Qed.

Lemma string_length_app s t : String.length (s +:+ t) = String.length s + String.length t.
Proof. induction s as [|c s IH]; [done|]. rw app_cons. simpl. by rw IH. Qed.

(** Replacing [old] by [new] and back, where [new] did not occur. *)
Lemma ReplaceAll_back old new s :
  old ≠ "" → new ≠ "" → border_free new = true → Contains s new = false →
  ReplaceAll (ReplaceAll s old new) new old = s.
Proof.
  intros Ho Hn Hb.
  assert (∀ n s, String.length s < n → Contains s new = false →
            ReplaceAll (ReplaceAll s old new) new old = s) as H;
    [|by apply (H (S (String.length s))); lia].
  clear s. induction n as [|n IH]; intros s Hlen Hc; [lia|].
  destruct s as [|c s]; [done|].
  destruct (HasPrefix (String c s) old) eqn:Hp.
  - apply HasPrefix_app in Hp as [t Ht]. rw Ht in Hc Hlen *.
    rw (ReplaceAll_occurrence old new t Ho) (ReplaceAll_occurrence new old _ Hn). f_equal.
    apply IH; [|by eapply Contains_suffix]. rw string_length_app in Hlen.
    destruct old; [done|]. simpl in Hlen. lia.
  - rw (ReplaceAll_no_occurrence old new c s Hp).
    cbn [Contains] in Hc. apply orb_false_iff in Hc as [Hc1 Hc2].
    rw ReplaceAll_no_occurrence; [|by rw IH; simpl in Hlen; [lia|..]].
    destruct (HasPrefix (String c (ReplaceAll s old new)) new) eqn:Hx; [|done]. exfalso.
    destruct new as [|a q] eqn:Hnew; [done|]. simpl in Hx, Hc1. apply andb_true_iff in Hx as [Ha Hq].
    rw Ha /= in Hc1. rw -Hnew in Hq.
    destruct (ReplaceAll_prefix old new s q Ho Hq) as [Hs|(q' & Hq' & Hne & Hcomp)]; [congruence|].
    unfold border_free in Hb. rw forallb_forall in Hb. rw compatible_sym in Hcomp.
    assert (In q' (proper_suffixes (String a q))) as Hin.
    { apply list_elem_of_In. simpl. destruct q as [|b q]; [|set_solver].
      destruct Hq' as [->|Hq']; [done|]. by apply elem_of_nil in Hq'. }
    specialize (Hb q' Hin). rw Hnew in Hcomp. by rw Hcomp in Hb.
Qed.

Lemma Contains_app s t p : Contains (s +:+ (p +:+ t)) p = true.
Proof.
  assert (HasPrefix (p +:+ t) p = true) as Hp by (apply HasPrefix_app; eauto).
  induction s as [|c s IH].
  - unfold String.app at 1. simpl. destruct (p +:+ t) eqn:Hs; cbn [Contains]; by rw Hp.
  - rw app_cons. cbn [Contains]. by rw IH orb_true_r.
Qed.

(** An occurrence of [old] leaves one of [new]. *)
Lemma ReplaceAll_Contains s old new :
  old ≠ "" → Contains s old = true → Contains (ReplaceAll s old new) new = true.
Proof.
  intros Ho. induction s as [|c s IH]; intros Hc; cbn [Contains] in Hc.
  { destruct old; [done|]. simpl in Hc. done. }
  destruct (HasPrefix (String c s) old) eqn:Hp.
  - apply HasPrefix_app in Hp as [t ->]. rw ReplaceAll_occurrence //.
    exact (Contains_app "" (ReplaceAll t old new) new).
  - rw ReplaceAll_no_occurrence //. cbn [Contains]. rw IH // orb_true_r. done.
Qed.

Lemma Contains_prepend s t p :
  (∀ q, q = s ∨ q ∈ proper_suffixes s → q ≠ "" → compatible q p = false) →
  Contains t p = false → Contains (s +:+ t) p = false.
Proof.
  induction s as [|c s IH]; intros Hq Ht; [done|]. rw app_cons. cbn [Contains]. apply orb_false_iff. split.
  - apply not_true_iff_false. intros Hp. rw -app_cons in Hp. apply compatible_app_l in Hp.
    by rw (Hq (String c s)) in Hp; [by left|..].
  - apply IH; [|done]. intros q Hin Hne. apply Hq; [right|done]. simpl. destruct s as [|d s].
    + destruct Hin as [->|Hin]; [done|by apply elem_of_nil in Hin].
    + destruct Hin as [->|Hin]; set_solver.
Qed.

(** No occurrence of [old] is left when the new string has no beginning or end in common
    with it. *)
Lemma ReplaceAll_gone old new s :
  old ≠ "" → forallb (λ q, negb (compatible q old)) (new :: proper_suffixes new) = true →
  forallb (λ q, negb (compatible new q)) (proper_suffixes old) = true →
  Contains (ReplaceAll s old new) old = false.
Proof.
  intros Ho Hnew Hold. rw !forallb_forall in Hnew, Hold.
  assert (∀ q, q = new ∨ q ∈ proper_suffixes new → compatible q old = false) as Hn.
  { intros q Hq. apply negb_true_iff, Hnew, list_elem_of_In. set_solver. }
  assert (∀ n s, String.length s < n → Contains (ReplaceAll s old new) old = false) as H;
    [|by apply (H (S (String.length s))); lia].
  clear s. induction n as [|n IH]; intros s Hlen; [lia|].
  destruct s as [|c s]; [by destruct old|]. destruct (HasPrefix (String c s) old) eqn:Hp.
  - apply HasPrefix_app in Hp as [t Ht]. rw Ht ReplaceAll_occurrence // in Hlen *.
    apply Contains_prepend; [intros; by apply Hn|]. apply IH. rw string_length_app in Hlen.
    destruct old; [done|]. simpl in Hlen. lia.
  - rw (ReplaceAll_no_occurrence _ _ _ _ Hp). cbn [Contains]. apply orb_false_iff.
    split; [|apply IH; simpl in Hlen; lia]. apply not_true_iff_false. intros Hx.
    rw -(ReplaceAll_no_occurrence _ _ _ _ Hp) in Hx.
    destruct (ReplaceAll_prefix old new _ old Ho Hx) as [Hs|(q & [->|Hq] & _ & Hc)]; [congruence| |].
    + by rw (Hn new (or_introl eq_refl)) in Hc.
    + specialize (Hold q (proj1 (list_elem_of_In _ _) Hq)). by rw Hc in Hold.
Qed.

Lemma native_gone s : Contains (ReplaceAll s nativeGroup crdGroup) nativeGroup = false.
Proof. by apply ReplaceAll_gone. Qed.

Lemma dropCR_no_cr s : has_byte cr s = false → dropCR s = s.
Proof.
  unfold has_byte. induction s as [|c s IH]; [done|]. cbn [Contains]. intros [Hc Hs]%orb_false_iff.
  cbn [HasPrefix] in Hc. rw andb_true_r in Hc. cbn [dropCR]. destruct s as [|d s].
  - by rw Hc.
  - by rw IH.
Qed.

(** A body of one short line is rewritten as a whole. *)
Lemma pipeBody_line body :
  has_byte lf body = false → has_byte cr body = false → body ≠ "" →
  String.length body < MaxScanTokenSize →
  pipeBody body = ReplaceAll body nativeGroup crdGroup.
Proof.
  intros Hlf Hcr Hne Hlen. unfold pipeBody, scanLines. rw (Split_no_sep _ _ Hlf).
  rw (bool_decide_eq_false_2 _ Hne). apply Nat.leb_gt in Hlen. rw Hlen.
  rw orb_false_l dropCR_no_cr //. cbn [foldr]. apply string_app_nil_r.
Qed.

(** ** Properties *)

(** C38: a client that talks to the native group through the proxy gets its own
      document back.  The request goes out with every occurrence of the native group in
      its path and in its body renamed to the CRD group, so that neither mentions the
      native group any more, as JSON and with a chunked body; and an answer that echoes
      that body is renamed back to exactly the bytes the client sent, with a matching
      content length.  For a non-empty one-line body without a carriage return, of less
      than 64 KiB, that does not itself mention the CRD group. *)
Theorem interceptor_round_trip inPath out readError header :
  Contains inPath nativeGroup = true → Contains (url_Path (out_URL out)) nativeGroup = true →
  has_byte lf (out_Body out) = false → has_byte cr (out_Body out) = false → out_Body out ≠ "" →
  String.length (out_Body out) < MaxScanTokenSize → Contains (out_Body out) crdGroup = false →
  let sent := Rewrite inPath out in
  let echoed := {| res_RequestPath := url_Path (out_URL sent); res_Body := out_Body sent;
                   res_ContentLength := -1; res_ContentLengthHeader := header |} in
  out_URL sent =
    {| url_Path := ReplaceAll (url_Path (out_URL out)) nativeGroup crdGroup;
       url_RawPath := ReplaceAll (url_RawPath (out_URL out)) nativeGroup crdGroup |} ∧
  Contains (url_Path (out_URL sent)) crdGroup = true ∧
  Contains (url_Path (out_URL sent)) nativeGroup = false ∧
  out_Body sent = ReplaceAll (out_Body out) nativeGroup crdGroup ∧
  Contains (out_Body sent) nativeGroup = false ∧
  out_Accept sent = Some "application/json" ∧ out_ContentLength sent = (-1)%Z ∧
  (ModifyResponse readError echoed).2 = readError ∧
  res_Body (ModifyResponse readError echoed).1 = out_Body out ∧
  res_ContentLength (ModifyResponse readError echoed).1 = Z.of_nat (String.length (out_Body out)).
Proof.
  intros Hin Hpath Hlf Hcr Hne Hlen Hcrd. unfold Rewrite. rw Hin. cbn [negb].
  cbv zeta. cbn [out_URL out_Body url_Path].
  assert (Contains (ReplaceAll (url_Path (out_URL out)) nativeGroup crdGroup) crdGroup = true) as Hc
    by by apply ReplaceAll_Contains.
  unfold ModifyResponse. cbn [res_RequestPath]. rw Hc. cbn [negb fst snd res_Body res_ContentLength].
  rw !pipeBody_line // ReplaceAll_back // !native_gone. by repeat split.
Qed.

(** The proxy loses the rest of a body at its first line of 64 KiB or more: only
      the lines before it are forwarded, and the stream ends as if complete. *)
Theorem long_line_truncates_body first line :
  has_byte lf first = false → String.length first < MaxScanTokenSize →
  has_byte lf line = false → MaxScanTokenSize ≤ String.length line →
  pipeBody (first +:+ String lf line) = ReplaceAll (dropCR first) nativeGroup crdGroup.
Proof.
  intros Hf Hfl Hl Hll. unfold pipeBody, scanLines.
  rw (Split_app _ _ _ Hf) (Split_no_sep _ _ Hl).
  apply Nat.leb_gt in Hfl. apply Nat.leb_le in Hll. rw Hfl Hll orb_true_r.
  cbn [foldr]. apply string_app_nil_r.
Qed.

(** ** Witnesses *)
Module InterceptorWitness.
Definition demo_body : string := "apiVersion: admissionregistration.k8s.io/v1alpha1".
Definition demo_path : string := "/apis/admissionregistration.k8s.io/v1alpha1/validatingadmissionpolicies".
Definition demo_out : outRequest :=
  {| out_URL := {| url_Path := demo_path; url_RawPath := "" |}; out_Accept := None;
     out_Body := demo_body; out_ContentLength := 49 |}.

Lemma interceptor_round_trip_witness :
  out_Body (Rewrite demo_path demo_out) = "apiVersion: admissionregistration.x-k8s.io/v1alpha1" ∧
  res_Body (ModifyResponse None
    {| res_RequestPath := url_Path (out_URL (Rewrite demo_path demo_out));
       res_Body := out_Body (Rewrite demo_path demo_out); res_ContentLength := -1;
       res_ContentLengthHeader := None |}).1 = demo_body.
Proof.
  destruct (interceptor_round_trip demo_path demo_out None None)
    as (_ & _ & _ & Hsent & _ & _ & _ & _ & Hb & _);
    [reflexivity|reflexivity|reflexivity|reflexivity|discriminate| |reflexivity|].
  - apply Nat.ltb_lt. vm_compute. reflexivity.
  - split; [|exact Hb].
    transitivity (ReplaceAll demo_body nativeGroup crdGroup); [exact Hsent|vm_compute; reflexivity].
Defined.

Definition long_line : string := String.string_of_list_ascii (repeat "x"%char MaxScanTokenSize).

Lemma long_line_truncates_body_witness :
  pipeBody (demo_body +:+ String lf long_line) = "apiVersion: admissionregistration.x-k8s.io/v1alpha1".
Proof.
  transitivity (ReplaceAll (dropCR demo_body) nativeGroup crdGroup); [|vm_compute; reflexivity].
  apply long_line_truncates_body.
  - reflexivity.
  - apply Nat.ltb_lt. vm_compute. reflexivity.
  - vm_compute. reflexivity.
  - apply Nat.leb_le. vm_compute. reflexivity.
Defined.
End InterceptorWitness.
