(* ===== verification/RestClient.v ===== *)
(** * The generated REST clients

    [pkg/generated/clientset/versioned/typed/.../validatingadmissionpolicy.go] and
    [validatingadmissionpolicybinding.go] over client-go's request builder
    ([rest/request.go]): each method as the request it builds and sends.  The two
    files differ in the resource name and in [UpdateStatus], which bindings lack;
    the native typed clients of client-go are the same code at another group, so
    group and resource are arguments.  The parameter and body codecs, the
    transport and the decoding of answers are arguments. *)
From S2P Require Import Prelude GoStrings ApiMachinery TransformedClient Interceptor.
From Stdlib Require Import Ascii.

(** ** Go's path package *)

Definition sep : ascii := "/".

Definition joinSegments (segs : list string) : string :=
  match segs with
  | [] => ""
  | s :: rest => foldl (λ acc s, acc +:+ String sep s) s rest
  end.

(** One segment of [path.Clean]; the stack is the output so far, last segment
    first. *)
Definition cleanSegment (rooted : bool) (out : list string) (seg : string) : list string :=
  if decide (seg ∈ [""; "."]) then out
  else if decide (seg = "..") then
    match out with
    | [] => if rooted then [] else [".."]
    | top :: out' => if decide (top = "..") then ".." :: out else out'
    end
  else seg :: out.

Definition Clean (p : string) : string :=
  if decide (p = "") then "."
  else
    let rooted := HasPrefix p (String sep "") in
    let body := joinSegments (reverse (foldl (cleanSegment rooted) [] (Split p sep))) in
    if rooted then String sep body else if decide (body = "") then "." else body.

(** [path.Join]: empty elements before the first non-empty one are left out. *)
Fixpoint Join (elems : list string) : string :=
  match elems with
  | [] => ""
  | e :: rest => if decide (e = "") then Join rest else Clean (joinSegments elems)
  end.

(** ** rest.Request *)

Record RestRequest := {
  rq_verb : string;
  rq_pathPrefix : string;
  rq_resource : string;
  rq_resourceName : string;
  rq_subresource : string;
  rq_params : list (string * list string);   (* values of a key in the order they were added *)
  rq_timeout : Z;
  rq_contentType : option string;            (* the Content-Type header *)
  rq_body : option string;
  rq_err : option string;
}.
Implicit Types (r : RestRequest).

(** A step of the builder: nothing happens once an error is recorded. *)
Definition unless_err r (f : RestRequest → RestRequest) : RestRequest :=
  match rq_err r with Some _ => r | None => f r end.
Definition with_err (e : string) r : RestRequest :=
  {| rq_verb := rq_verb r; rq_pathPrefix := rq_pathPrefix r; rq_resource := rq_resource r;
     rq_resourceName := rq_resourceName r; rq_subresource := rq_subresource r;
     rq_params := rq_params r; rq_timeout := rq_timeout r; rq_contentType := rq_contentType r; rq_body := rq_body r; rq_err := Some e |}.

Definition NameMayNotBe : list string := ["."; ".."].
Definition NameMayNotContain : list string := ["/"; "%"].

Definition IsValidPathSegmentName (name : string) : list string :=
  match filter (λ illegal, name = illegal) NameMayNotBe with
  | illegal :: _ => ["may not be '" +:+ illegal +:+ "'"]
  | [] => (λ illegal, "may not contain '" +:+ illegal +:+ "'")
            <$> filter (λ illegal, Contains name illegal = true) NameMayNotContain
  end.

(** [%v] of a list of strings. *)
Definition format_list (msgs : list string) : string :=
  "[" +:+ foldr (λ m acc, if decide (acc = "") then m else m +:+ " " +:+ acc) "" msgs +:+ "]".

Definition rq_Resource (resource : string) r : RestRequest := unless_err r (λ r,
  if decide (rq_resource r ≠ "") then
    with_err ("resource already set to " +:+ Quote (rq_resource r) +:+ ", cannot change to "
              +:+ Quote resource) r
  else match IsValidPathSegmentName resource with
       | (_ :: _) as msgs =>
           with_err ("invalid resource " +:+ Quote resource +:+ ": " +:+ format_list msgs) r
       | [] =>
           {| rq_verb := rq_verb r; rq_pathPrefix := rq_pathPrefix r; rq_resource := resource;
              rq_resourceName := rq_resourceName r; rq_subresource := rq_subresource r;
              rq_params := rq_params r; rq_timeout := rq_timeout r; rq_contentType := rq_contentType r; rq_body := rq_body r;
              rq_err := None |}
       end).

Definition rq_Name (name : string) r : RestRequest := unless_err r (λ r,
  if decide (name = "") then with_err "resource name may not be empty" r
  else if decide (rq_resourceName r ≠ "") then
    with_err ("resource name already set to " +:+ Quote (rq_resourceName r)
              +:+ ", cannot change to " +:+ Quote name) r
  else match IsValidPathSegmentName name with
       | (_ :: _) as msgs =>
           with_err ("invalid resource name " +:+ Quote name +:+ ": " +:+ format_list msgs) r
       | [] =>
           {| rq_verb := rq_verb r; rq_pathPrefix := rq_pathPrefix r; rq_resource := rq_resource r;
              rq_resourceName := name; rq_subresource := rq_subresource r;
              rq_params := rq_params r; rq_timeout := rq_timeout r; rq_contentType := rq_contentType r; rq_body := rq_body r;
              rq_err := None |}
       end).

(** The first subresource that is not a valid segment, with what is wrong. *)
Fixpoint firstInvalid (subresources : list string) : option (string * list string) :=
  match subresources with
  | [] => None
  | s :: rest =>
      match IsValidPathSegmentName s with
      | (_ :: _) as msgs => Some (s, msgs)
      | [] => firstInvalid rest
      end
  end.

Definition rq_SubResource (subresources : list string) r : RestRequest := unless_err r (λ r,
  let subresource := Join subresources in
  if decide (rq_subresource r ≠ "") then
    with_err ("subresource already set to " +:+ Quote (rq_subresource r)
              +:+ ", cannot change to " +:+ Quote subresource) r
  else match firstInvalid subresources with
       | Some (s, msgs) =>
           with_err ("invalid subresource " +:+ Quote s +:+ ": " +:+ format_list msgs) r
       | None =>
           {| rq_verb := rq_verb r; rq_pathPrefix := rq_pathPrefix r; rq_resource := rq_resource r;
              rq_resourceName := rq_resourceName r; rq_subresource := subresource;
              rq_params := rq_params r; rq_timeout := rq_timeout r; rq_contentType := rq_contentType r; rq_body := rq_body r;
              rq_err := None |}
       end).

(** [VersionedParams] with what the parameter codec gave. *)
Definition rq_VersionedParams (params : result string (list (string * list string))) r : RestRequest :=
  unless_err r (λ r,
    match params with
    | Err e => with_err e r
    | Ok ps =>
        {| rq_verb := rq_verb r; rq_pathPrefix := rq_pathPrefix r; rq_resource := rq_resource r;
           rq_resourceName := rq_resourceName r; rq_subresource := rq_subresource r;
           rq_params := rq_params r ++ ps; rq_timeout := rq_timeout r; rq_contentType := rq_contentType r; rq_body := rq_body r;
           rq_err := None |}
    end).

Definition rq_Timeout (d : Z) r : RestRequest := unless_err r (λ r,
  {| rq_verb := rq_verb r; rq_pathPrefix := rq_pathPrefix r; rq_resource := rq_resource r;
     rq_resourceName := rq_resourceName r; rq_subresource := rq_subresource r;
     rq_params := rq_params r; rq_timeout := d; rq_contentType := rq_contentType r; rq_body := rq_body r; rq_err := None |}).

(** What [Body] is called with: raw bytes, or an object with its content type and
    what the encoder gave; a nil object leaves the request as it is. *)
Inductive bodyArg :=
| RawBody (data : string)
| ObjectBody (contentType : string) (encoded : option (result string string)).

Definition with_body (contentType : option string) (data : string) r : RestRequest :=
  {| rq_verb := rq_verb r; rq_pathPrefix := rq_pathPrefix r; rq_resource := rq_resource r;
     rq_resourceName := rq_resourceName r; rq_subresource := rq_subresource r;
     rq_params := rq_params r; rq_timeout := rq_timeout r; rq_contentType := contentType;
     rq_body := Some data; rq_err := None |}.

Definition rq_Body (body : bodyArg) r : RestRequest := unless_err r (λ r,
  match body with
  | RawBody data => with_body (rq_contentType r) data r
  | ObjectBody _ None => r
  | ObjectBody _ (Some (Err e)) => with_err e r
  | ObjectBody contentType (Some (Ok data)) => with_body (Some contentType) data r
  end).

(** The path of [Request.URL]. *)
Definition urlPath r : string :=
  let p := rq_pathPrefix r in
  let p := if decide (rq_resource r ≠ "") then Join [p; ToLower (rq_resource r)] else p in
  if decide (rq_resourceName r ≠ "" ∨ rq_subresource r ≠ "")
  then Join [p; rq_resourceName r; rq_subresource r; ""]
  else p.

(** ** Configuration *)

(** [DefaultVersionedAPIPath]. *)
Definition DefaultVersionedAPIPath (apiPath group version : string) : string :=
  let p := Join ["/"; apiPath] in
  if decide (group ≠ "") then Join [p; group; version] else Join [p; version].

(** [NewRequest] for a client without a configured timeout whose base URL has the
    path [basePath]. *)
Definition NewRequest (basePath versionedAPIPath verb : string) : RestRequest :=
  {| rq_verb := verb; rq_pathPrefix := Join ["/"; basePath; versionedAPIPath]; rq_resource := "";
     rq_resourceName := ""; rq_subresource := ""; rq_params := []; rq_timeout := 0;
     rq_contentType := None; rq_body := None; rq_err := None |}.

Example clean_dots : Clean "/a/./b//../c/" = "/a/c". Proof. reflexivity. Qed.
Example clean_relative : Clean "../a/../.." = "../..". Proof. reflexivity. Qed.
Example prefix_of_client :
  rq_pathPrefix (NewRequest "" (DefaultVersionedAPIPath "/apis" "admissionregistration.x-k8s.io" "v1alpha1") "GET")
  = "/apis/admissionregistration.x-k8s.io/v1alpha1".
Proof. reflexivity. Qed.

(** ** The typed clients *)

(** [time.Duration(n) * time.Second], an int64. *)
Definition wrap64 (z : Z) : Z := ((z + 2 ^ 63) mod 2 ^ 64 - 2 ^ 63)%Z.
Definition seconds (n : Z) : Z := wrap64 (n * 1000000000).

Section Client.
Context {Opts T W Resp EvObj : Type}.
Context (group resource basePath : string).
Context (contentType : string) (nameOf : T → string) (encodeObject : T → result string string).
Context (encodeOptions : Opts → result string string).
Context (encodeParameters : Opts → result string (list (string * list string))).
Context (timeoutSeconds : Opts → option Z) (setWatch : Opts → Opts).
Context (send : RestRequest → W → result error Resp * W).
Context (intoObject : Resp → result error (option T)) (intoList : Resp → result error (option (KList T))).
Context (intoWatch : Resp → result error (list EvObj)).

(** [c.client.Get()] and the like, at the client's group and version. *)
Definition newRequest (verb : string) : RestRequest :=
  NewRequest basePath (DefaultVersionedAPIPath "/apis" group "v1alpha1") verb.

(** [Patch(pt)] sets the verb and the content type. *)
Definition with_contentType (pt : string) (r : RestRequest) : RestRequest :=
  {| rq_verb := rq_verb r; rq_pathPrefix := rq_pathPrefix r; rq_resource := rq_resource r;
     rq_resourceName := rq_resourceName r; rq_subresource := rq_subresource r;
     rq_params := rq_params r; rq_timeout := rq_timeout r; rq_contentType := Some pt;
     rq_body := rq_body r; rq_err := rq_err r |}.

Definition timeoutOf (opts : Opts) : Z :=
  match timeoutSeconds opts with Some n => seconds n | None => 0 end.

Definition get_request (name : string) (opts : Opts) : RestRequest :=
  rq_VersionedParams (encodeParameters opts) (rq_Name name (rq_Resource resource (newRequest "GET"))).

Definition list_request (opts : Opts) : RestRequest :=
  rq_Timeout (timeoutOf opts)
    (rq_VersionedParams (encodeParameters opts) (rq_Resource resource (newRequest "GET"))).

Definition watch_request (opts : Opts) : RestRequest :=
  rq_Timeout (timeoutOf opts)
    (rq_VersionedParams (encodeParameters (setWatch opts)) (rq_Resource resource (newRequest "GET"))).

Definition create_request (object : option T) (opts : Opts) : RestRequest :=
  rq_Body (ObjectBody contentType (encodeObject <$> object))
    (rq_VersionedParams (encodeParameters opts) (rq_Resource resource (newRequest "POST"))).

Definition update_request (object : T) (opts : Opts) : RestRequest :=
  rq_Body (ObjectBody contentType (Some (encodeObject object)))
    (rq_VersionedParams (encodeParameters opts)
       (rq_Name (nameOf object) (rq_Resource resource (newRequest "PUT")))).

Definition updateStatus_request (object : T) (opts : Opts) : RestRequest :=
  rq_Body (ObjectBody contentType (Some (encodeObject object)))
    (rq_VersionedParams (encodeParameters opts)
       (rq_SubResource ["status"]
          (rq_Name (nameOf object) (rq_Resource resource (newRequest "PUT"))))).

Definition delete_request (name : string) (opts : Opts) : RestRequest :=
  rq_Body (ObjectBody contentType (Some (encodeOptions opts))) (rq_Name name (rq_Resource resource (newRequest "DELETE"))).

Definition deleteCollection_request (opts listOpts : Opts) : RestRequest :=
  rq_Body (ObjectBody contentType (Some (encodeOptions opts)))
    (rq_Timeout (timeoutOf listOpts)
       (rq_VersionedParams (encodeParameters listOpts) (rq_Resource resource (newRequest "DELETE")))).

Definition patch_request (name pt data : string) (opts : Opts) (subresources : list string) :
    RestRequest :=
  rq_Body (RawBody data)
    (rq_VersionedParams (encodeParameters opts)
       (rq_SubResource subresources
          (rq_Name name (rq_Resource resource (with_contentType pt (newRequest "PATCH")))))).

(** [Do(ctx).Into(result)]: an error of the builder is returned, nothing is sent. *)
Definition Do {A} (into : Resp → result error A) (r : RestRequest) (w : W) : outcome A * W :=
  match rq_err r with
  | Some e => (TransformedClient.Done (Err (ErrorString e)), w)
  | None =>
      match send r w with
      | (Err e, w') => (TransformedClient.Done (Err e), w')
      | (Ok resp, w') => (TransformedClient.Done (into resp), w')
      end
  end.

(** A method that dereferences its object. *)
Definition on_object {A} (object : option T) (k : T → W → outcome A * W) (w : W) : outcome A * W :=
  match object with
  | Some o => k o w
  | None => (Panic "invalid memory address or nil pointer dereference", w)
  end.

Definition restClient (hasStatus : bool) : ClientInterface Opts W T EvObj :=
  {| Create object opts := Do intoObject (create_request object opts);
     Update object opts := on_object object (λ o, Do intoObject (update_request o opts));
     UpdateStatus :=
       if hasStatus
       then Some (λ object opts, on_object object (λ o, Do intoObject (updateStatus_request o opts)))
       else None;
     Delete name opts := Do (λ _, Ok tt) (delete_request name opts);
     DeleteCollection opts listOpts := Do (λ _, Ok tt) (deleteCollection_request opts listOpts);
     Get name opts := Do intoObject (get_request name opts);
     List opts := Do intoList (list_request opts);
     Watch opts := Do intoWatch (watch_request opts);
     Patch name pt data opts subresources := Do intoObject (patch_request name pt data opts subresources) |}.
End Client.

(** The typed clients of the CRD group and their resources. *)
Definition newValidatingAdmissionPolicies {Opts T W Resp EvObj} basePath contentType nameOf encodeObject
    encodeOptions encodeParameters timeoutSeconds setWatch send intoObject intoList intoWatch :
    ClientInterface Opts W T EvObj :=
  restClient (Resp := Resp) "admissionregistration.x-k8s.io" "validatingadmissionpolicies" basePath
    contentType nameOf encodeObject encodeOptions encodeParameters timeoutSeconds setWatch send
    intoObject intoList intoWatch true.

Definition newValidatingAdmissionPolicyBindings {Opts T W Resp EvObj} basePath contentType nameOf
    encodeObject encodeOptions encodeParameters timeoutSeconds setWatch send intoObject intoList
    intoWatch : ClientInterface Opts W T EvObj :=
  restClient (Resp := Resp) "admissionregistration.x-k8s.io" "validatingadmissionpolicybindings"
    basePath contentType nameOf encodeObject encodeOptions encodeParameters timeoutSeconds setWatch
    send intoObject intoList intoWatch false.

(** ** Paths as segments *)

(** A segment [path.Clean] leaves alone. *)
Definition plain (s : string) : Prop := (s ∉ [""; "."; ".."]) ∧ has_byte sep s = false.

Definition segments (p : string) : list string := filter (λ s, s ≠ "") (Split p sep).
Definition rooted (segs : list string) : string := String sep (joinSegments segs).

Lemma Split_app_sep s t : Split (s +:+ String sep t) sep = Split s sep ++ Split t sep.
Proof.
  induction s as [|c s IH].
  - change ("" +:+ String sep t) with (String sep t). cbn [Split]. by rw bool_decide_eq_true_2.
  - rw app_cons /=. case_bool_decide; [by rw IH|]. rw IH.
    destruct (Split s sep) as [|part parts] eqn:Hs; [by apply Split_nonempty in Hs|done].
Qed.

Lemma Split_joinSegments e es :
  Split (joinSegments (e :: es)) sep = mjoin ((λ s, Split s sep) <$> (e :: es)).
Proof.
  unfold joinSegments. revert e. induction es as [|e' es IH]; intros e; simpl.
  - by rw app_nil_r.
  - rw IH /= Split_app_sep. by rw -app_assoc.
Qed.

Lemma segments_join e es : segments (joinSegments (e :: es)) = mjoin (segments <$> (e :: es)).
Proof.
  unfold segments. rw Split_joinSegments. generalize (e :: es). intros l.
  induction l as [|x l IH]; [done|]. cbn. by rw filter_app IH.
Qed.

Lemma cleanSegment_plain out s : plain s → cleanSegment true out s = s :: out.
Proof.
  intros [Hp _]. unfold cleanSegment. destruct (decide (s ∈ [""; "."])); [set_solver|].
  destruct (decide (s = "..")); [set_solver|done].
Qed.

Lemma clean_segments segs out :
  (∀ s, s ∈ segs → s = "" ∨ plain s) →
  foldl (cleanSegment true) out segs = reverse (filter (λ s, s ≠ "") segs) ++ out.
Proof.
  revert out. induction segs as [|s segs IH]; intros out Hs; [done|]. cbn [foldl].
  rw IH; [set_solver|]. destruct (Hs s) as [->|Hp]; [set_solver|..].
  - by rw filter_cons_False; [naive_solver|].
  - rw (cleanSegment_plain _ _ Hp) filter_cons_True; [by destruct Hp; set_solver|].
    by rw reverse_cons -app_assoc.
Qed.

Lemma Clean_rooted p :
  HasPrefix p (String sep "") = true → (∀ s, s ∈ segments p → plain s) → Clean p = rooted (segments p).
Proof.
  intros Hp Hs. unfold Clean. rw decide_False; [by intros ->|]. rw Hp clean_segments.
  { intros s Hin. destruct (decide (s = "")); [by left|right]. apply Hs.
    unfold segments. by apply list_elem_of_filter. }
  by rw app_nil_r reverse_involutive.
Qed.

Lemma joinSegments_prefix e es :
  HasPrefix e (String sep "") = true → HasPrefix (joinSegments (e :: es)) (String sep "") = true.
Proof.
  unfold joinSegments. revert e. induction es as [|e' es IH]; intros e He; [done|].
  cbn [foldl]. apply IH.
  apply HasPrefix_app in He as [t ->]. apply HasPrefix_app. exists (t +:+ String sep e').
  by rw string_app_assoc.
Qed.

Lemma Join_rooted e es :
  HasPrefix e (String sep "") = true → (∀ s, s ∈ mjoin (segments <$> (e :: es)) → plain s) →
  Join (e :: es) = rooted (mjoin (segments <$> (e :: es))).
Proof.
  intros He Hs. cbn [Join]. rw decide_False; [by intros ->|]. rw -segments_join in Hs *.
  apply Clean_rooted; [by apply joinSegments_prefix|done].
Qed.

Lemma segments_plain s : plain s → segments s = [s].
Proof.
  intros [Hn Hs]. unfold segments. rw (Split_no_sep _ _ Hs) filter_cons_True //. set_solver.
Qed.

Lemma segments_rooted segs : (∀ s, s ∈ segs → plain s) → segments (rooted segs) = segs.
Proof.
  intros Hs. assert (mjoin (segments <$> segs) = segs) as Hj.
  { induction segs as [|s segs IH]; [done|]. cbn. rw segments_plain; [set_solver|].
    simpl. f_equal. apply IH. set_solver. }
  destruct segs as [|s segs]; [done|]. rw -{2}Hj -segments_join. unfold rooted, segments.
  assert (Split (String sep (joinSegments (s :: segs))) sep = "" :: Split (joinSegments (s :: segs)) sep) as ->.
  { change (String sep ?x) with ("" +:+ String sep x). by rw Split_app_sep. }
  rw filter_cons_False; [naive_solver|done].
Qed.

(** ** The paths of the clients' requests *)

Lemma valid_segment s : s ≠ "" → IsValidPathSegmentName s = [] → plain s.
Proof.
  intros Hne. unfold IsValidPathSegmentName.
  destruct (filter _ NameMayNotBe) as [|] eqn:Hbe; [|done]. intros Hc%fmap_nil_inv. split.
  - intros Hin. assert (s ∈ filter (λ illegal, s = illegal) NameMayNotBe) as Hf.
    { apply list_elem_of_filter. split; [done|]. unfold NameMayNotBe. set_solver. }
    rw Hbe in Hf. by apply elem_of_nil in Hf.
  - unfold has_byte. destruct (Contains s (String sep "")) eqn:Hs; [exfalso|done].
    assert ("/" ∈ filter (λ illegal, Contains s illegal = true) NameMayNotContain) as Hf.
    { apply list_elem_of_filter. split; [done|]. unfold NameMayNotContain. set_solver. }
    rw Hc in Hf. by apply elem_of_nil in Hf.
Qed.

Lemma urlPath_VersionedParams ps r : urlPath (rq_VersionedParams ps r) = urlPath r.
Proof. unfold rq_VersionedParams, unless_err. by destruct (rq_err r), ps. Qed.
Lemma urlPath_Timeout d r : urlPath (rq_Timeout d r) = urlPath r.
Proof. unfold rq_Timeout, unless_err. by destruct (rq_err r). Qed.
Lemma urlPath_Body body r : urlPath (rq_Body body r) = urlPath r.
Proof. unfold rq_Body, unless_err. destruct (rq_err r); [done|]. by destruct body as [|? [[]|]]. Qed.

Ltac solve_plain := first [done | by split; [set_solver|reflexivity]].

Section Paths.
Context (group resource basePath : string).
Context (Hgroup : plain group) (Hresource : plain resource).
Context (Hvalid : IsValidPathSegmentName resource = []) (Hlower : ToLower resource = resource).
Context (Hbase : ∀ s, s ∈ segments basePath → plain s).
Implicit Types (name : string).

(** The segments of the group's API under the base path. *)
Definition apiSegments : list string := segments basePath ++ ["apis"; group; "v1alpha1"].

Lemma apiSegments_plain s : s ∈ apiSegments → plain s.
Proof.
  unfold apiSegments. intros [?|Hs]%elem_of_app; [by apply Hbase|].
  repeat (apply elem_of_cons in Hs as [->|Hs]); [..|by apply elem_of_nil in Hs]; solve_plain.
Qed.

Lemma Join_plain segs es :
  (∀ s, s ∈ segs → plain s) → (∀ e, e ∈ es → plain e) → Join (rooted segs :: es) = rooted (segs ++ es).
Proof.
  intros Hs He.
  assert (mjoin (segments <$> rooted segs :: es) = segs ++ es) as Hj.
  { cbn [fmap list_fmap mjoin list_join]. rw segments_rooted //. f_equal. induction es as [|e es IH]; [done|].
    cbn [fmap list_fmap mjoin list_join].
    rw segments_plain; [set_solver|]. simpl. f_equal. apply IH. set_solver. }
  rw Join_rooted; [done|rw Hj; set_solver|]. by rw Hj.
Qed.

(** An empty element at the end is dropped. *)
Lemma Join_trailing segs es :
  (∀ s, s ∈ segs → plain s) → (∀ e, e ∈ es → e = "" ∨ plain e) →
  Join (rooted segs :: es) = rooted (segs ++ filter (λ e, e ≠ "") es).
Proof.
  intros Hs He.
  assert (mjoin (segments <$> rooted segs :: es) = segs ++ filter (λ e, e ≠ "") es) as Hj.
  { cbn [fmap list_fmap mjoin list_join]. rw segments_rooted //. f_equal. induction es as [|e es IH]; [done|].
    cbn [fmap list_fmap mjoin list_join].
    destruct (He e) as [->|Hp]; [set_solver|..].
    - rw filter_cons_False; [naive_solver|]. apply IH. set_solver.
    - rw segments_plain // filter_cons_True; [by destruct Hp; set_solver|]. simpl. f_equal.
      apply IH. set_solver. }
  rw Join_rooted; [done| |by rw Hj]. rw Hj. intros s [?|Hin]%elem_of_app; [by apply Hs|].
  apply list_elem_of_filter in Hin as [? Hin]. by destruct (He s Hin).
Qed.

Lemma prefix_rooted verb : rq_pathPrefix (newRequest group basePath verb) = rooted apiSegments.
Proof.
  cbn [newRequest NewRequest rq_pathPrefix]. unfold DefaultVersionedAPIPath.
  destruct (decide (group ≠ "")) as [_|Hg]; [|destruct Hgroup; set_solver].
  change (Join ["/"; "/apis"]) with (rooted ["apis"]).
  assert (∀ s, s ∈ ["apis"] → plain s) as Ha by (intros s ->%list_elem_of_singleton; solve_plain).
  assert (∀ s, s ∈ [group; "v1alpha1"] → plain s) as Hv.
  { intros s [->| ->%list_elem_of_singleton]%elem_of_cons; solve_plain. }
  rw (Join_plain _ _ Ha Hv). cbn [app].
  assert (∀ s, s ∈ ["apis"; group; "v1alpha1"] → plain s) as Hp by set_solver.
  assert (mjoin (segments <$> ["/"; basePath; rooted ["apis"; group; "v1alpha1"]]) = apiSegments) as Hj.
  { cbn [fmap list_fmap mjoin list_join]. rw (segments_rooted _ Hp) app_nil_r. done. }
  rw Join_rooted; [done|rw Hj; apply apiSegments_plain|]. by rw Hj.
Qed.

(** A request as [NewRequest] makes it. *)
Definition fresh_request r : Prop :=
  rq_pathPrefix r = rooted apiSegments ∧ rq_resource r = "" ∧ rq_resourceName r = "" ∧
  rq_subresource r = "" ∧ rq_err r = None.

Lemma newRequest_fresh verb : fresh_request (newRequest group basePath verb).
Proof. split; [apply prefix_rooted|done]. Qed.

Lemma urlPath_segments r name sub :
  rq_pathPrefix r = rooted apiSegments → rq_resource r = resource →
  rq_resourceName r = name → rq_subresource r = sub →
  (name = "" ∨ plain name) → (sub = "" ∨ plain sub) →
  urlPath r = rooted (apiSegments ++ resource :: filter (λ e, e ≠ "") [name; sub]).
Proof.
  intros Hp Hr Hn Hs Hname Hsub. unfold urlPath. rw Hp Hr Hn Hs Hlower.
  destruct (decide (resource ≠ "")) as [_|Hne]; [|destruct Hresource; set_solver].
  assert (∀ s, s ∈ [resource] → plain s) as H1 by by intros s ->%list_elem_of_singleton.
  assert (∀ s, s ∈ apiSegments ++ [resource] → plain s) as H2.
  { intros s [?|?]%elem_of_app; [by apply apiSegments_plain|by apply H1]. }
  rw (Join_plain _ _ apiSegments_plain H1).
  assert (filter (λ e, e ≠ "") [name; sub; ""] = filter (λ e, e ≠ "") [name; sub]) as Hf.
  { change [name; sub; ""] with ([name; sub] ++ [""]). rw filter_app. by rw app_nil_r. }
  destruct (decide (name ≠ "" ∨ sub ≠ "")) as [_|Hno].
  - rw Join_trailing; [done| |by rw Hf -app_assoc].
    intros e [->|[->| ->%list_elem_of_singleton]%elem_of_cons]%elem_of_cons; auto.
  - assert (name = "" ∧ sub = "") as [-> ->].
    { split; apply dec_stable; intros ?; apply Hno; auto. }
    done.
Qed.

Lemma resource_built r :
  fresh_request r →
  let r' := rq_Resource resource r in
  rq_pathPrefix r' = rooted apiSegments ∧ rq_resource r' = resource ∧ rq_resourceName r' = "" ∧
  rq_subresource r' = "" ∧ rq_err r' = None.
Proof.
  intros (Hp & Hr & Hn & Hs & He). unfold rq_Resource, unless_err. rw He Hr Hvalid.
  by destruct (decide ("" ≠ "")) as [Hne|_]; [by destruct Hne|].
Qed.

Lemma name_built r name :
  fresh_request r → name ≠ "" → IsValidPathSegmentName name = [] →
  let r' := rq_Name name (rq_Resource resource r) in
  rq_pathPrefix r' = rooted apiSegments ∧ rq_resource r' = resource ∧ rq_resourceName r' = name ∧
  rq_subresource r' = "" ∧ rq_err r' = None.
Proof.
  intros Hf Hne Hok. destruct (resource_built r Hf) as (Hp & Hr & Hn & Hs & He).
  unfold rq_Name, unless_err. rw He Hn Hok. destruct (decide (name = "")) as [|_]; [done|].
  by destruct (decide ("" ≠ "")) as [H|_]; [by destruct H|].
Qed.

Lemma urlPath_collection r :
  fresh_request r → urlPath (rq_Resource resource r) = rooted (apiSegments ++ [resource]).
Proof.
  intros (Hp & Hr & Hn & Hs & He)%resource_built.
  by rw (urlPath_segments _ "" "" Hp Hr Hn Hs); [left|left|].
Qed.

Lemma urlPath_named r name :
  fresh_request r → name ≠ "" → IsValidPathSegmentName name = [] →
  urlPath (rq_Name name (rq_Resource resource r)) = rooted (apiSegments ++ [resource; name]).
Proof.
  intros Hf Hne Hok. destruct (name_built r name Hf Hne Hok) as (Hp & Hr & Hn & Hs & He).
  rw (urlPath_segments _ name "" Hp Hr Hn Hs); [right; by apply valid_segment|by left|].
  by rw filter_cons_True.
Qed.

Lemma urlPath_status r name :
  fresh_request r → name ≠ "" → IsValidPathSegmentName name = [] →
  urlPath (rq_SubResource ["status"] (rq_Name name (rq_Resource resource r))) =
  rooted (apiSegments ++ [resource; name; "status"]).
Proof.
  intros Hf Hne Hok. destruct (name_built r name Hf Hne Hok) as (Hp & Hr & Hn & Hs & He).
  unfold rq_SubResource, unless_err. rw He Hs.
  destruct (decide ("" ≠ "")) as [H|_]; [by destruct H|]. cbn [firstInvalid].
  rw (urlPath_segments _ name "status"); try done;
    [right; by apply valid_segment|right; solve_plain|]. by rw filter_cons_True.
Qed.

Lemma urlPath_no_subresource r : rq_subresource r = "" → urlPath (rq_SubResource [] r) = urlPath r.
Proof.
  intros Hs. unfold rq_SubResource, unless_err. destruct (rq_err r); [done|]. rw Hs.
  destruct (decide ("" ≠ "")) as [H|_]; [by destruct H|]. unfold urlPath. simpl. by rw Hs.
Qed.
End Paths.

(** ** Through the interceptor proxy *)

Lemma Contains_split s p : Contains s p = true → ∃ u v, s = u +:+ (p +:+ v).
Proof.
  induction s as [|c s IH]; cbn [Contains]; intros Hc.
  - rw orb_false_r in Hc. apply HasPrefix_app in Hc as [v Hv]. by exists "", v.
  - apply orb_true_iff in Hc as [Hc|Hc].
    + apply HasPrefix_app in Hc as [v Hv]. by exists "", v.
    + destruct (IH Hc) as (u & v & ->). by exists (String c u), v.
Qed.

Lemma ReplaceAll_id s old new : Contains s old = false → ReplaceAll s old new = s.
Proof.
  induction s as [|c s IH]; [done|]. cbn [Contains]. intros [Hp Hc]%orb_false_iff.
  rw ReplaceAll_no_occurrence //. by rw IH.
Qed.

Lemma Split_last u a : has_byte sep a = false → ∃ l x, Split (u +:+ a) sep = l ++ [x +:+ a].
Proof.
  intros Ha. induction u as [|c u (l & x & IH)].
  - exists [], "". by rw (Split_no_sep _ _ Ha).
  - rw app_cons. cbn [Split]. case_bool_decide; [exists ("" :: l), x; by rw IH|].
    rw IH. destruct l as [|part l]; [by exists [], (String c x)|by exists (String c part :: l), x].
Qed.

Lemma Split_head a v : has_byte sep a = false → ∃ y l, Split (a +:+ v) sep = (a +:+ y) :: l.
Proof.
  unfold has_byte. induction a as [|c a IH]; cbn [Contains].
  - intros _. change ("" +:+ v) with v. destruct (Split v sep) as [|y l] eqn:Hs; [by apply Split_nonempty in Hs|].
    by exists y, l.
  - intros [Hc Ha]%orb_false_iff. destruct (IH Ha) as (y & l & Hs). rw app_cons. cbn [Split]. rw Hs.
    cbn in Hc. rw andb_true_r in Hc. rw Hc. by exists y, l.
Qed.

(** Where [a/b] occurs, it covers the end of one segment and the start of the
    next. *)
Lemma occurrence_spans segs a b :
  (∀ s, s ∈ segs → has_byte sep s = false) → has_byte sep a = false → has_byte sep b = false →
  segs ≠ [] → Contains (rooted segs) (a +:+ String sep b) = true →
  ∃ l1 x y l2, "" :: segs = l1 ++ (x +:+ a) :: (b +:+ y) :: l2.
Proof.
  intros Hsegs Ha Hb Hne (u & v & Hr)%Contains_split.
  assert (Split (rooted segs) sep = "" :: segs) as Hs.
  { unfold rooted. change (String sep ?x) with ("" +:+ String sep x). rw Split_app_sep. simpl.
    destruct segs as [|e es]; [done|]. f_equal. rw Split_joinSegments.
    clear Hne Hr. induction (e :: es) as [|s l IH]; [done|]. cbn [fmap list_fmap mjoin list_join].
    rw Split_no_sep; [by apply Hsegs; set_solver|]. simpl. f_equal. apply IH. set_solver. }
  rw Hr in Hs. rw string_app_assoc app_cons -string_app_assoc Split_app_sep in Hs.
  destruct (Split_last u a Ha) as (l1 & x & H1), (Split_head b v Hb) as (y & l2 & H2).
  exists l1, x, y, l2. rw -Hs H1 H2. by rw -app_assoc.
Qed.

Lemma foldl_sep acc segs :
  foldl (λ acc s, acc +:+ String sep s) acc segs = acc +:+ foldl (λ acc s, acc +:+ String sep s) "" segs.
Proof.
  revert acc. induction segs as [|s segs IH]; intros acc; simpl; [by rw string_app_nil_r|].
  rw IH (IH (String sep s)). by rw string_app_assoc.
Qed.

Lemma rooted_app e es s segs :
  rooted ((e :: es) ++ s :: segs) = rooted (e :: es) +:+ rooted (s :: segs).
Proof.
  unfold rooted, joinSegments. simpl. rw foldl_app (foldl_sep _ (s :: segs)) app_cons. f_equal. f_equal.
  simpl. by rw foldl_sep (foldl_sep s).
Qed.

Definition nativeGroupName : string := "admissionregistration.k8s.io".
Definition crdGroupName : string := "admissionregistration.x-k8s.io".
Definition policyResources : list string :=
  ["validatingadmissionpolicies"; "validatingadmissionpolicybindings"].

(** The rest of a path under the group does not mention the group. *)
Lemma tail_without_group resource rest :
  resource ∈ policyResources →
  (rest = [] ∨ ∃ name, plain name ∧ (rest = [name] ∨ rest = [name; "status"])) →
  Contains (rooted (resource :: rest)) nativeGroup = false.
Proof.
  intros Hres Hrest. destruct (Contains _ _) eqn:Hc; [exfalso|done].
  assert (∀ s, s ∈ resource :: rest → has_byte sep s = false) as Hsep.
  { assert (has_byte sep resource = false).
    { by repeat (apply elem_of_cons in Hres as [->|Hres]); [..|apply elem_of_nil in Hres]. }
    intros s [->|Hs]%elem_of_cons; [done|]. destruct Hrest as [->|(name & [_ Hn] & [-> | ->])].
    - by apply elem_of_nil in Hs.
    - by apply list_elem_of_singleton in Hs as ->.
    - by apply elem_of_cons in Hs as [->|Hs%list_elem_of_singleton]; [|subst]. }
  destruct (occurrence_spans (resource :: rest) nativeGroupName "v1alpha1") as (l1 & x & y & l2 & Hl);
    [done|done|done|done|exact Hc|].
  assert (∀ z, z = x +:+ nativeGroupName → Contains z nativeGroupName = true) as Hx.
  { intros z ->. rw -(string_app_nil_r nativeGroupName). apply Contains_app. }
  assert (∀ z, z ∈ "" :: policyResources → z ≠ x +:+ nativeGroupName) as Hno.
  { intros z Hz Hzx. apply Hx in Hzx.
    by repeat (apply elem_of_cons in Hz as [->|Hz]); [..|apply elem_of_nil in Hz]. }
  destruct l1 as [|z1 l1]; [injection Hl as Hz _; by eapply Hno; [left|]|].
  destruct l1 as [|z2 l1]; [injection Hl as _ Hz _; by eapply Hno; [right|]|].
  destruct Hrest as [->|(name & _ & [-> | ->])].
  - destruct l1; discriminate Hl.
  - destruct l1 as [|? [|]]; discriminate Hl.
  - destruct l1 as [|? [|? [|]]]; discriminate Hl.
Qed.

Lemma ReplaceAll_apis t :
  ReplaceAll ("/apis/" +:+ t) nativeGroup crdGroup = "/apis/" +:+ ReplaceAll t nativeGroup crdGroup.
Proof. rw !app_cons. by repeat (rw ReplaceAll_no_occurrence; [reflexivity|]). Qed.

(** The path the proxy sends a request to. *)
Definition proxied (p : string) : string :=
  url_Path (out_URL (Rewrite p {| out_URL := {| url_Path := p; url_RawPath := "" |};
                                  out_Accept := None; out_Body := ""; out_ContentLength := 0 |})).

Lemma proxied_rooted resource rest :
  resource ∈ policyResources →
  (rest = [] ∨ ∃ name, plain name ∧ (rest = [name] ∨ rest = [name; "status"])) →
  proxied (rooted (["apis"; nativeGroupName; "v1alpha1"] ++ resource :: rest)) =
  rooted (["apis"; crdGroupName; "v1alpha1"] ++ resource :: rest).
Proof.
  intros Hres Hrest. rw !rooted_app. pose proof (tail_without_group resource rest Hres Hrest) as Ht.
  revert Ht. generalize (rooted (resource :: rest)). intros tail Ht.
  change (rooted ["apis"; nativeGroupName; "v1alpha1"]) with ("/apis/" +:+ nativeGroup).
  change (rooted ["apis"; crdGroupName; "v1alpha1"]) with ("/apis/" +:+ crdGroup).
  rw !string_app_assoc. unfold proxied, Rewrite. rw Contains_app. cbn [negb url_Path out_URL].
  rw ReplaceAll_apis ReplaceAll_occurrence //. by rw (ReplaceAll_id tail).
Qed.

Section ClientFacts.
Context {Opts T W Resp EvObj : Type}.
Context (contentType : string) (nameOf : T → string) (encodeObject : T → result string string).
Context (encodeOptions : Opts → result string string).
Context (encodeParameters : Opts → result string (list (string * list string))).
Context (timeoutSeconds : Opts → option Z) (setWatch : Opts → Opts).

(** The requests of a client on one object, one per method; [Patch] without
    subresources. *)
Definition requests (group resource : string) (object : T) (pt data : string) (opts listOpts : Opts) :
    list RestRequest :=
  [get_request group resource "" encodeParameters (nameOf object) opts;
   list_request group resource "" encodeParameters timeoutSeconds opts;
   watch_request group resource "" encodeParameters timeoutSeconds setWatch opts;
   create_request group resource "" contentType encodeObject encodeParameters (Some object) opts;
   update_request group resource "" contentType nameOf encodeObject encodeParameters object opts;
   updateStatus_request group resource "" contentType nameOf encodeObject encodeParameters object opts;
   delete_request group resource "" contentType encodeOptions (nameOf object) opts;
   deleteCollection_request group resource "" contentType encodeOptions encodeParameters
     timeoutSeconds opts listOpts;
   patch_request group resource "" encodeParameters (nameOf object) pt data opts []].

(** The path of each of them, below [/apis/group/v1alpha1/resource]. *)
Lemma requests_paths group resource object pt data opts listOpts :
  plain group → resource ∈ policyResources →
  nameOf object ≠ "" → IsValidPathSegmentName (nameOf object) = [] →
  urlPath <$> requests group resource object pt data opts listOpts =
  (λ rest, rooted (["apis"; group; "v1alpha1"] ++ resource :: rest)) <$>
    [[nameOf object]; []; []; []; [nameOf object]; [nameOf object; "status"]; [nameOf object]; [];
     [nameOf object]].
Proof.
  intros Hg Hres Hne Hok.
  assert (plain resource ∧ IsValidPathSegmentName resource = [] ∧ ToLower resource = resource)
    as (Hp & Hv & Hl).
  { clear -Hres. repeat (apply elem_of_cons in Hres as [->|Hres]); [..|by apply elem_of_nil in Hres];
      (split; [solve_plain|done]). }
  assert (∀ s, s ∈ segments "" → plain s) as Hb by by intros s Hs%elem_of_nil.
  assert (∀ verb, fresh_request group "" (newRequest group "" verb)) as Hf
    by (intros; by apply (newRequest_fresh group resource "")).
  assert (fresh_request group "" (with_contentType pt (newRequest group "" "PATCH"))) as Hfp
    by (split; [by apply (Hf "PATCH")|done]).
  pose proof (λ r H, urlPath_collection group resource "" Hg Hp Hv Hl Hb r H) as Hc.
  pose proof (λ r H, urlPath_named group resource "" Hg Hp Hv Hl Hb r _ H Hne Hok) as Hn.
  pose proof (λ r H, urlPath_status group resource "" Hg Hp Hv Hl Hb r _ H Hne Hok) as Hs.
  unfold requests, get_request, list_request, watch_request, create_request, update_request,
    updateStatus_request, delete_request, deleteCollection_request, patch_request.
  cbn [fmap list_fmap].
  rw !(urlPath_VersionedParams, urlPath_Timeout, urlPath_Body) urlPath_no_subresource.
  { by apply (name_built group resource "" Hv _ _ Hfp Hne Hok). }
  by rw !Hs // !Hn // !Hc.
Qed.

(** C39: a client of the native policy group works through the proxy: for every
    method, the proxy sends its request to the path the CRD client would have
    used for the same call. *)
Theorem proxy_serves_native_clients resource object pt data opts listOpts :
  resource ∈ policyResources →
  nameOf object ≠ "" → IsValidPathSegmentName (nameOf object) = [] →
  proxied <$> (urlPath <$> requests nativeGroupName resource object pt data opts listOpts) =
  urlPath <$> requests crdGroupName resource object pt data opts listOpts.
Proof.
  intros Hres Hne Hok.
  rw (requests_paths nativeGroupName) //; [solve_plain|].
  rw (requests_paths crdGroupName) //; [solve_plain|].
  pose proof (valid_segment _ Hne Hok) as Hp. generalize (nameOf object), Hp. clear -Hres.
  intros name Hp. rw -list_fmap_compose. apply Forall_fmap_ext.
  assert (∀ rest, rest ∈ [[]; [name]; [name; "status"]] →
    proxied (rooted (["apis"; nativeGroupName; "v1alpha1"] ++ resource :: rest)) =
    rooted (["apis"; crdGroupName; "v1alpha1"] ++ resource :: rest)) as Hrest.
  { intros rest Hin. apply proxied_rooted; [done|]. set_solver. }
  repeat (constructor; [apply Hrest; set_solver|]). constructor.
Qed.

Context (group resource basePath : string) (hasStatus : bool).
Context (send : RestRequest → W → result error Resp * W).
Context (intoObject : Resp → result error (option T)) (intoList : Resp → result error (option (KList T))).
Context (intoWatch : Resp → result error (list EvObj)).
Abbreviation client :=
  (restClient group resource basePath contentType nameOf encodeObject encodeOptions encodeParameters
     timeoutSeconds setWatch send intoObject intoList intoWatch hasStatus).

Lemma Do_err {A} (into : Resp → result error A) r w :
  rq_err r ≠ None → ∃ e, Do send into r w = (Done (Err e), w).
Proof. unfold Do. destruct (rq_err r) as [e|]; [|done]. intros _. by exists (ErrorString e). Qed.

Lemma err_stays r :
  rq_err r ≠ None →
  (∀ ps, rq_err (rq_VersionedParams ps r) ≠ None) ∧ (∀ b, rq_err (rq_Body b r) ≠ None) ∧
  (∀ subs, rq_err (rq_SubResource subs r) ≠ None).
Proof.
  intros He. unfold rq_VersionedParams, rq_Body, rq_SubResource, unless_err.
  destruct (rq_err r) eqn:Hr; [|done]. by split_and!; intros; rw Hr.
Qed.

Lemma bad_name name r :
  name = "" ∨ IsValidPathSegmentName name ≠ [] → rq_err (rq_Name name r) ≠ None.
Proof.
  intros Hbad. unfold rq_Name, unless_err. destruct (rq_err r) eqn:Hr; [by rw Hr|].
  destruct (decide (name = "")); [done|]. destruct (decide (rq_resourceName r ≠ "")); [done|].
  destruct (IsValidPathSegmentName name); [naive_solver|done].
Qed.

(** A name that is empty, a dot segment, or contains a slash or a percent sign
    never reaches the API server: the call fails and no request is sent, so a name
    cannot redirect a request to another path. *)
Theorem bad_name_is_not_sent name object pt data opts subresources w :
  name = "" ∨ IsValidPathSegmentName name ≠ [] → nameOf object = name →
  (∃ e, Get client name opts w = (Done (Err e), w)) ∧
  (∃ e, Delete client name opts w = (Done (Err e), w)) ∧
  (∃ e, Update client (Some object) opts w = (Done (Err e), w)) ∧
  (∃ e, Patch client name pt data opts subresources w = (Done (Err e), w)) ∧
  (∀ op, UpdateStatus client = Some op → ∃ e, op (Some object) opts w = (Done (Err e), w)).
Proof.
  intros Hbad Hname.
  assert (∀ r, rq_err (rq_Name name r) ≠ None) as Hb by (intros; by apply bad_name).
  cbn [restClient Get Delete Update Patch UpdateStatus on_object].
  split_and!; [..|intros op; destruct hasStatus; [intros [= <-]; cbn [on_object]|done]]; apply Do_err;
    unfold get_request, delete_request, update_request, patch_request, updateStatus_request;
    rw ?Hname; repeat first [apply Hb | apply err_stays].
Qed.
End ClientFacts.

(** ** Witnesses *)
Module RestWitness.
(** Objects are their names; a server that counts the requests it gets. *)
Definition counting (r : RestRequest) (n : nat) : result error string * nat := (Ok (urlPath r), S n).

Lemma proxy_serves_native_clients_witness :
  proxied <$> (urlPath <$> requests "application/json" (λ o : string, o) Ok Ok (λ _ : string, Ok [])
                 (λ _, Some 5%Z) (λ o, o) nativeGroupName "validatingadmissionpolicies" "no-root" "" "" "" "") =
  urlPath <$> requests "application/json" (λ o : string, o) Ok Ok (λ _ : string, Ok [])
                 (λ _, Some 5%Z) (λ o, o) crdGroupName "validatingadmissionpolicies" "no-root" "" "" "" "".
Proof.
  apply (proxy_serves_native_clients "application/json" (λ o : string, o)); [left|done|reflexivity].
Defined.

Lemma bad_name_is_not_sent_witness :
  ∃ e, Get (restClient (EvObj := unit) crdGroupName "validatingadmissionpolicies" "" "application/json"
              (λ o : string, o) Ok Ok (λ _ : string, Ok []) (λ _, Some 5%Z) (λ o, o) counting
              (λ _, Ok None) (λ _, Ok None) (λ _, Ok []) true) "../secrets" "" 7 = (Done (Err e), 7).
Proof.
  apply (bad_name_is_not_sent (EvObj := unit) "application/json" (λ o : string, o) Ok Ok (λ _ : string, Ok [])
           (λ _, Some 5%Z) (λ o, o) crdGroupName "validatingadmissionpolicies" "" true counting
           (λ _, Ok None) (λ _, Ok None) (λ _, Ok []) "../secrets" "../secrets" "" "" "" [] 7);
    [right; done|reflexivity].
Defined.
End RestWitness.
