(* ===== verification/Clientset.v ===== *)
(** * The generated clientset's constructors

    [pkg/generated/clientset/versioned/clientset.go] and
    [.../typed/.../admissionregistration.x-k8s.io_client.go]: from a [rest.Config] to
    the REST clients of the policy group and of discovery, with client-go's
    [rest/config.go], [rest/url_utils.go], [rest/client.go] and
    [discovery/discovery_client.go].  A token bucket is a new object, so the limiters
    made so far are counted ([n]).  [url.Parse], the transport of a configuration and
    the codecs are arguments; QPS is a finite [float32], a rational. *)
From S2P Require Import Prelude GoStrings ApiMachinery Scheme TransformedClient RestClient.
From Stdlib Require Import QArith_base.
#[local] Close Scope Q_scope.

Record URL := {
  u_Scheme : string;
  u_Host : string;
  u_Path : string;
  u_RawQuery : string;
  u_Fragment : string;
}.

Section Clientset.
Context {Serializer Limiter Transport Warnings Rest : Type} `{!EqDecision Transport}.

(** A rate limiter of the caller, or the [id]th token bucket made. *)
Inductive RateLimiter :=
| Given (l : Limiter)
| TokenBucket (id : nat) (qps : Q) (burst : Z).

(** [rest.Config]; [cf_Rest] is what only the transport looks at (credentials,
    dialer, proxy and the like). *)
Record Config := {
  cf_Host : string;
  cf_APIPath : string;
  cf_AcceptContentTypes : string;
  cf_ContentType : string;
  cf_GroupVersion : option GroupVersion;
  cf_NegotiatedSerializer : option Serializer;
  cf_Insecure : bool;
  cf_CAFile : string;
  cf_CAData : string;
  cf_CertFile : string;
  cf_CertData : string;
  cf_UserAgent : string;
  cf_QPS : Q;
  cf_Burst : Z;
  cf_RateLimiter : option RateLimiter;
  cf_WarningHandler : option Warnings;
  cf_Timeout : Z;
  cf_Rest : Rest;
}.
Implicit Types c config : Config.

(** The fields the constructors set in their copy of a configuration. *)
Definition with_api apiPath gv ser c : Config :=
  {| cf_Host := cf_Host c; cf_APIPath := apiPath; cf_AcceptContentTypes := cf_AcceptContentTypes c;
     cf_ContentType := cf_ContentType c; cf_GroupVersion := gv; cf_NegotiatedSerializer := ser;
     cf_Insecure := cf_Insecure c; cf_CAFile := cf_CAFile c; cf_CAData := cf_CAData c;
     cf_CertFile := cf_CertFile c; cf_CertData := cf_CertData c; cf_UserAgent := cf_UserAgent c;
     cf_QPS := cf_QPS c; cf_Burst := cf_Burst c; cf_RateLimiter := cf_RateLimiter c;
     cf_WarningHandler := cf_WarningHandler c; cf_Timeout := cf_Timeout c; cf_Rest := cf_Rest c |}.
Definition with_limits burst limiter timeout c : Config :=
  {| cf_Host := cf_Host c; cf_APIPath := cf_APIPath c; cf_AcceptContentTypes := cf_AcceptContentTypes c;
     cf_ContentType := cf_ContentType c; cf_GroupVersion := cf_GroupVersion c;
     cf_NegotiatedSerializer := cf_NegotiatedSerializer c;
     cf_Insecure := cf_Insecure c; cf_CAFile := cf_CAFile c; cf_CAData := cf_CAData c;
     cf_CertFile := cf_CertFile c; cf_CertData := cf_CertData c; cf_UserAgent := cf_UserAgent c;
     cf_QPS := cf_QPS c; cf_Burst := burst; cf_RateLimiter := limiter;
     cf_WarningHandler := cf_WarningHandler c; cf_Timeout := timeout; cf_Rest := cf_Rest c |}.
Definition with_UserAgent agent c : Config :=
  {| cf_Host := cf_Host c; cf_APIPath := cf_APIPath c; cf_AcceptContentTypes := cf_AcceptContentTypes c;
     cf_ContentType := cf_ContentType c; cf_GroupVersion := cf_GroupVersion c;
     cf_NegotiatedSerializer := cf_NegotiatedSerializer c;
     cf_Insecure := cf_Insecure c; cf_CAFile := cf_CAFile c; cf_CAData := cf_CAData c;
     cf_CertFile := cf_CertFile c; cf_CertData := cf_CertData c; cf_UserAgent := agent;
     cf_QPS := cf_QPS c; cf_Burst := cf_Burst c; cf_RateLimiter := cf_RateLimiter c;
     cf_WarningHandler := cf_WarningHandler c; cf_Timeout := cf_Timeout c; cf_Rest := cf_Rest c |}.

(** [http.Client]. *)
Record HttpClient := { hc_Transport : Transport; hc_Timeout : Z }.

(** [rest.ClientContentConfig] and [rest.RESTClient]; the negotiator is built from
    the serializer and the version, the back-off is read from the environment. *)
Record ClientContentConfig := {
  cc_AcceptContentTypes : string;
  cc_ContentType : string;
  cc_GroupVersion : GroupVersion;
  cc_Serializer : Serializer;
}.

Record RESTClient := {
  rc_base : URL;
  rc_versionedAPIPath : string;
  rc_content : ClientContentConfig;
  rc_rateLimiter : option RateLimiter;
  rc_warningHandler : option Warnings;
  rc_Client : HttpClient;
}.

Context (url_Parse : string → result error URL).
Context (TransportFor : Config → result error Transport) (DefaultTransport : Transport).
Context (DefaultKubernetesUserAgent : string) (codecs discoveryCodec : Serializer).
Implicit Types (h : HttpClient) (n : nat).

(** ** client-go *)

Definition HTTPClientFor c : result error HttpClient :=
  transport ← TransportFor c;
  Ok (if decide (transport ≠ DefaultTransport ∨ (0 < cf_Timeout c)%Z)
      then {| hc_Transport := transport; hc_Timeout := cf_Timeout c |}
      else {| hc_Transport := DefaultTransport; hc_Timeout := 0 |}).

Definition hostError : string := "host must be a URL or a host:port pair".

Definition DefaultServerURL (host apiPath : string) (gv : GroupVersion) (defaultTLS : bool) :
    result error (URL * string) :=
  if decide (host = "") then Err (ErrorString hostError)
  else
    let retry :=
      hostURL ← url_Parse ((if defaultTLS then "https://" else "http://") +:+ host);
      if decide (u_Path hostURL ≠ "" ∧ u_Path hostURL ≠ "/")
      then Err (ErrorString (hostError +:+ ": " +:+ Quote host)) else Ok hostURL in
    hostURL ← match url_Parse host with
              | Err _ => retry
              | Ok hostURL => if decide (u_Scheme hostURL = "" ∨ u_Host hostURL = "")
                              then retry else Ok hostURL
              end;
    Ok (hostURL, DefaultVersionedAPIPath apiPath (gv_Group gv) (gv_Version gv)).

Definition defaultTLS c : bool :=
  bool_decide (cf_CAFile c ≠ "" ∨ cf_CAData c ≠ "") ||
  bool_decide (cf_CertFile c ≠ "" ∨ cf_CertData c ≠ "") || cf_Insecure c.

Definition defaultServerUrlFor c : result error (URL * string) :=
  let host := if decide (cf_Host c = "") then "localhost" else cf_Host c in
  DefaultServerURL host (cf_APIPath c) (default {| gv_Group := ""; gv_Version := "" |} (cf_GroupVersion c))
    (defaultTLS c).

Definition DefaultQPS : Q := 5 # 1.
Definition DefaultBurst : Z := 10.

Definition positive (q : Q) : bool := (0 <? Qnum q)%Z.
Definition is_zero (q : Q) : bool := (Qnum q =? 0)%Z.

(** The limiter of a REST client. *)
Definition rateLimiterFor c n : option RateLimiter * nat :=
  match cf_RateLimiter c with
  | Some l => (Some l, n)
  | None =>
      let qps := if is_zero (cf_QPS c) then DefaultQPS else cf_QPS c in
      let burst := if decide (cf_Burst c = 0%Z) then DefaultBurst else cf_Burst c in
      if positive qps then (Some (TokenBucket n qps burst), S n) else (None, n)
  end.

Definition withSlash (path : string) : string :=
  if HasSuffix path "/" then path else path +:+ "/".

Definition NewRESTClient (baseURL : URL) (versionedAPIPath : string) (config : ClientContentConfig)
    (rateLimiter : option RateLimiter) h : RESTClient :=
  {| rc_base := {| u_Scheme := u_Scheme baseURL; u_Host := u_Host baseURL;
                   u_Path := withSlash (u_Path baseURL);
                   u_RawQuery := ""; u_Fragment := "" |};
     rc_versionedAPIPath := versionedAPIPath;
     rc_content := {| cc_AcceptContentTypes := cc_AcceptContentTypes config;
                      cc_ContentType := if decide (cc_ContentType config = "") then "application/json"
                                        else cc_ContentType config;
                      cc_GroupVersion := cc_GroupVersion config;
                      cc_Serializer := cc_Serializer config |};
     rc_rateLimiter := rateLimiter; rc_warningHandler := None; rc_Client := h |}.

(** The common end of [RESTClientForConfigAndClient] and
    [UnversionedRESTClientForConfigAndClient]. *)
Definition restClientAt c gv ser h n : result error RESTClient * nat :=
  match defaultServerUrlFor c with
  | Err e => (Err e, n)
  | Ok (baseURL, versionedAPIPath) =>
      let '(rateLimiter, n') := rateLimiterFor c n in
      let clientContent :=
        {| cc_AcceptContentTypes := cf_AcceptContentTypes c; cc_ContentType := cf_ContentType c;
           cc_GroupVersion := gv; cc_Serializer := ser |} in
      let r := NewRESTClient baseURL versionedAPIPath clientContent rateLimiter h in
      (Ok {| rc_base := rc_base r; rc_versionedAPIPath := rc_versionedAPIPath r;
             rc_content := rc_content r; rc_rateLimiter := rc_rateLimiter r;
             rc_warningHandler := cf_WarningHandler c; rc_Client := rc_Client r |}, n')
  end.

Definition required (what : string) : error :=
  ErrorString (what +:+ " is required when initializing a RESTClient").

Definition RESTClientForConfigAndClient c h n : result error RESTClient * nat :=
  match cf_GroupVersion c, cf_NegotiatedSerializer c with
  | None, _ => (Err (required "GroupVersion"), n)
  | Some _, None => (Err (required "NegotiatedSerializer"), n)
  | Some gv, Some ser => restClientAt c gv ser h n
  end.

(** [metav1.SchemeGroupVersion] is the version of the meta types. *)
Definition meta_SchemeGroupVersion : GroupVersion := {| gv_Group := "meta.k8s.io"; gv_Version := "v1" |}.

Definition UnversionedRESTClientForConfigAndClient c h n : result error RESTClient * nat :=
  match cf_NegotiatedSerializer c with
  | None => (Err (required "NegotiatedSerializer"), n)
  | Some ser => restClientAt c (default meta_SchemeGroupVersion (cf_GroupVersion c)) ser h n
  end.

Record DiscoveryClient := {
  dc_restClient : RESTClient;
  dc_LegacyPrefix : string;
  dc_UseLegacyDiscovery : bool;
}.

Definition defaultTimeout : Z := 32 * 1000000000.
Definition discoveryBurst : Z := 300.

Definition withDefaultAgent c : Config :=
  if decide (cf_UserAgent c = "") then with_UserAgent DefaultKubernetesUserAgent c else c.

Definition setDiscoveryDefaults c : Config :=
  withDefaultAgent (with_api "" None (Some discoveryCodec)
    (with_limits (if decide (cf_Burst c = 0%Z) then discoveryBurst else cf_Burst c) (cf_RateLimiter c)
       (if decide (cf_Timeout c = 0%Z) then defaultTimeout else cf_Timeout c) c)).

Definition NewDiscoveryClient (r : RESTClient) : DiscoveryClient :=
  {| dc_restClient := r; dc_LegacyPrefix := "/api"; dc_UseLegacyDiscovery := false |}.

Definition NewDiscoveryClientForConfigAndClient c h n : result error DiscoveryClient * nat :=
  let '(r, n') := UnversionedRESTClientForConfigAndClient (setDiscoveryDefaults c) h n in
  (client ← r; Ok (NewDiscoveryClient client), n').

(** ** The policy group's client *)

Record AdmissionregistrationV1alpha1Client := { ac_restClient : RESTClient }.

Definition setConfigDefaults c : Config :=
  withDefaultAgent (with_api "/apis" (Some SchemeGroupVersion) (Some codecs) c).

Definition group_NewForConfigAndClient c h n : result error AdmissionregistrationV1alpha1Client * nat :=
  let '(r, n') := RESTClientForConfigAndClient (setConfigDefaults c) h n in
  (client ← r; Ok {| ac_restClient := client |}, n').

Definition group_NewForConfig c n : result error AdmissionregistrationV1alpha1Client * nat :=
  let config := setConfigDefaults c in
  match HTTPClientFor config with
  | Err e => (Err e, n)
  | Ok httpClient => group_NewForConfigAndClient config httpClient n
  end.

(** [...OrDie]: an error panics. *)
Definition orDie {A} (r : result error A * nat) : outcome A * nat :=
  (match r.1 with Ok a => Done (Ok a) | Err e => Panic (Error e) end, r.2).

Definition group_NewForConfigOrDie c n : outcome AdmissionregistrationV1alpha1Client * nat :=
  orDie (group_NewForConfig c n).

Definition group_New (r : RESTClient) : AdmissionregistrationV1alpha1Client := {| ac_restClient := r |}.

(** [RESTClient()] of a pointer. *)
Definition group_RESTClient (p : option AdmissionregistrationV1alpha1Client) : option RESTClient :=
  ac_restClient <$> p.

(** ** The clientset *)

Record Clientset := {
  cs_DiscoveryClient : DiscoveryClient;
  cs_admissionregistrationV1alpha1 : AdmissionregistrationV1alpha1Client;
}.

Definition burstError : error :=
  ErrorString "burst is required to be greater than 0 when RateLimiter is not set and QPS is set to greater than 0".

Definition sharedRateLimiter c n : result error (Config * nat) :=
  match cf_RateLimiter c with
  | None =>
      if positive (cf_QPS c) then
        if decide (cf_Burst c ≤ 0)%Z then Err burstError
        else Ok (with_limits (cf_Burst c) (Some (TokenBucket n (cf_QPS c) (cf_Burst c))) (cf_Timeout c) c, S n)
      else Ok (c, n)
  | Some _ => Ok (c, n)
  end.

Definition NewForConfigAndClient c h n : result error Clientset * nat :=
  match sharedRateLimiter c n with
  | Err e => (Err e, n)
  | Ok (configShallowCopy, n) =>
      let '(group, n) := group_NewForConfigAndClient configShallowCopy h n in
      match group with
      | Err e => (Err e, n)
      | Ok group =>
          let '(discovery, n) := NewDiscoveryClientForConfigAndClient configShallowCopy h n in
          (discovery ← discovery;
           Ok {| cs_DiscoveryClient := discovery; cs_admissionregistrationV1alpha1 := group |}, n)
      end
  end.

Definition NewForConfig c n : result error Clientset * nat :=
  let configShallowCopy := withDefaultAgent c in
  match HTTPClientFor configShallowCopy with
  | Err e => (Err e, n)
  | Ok httpClient => NewForConfigAndClient configShallowCopy httpClient n
  end.

Definition NewForConfigOrDie c n : outcome Clientset * nat := orDie (NewForConfig c n).

Definition New (r : RESTClient) : Clientset :=
  {| cs_DiscoveryClient := NewDiscoveryClient r; cs_admissionregistrationV1alpha1 := group_New r |}.

(** [Discovery()] of a pointer. *)
Definition Discovery (p : option Clientset) : option DiscoveryClient := cs_DiscoveryClient <$> p.

(** [rest.NewRequest]: the builder of [RestClient] with the client's path and
    timeout. *)
Definition requestOf (r : RESTClient) (verb : string) : RestRequest :=
  let q := NewRequest (u_Path (rc_base r)) (rc_versionedAPIPath r) verb in
  {| rq_verb := rq_verb q; rq_pathPrefix := rq_pathPrefix q; rq_resource := rq_resource q;
     rq_resourceName := rq_resourceName q; rq_subresource := rq_subresource q; rq_params := rq_params q;
     rq_timeout := hc_Timeout (rc_Client r); rq_contentType := rq_contentType q; rq_body := rq_body q;
     rq_err := rq_err q |}.

(** The scheme, host and path of [Request.URL]: the client's base URL with the request's
    path (the query is [rq_params]). *)
Definition requestTarget (r : RESTClient) (q : RestRequest) : string * string * string :=
  (u_Scheme (rc_base r), u_Host (rc_base r), urlPath q).
End Clientset.
#[global] Arguments withSlash : simpl never.

(** ** Facts *)

Section ClientsetFacts.
Context {Serializer Limiter Transport Warnings Rest : Type} `{!EqDecision Transport}.
Abbreviation Configuration := (Config (Serializer := Serializer) (Limiter := Limiter)
                                 (Warnings := Warnings) (Rest := Rest)).
Abbreviation Client := (HttpClient (Transport := Transport)).
Context (url_Parse : string → result error URL).
Context (agent : string) (codecs discoveryCodec : Serializer).
Implicit Types (c config : Configuration) (h : Client) (n : nat).

Abbreviation build := (NewForConfigAndClient url_Parse agent codecs discoveryCodec).
Abbreviation typed cs := (ac_restClient (cs_admissionregistrationV1alpha1 cs)).
Abbreviation discovery cs := (dc_restClient (cs_DiscoveryClient cs)).

(** The server a configuration names, whatever API it is for. *)
Definition serverOf c : result error URL :=
  '(u, _) ← defaultServerUrlFor url_Parse c; Ok u.

(** The setters the server does not depend on. *)
Lemma server_with c config :
  cf_Host config = cf_Host c → defaultTLS config = defaultTLS c →
  defaultServerUrlFor url_Parse config =
  (u ← serverOf c;
   Ok (u, let gv := default {| gv_Group := ""; gv_Version := "" |} (cf_GroupVersion config) in
          DefaultVersionedAPIPath (cf_APIPath config) (gv_Group gv) (gv_Version gv))).
Proof.
  intros Hh Ht. unfold serverOf, defaultServerUrlFor, DefaultServerURL. rw Hh Ht.
  case_decide as Hd; [done|]. cbv zeta. by destruct (match url_Parse _ with Err _ => _ | Ok _ => _ end).
Qed.

Lemma withDefaultAgent_frame config :
  let config' := withDefaultAgent agent config in
  cf_Host config' = cf_Host config ∧ defaultTLS config' = defaultTLS config ∧
  cf_APIPath config' = cf_APIPath config ∧ cf_GroupVersion config' = cf_GroupVersion config ∧
  cf_NegotiatedSerializer config' = cf_NegotiatedSerializer config ∧
  cf_QPS config' = cf_QPS config ∧ cf_Burst config' = cf_Burst config ∧
  cf_RateLimiter config' = cf_RateLimiter config ∧
  cf_ContentType config' = cf_ContentType config ∧
  cf_AcceptContentTypes config' = cf_AcceptContentTypes config ∧
  cf_WarningHandler config' = cf_WarningHandler config.
Proof. unfold withDefaultAgent. by case_decide. Qed.

(** [setConfigDefaults] a second time changes nothing. *)
Lemma setConfigDefaults_idemp c :
  setConfigDefaults agent codecs (setConfigDefaults agent codecs c) = setConfigDefaults agent codecs c.
Proof.
  unfold setConfigDefaults, withDefaultAgent. cbn.
  destruct (decide (cf_UserAgent c = "")) as [Ha|Ha]; cbn; [by case_decide|by rw decide_False].
Qed.

(** What the clientset's REST clients are, given the configuration the limiter was
    put into. *)
Definition clientOf (u : URL) (path : string) (gv : GroupVersion) (ser : Serializer)
    (limiter : option (RateLimiter (Limiter := Limiter))) c h :
    RESTClient (Serializer := Serializer) (Warnings := Warnings) :=
  let r := NewRESTClient (Warnings := Warnings) u path
             {| cc_AcceptContentTypes := cf_AcceptContentTypes c; cc_ContentType := cf_ContentType c;
                cc_GroupVersion := gv; cc_Serializer := ser |} limiter h in
  {| rc_base := rc_base r; rc_versionedAPIPath := rc_versionedAPIPath r; rc_content := rc_content r;
     rc_rateLimiter := rc_rateLimiter r; rc_warningHandler := cf_WarningHandler c;
     rc_Client := rc_Client r |}.

Lemma group_client c h n :
  group_NewForConfigAndClient url_Parse agent codecs c h n =
  match serverOf c with
  | Err e => (Err e, n)
  | Ok u => (Ok {| ac_restClient :=
                     clientOf u "/apis/admissionregistration.x-k8s.io/v1alpha1" SchemeGroupVersion codecs
                       (rateLimiterFor c n).1 c h |}, (rateLimiterFor c n).2)
  end.
Proof.
  unfold group_NewForConfigAndClient, RESTClientForConfigAndClient, setConfigDefaults.
  set (config := with_api "/apis" (Some SchemeGroupVersion) (Some codecs) c).
  destruct (withDefaultAgent_frame config) as (H1 & H2 & H3 & H4 & H5 & H6 & H7 & H8 & H9 & H10 & H11).
  rw H4 H5. cbn. unfold restClientAt. rw (server_with c) // H3 H4.
  destruct (serverOf c) as [u|e]; [|done]. unfold rateLimiterFor. rw H6 H7 H8 H9 H10 H11. cbn.
  destruct (cf_RateLimiter c); [done|]. by destruct (positive _).
Qed.

Lemma discovery_client c h n :
  let limiter := rateLimiterFor (with_limits (if decide (cf_Burst c = 0%Z) then discoveryBurst
                                              else cf_Burst c) (cf_RateLimiter c) (cf_Timeout c) c) n in
  NewDiscoveryClientForConfigAndClient url_Parse agent discoveryCodec c h n =
  match serverOf c with
  | Err e => (Err e, n)
  | Ok u => (Ok (NewDiscoveryClient
                   (clientOf u "/" meta_SchemeGroupVersion discoveryCodec limiter.1 c h)), limiter.2)
  end.
Proof.
  unfold NewDiscoveryClientForConfigAndClient, UnversionedRESTClientForConfigAndClient, setDiscoveryDefaults.
  set (config := with_api "" None (Some discoveryCodec) _).
  destruct (withDefaultAgent_frame config) as (H1 & H2 & H3 & H4 & H5 & H6 & H7 & H8 & H9 & H10 & H11).
  rw H5 H4. cbn. unfold restClientAt. rw (server_with c) // H3 H4.
  destruct (serverOf c) as [u|e]; [|done]. unfold rateLimiterFor. rw H6 H7 H8 H9 H10 H11. cbn.
  destruct (cf_RateLimiter c); [done|]. by destruct (positive _).
Qed.

(** The limiters of the policy group's and the discovery client, and how many were
    made. *)
Definition limiters c n : option RateLimiter * option RateLimiter * nat :=
  let bucket id qps burst := Some (TokenBucket id qps burst) in
  match cf_RateLimiter c with
  | Some l => (Some l, Some l, 0)
  | None =>
      if positive (cf_QPS c) then
        (bucket n (cf_QPS c) (cf_Burst c), bucket n (cf_QPS c) (cf_Burst c), 1)
      else if is_zero (cf_QPS c) then
        (bucket n DefaultQPS (if decide (cf_Burst c = 0%Z) then DefaultBurst else cf_Burst c),
         bucket (S n) DefaultQPS (if decide (cf_Burst c = 0%Z) then discoveryBurst else cf_Burst c), 2)
      else (None, None, 0)
  end.

(** Whether the clientset makes a limiter for both clients, and whether the
    configuration does not allow it. *)
Definition makesLimiter c : bool :=
  match cf_RateLimiter c with None => positive (cf_QPS c) | Some _ => false end.
Definition badBurst c : bool := makesLimiter c && (cf_Burst c <=? 0)%Z.

Lemma build_spec c h n :
  build c h n =
  if badBurst c then (Err burstError, n)
  else match serverOf c with
       | Err e => (Err e, if makesLimiter c then S n else n)
       | Ok u =>
           let '(l, l', k) := limiters c n in
           (Ok {| cs_DiscoveryClient :=
                    NewDiscoveryClient (clientOf u "/" meta_SchemeGroupVersion discoveryCodec l' c h);
                  cs_admissionregistrationV1alpha1 :=
                    {| ac_restClient :=
                         clientOf u "/apis/admissionregistration.x-k8s.io/v1alpha1" SchemeGroupVersion
                           codecs l c h |} |}, n + k)
       end.
Proof.
  unfold NewForConfigAndClient, sharedRateLimiter, badBurst, makesLimiter, limiters.
  destruct (cf_RateLimiter c) as [l|] eqn:Hl; cbn [andb].
  { rw group_client. destruct (serverOf c) as [u|e] eqn:Hu; [|done]. unfold rateLimiterFor. rw Hl. cbn.
    rw discovery_client Hu. unfold rateLimiterFor. cbn. by rw Hl Nat.add_0_r. }
  destruct (positive (cf_QPS c)) eqn:Hq.
  { destruct (decide (cf_Burst c ≤ 0)%Z) as [Hb|Hb]; [by rw (proj2 (Z.leb_le _ _) Hb)|].
    rw (proj2 (Z.leb_gt (cf_Burst c) 0)); [lia|]. set (shared := with_limits _ _ _ _).
    assert (serverOf shared = serverOf c) as Hs by done.
    rw group_client Hs. destruct (serverOf c) as [u|e] eqn:Hu; [|done].
    rw discovery_client Hs. cbn. by rw Nat.add_1_r. }
  rw group_client. destruct (serverOf c) as [u|e] eqn:Hu; [|done].
  rw discovery_client Hu. unfold rateLimiterFor. rw Hl. cbn.
  destruct (is_zero (cf_QPS c)); cbn.
  - do 3 f_equal; [|lia]. repeat f_equal. by repeat case_decide.
  - by rw Hq Nat.add_0_r.
Qed.

(** The base path of a client, with or without its trailing slash. *)
Lemma segments_trailing (p : string) :
  segments (withSlash p) = segments p.
Proof.
  unfold withSlash. destruct (HasSuffix p "/"); [done|]. unfold segments. change "/" with (String sep "").
  rw Split_app_sep filter_app. cbn. by rw app_nil_r.
Qed.

(** ** Properties *)

(** C32: the clients of a clientset share the HTTP client and the server: every request
    of either goes to the scheme and host the configuration names, those of the policy
    clients to the policy group's path under the server's own, those of discovery to the
    server's (a server's path without dot or dot-dot elements), and both end after the
    HTTP client's timeout.  With a limiter, or a positive QPS, both draw on
    one limiter; with QPS zero each gets its own bucket, discovery with a burst of
    300 instead of 10; with a negative QPS there is none. *)
Theorem clients_share_server_and_limiter c h n cs n' verb :
  build c h n = (Ok cs, n') →
  (∀ u s, serverOf c = Ok u → s ∈ segments (u_Path u) → plain s) →
  (∃ u, serverOf c = Ok u ∧
    rq_pathPrefix (requestOf (typed cs) verb) =
      rooted (segments (u_Path u) ++ ["apis"; "admissionregistration.x-k8s.io"; "v1alpha1"]) ∧
    rq_pathPrefix (requestOf (discovery cs) verb) = rooted (segments (u_Path u)) ∧
    (∀ q, requestTarget (typed cs) q = (u_Scheme u, u_Host u, urlPath q)) ∧
    (∀ q, requestTarget (discovery cs) q = (u_Scheme u, u_Host u, urlPath q))) ∧
  rq_timeout (requestOf (typed cs) verb) = hc_Timeout h ∧
  rq_timeout (requestOf (discovery cs) verb) = hc_Timeout h ∧
  rc_Client (typed cs) = h ∧ rc_Client (discovery cs) = h ∧
  (rc_rateLimiter (typed cs), rc_rateLimiter (discovery cs), n' - n) = limiters c n.
Proof.
  rw build_spec. destruct (badBurst c); [done|]. destruct (serverOf c) as [u|e]; [|done].
  destruct (limiters c n) as [[l l'] k]. intros [= <- <-] Hplain. split_and!; try done; [|cbn; f_equal; lia].
  exists u. split; [done|].
  assert (∀ s, s ∈ segments (withSlash (u_Path u)) → plain s) as Hbase.
  { intros s. rw segments_trailing. by apply Hplain. }
  assert (plain "admissionregistration.x-k8s.io") as Hg by solve_plain.
  rw -(segments_trailing (u_Path u)). split_and!; [| |done..].
  { apply (prefix_rooted "admissionregistration.x-k8s.io" "validatingadmissionpolicies"
             (withSlash (u_Path u))); done || solve_plain. }
  change (Join ["/"; withSlash (u_Path u); "/"] = rooted (segments (withSlash (u_Path u)))).
  assert (mjoin (segments <$> ["/"; withSlash (u_Path u); "/"]) = segments (withSlash (u_Path u))) as Hj
    by (change (segments (withSlash (u_Path u)) ++ [] = segments (withSlash (u_Path u))); by rw app_nil_r).
  rw Join_rooted; [done|by rw Hj..].
Qed.

Context (TransportFor : Configuration → result error Transport) (DefaultTransport : Transport).

(** [NewForConfigOrDie] panics exactly when the configuration has no transport,
    or a positive QPS without a positive burst or a limiter, or names no server, with
    the first of these errors. *)
Theorem NewForConfigOrDie_panics_iff c n msg :
  (NewForConfigOrDie url_Parse TransportFor DefaultTransport agent codecs discoveryCodec c n).1
    = Panic msg ↔
  ∃ e, msg = Error e ∧
    (TransportFor (withDefaultAgent agent c) = Err e ∨
     is_ok (TransportFor (withDefaultAgent agent c)) = true ∧
     (cf_RateLimiter c = None ∧ positive (cf_QPS c) = true ∧ (cf_Burst c ≤ 0)%Z ∧ e = burstError ∨
      badBurst c = false ∧ serverOf c = Err e)).
Proof.
  unfold NewForConfigOrDie, orDie, NewForConfig, HTTPClientFor. set (config := withDefaultAgent agent c).
  destruct (withDefaultAgent_frame c) as (H1 & H2 & H3 & H4 & _ & H6 & H7 & H8 & _).
  assert (serverOf config = serverOf c) as Hs.
  { unfold serverOf. rw (server_with c config H1 H2). rw (server_with c c) //. by destruct (serverOf c). }
  assert (badBurst config = badBurst c) as Hb by (unfold badBurst, makesLimiter; by rw H6 H7 H8).
  destruct (TransportFor config) as [t|e]; cbn.
  - rw build_spec Hs Hb. destruct (badBurst c) eqn:Hbad; cbn.
    + unfold badBurst, makesLimiter in Hbad. destruct (cf_RateLimiter c); [done|].
      destruct (positive (cf_QPS c)); [|done]. apply Z.leb_le in Hbad.
      split; [intros [= <-]; exists burstError; auto 10|]. intros (e & -> & [?|[_ [(_ & _ & _ & ->)|[? _]]]]); done.
    + split.
      * destruct (serverOf c) as [u|e]; [|intros [= <-]; eauto 10]. by destruct (limiters _ _) as [[? ?] ?].
      * intros (e & -> & [?|[_ [(Hl & Hq & Hn & _)|[_ ->]]]]); [done| |done].
        unfold badBurst, makesLimiter in Hbad. rw Hl Hq in Hbad. apply Z.leb_gt in Hbad. lia.
  - split; [intros [= <-]; eauto|]. intros (e' & -> & [[= ->]|[? _]]); done.
Qed.
End ClientsetFacts.

(** ** Witnesses

    One server behind a proxy, named by a URL or by host and port. *)
Section ClientsetWitness.
Definition demo_Parse (s : string) : result error URL :=
  if decide (s = "https://10.0.0.1/proxy") then
    Ok {| u_Scheme := "https"; u_Host := "10.0.0.1"; u_Path := "/proxy"; u_RawQuery := ""; u_Fragment := "" |}
  else if decide (s = "http://localhost:8080") then
    Ok {| u_Scheme := "http"; u_Host := "localhost:8080"; u_Path := ""; u_RawQuery := ""; u_Fragment := "" |}
  else Err (ErrorString "invalid URL").

Definition demo_config (host : string) (qps : Q) (burst : Z) :
    Config (Serializer := string) (Limiter := unit) (Warnings := unit) (Rest := unit) :=
  {| cf_Host := host; cf_APIPath := ""; cf_AcceptContentTypes := ""; cf_ContentType := "";
     cf_GroupVersion := None; cf_NegotiatedSerializer := None; cf_Insecure := false; cf_CAFile := "";
     cf_CAData := ""; cf_CertFile := ""; cf_CertData := ""; cf_UserAgent := ""; cf_QPS := qps;
     cf_Burst := burst; cf_RateLimiter := None; cf_WarningHandler := None; cf_Timeout := 0; cf_Rest := tt |}.

Definition demo_http : HttpClient (Transport := unit) := {| hc_Transport := tt; hc_Timeout := 0 |}.

Definition proxied_config := demo_config "https://10.0.0.1/proxy" (20 # 1) 30.

Lemma proxied_server :
  serverOf demo_Parse proxied_config =
  Ok {| u_Scheme := "https"; u_Host := "10.0.0.1"; u_Path := "/proxy"; u_RawQuery := ""; u_Fragment := "" |}.
Proof. vm_compute. reflexivity. Qed.

Lemma clients_share_server_and_limiter_witness :
  ∃ cs n', NewForConfigAndClient demo_Parse "agent" "codecs" "discovery" proxied_config demo_http 0
             = (Ok cs, n') ∧
    rq_pathPrefix (requestOf (ac_restClient (cs_admissionregistrationV1alpha1 cs)) "GET") =
      "/proxy/apis/admissionregistration.x-k8s.io/v1alpha1" ∧
    requestTarget (dc_restClient (cs_DiscoveryClient cs)) (requestOf (dc_restClient (cs_DiscoveryClient cs)) "GET")
      = ("https", "10.0.0.1", "/proxy") ∧
    rc_rateLimiter (dc_restClient (cs_DiscoveryClient cs)) = Some (TokenBucket 0 (20 # 1) 30).
Proof.
  destruct (NewForConfigAndClient demo_Parse "agent" "codecs" "discovery" proxied_config demo_http 0)
    as [[cs|e] n'] eqn:H.
  - destruct (clients_share_server_and_limiter demo_Parse "agent" "codecs" "discovery"
                proxied_config demo_http 0 cs n' "GET" H) as [(u & Hu & Hp & Hd & _ & Ht) (_ & _ & _ & _ & Hl)].
    + intros u s Hu. rw proxied_server in Hu. injection Hu as <-. intros Hs.
      apply list_elem_of_singleton in Hs as ->. solve_plain.
    + rw proxied_server in Hu. injection Hu as <-. exists cs, n'. split; [reflexivity|].
      split; [exact Hp|]. split; [rw Ht; unfold urlPath; simpl in Hd |- *; by rw Hd|]. apply (f_equal (λ x, x.1.2)) in Hl. exact Hl.
  - assert (is_ok (NewForConfigAndClient demo_Parse "agent" "codecs" "discovery" proxied_config
                     demo_http 0).1 = true) as Hok by (vm_compute; reflexivity).
    rw H in Hok. discriminate.
Defined.

Lemma NewForConfigOrDie_panics_iff_witness :
  (NewForConfigOrDie demo_Parse (λ _, Ok tt) tt "agent" "codecs" "discovery"
     (demo_config "localhost:8080" (1 # 2) 0) 0).1 = Panic (Error burstError).
Proof.
  apply (proj2 (NewForConfigOrDie_panics_iff demo_Parse "agent" "codecs" "discovery" (λ _, Ok tt) tt
                  (demo_config "localhost:8080" (1 # 2) 0) 0 (Error burstError))).
  exists burstError. split; [reflexivity|]. right. split; [reflexivity|]. left.
  split; [reflexivity|]. split; [reflexivity|]. split; [|reflexivity]. discriminate.
Defined.

(** A host and port gets the scheme the TLS settings ask for. *)
Example server_of_host_and_port :
  serverOf demo_Parse (demo_config "localhost:8080" 0 0) =
  Ok {| u_Scheme := "http"; u_Host := "localhost:8080"; u_Path := ""; u_RawQuery := ""; u_Fragment := "" |}.
Proof. reflexivity. Qed.
End ClientsetWitness.
