(* ===== verification/ObjectTracker.v ===== *)
(** * The fake API server of client-go

    [k8s.io/client-go/testing] ([fixture.go], [fake.go], [actions.go]), on which the
    generated fake clientset runs: the object tracker, a store of objects by
    resource, namespace and name that tells its watchers about every change; the
    reaction function that applies an action to it; and [Fake], which records
    actions and offers them to a chain of reactors.  Stored objects are deep copies
    ([DeepCopy]), so an object is its value here.  Every method holds the tracker's
    lock, so a method is one step; a watcher is a buffered channel, and a send into
    a full one panics.  The JSON and patch libraries are arguments. *)
From S2P Require Import Prelude GoStrings ApiMachinery Scheme Admission TransformedClient RestClient.
From Stdlib Require Import Ascii.

(** ** Objects *)

(** What the tracker needs of [runtime.Object]: its dynamic type and the zero
    object of a type, [SetNamespace], the items of a list object ([None]: no list
    type) and [meta.SetList], and the assertion to [*metav1.Status]. *)
Class RuntimeObject (Obj : Type) := {
  ro_type : Obj → GoType;
  ro_new : GoType → Obj;
  ro_SetNamespace : string → Obj → Obj;
  ro_ExtractList : Obj → option (list Obj);
  ro_SetList : Obj → list Obj → result error Obj;
  ro_Status : Obj → option Status;
}.

(** ** Watchers *)

Definition DefaultChanSize : nat := 100.

Section Tracker.
Context {Obj : Type} `{!MetaAccessor Obj, !RuntimeObject Obj}.
Implicit Types (obj : Obj) (gvr : GroupVersionResource) (ns name : string).

Abbreviation watchEvent := (EventType * Obj)%type.

(** [RaceFreeFakeWatcher]: what was ever sent into its channel, how much of that was
    received, and [Stopped]. *)
Record fakeWatcher := { w_sent : list watchEvent; w_received : nat; w_Stopped : bool }.

Definition NewRaceFreeFake : fakeWatcher := {| w_sent := []; w_received := 0; w_Stopped := false |}.

Definition w_Stop (f : fakeWatcher) : fakeWatcher :=
  {| w_sent := w_sent f; w_received := w_received f; w_Stopped := true |}.

(** A receive from the channel, when something is in it. *)
Definition w_receive (f : fakeWatcher) : option (watchEvent * fakeWatcher) :=
  ev ← w_sent f !! w_received f;
  Some (ev, {| w_sent := w_sent f; w_received := S (w_received f); w_Stopped := w_Stopped f |}).

(** [Add], [Modify] and [Delete]; [None] is the panic. *)
Definition w_send (ev : watchEvent) (f : fakeWatcher) : option fakeWatcher :=
  if w_Stopped f then Some f
  else if bool_decide (length (w_sent f) - w_received f < DefaultChanSize)
  then Some {| w_sent := w_sent f ++ [ev]; w_received := w_received f; w_Stopped := w_Stopped f |}
  else None.

(** ** The tracker *)

(** Watchers are in the order they were made; [tr_watchers] holds their numbers. *)
Record tracker := {
  tr_objects : gmap GroupVersionResource (gmap (string * string) Obj);
  tr_watchers : gmap GroupVersionResource (gmap string (list nat));
  tr_fakes : list fakeWatcher;
}.
Implicit Types t : tracker.

Definition NewObjectTracker : tracker := {| tr_objects := ∅; tr_watchers := ∅; tr_fakes := [] |}.

Definition with_objects m t : tracker :=
  {| tr_objects := m; tr_watchers := tr_watchers t; tr_fakes := tr_fakes t |}.
Definition with_fakes fs t : tracker :=
  {| tr_objects := tr_objects t; tr_watchers := tr_watchers t; tr_fakes := fs |}.

Definition objectsOf t gvr : gmap (string * string) Obj := default ∅ (tr_objects t !! gvr).

Definition getWatches t gvr ns : list nat :=
  match tr_watchers t !! gvr with
  | None => []
  | Some ws =>
      default [] (ws !! ns) ++ (if decide (ns = "") then [] else default [] (ws !! ""))
  end.

(** The loops over [getWatches]: whether a send panicked, and the channels after it. *)
Fixpoint notify (watches : list nat) (ev : watchEvent) (fs : list fakeWatcher) :
    bool * list fakeWatcher :=
  match watches with
  | [] => (false, fs)
  | i :: rest =>
      match fs !! i with
      | None => notify rest ev fs (* every number in [tr_watchers] is a watcher *)
      | Some f =>
          match w_send ev f with
          | None => (true, fs)
          | Some f' => notify rest ev (<[i := f']> fs)
          end
      end
  end.

Definition channel_full {A} : outcome A := Panic "channel full".

Definition tracker_Get t gvr ns name : result error Obj :=
  let errNotFound := StatusError (NewNotFound (gvr_GroupResource gvr) name) in
  match tr_objects t !! gvr with
  | None => Err errNotFound
  | Some objs =>
      match objs !! (ns, name) with
      | None => Err errNotFound
      | Some obj =>
          match ro_Status obj with
          | Some status => if decide (st_Status status = StatusSuccess) then Ok obj
                           else Err (StatusError status)
          | None => Ok obj
          end
      end
  end.

Definition namespaceMismatch (ns objNs : string) : error :=
  StatusError (NewBadRequest ("request namespace does not match object namespace, request: "
                              +:+ Quote ns +:+ " object: " +:+ Quote objNs)).

(** [add]: [Create] is [add] without [replaceExisting], [Update] with it.  An update
    tells the watchers before it stores, a create after. *)
Definition tracker_add gvr obj ns (replaceExisting : bool) t : outcome unit * tracker :=
  match Accessor obj with
  | None => (Done (Err errNotObject), t)
  | Some m =>
      let obj := if decide (mo_Namespace m = "") then ro_SetNamespace ns obj else obj in
      let objNs := if decide (mo_Namespace m = "") then ns else mo_Namespace m in
      if decide (ns ≠ objNs) then (Done (Err (namespaceMismatch ns objNs)), t)
      else
        let objs := objectsOf t gvr in
        let t := with_objects (<[gvr := objs]> (tr_objects t)) t in
        let stored := <[gvr := <[(objNs, mo_Name m) := obj]> objs]> (tr_objects t) in
        match objs !! (objNs, mo_Name m) with
        | Some _ =>
            if replaceExisting then
              match notify (getWatches t gvr ns) (Modified, obj) (tr_fakes t) with
              | (true, fs) => (channel_full, with_fakes fs t)
              | (false, fs) => (Done (Ok tt), with_objects stored (with_fakes fs t))
              end
            else (Done (Err (StatusError (NewAlreadyExists (gvr_GroupResource gvr) (mo_Name m)))), t)
        | None =>
            if replaceExisting
            then (Done (Err (StatusError (NewNotFound (gvr_GroupResource gvr) (mo_Name m)))), t)
            else
              let t := with_objects stored t in
              match notify (getWatches t gvr ns) (Added, obj) (tr_fakes t) with
              | (true, fs) => (channel_full, with_fakes fs t)
              | (false, fs) => (Done (Ok tt), with_fakes fs t)
              end
        end
  end.

Definition tracker_Create gvr obj ns := tracker_add gvr obj ns false.
Definition tracker_Update gvr obj ns := tracker_add gvr obj ns true.

Definition tracker_Delete gvr ns name t : outcome unit * tracker :=
  let errNotFound := StatusError (NewNotFound (gvr_GroupResource gvr) name) in
  match tr_objects t !! gvr with
  | None => (Done (Err errNotFound), t)
  | Some objs =>
      match objs !! (ns, name) with
      | None => (Done (Err errNotFound), t)
      | Some obj =>
          let t := with_objects (<[gvr := delete (ns, name) objs]> (tr_objects t)) t in
          match notify (getWatches t gvr ns) (Deleted, obj) (tr_fakes t) with
          | (true, fs) => (channel_full, with_fakes fs t)
          | (false, fs) => (Done (Ok tt), with_fakes fs t)
          end
      end
  end.

(** [Watch]: the number of the new watcher. *)
Definition tracker_Watch gvr ns t : nat * tracker :=
  let i := length (tr_fakes t) in
  let ws := default ∅ (tr_watchers t !! gvr) in
  (i, {| tr_objects := tr_objects t;
         tr_watchers := <[gvr := <[ns := default [] (ws !! ns) ++ [i]]> ws]> (tr_watchers t);
         tr_fakes := tr_fakes t ++ [NewRaceFreeFake] |}).

(** What the holder of watcher [i] does: receive an event, stop it. *)
Definition receive (i : nat) t : option (watchEvent * tracker) :=
  f ← tr_fakes t !! i; '(ev, f') ← w_receive f; Some (ev, with_fakes (<[i := f']> (tr_fakes t)) t).

Definition stop (i : nat) t : option tracker :=
  f ← tr_fakes t !! i; Some (with_fakes (<[i := w_Stop f]> (tr_fakes t)) t).

(** ** Listing *)

(** The order of [filterByNamespace]: by namespace, then by name. *)
Definition key_le (k k' : string * string) : bool :=
  if bool_decide (k.1 = k'.1) then string_le k.2 k'.2 else string_le k.1 k'.1.

Definition keyOf obj : string * string :=
  match Accessor obj with Some m => (mo_Namespace m, mo_Name m) | None => ("", "") end.

Definition before obj obj' : Prop := key_le (keyOf obj) (keyOf obj') = true.
#[export] Instance before_dec obj obj' : Decision (before obj obj').
Proof. unfold before. apply _. Defined.

Definition filterByNamespace (objs : gmap (string * string) Obj) ns : result error (list Obj) :=
  res ← mapE (λ obj, match Accessor obj with
                     | None => Err errNotObject
                     | Some acc => Ok (if bool_decide (ns ≠ "" ∧ mo_Namespace acc ≠ ns)
                                       then [] else [obj])
                     end) (map_to_list objs).*2;
  Ok (merge_sort before (concat res)).

(** ** The tracker over a scheme *)

Context (scheme : Scheme).

Definition notRegistered (what : string) : error :=
  NotRegisteredErr ("no kind " +:+ Quote what +:+ " is registered").

Definition tracker_List gvr (gvk : GroupVersionKind) ns t : result error Obj :=
  let listGVK := {| gvk_Group := gvk_Group gvk;
                    gvk_Version := if decide (gvk_Version gvk = "") then APIVersionInternal
                                   else gvk_Version gvk;
                    gvk_Kind := gvk_Kind gvk +:+ "List" |} in
  match New scheme listGVK with
  | None => Err (notRegistered (gvk_Kind listGVK))
  | Some ty =>
      let list := ro_new ty in
      match ro_ExtractList list with
      | None => Err (ErrorString (Quote (gvk_Kind listGVK) +:+ " is not a list type"))
      | Some _ =>
          match tr_objects t !! gvr with
          | None => Ok list
          | Some objs => matchingObjs ← filterByNamespace objs ns; ro_SetList list matchingObjs
          end
      end
  end.

(** [meta.UnsafeGuessKindToResource]: the plural. *)
Definition unpluralizedSuffixes : list string := ["endpoints"].

Definition UnsafeGuessKindToResource (kind : GroupVersionKind) : GroupVersionResource :=
  let singularName := ToLower (gvk_Kind kind) in
  let withResource r := {| gvr_Group := gvk_Group kind; gvr_Version := gvk_Version kind;
                           gvr_Resource := r |} in
  if decide (gvk_Kind kind = "") then {| gvr_Group := ""; gvr_Version := ""; gvr_Resource := "" |}
  else if existsb (HasSuffix singularName) unpluralizedSuffixes then withResource singularName
  else if HasSuffix singularName "s" then withResource (singularName +:+ "es")
  else if HasSuffix singularName "y" then withResource (TrimSuffix singularName "y" +:+ "ies")
  else withResource (singularName +:+ "s").

(** The loop of [Add] over the kinds of an object. *)
Fixpoint addKinds (gvks : list GroupVersionKind) obj ns t : outcome unit * tracker :=
  match gvks with
  | [] => (Done (Ok tt), t)
  | gvk :: rest =>
      let gvr := UnsafeGuessKindToResource gvk in
      let gvr := if decide (gvr_Version gvr = APIVersionInternal)
                 then {| gvr_Group := gvr_Group gvr; gvr_Version := ""; gvr_Resource := gvr_Resource gvr |}
                 else gvr in
      match tracker_add gvr obj ns false t with
      | (Done (Ok _), t') => addKinds rest obj ns t'
      | r => r
      end
  end.

(** [Add] of an object that is no list. *)
Definition addObject obj t : outcome unit * tracker :=
  match Accessor obj with
  | None => (Done (Err errNotObject), t)
  | Some m =>
      match ObjectKinds scheme (ro_type obj) with
      | None => (Done (Err (notRegistered (t_Name (ro_type obj)))), t)
      | Some ([], _) => (Done (Err (ErrorString "no registered kinds")), t)
      | Some (gvks, _) => addKinds gvks obj (mo_Namespace m) t
      end
  end.

Fixpoint addObjects (objs : list Obj) t : outcome unit * tracker :=
  match objs with
  | [] => (Done (Ok tt), t)
  | obj :: rest =>
      match addObject obj t with
      | (Done (Ok _), t') => addObjects rest t'
      | r => r
      end
  end.

(** [Add]; the items of a typed list are no lists themselves, so [addList] does not
    recurse further. *)
Definition tracker_Add obj t : outcome unit * tracker :=
  match ro_ExtractList obj with
  | Some items => addObjects items t
  | None => addObject obj t
  end.

(** ** Actions *)

Record ActionImpl := {
  ac_Namespace : string;
  ac_Verb : string;
  ac_Resource : GroupVersionResource;
  ac_Subresource : string;
}.

(** An action's object is nil ([None]) when the method was given a nil pointer: the
    deep copy of one is the nil interface, which has no metadata.

    The label and field selectors of an action: what they match. *)
Record ListRestrictions := {
  lr_Labels : gmap string string → bool;
  lr_Fields : gmap string string → bool;
}.

Inductive Action :=
| GetActionImpl (a : ActionImpl) (Name : string)
| ListActionImpl (a : ActionImpl) (Kind : GroupVersionKind) (r : ListRestrictions)
| CreateActionImpl (a : ActionImpl) (Object : option Obj)
| UpdateActionImpl (a : ActionImpl) (Object : option Obj)
| DeleteActionImpl (a : ActionImpl) (Name : string)
| DeleteCollectionActionImpl (a : ActionImpl) (r : ListRestrictions)
| PatchActionImpl (a : ActionImpl) (Name PatchType Patch : string)
| WatchActionImpl (a : ActionImpl) (r : ListRestrictions).

Definition base (action : Action) : ActionImpl :=
  match action with
  | GetActionImpl a _ | ListActionImpl a _ _ | CreateActionImpl a _ | UpdateActionImpl a _
  | DeleteActionImpl a _ | DeleteCollectionActionImpl a _ | PatchActionImpl a _ _ _
  | WatchActionImpl a _ => a
  end.

(** The [NewRoot...Action] constructors: the namespace is empty. *)
Definition rootAction (verb : string) gvr (subresource : string) : ActionImpl :=
  {| ac_Namespace := ""; ac_Verb := verb; ac_Resource := gvr; ac_Subresource := subresource |}.

Definition NewRootGetAction gvr name := GetActionImpl (rootAction "get" gvr "") name.
Definition NewRootListAction gvr kind r := ListActionImpl (rootAction "list" gvr "") kind r.
Definition NewRootCreateAction gvr (obj : option Obj) := CreateActionImpl (rootAction "create" gvr "") obj.
Definition NewRootUpdateAction gvr (obj : option Obj) := UpdateActionImpl (rootAction "update" gvr "") obj.
Definition NewRootUpdateSubresourceAction gvr subresource (obj : option Obj) :=
  UpdateActionImpl (rootAction "update" gvr subresource) obj.
Definition NewRootDeleteActionWithOptions gvr name :=
  DeleteActionImpl (rootAction "delete" gvr "") name.
Definition NewRootDeleteCollectionAction gvr r :=
  DeleteCollectionActionImpl (rootAction "delete-collection" gvr "") r.
Definition NewRootPatchSubresourceAction gvr name pt data (subresources : list string) :=
  PatchActionImpl (rootAction "patch" gvr (RestClient.Join subresources)) name pt data.
Definition NewRootWatchAction gvr r := WatchActionImpl (rootAction "watch" gvr "") r.

(** ** ObjectReaction *)

(** [json.Marshal], the two JSON patch libraries on the encoded object (the last one
    looks at the object's type), and [json.Unmarshal] into a zero object. *)
Record PatchLibrary := {
  pl_Marshal : Obj → result error string;
  pl_JSONPatch : string → string → result error string;
  pl_MergePatch : string → string → result error string;
  pl_StrategicMergePatch : string → string → GoType → result error string;
  pl_Unmarshal : string → GoType → result error Obj;
}.

Context (lib : PatchLibrary).

Definition applyPatch (pt old patch : string) (ty : GoType) : result error string :=
  if decide (pt = "application/json-patch+json") then pl_JSONPatch lib old patch
  else if decide (pt = "application/merge-patch+json") then pl_MergePatch lib old patch
  else if decide (pt ∈ ["application/strategic-merge-patch+json"; "application/apply-patch+yaml"])
  then pl_StrategicMergePatch lib old patch ty
  else Err (ErrorString "PatchType is not supported").

(** What a reaction function returns ([handled], [ret], [err]); an error is the
    message of a panic. *)
Abbreviation reply := (result string (bool * option Obj * option error)).

Definition handled (ret : option Obj) (err : option error) : reply := Ok (true, ret, err).

(** [obj, err := f(); return true, obj, err]. *)
Definition returning (r : result error Obj) : reply :=
  match r with Ok obj => handled (Some obj) None | Err e => handled None (Some e) end.

(** [if err = f(); err != nil { return true, nil, err }], then [k]. *)
Definition afterwards (r : outcome unit * tracker) (k : tracker → reply) :
    reply * tracker :=
  match r with
  | (Panic msg, t) => (Err msg, t)
  | (Done (Err e), t) => (handled None (Some e), t)
  | (Done (Ok _), t) => (k t, t)
  end.

(** [meta.Accessor] of an action's object. *)
Definition with_meta (object : option Obj) : option (Obj * ObjectMetaView) :=
  obj ← object; m ← Accessor obj; Some (obj, m).

Definition ObjectReaction (action : Action) (t : tracker) : reply * tracker :=
  let ns := ac_Namespace (base action) in
  let gvr := ac_Resource (base action) in
  match action with
  | ListActionImpl _ kind _ => (returning (tracker_List gvr kind ns t), t)
  | GetActionImpl _ name => (returning (tracker_Get t gvr ns name), t)
  | CreateActionImpl a object =>
      match with_meta object with
      | None => (handled None (Some errNotObject), t)
      | Some (obj, objMeta) =>
          let reread t := returning (tracker_Get t gvr ns (mo_Name objMeta)) in
          if decide (ac_Subresource a = "")
          then afterwards (tracker_Create gvr obj ns t) reread
          else match tracker_Get t gvr ns (mo_Name objMeta) with
               | Err e => (handled None (Some e), t)
               | Ok oldObj =>
                   if decide (ro_type oldObj = ro_type obj)
                   then afterwards (tracker_Update gvr obj ns t) reread
                   else (handled (Some obj) None, t)
               end
      end
  | UpdateActionImpl _ object =>
      match with_meta object with
      | None => (handled None (Some errNotObject), t)
      | Some (obj, objMeta) =>
          afterwards (tracker_Update gvr obj ns t)
            (λ t, returning (tracker_Get t gvr ns (mo_Name objMeta)))
      end
  | DeleteActionImpl _ name =>
      afterwards (tracker_Delete gvr ns name t) (λ _, handled None None)
  | PatchActionImpl _ name pt patch =>
      match (obj ← tracker_Get t gvr ns name;
             old ← pl_Marshal lib obj;
             modified ← applyPatch pt old patch (ro_type obj);
             pl_Unmarshal lib modified (ro_type obj)) with
      | Err e => (handled None (Some e), t)
      | Ok obj => afterwards (tracker_Update gvr obj ns t) (λ _, handled (Some obj) None)
      end
  | DeleteCollectionActionImpl _ _ | WatchActionImpl _ _ =>
      (Ok (false, None, Some (ErrorString "no reaction implemented")), t)
  end.

(** ** Fake *)

(** [SimpleReactor] and [SimpleWatchReactor]; a watch is a watcher's number. *)
Record Reactor := {
  re_Verb : string;
  re_Resource : string;
  re_Reaction : Action → tracker → reply * tracker;
}.
Record WatchReactor := {
  wr_Resource : string;
  wr_Reaction : Action → tracker → bool * result error nat * tracker;
}.

Definition resourceCovers (resource : string) (action : Action) : bool :=
  bool_decide (resource = "*") || bool_decide (resource = gvr_Resource (ac_Resource (base action))) ||
  match cut "/" resource with
  | Some (r, sub) => bool_decide (r = gvr_Resource (ac_Resource (base action))) &&
                     bool_decide (sub = ac_Subresource (base action))
  | None => false
  end.

Definition re_Handles (r : Reactor) (action : Action) : bool :=
  (bool_decide (re_Verb r = "*") || bool_decide (re_Verb r = ac_Verb (base action))) &&
  resourceCovers (re_Resource r) action.

(** [Fake]: the reaction chains are set up before the calls; [f_actions] is the
    record of the calls. *)
Record Fake := { f_actions : list Action; f_tracker : tracker }.

Definition record (action : Action) (f : Fake) : Fake :=
  {| f_actions := f_actions f ++ [action]; f_tracker := f_tracker f |}.
Definition with_tracker t (f : Fake) : Fake := {| f_actions := f_actions f; f_tracker := t |}.
Definition ClearActions (f : Fake) : Fake := {| f_actions := []; f_tracker := f_tracker f |}.

Fixpoint react (chain : list Reactor) (action : Action) (t : tracker) :
    option (result string (option Obj * option error)) * tracker :=
  match chain with
  | [] => (None, t)
  | reactor :: rest =>
      if re_Handles reactor action then
        match re_Reaction reactor action t with
        | (Err msg, t') => (Some (Err msg), t')
        | (Ok (true, ret, err), t') => (Some (Ok (ret, err)), t')
        | (Ok (false, _, _), t') => react rest action t'
        end
      else react rest action t
  end.

Definition Invokes (chain : list Reactor) (action : Action) (defaultReturnObj : Obj) (f : Fake) :
    result string (option Obj * option error) * Fake :=
  let f := record action f in
  match react chain action (f_tracker f) with
  | (Some r, t) => (r, with_tracker t f)
  | (None, t) => (Ok (Some defaultReturnObj, None), with_tracker t f)
  end.

Fixpoint reactWatch (chain : list WatchReactor) (action : Action) (t : tracker) :
    option (result error nat) * tracker :=
  match chain with
  | [] => (None, t)
  | reactor :: rest =>
      if resourceCovers (wr_Resource reactor) action then
        match wr_Reaction reactor action t with
        | (true, r, t') => (Some r, t')
        | (false, _, t') => reactWatch rest action t'
        end
      else reactWatch rest action t
  end.

Definition InvokesWatch (chain : list WatchReactor) (action : Action) (f : Fake) :
    result error nat * Fake :=
  let f := record action f in
  match reactWatch chain action (f_tracker f) with
  | (Some r, t) => (r, with_tracker t f)
  | (None, t) => (Err (ErrorString "unhandled watch"), with_tracker t f)
  end.
End Tracker.

(** ** Facts about the tracker *)

Lemma key_le_total k k' : key_le k k' = true ∨ key_le k' k = true.
Proof.
  unfold key_le. repeat case_bool_decide; try congruence; [apply string_le_total|].
  apply string_le_total.
Qed.

Lemma key_le_antisym k k' : key_le k k' = true → key_le k' k = true → k = k'.
Proof.
  unfold key_le. destruct k as [a b], k' as [a' b']; simpl.
  repeat case_bool_decide; subst; try congruence.
  - intros. f_equal. by apply string_le_antisym.
  - intros Ha Hb. by destruct H; apply string_le_antisym.
Qed.

Lemma key_le_trans k1 k2 k3 : key_le k1 k2 = true → key_le k2 k3 = true → key_le k1 k3 = true.
Proof.
  unfold key_le. destruct k1 as [a b], k2 as [a' b'], k3 as [a'' b'']; simpl.
  repeat case_bool_decide; subst; try congruence; try apply string_le_trans.
  intros Ha Hb. by destruct H; apply string_le_antisym.
Qed.

Section TrackerFacts.
Context {Obj : Type} `{!MetaAccessor Obj, !RuntimeObject Obj}.
Implicit Types (obj : Obj) (gvr : GroupVersionResource) (ns name : string).
Implicit Types (t : tracker (Obj := Obj)) (f : fakeWatcher (Obj := Obj)).
Implicit Types ev : EventType * Obj.

#[export] Instance before_total : Total (before (Obj := Obj)).
Proof. intros x y. apply key_le_total. Qed.
#[export] Instance before_trans : Transitive (before (Obj := Obj)).
Proof. intros x y z. apply key_le_trans. Qed.

(** *** Watchers *)

Definition push ev f : fakeWatcher :=
  if w_Stopped f then f
  else {| w_sent := w_sent f ++ [ev]; w_received := w_received f; w_Stopped := false |}.

Lemma w_send_push ev f f' : w_send ev f = Some f' → f' = push ev f.
Proof. unfold w_send, push. destruct (w_Stopped f) eqn:?; [congruence|]. case_bool_decide; congruence. Qed.

Lemma notify_length watches ev fs b fs' :
  notify watches ev fs = (b, fs') → length fs' = length fs.
Proof.
  revert fs. induction watches as [|i ws IH]; simpl; intros fs; [congruence|].
  destruct (fs !! i) as [f|]; [|apply IH]. destruct (w_send ev f); [|congruence].
  intros ->%IH. by rw length_insert.
Qed.

(** A notification that does not panic appends the event to the listed channels and
    leaves the others alone. *)
Lemma notify_lookup watches ev fs fs' j :
  notify watches ev fs = (false, fs') → NoDup watches →
  fs' !! j = if decide (j ∈ watches) then push ev <$> fs !! j else fs !! j.
Proof.
  revert fs. induction watches as [|i ws IH]; cbn [notify]; intros fs Hn Hd.
  - simplify_eq. case_decide as Hj; [by apply elem_of_nil in Hj|done].
  - apply NoDup_cons in Hd as [Hi Hd].
    assert (∀ f : option fakeWatcher, (if decide (j ∈ ws) then push ev <$> f else f)
                 = if decide (j ∈ i :: ws) then if decide (i = j) then f else push ev <$> f else f) as Hif.
    { intros f. repeat case_decide; set_solver. }
    destruct (fs !! i) as [f|] eqn:Hf.
    + destruct (w_send ev f) as [f'|] eqn:Hs; [|done]. apply w_send_push in Hs as ->.
      rw (IH _ Hn Hd) Hif. destruct (decide (i = j)) as [->|Hne].
      * rw list_lookup_insert_eq; [by eapply lookup_lt_Some|]. rw Hf.
        destruct (decide (j ∈ j :: ws)) as [|Hj]; [done|]. destruct Hj. by left.
      * by rw list_lookup_insert_ne.
    + rw (IH _ Hn Hd) Hif. destruct (decide (i = j)) as [->|Hne]; [|done].
      rw Hf. by destruct (decide (j ∈ j :: ws)).
Qed.

(** *** Changes *)

(** What an event does to a copy of the objects of a resource. *)
Definition apply_event (m : gmap (string * string) Obj) ev : gmap (string * string) Obj :=
  match ev with
  | (Deleted, obj) => delete (keyOf obj) m
  | (_, obj) => <[keyOf obj := obj]> m
  end.

(** A change of one object of [gvr] by a call at the namespace [ns]. *)
Record changes gvr ns ev t t' : Prop := {
  ch_objects g : objectsOf t' g = if decide (g = gvr) then apply_event (objectsOf t gvr) ev
                                  else objectsOf t g;
  ch_watchers : tr_watchers t' = tr_watchers t;
  ch_fakes : notify (getWatches t gvr ns) ev (tr_fakes t) = (false, tr_fakes t');
}.

(** No visible change. *)
Record same t t' : Prop := {
  same_objects g : objectsOf t' g = objectsOf t g;
  same_watchers : tr_watchers t' = tr_watchers t;
  same_fakes : tr_fakes t' = tr_fakes t;
}.

Lemma same_refl t : same t t.
Proof. by split. Qed.

Lemma objectsOf_with gvr m t0 t g :
  objectsOf (with_objects (<[gvr := m]> (tr_objects t0)) t) g
  = if decide (g = gvr) then m else objectsOf t0 g.
Proof.
  unfold objectsOf, with_objects. simpl. rw lookup_insert. repeat case_decide; congruence || done.
Qed.

Lemma objectsOf_fakes fs t g : objectsOf (with_fakes fs t) g = objectsOf t g.
Proof. done. Qed.

Lemma same_touch gvr t : same t (with_objects (<[gvr := objectsOf t gvr]> (tr_objects t)) t).
Proof. split; [|done..]. intros g. rw objectsOf_with. case_decide; congruence. Qed.

(** Some watcher's channel is full. *)
Definition full t : Prop :=
  ∃ i f, tr_fakes t !! i = Some f ∧ w_Stopped f = false ∧
         DefaultChanSize ≤ length (w_sent f) - w_received f.

Lemma notify_full watches ev fs fs' t :
  notify watches ev fs = (true, fs') → tr_fakes t = fs' → full t.
Proof.
  revert fs. induction watches as [|i ws IH]; cbn [notify]; intros fs Hn Ht; [done|].
  destruct (fs !! i) as [f|] eqn:Hf; [|by eapply IH].
  destruct (w_send ev f) as [f'|] eqn:Hs; [by eapply IH|]. simplify_eq.
  exists i, f. unfold w_send in Hs. destruct (w_Stopped f); [done|].
  case_bool_decide; [done|]. split_and!; [done|done|lia].
Qed.

(** [add] at the object's own namespace: what it answers and does. *)
Lemma tracker_add_own gvr obj (m : ObjectMetaView) ns replace t r t' :
  Accessor obj = Some m → mo_Namespace m = ns → ro_SetNamespace ns obj = obj →
  tracker_add gvr obj ns replace t = (r, t') →
  match objectsOf t gvr !! (ns, mo_Name m) with
  | Some _ =>
      if replace
      then (r = channel_full ∧ full t') ∨ (r = Done (Ok tt) ∧ changes gvr ns (Modified, obj) t t')
      else r = Done (Err (StatusError (NewAlreadyExists (gvr_GroupResource gvr) (mo_Name m)))) ∧ same t t'
  | None =>
      if replace
      then r = Done (Err (StatusError (NewNotFound (gvr_GroupResource gvr) (mo_Name m)))) ∧ same t t'
      else (r = channel_full ∧ full t') ∨ (r = Done (Ok tt) ∧ changes gvr ns (Added, obj) t t')
  end.
Proof.
  intros Hm Hns Hset. unfold tracker_add. rw Hm.
  assert ((if decide (mo_Namespace m = "") then ro_SetNamespace ns obj else obj) = obj) as ->
    by by case_decide.
  assert ((if decide (mo_Namespace m = "") then ns else mo_Namespace m) = ns) as ->
    by by case_decide.
  case_decide as Hne; [by destruct Hne|].
  assert (keyOf obj = (ns, mo_Name m)) as Hk by (unfold keyOf; by rw Hm Hns).
  destruct (objectsOf t gvr !! (ns, mo_Name m)) as [o|], replace; cbv beta iota zeta; intros H.
  - destruct (notify _ _ _) as [b fs] eqn:Hn in H. destruct b; simplify_eq;
      [left; split; [done|by eapply notify_full]|right].
    split; [done|]. split; [|done|done]. intros g. rw objectsOf_with.
    case_decide; subst; [by rw /= Hk|]. rw objectsOf_with. by case_decide.
  - simplify_eq. split; [done|]. apply same_touch.
  - simplify_eq. split; [done|]. apply same_touch.
  - destruct (notify _ _ _) as [b fs] eqn:Hn in H. destruct b; simplify_eq;
      [left; split; [done|by eapply notify_full]|right].
    split; [done|]. split; [|done|done]. intros g. rw objectsOf_fakes objectsOf_with.
    case_decide; subst; [by rw /= Hk|]. rw objectsOf_with. by case_decide.
Qed.

(** [add] at another namespace than the object's is a bad request. *)
Lemma tracker_add_foreign gvr obj (m : ObjectMetaView) ns replace t :
  Accessor obj = Some m → mo_Namespace m ≠ "" → mo_Namespace m ≠ ns →
  tracker_add gvr obj ns replace t = (Done (Err (namespaceMismatch ns (mo_Namespace m))), t).
Proof.
  intros Hm Hne Hns. unfold tracker_add. rw Hm.
  assert ((if decide (mo_Namespace m = "") then ns else mo_Namespace m) = mo_Namespace m) as ->
    by by case_decide.
  case_decide as Hd; [done|]. by destruct Hd.
Qed.

Lemma tracker_Delete_spec gvr ns name t r t' :
  (∀ obj, objectsOf t gvr !! (ns, name) = Some obj → keyOf obj = (ns, name)) →
  tracker_Delete gvr ns name t = (r, t') →
  match objectsOf t gvr !! (ns, name) with
  | Some obj => (r = channel_full ∧ full t') ∨ (r = Done (Ok tt) ∧ changes gvr ns (Deleted, obj) t t')
  | None => r = Done (Err (StatusError (NewNotFound (gvr_GroupResource gvr) name))) ∧ same t t'
  end.
Proof.
  intros Hkey. unfold tracker_Delete. unfold objectsOf at 1 in Hkey. unfold objectsOf at 1.
  destruct (tr_objects t !! gvr) as [objs|] eqn:Hg; simpl in *.
  - destruct (objs !! (ns, name)) as [obj|] eqn:Ho; cbv beta zeta; intros H.
    + destruct (notify _ _ _) as [b fs] eqn:Hn in H. destruct b; simplify_eq;
      [left; split; [done|by eapply notify_full]|right].
      split; [done|]. split; [|done|done]. intros g. rw objectsOf_fakes objectsOf_with.
      case_decide; subst; [|done]. by rw /= (Hkey obj eq_refl) /objectsOf Hg.
    + simplify_eq. split; [done|apply same_refl].
  - intros [= <- <-]. rw lookup_empty. split; [done|apply same_refl].
Qed.

Lemma tracker_Get_objectsOf t gvr ns name :
  (∀ obj, objectsOf t gvr !! (ns, name) = Some obj → ro_Status obj = None) →
  tracker_Get t gvr ns name =
  match objectsOf t gvr !! (ns, name) with
  | Some obj => Ok obj
  | None => Err (StatusError (NewNotFound (gvr_GroupResource gvr) name))
  end.
Proof.
  unfold tracker_Get, objectsOf. destruct (tr_objects t !! gvr) as [objs|]; simpl; [|done].
  intros Hs. destruct (objs !! (ns, name)) as [obj|]; [|done]. by rw Hs.
Qed.

(** Listing all namespaces gives every object, ordered by its key. *)
Lemma filterByNamespace_all (objs : gmap (string * string) Obj) (sorted : list Obj) :
  (∀ k obj, objs !! k = Some obj → is_Some (Accessor obj) ∧ keyOf obj = k) →
  StronglySorted before sorted → sorted ≡ₚ (map_to_list objs).*2 →
  filterByNamespace objs "" = Ok sorted.
Proof.
  intros Hobjs Hs Hp. unfold filterByNamespace.
  assert (∀ obj, obj ∈ (map_to_list objs).*2 → objs !! keyOf obj = Some obj) as Hin.
  { intros obj ([k o] & -> & Hk%elem_of_map_to_list)%list_elem_of_fmap. simpl.
    by destruct (Hobjs _ _ Hk) as [_ ->]. }
  rw (mapE_total _ (λ obj, [obj])).
  { intros obj Ho%Hin. destruct (Hobjs _ _ Ho) as [[m ->] _]. by rw bool_decide_eq_false_2; [intros []|]. }
  simpl. f_equal. rw concat_singletons. symmetry.
  apply (StronglySorted_unique_strong before).
  - intros x y Hx Hy Hxy Hyx. pose proof (key_le_antisym _ _ Hxy Hyx) as Hk.
    rw Hp in Hx. rw merge_sort_Permutation in Hy. apply Hin in Hx, Hy. congruence.
  - done.
  - apply StronglySorted_merge_sort; apply _.
  - by rw merge_sort_Permutation.
Qed.

(** *** Well-formed trackers *)

Record tracker_wf t : Prop := {
  wf_objects gvr k obj : objectsOf t gvr !! k = Some obj → is_Some (Accessor obj) ∧ keyOf obj = k;
  wf_watch gvr i : i ∈ getWatches t gvr "" → i < length (tr_fakes t);
  wf_nodup gvr : NoDup (getWatches t gvr "");
  wf_disjoint gvr gvr' i : i ∈ getWatches t gvr "" → i ∈ getWatches t gvr' "" → gvr = gvr';
}.

(** The watcher [i], made when the objects of [gvr] were [m0], was told of everything
    that happened to them since, unless it was stopped. *)
Definition coherent gvr (i : nat) (m0 : gmap (string * string) Obj) t : Prop :=
  i ∈ getWatches t gvr "" ∧
  ∃ f, tr_fakes t !! i = Some f ∧
       (w_Stopped f = false → foldl apply_event m0 (w_sent f) = objectsOf t gvr).

Lemma getWatches_same t t' gvr ns :
  tr_watchers t' = tr_watchers t → getWatches t' gvr ns = getWatches t gvr ns.
Proof. intros H. unfold getWatches. by rw H. Qed.

Lemma tracker_wf_new : tracker_wf NewObjectTracker.
Proof.
  split.
  - intros gvr k obj. unfold objectsOf. simpl. by rw !lookup_empty.
  - intros gvr i. unfold getWatches. simpl. by rw lookup_empty elem_of_nil.
  - intros gvr. unfold getWatches. simpl. rw lookup_empty. constructor.
  - intros gvr gvr' i. unfold getWatches. simpl. by rw lookup_empty elem_of_nil.
Qed.

(** A step that keeps the registry of watchers and their number. *)
Lemma tracker_wf_frame t t' :
  tracker_wf t → tr_watchers t' = tr_watchers t → length (tr_fakes t') = length (tr_fakes t) →
  (∀ gvr k obj, objectsOf t' gvr !! k = Some obj → is_Some (Accessor obj) ∧ keyOf obj = k) →
  tracker_wf t'.
Proof.
  intros [_ Hw Hn Hd] E El Ho. split; [done|..]; intros gvr; rw (getWatches_same t t' _ _ E).
  - intros i. rw El. apply Hw.
  - apply Hn.
  - intros gvr' i. rw (getWatches_same t t' _ _ E). apply Hd.
Qed.

Lemma apply_event_key (m : gmap (string * string) Obj) ev k obj :
  apply_event m ev !! k = Some obj → (k = keyOf ev.2 ∧ obj = ev.2) ∨ m !! k = Some obj.
Proof.
  destruct ev as [[] o]; cbn [apply_event snd];
    try (rw lookup_insert_Some; intros [[<- <-]|[_ ?]]; [by left|by right]).
  rw lookup_delete_Some. intros [_ ?]. by right.
Qed.

Lemma changes_wf gvr ns ev t t' :
  changes gvr ns ev t t' → is_Some (Accessor ev.2) → tracker_wf t → tracker_wf t'.
Proof.
  intros [Ho Hw Hf] Ha Hwf. apply (tracker_wf_frame t); [done|done|by eapply notify_length|].
  intros g k obj. rw Ho. case_decide; [subst|apply (wf_objects _ Hwf)].
  intros [[-> ->]|Hm]%apply_event_key; [done|by apply (wf_objects _ Hwf) in Hm].
Qed.

Lemma same_wf t t' : same t t' → tracker_wf t → tracker_wf t'.
Proof.
  intros [Ho Hw Hf] Hwf. apply (tracker_wf_frame t); [done|done|by rw Hf|].
  intros g k obj. rw Ho. apply (wf_objects _ Hwf).
Qed.

Lemma changes_coherent gvr ev t t' g i m0 :
  changes gvr "" ev t t' → tracker_wf t → coherent g i m0 t → coherent g i m0 t'.
Proof.
  intros [Ho Hw Hf] Hwf (Hi & f & Hif & Hm). split; [by rw (getWatches_same _ _ _ _ Hw)|].
  pose proof (notify_lookup _ _ _ _ i Hf (wf_nodup _ Hwf gvr)) as Hl. rw Hif in Hl.
  destruct (decide (i ∈ getWatches t gvr "")) as [Hin|Hin].
  - pose proof (wf_disjoint _ Hwf _ _ _ Hin Hi) as ->. eexists. split; [exact Hl|].
    rw Ho. rw decide_True //. unfold push. destruct (w_Stopped f) eqn:Hs; simpl; [congruence|].
    intros _. rw foldl_app /=. by rw Hm.
  - exists f. split; [done|]. intros Hs. rw Ho. case_decide; [by subst|]. by apply Hm.
Qed.

Lemma same_coherent t t' g i m0 : same t t' → coherent g i m0 t → coherent g i m0 t'.
Proof.
  intros [Ho Hw Hf] (Hi & f & Hif & Hm). split; [by rw (getWatches_same _ _ _ _ Hw)|].
  exists f. by rw Hf Ho.
Qed.

Lemma getWatches_Watch gvr t g :
  getWatches (tracker_Watch gvr "" t).2 g "" =
  getWatches t g "" ++ (if decide (g = gvr) then [length (tr_fakes t)] else []).
Proof.
  unfold getWatches, tracker_Watch. simpl. case_decide as Hg; [subst|].
  - rw lookup_insert_eq lookup_insert_eq /= app_nil_r. destruct (tr_watchers t !! gvr); simpl; [|done].
    by rw app_nil_r.
  - by rw lookup_insert_ne // app_nil_r.
Qed.

Lemma Watch_wf gvr t : tracker_wf t → tracker_wf (tracker_Watch gvr "" t).2.
Proof.
  intros Hwf. pose proof (wf_watch _ Hwf) as Hw. split.
  - apply (wf_objects _ Hwf).
  - intros g i. rw getWatches_Watch /= length_app /= elem_of_app. intros [Hi%Hw|Hi]; [lia|].
    case_decide; set_solver by lia.
  - intros g. rw getWatches_Watch NoDup_app. split_and!; [apply (wf_nodup _ Hwf)| |].
    + intros i Hi%Hw. case_decide; [|apply not_elem_of_nil]. rw list_elem_of_singleton. lia.
    + case_decide; [apply NoDup_singleton|constructor].
  - intros g g' i. rw !getWatches_Watch !elem_of_app.
    assert (∀ g, i ∈ (if decide (g = gvr) then [length (tr_fakes t)] else []) →
                 g = gvr ∧ i = length (tr_fakes t)) as Hnew
      by (intros g0; case_decide; rw ?list_elem_of_singleton ?elem_of_nil; tauto).
    intros [Hi|[-> ->]%Hnew] [Hi'|[-> Hi']%Hnew].
    + by apply (wf_disjoint _ Hwf _ _ i).
    + apply Hw in Hi. lia.
    + apply Hw in Hi'. lia.
    + done.
Qed.

Lemma Watch_coherent gvr t g i m0 :
  coherent g i m0 t → coherent g i m0 (tracker_Watch gvr "" t).2.
Proof.
  intros (Hi & f & Hif & Hm). split; [rw getWatches_Watch elem_of_app; by left|].
  exists f. split; [|done]. simpl. by apply lookup_app_l_Some.
Qed.

(** A new watcher is coherent with the objects it was made over. *)
Lemma Watch_new gvr t i t' :
  tracker_Watch gvr "" t = (i, t') → coherent gvr i (objectsOf t' gvr) t'.
Proof.
  intros H. pose proof (getWatches_Watch gvr t gvr) as Hg. rw H decide_True // in Hg.
  unfold tracker_Watch in H. simplify_eq. split; [rw Hg; set_solver|].
  exists NewRaceFreeFake. split; [|done]. simpl. rw lookup_app_r; [lia|]. by rw Nat.sub_diag.
Qed.

(** Touching one watcher's channel without changing what was sent into it. *)
Lemma fakes_frame t i f f' :
  tr_fakes t !! i = Some f → w_sent f' = w_sent f → (w_Stopped f' = false → w_Stopped f = false) →
  tracker_wf t →
  tracker_wf (with_fakes (<[i := f']> (tr_fakes t)) t) ∧
  ∀ g j m0, coherent g j m0 t → coherent g j m0 (with_fakes (<[i := f']> (tr_fakes t)) t).
Proof.
  intros Hi Hs Hst Hwf. split.
  - apply (tracker_wf_frame t); [done|done|simpl; by rw length_insert|apply (wf_objects _ Hwf)].
  - intros g j m0 (Hj & f0 & Hf & Hm). split; [done|]. simpl. destruct (decide (i = j)) as [->|Hne].
    + exists f'. split; [apply list_lookup_insert_eq; by eapply lookup_lt_Some|].
      simplify_eq. rw Hs. auto.
    + exists f0. by rw list_lookup_insert_ne.
Qed.

Lemma receive_frame i t ev t' :
  receive i t = Some (ev, t') → tracker_wf t →
  tracker_wf t' ∧ (∀ g, objectsOf t' g = objectsOf t g) ∧
  ∀ g j m0, coherent g j m0 t → coherent g j m0 t'.
Proof.
  unfold receive. intros (f & Hf & H)%bind_Some Hwf. apply bind_Some in H as ([ev' f'] & Hr & H).
  simplify_eq. unfold w_receive in Hr. apply bind_Some in Hr as (e & _ & [= <- <-]).
  match goal with |- tracker_wf (with_fakes (<[_ := ?f']> _) _) ∧ _ =>
    destruct (fakes_frame t i f f' Hf eq_refl id Hwf) as [H1 H2] end.
  by split_and!.
Qed.

Lemma stop_frame i t t' :
  stop i t = Some t' → tracker_wf t →
  tracker_wf t' ∧ (∀ g, objectsOf t' g = objectsOf t g) ∧
  ∀ g j m0, coherent g j m0 t → coherent g j m0 t'.
Proof.
  unfold stop. intros (f & Hf & [= <-])%bind_Some Hwf.
  assert (w_Stopped (w_Stop f) = false → w_Stopped f = false) as Hs by done.
  destruct (fakes_frame t i f (w_Stop f) Hf eq_refl Hs Hwf) as [H1 H2]. by split_and!.
Qed.
End TrackerFacts.
