(* ===== verification/RestMapper.v ===== *)
(** * The REST mapper of the CEL plugin

    [main.go] gives the plugin a mapper from kinds to resources that it makes from the
    API server's discovery at the first use and wants to refresh every minute:
    [meta.NewLazyRESTMapperLoader] over [restmapper.NewDiscoveryRESTMapper], with
    [meta]'s default, union and priority mappers.  Of the interface, the two methods the
    CEL evaluator calls, [RESTMapping] and [KindsFor], and [Reset]. *)
From S2P Require Import Prelude GoStrings ApiMachinery Scheme ObjectTracker.
From stdpp Require Import sorting.

#[local] Set Warnings "-register-all".

Implicit Types (gv : GroupVersion) (gvk : GroupVersionKind) (gk : GroupKind) (gvr : GroupVersionResource).

Definition WithVersion gk (version : string) : GroupVersionKind :=
  {| gvk_Group := gk_Group gk; gvk_Version := version; gvk_Kind := gk_Kind gk |}.
Definition gv_WithResource gv (resource : string) : GroupVersionResource :=
  {| gvr_Group := gv_Group gv; gvr_Version := gv_Version gv; gvr_Resource := resource |}.

(** [GroupVersion.String]. *)
Definition gv_String gv : string :=
  if decide (gv_Group gv = "") then gv_Version gv else gv_Group gv +:+ "/" +:+ gv_Version gv.

(** ** Mappings and errors *)

Inductive RESTScope := RESTScopeNamespace | RESTScopeRoot.

Record RESTMapping := {
  rm_Resource : GroupVersionResource;
  rm_GroupVersionKind : GroupVersionKind;
  rm_Scope : RESTScope;
}.

Inductive mapError :=
| NoResourceMatchError (PartialResource : GroupVersionResource)
| NoKindMatchError (GroupKind : GroupKind) (SearchedVersions : list string)
| AmbiguousKindError (PartialKind : GroupVersionKind) (MatchingKinds : list GroupVersionKind)
| Aggregate (errs : list mapError)
| OtherError (err : error).

Fixpoint IsNoMatchError (err : mapError) : bool :=
  match err with
  | NoResourceMatchError _ | NoKindMatchError _ _ => true
  | Aggregate errs => existsb IsNoMatchError errs
  | AmbiguousKindError _ _ | OtherError _ => false
  end.

(** ** DefaultRESTMapper *)

Record DefaultRESTMapper := {
  dm_defaultGroupVersions : list GroupVersion;
  dm_resourceToKind : gmap GroupVersionResource GroupVersionKind;
  dm_kindToPluralResource : gmap GroupVersionKind GroupVersionResource;
  dm_kindToScope : gmap GroupVersionKind RESTScope;
  dm_singularToPlural : gmap GroupVersionResource GroupVersionResource;
  dm_pluralToSingular : gmap GroupVersionResource GroupVersionResource;
}.
Implicit Types (m : DefaultRESTMapper) (versions : list string).

Definition NewDefaultRESTMapper (defaultGroupVersions : list GroupVersion) : DefaultRESTMapper :=
  {| dm_defaultGroupVersions := defaultGroupVersions; dm_resourceToKind := ∅; dm_kindToPluralResource := ∅;
     dm_kindToScope := ∅; dm_singularToPlural := ∅; dm_pluralToSingular := ∅ |}.

Definition AddSpecific gvk (plural singular : GroupVersionResource) (scope : RESTScope) m : DefaultRESTMapper :=
  {| dm_defaultGroupVersions := dm_defaultGroupVersions m;
     dm_resourceToKind := <[plural := gvk]> (<[singular := gvk]> (dm_resourceToKind m));
     dm_kindToPluralResource := <[gvk := plural]> (dm_kindToPluralResource m);
     dm_kindToScope := <[gvk := scope]> (dm_kindToScope m);
     dm_singularToPlural := <[singular := plural]> (dm_singularToPlural m);
     dm_pluralToSingular := <[plural := singular]> (dm_pluralToSingular m) |}.

(** The singular that [UnsafeGuessKindToResource] guesses, next to its plural. *)
Definition guessSingular gvk : GroupVersionResource :=
  if decide (gvk_Kind gvk = "") then {| gvr_Group := ""; gvr_Version := ""; gvr_Resource := "" |}
  else gv_WithResource (gvk_GroupVersion gvk) (ToLower (gvk_Kind gvk)).

Definition dm_Add gvk (scope : RESTScope) m : DefaultRESTMapper :=
  AddSpecific gvk (UnsafeGuessKindToResource gvk) (guessSingular gvk) scope m.

(** The kinds to look up: the first searched version that is known, or all preferred
    versions if no version was searched. *)
Definition searched versions : list string := filter (λ v, v ≠ "" ∧ v ≠ APIVersionInternal) versions.
Definition potentialGVK m gk versions : list GroupVersionKind :=
  match searched versions with
  | [] => WithVersion gk ∘ gv_Version <$> filter (λ gv, gv_Group gv = gk_Group gk) (dm_defaultGroupVersions m)
  | vs => take 1 (filter (λ gvk, is_Some (dm_kindToPluralResource m !! gvk)) (WithVersion gk <$> vs))
  end.

(** The loop over them: a kind without a scope is an error. *)
Fixpoint mappingsOf m (gvks : list GroupVersionKind) : result mapError (list RESTMapping) :=
  match gvks with
  | [] => Ok []
  | gvk :: gvks =>
      match dm_kindToPluralResource m !! gvk with
      | None => mappingsOf m gvks
      | Some res =>
          match dm_kindToScope m !! gvk with
          | None => Err (OtherError (ErrorString ("the provided version " +:+ Quote (gv_String (gvk_GroupVersion gvk)) +:+
                      " and kind " +:+ Quote (gvk_Kind gvk) +:+ " cannot be mapped to a supported scope")))
          | Some scope =>
              mappings ← mappingsOf m gvks;
              Ok ({| rm_Resource := res; rm_GroupVersionKind := gvk; rm_Scope := scope |} :: mappings)
          end
      end
  end.

Definition default_RESTMappings m gk versions : result mapError (list RESTMapping) :=
  match potentialGVK m gk versions with
  | [] => Err (NoKindMatchError gk versions)
  | gvks =>
      mappings ← mappingsOf m gvks;
      match mappings with
      | [] => Err (NoResourceMatchError {| gvr_Group := gk_Group gk; gvr_Version := ""; gvr_Resource := gk_Kind gk |})
      | _ => Ok mappings
      end
  end.

(** [coerceResourceForMatching]. *)
Definition coerceResourceForMatching gvr : GroupVersionResource :=
  {| gvr_Group := gvr_Group gvr;
     gvr_Version := if decide (gvr_Version gvr = APIVersionInternal) then "" else gvr_Version gvr;
     gvr_Resource := ToLower (gvr_Resource gvr) |}.

Definition lastIndex (gvs : list GroupVersion) gv : Z :=
  foldl (λ i '(j, gv'), if decide (gv' = gv) then Z.of_nat j else i) (-1)%Z (imap pair gvs).

(** [kindByPreferredGroupVersion.Less]. *)
Definition kindLess (sortOrder : list GroupVersion) (lhs rhs : GroupVersionKind) : bool :=
  if decide (lhs = rhs) then false
  else if decide (gvk_GroupVersion lhs = gvk_GroupVersion rhs)
  then negb (string_le (gvk_Kind rhs) (gvk_Kind lhs))
  else let lhsIndex := lastIndex sortOrder (gvk_GroupVersion lhs) in
       let rhsIndex := lastIndex sortOrder (gvk_GroupVersion rhs) in
       bool_decide (rhsIndex = -1)%Z || (lhsIndex <? rhsIndex)%Z.

Definition kindLe (sortOrder : list GroupVersion) (a b : GroupVersionKind) : Prop := kindLess sortOrder b a = false.
#[export] Instance kindLe_dec sortOrder : RelDecision (kindLe sortOrder).
Proof. intros a b. unfold kindLe. apply _. Defined.

(** The entries of [resourceToKind] a partial resource matches, sorted: the order in which
    the code's map yields them does not matter, as [Less] orders all kinds of the default
    versions, and a discovery mapper has no others. *)
Definition default_KindsFor m gvr : result mapError (list GroupVersionKind) :=
  let resource := coerceResourceForMatching gvr in
  let hasGroup := bool_decide (gvr_Group resource ≠ "") in
  let hasVersion := bool_decide (gvr_Version resource ≠ "") in
  let matching (f : GroupVersionResource → bool) :=
    (filter (λ e, f e.1 = true) (map_to_list (dm_resourceToKind m))).*2 in
  if decide (gvr_Resource resource = "") then Err (OtherError (ErrorString ("a resource must be present, got: " +:+ gvr_String resource)))
  else
    let ret :=
      if hasGroup && hasVersion then
        match dm_resourceToKind m !! resource with Some gvk => [gvk] | None => [] end
      else if hasGroup then
        match matching (λ r, bool_decide (gvr_GroupResource r = gvr_GroupResource resource)) with
        | [] => matching (λ r, HasPrefix (gvr_Group r) (gvr_Group resource) &&
                               bool_decide (gvr_Resource r = gvr_Resource resource))
        | exact => exact
        end
      else if hasVersion then
        matching (λ r, bool_decide (gvr_Version r = gvr_Version resource) &&
                       bool_decide (gvr_Resource r = gvr_Resource resource))
      else matching (λ r, bool_decide (gvr_Resource r = gvr_Resource resource)) in
    match ret with
    | [] => Err (NoResourceMatchError gvr)
    | _ => Ok (merge_sort (kindLe (dm_defaultGroupVersions m)) ret)
    end.

(** ** The mappers as one type *)

Inductive RESTMapper :=
| DefaultMapper (m : DefaultRESTMapper)
| MultiRESTMapper (ts : list RESTMapper)
| PriorityRESTMapper (Delegate : RESTMapper) (KindPriority : list GroupVersionKind).

(** The results of a union's members: "no match" is skipped. *)
Fixpoint collect {A} (rs : list (result mapError A)) : list A * list mapError :=
  match rs with
  | [] => ([], [])
  | r :: rs =>
      let '(oks, errs) := collect rs in
      match r with
      | Ok a => (a :: oks, errs)
      | Err err => if IsNoMatchError err then (oks, errs) else (oks, err :: errs)
      end
  end.

Fixpoint RESTMappings (t : RESTMapper) gk versions : result mapError (list RESTMapping) :=
  match t with
  | DefaultMapper m => default_RESTMappings m gk versions
  | MultiRESTMapper ts =>
      match collect (map (λ t, RESTMappings t gk versions) ts) with
      | (_, (_ :: _) as errors) => Err (Aggregate errors)
      | (allMappings, []) =>
          match concat allMappings with
          | [] => Err (NoKindMatchError gk versions)
          | mappings => Ok mappings
          end
      end
  | PriorityRESTMapper Delegate _ => RESTMappings Delegate gk versions
  end.

(** Members are asked in turn; the first error that is not "no match" ends it. *)
Fixpoint unionKinds (rs : list (result mapError (list GroupVersionKind))) (all : list GroupVersionKind) :
    result mapError (list GroupVersionKind) :=
  match rs with
  | [] => Ok all
  | Ok gvks :: rs => unionKinds rs (foldl (λ all curr, if decide (curr ∈ all) then all else all ++ [curr]) all gvks)
  | Err err :: rs => if IsNoMatchError err then unionKinds rs all else Err err
  end.

Fixpoint KindsFor (t : RESTMapper) gvr : result mapError (list GroupVersionKind) :=
  match t with
  | DefaultMapper m => default_KindsFor m gvr
  | MultiRESTMapper ts =>
      match unionKinds (map (λ t, KindsFor t gvr) ts) [] with
      | Ok [] => Err (NoResourceMatchError gvr)
      | r => r
      end
  | PriorityRESTMapper Delegate _ => KindsFor Delegate gvr
  end.

Definition Any : string := "*".

Definition kindMatches (pattern kind : GroupVersionKind) : bool :=
  (bool_decide (gvk_Group pattern = Any) || bool_decide (gvk_Group pattern = gvk_Group kind)) &&
  (bool_decide (gvk_Version pattern = Any) || bool_decide (gvk_Version pattern = gvk_Version kind)) &&
  (bool_decide (gvk_Kind pattern = Any) || bool_decide (gvk_Kind pattern = gvk_Kind kind)).

(** The loop over the priorities: the one match, or what remains. *)
Fixpoint narrow (priorities : list GroupVersionKind) (remaining : list RESTMapping) : list RESTMapping :=
  match priorities with
  | [] => remaining
  | pattern :: priorities =>
      match filter (λ r, kindMatches pattern (rm_GroupVersionKind r) = true) remaining with
      | [] => narrow priorities remaining
      | [r] => [r]
      | matching => narrow priorities matching
      end
  end.

Fixpoint RESTMapping_of (t : RESTMapper) gk versions : result mapError RESTMapping :=
  match t with
  | DefaultMapper m =>
      mappings ← default_RESTMappings m gk versions;
      match mappings with
      | [] => Err (NoKindMatchError gk versions)
      | r :: _ => Ok r
      end
  | MultiRESTMapper ts =>
      match collect (map (λ t, RESTMapping_of t gk versions) ts) with
      | ([r], _) => Ok r
      | ((_ :: _) as rs, _) => Err (AmbiguousKindError (WithVersion gk "") (rm_GroupVersionKind <$> rs))
      | ([], (_ :: _) as errors) => Err (Aggregate errors)
      | ([], []) => Err (NoKindMatchError gk versions)
      end
  | PriorityRESTMapper Delegate KindPriority =>
      mappings ← RESTMappings Delegate gk versions;
      let priorities :=
        ((λ version, {| gvk_Group := gk_Group gk; gvk_Version := version; gvk_Kind := Any |}) <$> versions)
        ++ KindPriority in
      match narrow priorities mappings with
      | [r] => Ok r
      | _ => Err (AmbiguousKindError (WithVersion gk "") (rm_GroupVersionKind <$> mappings))
      end
  end.

(** [MaybeResetRESTMapper]: a [DefaultRESTMapper] has no [Reset]; the others pass it on. *)
Fixpoint MaybeResetRESTMapper (t : RESTMapper) : RESTMapper :=
  match t with
  | DefaultMapper m => DefaultMapper m
  | MultiRESTMapper ts => MultiRESTMapper (map MaybeResetRESTMapper ts)
  | PriorityRESTMapper Delegate KindPriority => PriorityRESTMapper (MaybeResetRESTMapper Delegate) KindPriority
  end.

(** ** Discovery

    [metav1]'s discovery types, as far as they are read. *)
Record APIResource := { dr_Name : string; dr_SingularName : string; dr_Namespaced : bool; dr_Kind : string }.
Record APIResourceList := { rl_GroupVersion : string; rl_APIResources : list APIResource }.
Record GroupVersionForDiscovery := { gd_GroupVersion : string; gd_Version : string }.
Record APIGroup := {
  ag_Name : string;
  ag_Versions : list GroupVersionForDiscovery;
  ag_PreferredVersion : GroupVersionForDiscovery;
}.
Record APIGroupResources := { gr_APIGroup : APIGroup; gr_VersionedResources : gmap string (list APIResource) }.

(** What [ServerGroupsAndResources] returns: both lists can be there together with an
    error. *)
Record discovery := {
  di_groups : option (list APIGroup);
  di_resources : option (list APIResourceList);
  di_err : option error;
}.
Implicit Types d : discovery.

Definition versionedResources (rsm : gmap string (list APIResource)) (group : APIGroup) :
    gmap string (list APIResource) :=
  foldl (λ vr version, match rsm !! gd_GroupVersion version with
                       | Some resources => <[gd_Version version := resources]> vr
                       | None => vr
                       end) ∅ (ag_Versions group).

Definition GetAPIGroupResources d : result error (list APIGroupResources) :=
  match di_resources d, di_groups d with
  | Some rs, Some gs =>
      let rsm := foldl (λ rsm r, <[rl_GroupVersion r := rl_APIResources r]> rsm) ∅ rs in
      Ok ((λ group, {| gr_APIGroup := group; gr_VersionedResources := versionedResources rsm group |}) <$> gs)
  | _, _ => match di_err d with Some err => Err err | None => Ok [] end
  end.

(** The loop over a version's resources: subresources are skipped. *)
Definition addResource gv m (resource : APIResource) : DefaultRESTMapper :=
  if Contains (dr_Name resource) "/" then m
  else
    let scope := if dr_Namespaced resource then RESTScopeNamespace else RESTScopeRoot in
    let plural := gv_WithResource gv (dr_Name resource) in
    let singular := if decide (dr_SingularName resource = "")
                    then guessSingular (WithKind gv (dr_Kind resource))
                    else gv_WithResource gv (dr_SingularName resource) in
    let m := AddSpecific (WithKind gv (ToLower (dr_Kind resource))) plural singular scope m in
    let m := AddSpecific (WithKind gv (dr_Kind resource)) plural singular scope m in
    dm_Add (WithKind gv (dr_Kind resource +:+ "List")) scope m.

Definition versionMapper gv (resources : list APIResource) : DefaultRESTMapper :=
  dm_Add (WithKind gv "List") RESTScopeRoot (foldl (addResource gv) (NewDefaultRESTMapper [gv]) resources).

Definition groupMappers (group : APIGroupResources) : list RESTMapper :=
  omap (λ version,
    resources ← gr_VersionedResources group !! gd_Version version;
    Some (DefaultMapper (versionMapper {| gv_Group := ag_Name (gr_APIGroup group); gv_Version := gd_Version version |}
                                       resources)))
    (ag_Versions (gr_APIGroup group)).

(** The preferred version of a group first, then its others. *)
Definition groupPriorities (group : APIGroupResources) : list GroupVersionKind :=
  let anyKind version := {| gvk_Group := ag_Name (gr_APIGroup group); gvk_Version := version; gvk_Kind := Any |} in
  let preferred := gd_Version (ag_PreferredVersion (gr_APIGroup group)) in
  let known version := bool_decide (is_Some (gr_VersionedResources group !! version)) in
  (if bool_decide (preferred ≠ "") && known preferred then [anyKind preferred] else []) ++
  (anyKind <$> filter (λ version, known version = true ∧ version ≠ preferred)
                 (gd_Version <$> ag_Versions (gr_APIGroup group))).

Definition NewDiscoveryRESTMapper (groupResources : list APIGroupResources) : RESTMapper :=
  PriorityRESTMapper
    (MultiRESTMapper (concat (groupMappers <$> groupResources)))
    ({| gvk_Group := ""; gvk_Version := "v1"; gvk_Kind := Any |} ::
     concat (groupPriorities <$> groupResources) ++
     ((λ group, {| gvk_Group := ag_Name (gr_APIGroup group); gvk_Version := Any; gvk_Kind := Any |}) <$> groupResources)).

(** ** The lazy mapper, and the goroutine that refreshes it *)

(** The loader [main] makes: an error, or a mapper. *)
Definition loader d : result mapError RESTMapper :=
  match GetAPIGroupResources d with
  | Err err => Err (OtherError err)
  | Ok groupResources => Ok (NewDiscoveryRESTMapper groupResources)
  end.

(** [lazyObject]: not loaded, or loaded with an error or a mapper. *)
Definition lazyObject := option (result mapError RESTMapper).
Implicit Types o : lazyObject.

Definition lazy_init d o : result mapError RESTMapper := default (loader d) o.

Definition lazy_Reset o : lazyObject :=
  match o with
  | Some (Ok t) => Some (Ok (MaybeResetRESTMapper t))
  | _ => o
  end.

(** A call of the evaluator, at a moment when discovery would give an answer; a tick of
    the refreshing goroutine. *)
Inductive query := QRESTMapping gk versions | QKindsFor gvr.
Inductive answer := AMapping (r : result mapError RESTMapping) | AKinds (r : result mapError (list GroupVersionKind)).
Inductive mevent := Call (q : query) (d : discovery) | Refresh.

Definition ask (q : query) (loaded : result mapError RESTMapper) : answer :=
  match q, loaded with
  | QRESTMapping gk versions, Ok t => AMapping (RESTMapping_of t gk versions)
  | QRESTMapping _ _, Err err => AMapping (Err err)
  | QKindsFor gvr, Ok t => AKinds (KindsFor t gvr)
  | QKindsFor _, Err err => AKinds (Err err)
  end.

Definition mstep (e : mevent) o : option answer * lazyObject :=
  match e with
  | Call q d => let loaded := lazy_init d o in (Some (ask q loaded), Some loaded)
  | Refresh => (None, lazy_Reset o)
  end.

Fixpoint answers (es : list mevent) o : list answer :=
  match es with
  | [] => []
  | e :: es => let '(a, o) := mstep e o in option_list a ++ answers es o
  end.

(** ** Theorems *)

Lemma MaybeResetRESTMapper_id (t : RESTMapper) : MaybeResetRESTMapper t = t.
Proof.
  revert t. fix IH 1. intros [m|ts|t ps]; simpl; [done| |by rw IH].
  f_equal. induction ts as [|t ts IHts]; simpl; [done|]. by rw IH IHts.
Qed.

Lemma lazy_Reset_id o : lazy_Reset o = o.
Proof. destruct o as [[t|]|]; simpl; [by rw MaybeResetRESTMapper_id|done|done]. Qed.

Definition queries (es : list mevent) : list query :=
  omap (λ e, match e with Call q _ => Some q | Refresh => None end) es.

Lemma answers_loaded es loaded : answers es (Some loaded) = (λ q, ask q loaded) <$> queries es.
Proof.
  induction es as [|[q d|] es IH]; [done|..].
  - unfold queries in *. cbn [answers mstep omap list_omap]. simpl. by rw IH.
  - unfold queries in *. cbn [answers mstep omap list_omap]. rw lazy_Reset_id. simpl. by rw IH.
Qed.

(** C36: the refresh refreshes nothing: once the evaluator has asked the REST mapper
    anything, every later answer is that of the mapper, or the error, that the first
    use made of the API server's discovery, however often the mapper is reset and
    whatever discovery would say by then. *)
Theorem refresh_never_refreshes q d ticks es :
  (∀ e, e ∈ ticks → e = Refresh) →
  answers (ticks ++ Call q d :: es) None = (λ q, ask q (loader d)) <$> q :: queries es.
Proof.
  intros Hticks. induction ticks as [|e ticks IH]; simpl.
  - by rw answers_loaded.
  - rw (Hticks e); [by left|]. simpl. apply IH. intros e' He. apply Hticks. by right.
Qed.

(** *** A discovered kind is mapped

    What a mapper made of one version's resources has under a kind. *)
Definition written (resource : APIResource) : list string :=
  if Contains (dr_Name resource) "/" then []
  else [ToLower (dr_Kind resource); dr_Kind resource; dr_Kind resource +:+ "List"].

Definition maps_to m gvk (entry : option (GroupVersionResource * RESTScope)) : Prop :=
  dm_kindToPluralResource m !! gvk = fst <$> entry ∧ dm_kindToScope m !! gvk = snd <$> entry.

Lemma maps_to_AddSpecific gvk gvk' plural singular scope m entry :
  maps_to m gvk entry →
  maps_to (AddSpecific gvk' plural singular scope m) gvk (if decide (gvk' = gvk) then Some (plural, scope) else entry).
Proof.
  intros [H1 H2]. unfold maps_to. simpl. rw !lookup_insert. by destruct (decide (gvk' = gvk)).
Qed.

Lemma maps_to_same gvk plural singular scope m : maps_to (AddSpecific gvk plural singular scope m) gvk (Some (plural, scope)).
Proof. unfold maps_to. simpl. by rw !lookup_insert_eq. Qed.

Lemma maps_to_other gvk gvk' plural singular scope m entry :
  gvk' ≠ gvk → maps_to m gvk entry → maps_to (AddSpecific gvk' plural singular scope m) gvk entry.
Proof. intros Hne [H1 H2]. unfold maps_to. simpl. by rw !lookup_insert_ne. Qed.

Lemma WithKind_inj gv gv' k k' : WithKind gv k = WithKind gv' k' → gv = gv' ∧ k = k'.
Proof. destruct gv, gv'. by intros [= -> -> ->]. Qed.

(** Other resources leave the entry alone. *)
Lemma maps_to_addResource gv gv' k m resource entry :
  gv ≠ gv' ∨ k ∉ written resource → maps_to m (WithKind gv k) entry →
  maps_to (addResource gv' m resource) (WithKind gv k) entry.
Proof.
  unfold written, addResource. intros Hk Hm. destruct (Contains _ _); [done|].
  repeat (apply maps_to_other; [intros [-> <-]%WithKind_inj; destruct Hk as [|Hk]; [done|]; apply Hk; set_solver|]).
  done.
Qed.

Lemma maps_to_resources gv gv' k resources m entry :
  gv ≠ gv' ∨ (∀ r, r ∈ resources → k ∉ written r) → maps_to m (WithKind gv k) entry →
  maps_to (foldl (addResource gv') m resources) (WithKind gv k) entry.
Proof.
  revert m. induction resources as [|r resources IH]; intros m Hk Hm; [done|]. simpl. apply IH.
  - destruct Hk as [|Hk]; [by left|]. right. intros r' Hr'. apply Hk. by right.
  - apply maps_to_addResource; [|done]. destruct Hk as [|Hk]; [by left|]. right. apply Hk. by left.
Qed.

Lemma string_app_List k : k ≠ k +:+ "List".
Proof. induction k as [|c k IH]; [done|]. intros [= Hk]. by apply IH. Qed.

Definition scopeOf (r : APIResource) : RESTScope := if dr_Namespaced r then RESTScopeNamespace else RESTScopeRoot.

Lemma addResource_own gv m r :
  Contains (dr_Name r) "/" = false →
  maps_to (addResource gv m r) (WithKind gv (dr_Kind r)) (Some (gv_WithResource gv (dr_Name r), scopeOf r)).
Proof.
  intros Hname. unfold addResource. rw Hname.
  apply maps_to_other; [|apply maps_to_same]. intros [_ Hk]%WithKind_inj. by destruct (string_app_List (dr_Kind r)).
Qed.

Lemma versionMapper_own gv pre r post :
  Contains (dr_Name r) "/" = false → dr_Kind r ≠ "List" → (∀ r', r' ∈ post → dr_Kind r ∉ written r') →
  maps_to (versionMapper gv (pre ++ r :: post)) (WithKind gv (dr_Kind r)) (Some (gv_WithResource gv (dr_Name r), scopeOf r)).
Proof.
  intros Hname Hlist Hpost. unfold versionMapper, dm_Add. apply maps_to_other.
  - intros [_ Hk]%WithKind_inj. done.
  - rw foldl_app. simpl. apply maps_to_resources; [by right|]. by apply addResource_own.
Qed.

Lemma versionMapper_other gv gv' k resources : gv ≠ gv' → maps_to (versionMapper gv' resources) (WithKind gv k) None.
Proof.
  intros Hne. unfold versionMapper, dm_Add. apply maps_to_other; [by intros [-> _]%WithKind_inj|].
  by apply maps_to_resources; [left|].
Qed.

(** A default mapper asked for one version. *)
Lemma searched_one v : v ≠ "" → v ≠ APIVersionInternal → searched [v] = [v].
Proof. intros H1 H2. unfold searched. by rw filter_cons_True. Qed.

Lemma RESTMappings_known m gk v res scope :
  v ≠ "" → v ≠ APIVersionInternal → maps_to m (WithVersion gk v) (Some (res, scope)) →
  default_RESTMappings m gk [v]
  = Ok [{| rm_Resource := res; rm_GroupVersionKind := WithVersion gk v; rm_Scope := scope |}].
Proof.
  intros H1 H2 [Hr Hs]. simpl in Hr, Hs. unfold default_RESTMappings, potentialGVK. rw (searched_one _ H1 H2).
  cbn [fmap list_fmap]. rw filter_cons_True; [by rw Hr|]. cbn [take mappingsOf]. rw Hr Hs. done.
Qed.

Lemma RESTMappings_unknown m gk v :
  v ≠ "" → v ≠ APIVersionInternal → maps_to m (WithVersion gk v) None →
  default_RESTMappings m gk [v] = Err (NoKindMatchError gk [v]).
Proof.
  intros H1 H2 [Hr _]. simpl in Hr. unfold default_RESTMappings, potentialGVK. rw (searched_one _ H1 H2).
  cbn [fmap list_fmap]. rw filter_cons_False; [|done]. rw Hr. by intros [].
Qed.

Lemma collect_app {A} (rs1 rs2 : list (result mapError A)) :
  collect (rs1 ++ rs2) = ((collect rs1).1 ++ (collect rs2).1, (collect rs1).2 ++ (collect rs2).2).
Proof.
  induction rs1 as [|r rs1 IH]; simpl; [by destruct (collect rs2)|]. rw IH.
  destruct (collect rs1) as [oks errs]. destruct r as [a|err]; [done|]. by destruct (IsNoMatchError err).
Qed.

Lemma collect_none {A} (rs : list (result mapError A)) gk versions :
  (∀ r, r ∈ rs → r = Err (NoKindMatchError gk versions)) → collect rs = ([], []).
Proof.
  induction rs as [|r rs IH]; intros Hall; simpl; [done|]. rw IH; [intros; apply Hall; by right|].
  by rw (Hall r); [left|].
Qed.

(** What the mappers of a group answer for a kind at one version. *)
Section Union.
Context (gk : GroupKind) (v : string) (Hv : v ≠ "") (Hint : v ≠ APIVersionInternal).

Abbreviation asked ts := (collect (map (λ t, RESTMappings t gk [v]) ts)).

Lemma other_mappers group :
  ag_Name (gr_APIGroup group) ≠ gk_Group gk ∨ v ∉ gd_Version <$> ag_Versions (gr_APIGroup group) →
  asked (groupMappers group) = ([], []).
Proof.
  intros Hne. apply (collect_none _ gk [v]). intros r (t & -> & Ht)%list_elem_of_fmap.
  unfold groupMappers in Ht. apply list_elem_of_omap in Ht as (version & Hin & Ht).
  destruct (gr_VersionedResources group !! gd_Version version) as [resources|]; [|done]. injection Ht as <-.
  simpl. apply RESTMappings_unknown; [done..|].
  apply (versionMapper_other {| gv_Group := gk_Group gk; gv_Version := v |}). intros [= Hg Hv'].
  destruct Hne as [Hne|Hne]; [by apply Hne|]. apply Hne, list_elem_of_fmap. by exists version.
Qed.

Lemma other_groups groups :
  (∀ g, g ∈ groups → ag_Name (gr_APIGroup g) ≠ gk_Group gk) → asked (concat (groupMappers <$> groups)) = ([], []).
Proof.
  induction groups as [|g groups IH]; intros Hg; [done|]. cbn [fmap list_fmap concat].
  rw map_app collect_app (other_mappers g); [left; apply Hg; by left|]. rw IH; [|done].
  intros g' Hg'. apply Hg. by right.
Qed.
End Union.

(** A group of discovery. *)
Definition groupOf (name : string) (preferred : GroupVersionForDiscovery) (vr : gmap string (list APIResource))
    (vs : list GroupVersionForDiscovery) : APIGroupResources :=
  {| gr_APIGroup := {| ag_Name := name; ag_Versions := vs; ag_PreferredVersion := preferred |};
     gr_VersionedResources := vr |}.

Lemma groupMappers_split name preferred vr vs1 version vs2 resources :
  vr !! gd_Version version = Some resources →
  groupMappers (groupOf name preferred vr (vs1 ++ version :: vs2)) =
  groupMappers (groupOf name preferred vr vs1) ++
  DefaultMapper (versionMapper {| gv_Group := name; gv_Version := gd_Version version |} resources) ::
  groupMappers (groupOf name preferred vr vs2).
Proof. intros Hr. unfold groupMappers. simpl. rw omap_app /=. by rw Hr. Qed.

Lemma discovered_mappings groups1 groups2 name preferred vr vs1 version vs2 pre r post
    (gk := {| gk_Group := name; gk_Kind := dr_Kind r |}) :
  (∀ g, g ∈ groups1 ++ groups2 → ag_Name (gr_APIGroup g) ≠ name) →
  gd_Version version ∉ gd_Version <$> vs1 ++ vs2 →
  gd_Version version ≠ "" → gd_Version version ≠ APIVersionInternal →
  vr !! gd_Version version = Some (pre ++ r :: post) →
  Contains (dr_Name r) "/" = false → dr_Kind r ≠ "List" → (∀ r', r' ∈ post → dr_Kind r ∉ written r') →
  collect (map (λ t, RESTMappings t gk [gd_Version version])
    (concat (groupMappers <$> groups1 ++ groupOf name preferred vr (vs1 ++ version :: vs2) :: groups2))) =
  ([[{| rm_Resource := gv_WithResource {| gv_Group := name; gv_Version := gd_Version version |} (dr_Name r);
        rm_GroupVersionKind := WithVersion gk (gd_Version version); rm_Scope := scopeOf r |}]], []).
Proof.
  intros Hgroups Hversions Hv Hint Hvr Hname Hlist Hpost.
  rw fmap_app in Hversions. apply not_elem_of_app in Hversions as [Hvs1 Hvs2].
  rw fmap_app fmap_cons concat_app. cbn [concat].
  rw (groupMappers_split name preferred vr vs1 version vs2 _ Hvr) !map_app map_cons !collect_app.
  rw !(other_groups gk _ Hv Hint); [intros g Hg; apply Hgroups; set_solver..|].
  rw !(other_mappers gk _ Hv Hint); [by right..|]. cbn [collect RESTMappings].
  rw (other_mappers gk _ Hv Hint); [by right|].
  set (gv := {| gv_Group := name; gv_Version := gd_Version version |}).
  by rw (RESTMappings_known _ gk _ (gv_WithResource gv (dr_Name r)) (scopeOf r) Hv Hint); [by apply (versionMapper_own gv)|].
Qed.

(** The mapper made from discovery maps every discovered kind: for a resource of a
    version of a group, the mapping of its kind at that version names that resource,
    with its scope.  The group and the version are listed once, and no later resource of
    the version has the same kind (or one that reads the same with [List]). *)
Theorem discovered_kind_is_mapped groups1 groups2 name preferred vr vs1 version vs2 pre r post :
  (∀ g, g ∈ groups1 ++ groups2 → ag_Name (gr_APIGroup g) ≠ name) →
  gd_Version version ∉ gd_Version <$> vs1 ++ vs2 →
  gd_Version version ≠ "" → gd_Version version ≠ APIVersionInternal →
  vr !! gd_Version version = Some (pre ++ r :: post) →
  Contains (dr_Name r) "/" = false → dr_Kind r ≠ "List" → (∀ r', r' ∈ post → dr_Kind r ∉ written r') →
  RESTMapping_of (NewDiscoveryRESTMapper (groups1 ++ groupOf name preferred vr (vs1 ++ version :: vs2) :: groups2))
    {| gk_Group := name; gk_Kind := dr_Kind r |} [gd_Version version]
  = Ok {| rm_Resource := {| gvr_Group := name; gvr_Version := gd_Version version; gvr_Resource := dr_Name r |};
          rm_GroupVersionKind := {| gvk_Group := name; gvk_Version := gd_Version version; gvk_Kind := dr_Kind r |};
          rm_Scope := scopeOf r |}.
Proof.
  intros Hgroups Hversions Hv Hint Hvr Hname Hlist Hpost. unfold NewDiscoveryRESTMapper.
  cbn [RESTMapping_of RESTMappings].
  rw (discovered_mappings groups1 groups2 name preferred vr vs1 version vs2 pre r post) //.
  cbn [concat app mbind result_bind fmap list_fmap narrow]. rw filter_cons_True; [|done].
  unfold kindMatches. simpl. by rw !(bool_decide_eq_true_2 (_ = _) eq_refl) !orb_true_r.
Qed.

(** ** Witnesses *)

Module RestMapperWitness.
Definition widget_resource : APIResource :=
  {| dr_Name := "widgets"; dr_SingularName := "widget"; dr_Namespaced := true; dr_Kind := "Widget" |}.
Definition node_resource : APIResource :=
  {| dr_Name := "nodes"; dr_SingularName := ""; dr_Namespaced := false; dr_Kind := "Node" |}.
Definition v1 (group : string) : GroupVersionForDiscovery :=
  {| gd_GroupVersion := gv_String {| gv_Group := group; gv_Version := "v1" |}; gd_Version := "v1" |}.
Definition group (name : string) : APIGroup :=
  {| ag_Name := name; ag_Versions := [v1 name]; ag_PreferredVersion := v1 name |}.

(** Discovery before and after the custom resource definition of widgets. *)
Definition core_list : APIResourceList := {| rl_GroupVersion := "v1"; rl_APIResources := [node_resource] |}.
Definition before : discovery :=
  {| di_groups := Some [group ""]; di_resources := Some [core_list]; di_err := None |}.
Definition after : discovery :=
  {| di_groups := Some [group ""; group "example.com"];
     di_resources := Some [core_list; {| rl_GroupVersion := "example.com/v1"; rl_APIResources := [widget_resource] |}];
     di_err := None |}.
(** The API server cannot be reached. *)
Definition down : discovery :=
  {| di_groups := None; di_resources := None; di_err := Some (ErrorString "connection refused") |}.

Definition widget_kind : GroupKind := {| gk_Group := "example.com"; gk_Kind := "Widget" |}.
Definition node_kind : GroupKind := {| gk_Group := ""; gk_Kind := "Node" |}.
Definition widget : query := QRESTMapping widget_kind ["v1"].
Definition node : query := QRESTMapping node_kind ["v1"].
Definition node_mapping : RESTMapping :=
  {| rm_Resource := {| gvr_Group := ""; gvr_Version := "v1"; gvr_Resource := "nodes" |};
     rm_GroupVersionKind := {| gvk_Group := ""; gvk_Version := "v1"; gvk_Kind := "Node" |};
     rm_Scope := RESTScopeRoot |}.
Definition widget_mapping : RESTMapping :=
  {| rm_Resource := {| gvr_Group := "example.com"; gvr_Version := "v1"; gvr_Resource := "widgets" |};
     rm_GroupVersionKind := {| gvk_Group := "example.com"; gvk_Version := "v1"; gvk_Kind := "Widget" |};
     rm_Scope := RESTScopeNamespace |}.

(** Widgets are defined after the first use, the mapper is reset, and they are still not
    found, though a mapper made now would know them; and an API server that was down at
    the first use stays unreachable for the mapper. *)
Lemma refresh_never_refreshes_witness :
  ask widget (loader after) = AMapping (Ok widget_mapping) ∧
  answers ([Refresh] ++ Call node before :: [Refresh; Call widget after; Refresh; Call widget after]) None
  = [AMapping (Ok node_mapping); AMapping (Err (NoKindMatchError widget_kind ["v1"]));
     AMapping (Err (NoKindMatchError widget_kind ["v1"]))] ∧
  answers ([] ++ Call node down :: [Refresh; Call node before]) None
  = [AMapping (Err (OtherError (ErrorString "connection refused")));
     AMapping (Err (OtherError (ErrorString "connection refused")))].
Proof.
  split; [by vm_compute|]. split.
  - rw (refresh_never_refreshes node before [Refresh]); [by intros e ->%list_elem_of_singleton|].
    by vm_compute.
  - rw (refresh_never_refreshes node down []); [by intros e ?%not_elem_of_nil|]. by vm_compute.
Defined.

Lemma discovered_kind_is_mapped_witness :
  RESTMapping_of
    (NewDiscoveryRESTMapper
      ([{| gr_APIGroup := group ""; gr_VersionedResources := {[ "v1" := [node_resource] ]} |}]
       ++ groupOf "example.com" (v1 "example.com") {[ "v1" := [] ++ widget_resource :: [] ]}
            ([] ++ v1 "example.com" :: []) :: []))
    widget_kind ["v1"] = Ok widget_mapping.
Proof.
  apply (discovered_kind_is_mapped
    [{| gr_APIGroup := group ""; gr_VersionedResources := {[ "v1" := [node_resource] ]} |}] []
    "example.com" (v1 "example.com") {[ "v1" := [] ++ widget_resource :: [] ]} [] (v1 "example.com") []
    [] widget_resource []); try done.
  - by intros g ->%list_elem_of_singleton.
  - by apply not_elem_of_nil.
  - by intros r' ?%not_elem_of_nil.
Defined.
End RestMapperWitness.
