(* ===== verification/Matching.v ===== *)
(** * Which requests a policy is about

    The vendored matching of the CEL evaluator: label selectors
    ([apimachinery/pkg/apis/meta/v1/helpers.go], [pkg/labels/selector.go]), the
    namespace, object and rule predicates
    ([apiserver/pkg/admission/plugin/webhook/predicates]), and
    [validatingadmissionpolicy/matching/matching.go] and [matcher.go] that put them
    together.  The equivalent resources of a resource come from the object interfaces
    that [pkg/webhook/server.go] makes of its scheme. *)
From S2P Require Import Prelude GoStrings ApiMachinery Admission Json ApiTypes.
From Stdlib Require Import Ascii.

(** ** Slices *)

(** What a [range] over a slice visits; a nil slice is empty. *)
Definition range {A} (s : slice A) : list A := default [] (elems s).

(** ** Label selectors *)

Abbreviation Labels := (gmap string string).

(** [selection.Operator], as far as label selectors use it. *)
Inductive Operator := OpEquals | OpIn | OpNotIn | OpExists | OpDoesNotExist.

(** [labels.Requirement]. *)
Record Requirement := { r_key : string; r_operator : Operator; r_strValues : list string }.

Record LabelSelectorRequirement :=
  { lsr_Key : string; lsr_Operator : string; lsr_Values : list string }.

(** The fields of a [metav1.LabelSelector], and the checks of [labels.NewRequirement]:
    the number of values, and the syntax of key and values. *)
Class LabelSelectors `{!MetaV1} := {
  ls_MatchLabels : LabelSelector → gmap string string;
  ls_MatchExpressions : LabelSelector → list LabelSelectorRequirement;
  requirementError : string → Operator → list string → option error;
}.

(** [labels.Nothing()], or the requirements that all must hold. *)
Inductive Selector := Nothing | Requirements (rs : list Requirement).

Definition sel_Empty (s : Selector) : bool :=
  match s with Requirements [] => true | _ => false end.

Definition hasValue (r : Requirement) (value : string) : bool := bool_decide (value ∈ r_strValues r).

Definition Requirement_Matches (ls : Labels) (r : Requirement) : bool :=
  match r_operator r with
  | OpIn | OpEquals => match ls !! r_key r with None => false | Some v => hasValue r v end
  | OpNotIn => match ls !! r_key r with None => true | Some v => negb (hasValue r v) end
  | OpExists => bool_decide (is_Some (ls !! r_key r))
  | OpDoesNotExist => negb (bool_decide (is_Some (ls !! r_key r)))
  end.

Definition sel_Matches (s : Selector) (ls : Labels) : bool :=
  match s with
  | Nothing => false
  | Requirements rs => forallb (Requirement_Matches ls) rs
  end.

Section Selectors.
Context `{!MetaV1, !LabelSelectors}.

Definition NewRequirement (key : string) (op : Operator) (vals : list string) : result error Requirement :=
  match requirementError key op vals with
  | Some err => Err err
  | None => Ok {| r_key := key; r_operator := op; r_strValues := vals |}
  end.

Definition selectionOperator (op : string) : option Operator :=
  if bool_decide (op = "In") then Some OpIn
  else if bool_decide (op = "NotIn") then Some OpNotIn
  else if bool_decide (op = "Exists") then Some OpExists
  else if bool_decide (op = "DoesNotExist") then Some OpDoesNotExist
  else None.

Definition expressionRequirement (expr : LabelSelectorRequirement) : result error Requirement :=
  match selectionOperator (lsr_Operator expr) with
  | None => Err (ErrorString (Quote (lsr_Operator expr) +:+ " is not a valid label selector operator"))
  | Some op => NewRequirement (lsr_Key expr) op (lsr_Values expr)
  end.

(** [metav1.LabelSelectorAsSelector].  The labels of a map come in some order, which
    decides which of two errors is reported; [Add] sorts the requirements, which does
    not change what they match. *)
Definition LabelSelectorAsSelector (ps : option LabelSelector) : result error Selector :=
  match ps with
  | None => Ok Nothing
  | Some ps =>
      exact ← mapE (λ '(k, v), NewRequirement k OpEquals [v]) (map_to_list (ls_MatchLabels ps));
      exprs ← mapE expressionRequirement (ls_MatchExpressions ps);
      Ok (Requirements (exact ++ exprs))
  end.
End Selectors.

(** ** Rules *)

Definition AllScopes : string := "*".
Definition NamespacedScope : string := "Namespaced".
Definition ClusterScope : string := "Cluster".
Definition OperationAll : string := "*".

Definition namespaceResource : GroupVersionResource :=
  {| gvr_Group := ""; gvr_Version := "v1"; gvr_Resource := "namespaces" |}.

Definition exactOrWildcard (items : list string) (requested : string) : bool :=
  existsb (λ item, bool_decide (item = "*") || bool_decide (item = requested)) items.

(** [strings.SplitN(resSub, "/", 2)]: what is before the first slash, and after it. *)
Fixpoint splitResource (resSub : string) : string * string :=
  match resSub with
  | "" => ("", "")
  | String c s =>
      if bool_decide (c = "/"%char) then ("", s)
      else let '(res, sub) := splitResource s in (String c res, sub)
  end.

Section Rules.
Context {Obj : Type}.
Implicit Types (a : Attributes Obj) (r : RuleWithOperations).

Definition rule_scope r a : bool :=
  match ru_Scope (rw_Rule r) with
  | None => true
  | Some scope =>
      if bool_decide (scope = AllScopes) then true
      else if bool_decide (scope = NamespacedScope)
      then bool_decide (a_resource a ≠ namespaceResource) && bool_decide (a_namespace a ≠ "")
      else if bool_decide (scope = ClusterScope)
      then bool_decide (a_resource a = namespaceResource) || bool_decide (a_namespace a = "")
      else false
  end.

Definition rule_operation r a : bool :=
  existsb (λ op, bool_decide (op = OperationAll) || bool_decide (op = a_operation a)) (range (rw_Operations r)).

Definition rule_group r a : bool :=
  exactOrWildcard (range (ru_APIGroups (rw_Rule r))) (gvr_Group (a_resource a)).

Definition rule_version r a : bool :=
  exactOrWildcard (range (ru_APIVersions (rw_Rule r))) (gvr_Version (a_resource a)).

Definition rule_resource r a : bool :=
  existsb (λ resSub,
    let '(res, sub) := splitResource resSub in
    (bool_decide (res = "*") || bool_decide (res = gvr_Resource (a_resource a))) &&
    (bool_decide (sub = "*") || bool_decide (sub = a_subresource a)))
    (range (ru_Resources (rw_Rule r))).

(** [rules.Matcher.Matches]. *)
Definition rule_Matches r a : bool :=
  rule_scope r a && rule_operation r a && rule_group r a && rule_version r a && rule_resource r a.
End Rules.

(** ** Equivalent resources *)

(** [runtime.EquivalentResourceMapper]. *)
Record EquivalentResourceMapper := {
  EquivalentResourcesFor : GroupVersionResource → string → list GroupVersionResource;
  KindFor : GroupVersionResource → string → GroupVersionKind;
}.

#[export] Instance GroupResource_countable : Countable GroupResource.
Proof.
  apply (inj_countable' (λ r, (gr_Group r, gr_Resource r)) (λ '(g, r), {| gr_Group := g; gr_Resource := r |})).
  by intros [].
Defined.

(** [runtime.equivalentResourceRegistry] without a key function. *)
Record equivalentResourceRegistry := {
  er_resources : gmap string (gmap string (list GroupVersionResource));
  er_kinds : gmap GroupVersionResource (gmap string GroupVersionKind);
  er_keys : gmap GroupResource string;
}.

Definition NewEquivalentResourceRegistry : equivalentResourceRegistry :=
  {| er_resources := ∅; er_kinds := ∅; er_keys := ∅ |}.

Definition emptyKind : GroupVersionKind := {| gvk_Group := ""; gvk_Version := ""; gvk_Kind := "" |}.

Definition registryMapper (r : equivalentResourceRegistry) : EquivalentResourceMapper :=
  {| EquivalentResourcesFor resource subresource :=
       default [] (er_resources r !! default "" (er_keys r !! gvr_GroupResource resource) ≫= (.!! subresource));
     KindFor resource subresource :=
       default emptyKind (er_kinds r !! resource ≫= (.!! subresource)) |}.

(** [admission.NewObjectInterfacesFromScheme], as far as matching uses it: the registry
    is new, and nothing in the program ever registers a kind in it. *)
Definition objectInferfaces : EquivalentResourceMapper := registryMapper NewEquivalentResourceRegistry.

(** ** Matching *)

(** [apierrors.NewInternalError]. *)
Definition NewInternalError (err : error) : Status :=
  {| st_Status := StatusFailure; st_Code := http_StatusInternalServerError;
     st_Reason := StatusReasonInternalError;
     st_Details := Some {| sd_Name := ""; sd_Group := ""; sd_Kind := "";
                           sd_Causes := [{| cause_Type := ""; cause_Message := Error err |}] |};
     st_Message := "Internal error occurred: " +:+ Error err |}.

(** The labels of a namespace, in the informer's cache and at the API server. *)
Record Namespaces := {
  ns_Lister : string → result error Labels;
  ns_Client : string → result error Labels;
}.

(** [accessor.GetLabels()], of an object that has metadata. *)
Class ObjectLabels (Obj : Type) := GetLabels : Obj → Labels.

Definition Exact : string := "Exact".

Section Matching.
Context `{!MetaV1, !LabelSelectors} {Obj : Type} `{MetaAccessor Obj, ObjectLabels Obj}.
Context (namespaces : Namespaces) (o : EquivalentResourceMapper).
Implicit Types (a : Attributes Obj) (selector : result error Selector) (d : dialect).

Definition labelsOf (obj : option Obj) : option Labels :=
  obj ← obj; _ ← Accessor obj; Some (GetLabels obj).

Definition GetNamespaceLabels a : result error Labels :=
  if bool_decide (gvr_Resource (a_resource a) = "namespaces") && bool_decide (a_subresource a = "")
     && (bool_decide (a_operation a = "CREATE") || bool_decide (a_operation a = "UPDATE"))
  then match labelsOf (a_object a) with None => Err errNotObject | Some ls => Ok ls end
  else match ns_Lister namespaces (a_namespace a) with
       | Ok ls => Ok ls
       | Err err => if IsNotFound (Some err) then ns_Client namespaces (a_namespace a) else Err err
       end.

(** The status the error of [GetNamespaceLabels] becomes. *)
Definition namespaceStatus (err : error) : Status :=
  match err with
  | StatusError st => if IsNotFound (Some err) then st else NewInternalError err
  | _ => NewInternalError err
  end.

Definition MatchNamespaceSelector selector a : bool * option Status :=
  if bool_decide (a_namespace a = "") && negb (bool_decide (gvr_Resource (a_resource a) = "namespaces"))
  then (true, None)
  else match selector with
       | Err err => (false, Some (NewInternalError err))
       | Ok selector =>
           if sel_Empty selector then (true, None)
           else match GetNamespaceLabels a with
                | Err err => (false, Some (namespaceStatus err))
                | Ok ls => (sel_Matches selector ls, None)
                end
       end.

Definition matchObject (obj : option Obj) (selector : Selector) : bool :=
  match labelsOf obj with None => false | Some ls => sel_Matches selector ls end.

Definition MatchObjectSelector selector a : bool * option Status :=
  match selector with
  | Err err => (false, Some (NewInternalError err))
  | Ok selector =>
      if sel_Empty selector then (true, None)
      else (matchObject (a_object a) selector || matchObject (a_oldObject a) selector, None)
  end.

(** [attrWithResourceOverride]. *)
Definition with_resource (resource : GroupVersionResource) a : Attributes Obj :=
  NewAttributesRecord (a_object a) (a_oldObject a) (a_kind a) (a_namespace a) (a_name a) resource
    (a_subresource a) (a_operation a) (a_options a) (a_dryRun a) (a_userInfo a).

(** An empty name list always matches. *)
Definition named {d} (rule : NamedRuleWithOperations d) a : bool :=
  match range (nr_ResourceNames rule) with
  | [] => true
  | names => bool_decide (a_name a ∈ names)
  end.

(** The first loop of [matchesResourceRules]: the resource itself. *)
Definition matchesExactly {d} (rules : list (NamedRuleWithOperations d)) a : bool :=
  existsb (λ rule, rule_Matches (nr_RuleWithOperations rule) a && named rule a) rules.

(** The second: other resources the API server holds equivalent. *)
Fixpoint matchesEquivalent {d} (tries : list (NamedRuleWithOperations d * GroupVersionResource)) a
    : result error (bool * GroupVersionKind) :=
  match tries with
  | [] => Ok (false, emptyKind)
  | (rule, equivalent) :: tries =>
      if bool_decide (equivalent = a_resource a) then matchesEquivalent tries a
      else if negb (rule_Matches (nr_RuleWithOperations rule) (with_resource equivalent a))
      then matchesEquivalent tries a
      else
        let matchKind := KindFor o equivalent (a_subresource a) in
        if bool_decide (matchKind = emptyKind)
        then Err (ErrorString ("unable to convert to " +:+ gvr_String equivalent +:+ ": unknown kind"))
        else if named rule a then Ok (true, matchKind) else matchesEquivalent tries a
  end.

Definition matchesResourceRules {d} (rules : list (NamedRuleWithOperations d)) (matchPolicy : option string) a
    : result error (bool * GroupVersionKind) :=
  if matchesExactly rules a then Ok (true, a_kind a)
  else if bool_decide (default Exact matchPolicy = Exact) then Ok (false, emptyKind)
  else
    let equivalents := EquivalentResourcesFor o (a_resource a) (a_subresource a) in
    matchesEquivalent (rule ← rules; equivalent ← equivalents; [(rule, equivalent)]) a.

(** [matching.Matcher.Matches] on the [MatchResources] of the criteria. *)
Definition Matcher_Matches {d} (mr : MatchResources d) a : result error (bool * GroupVersionKind) :=
  let '(nsMatches, matchNsErr) := MatchNamespaceSelector (LabelSelectorAsSelector (mr_NamespaceSelector mr)) a in
  if negb nsMatches && bool_decide (matchNsErr = None) then Ok (false, emptyKind)
  else
    let '(objMatches, matchObjErr) := MatchObjectSelector (LabelSelectorAsSelector (mr_ObjectSelector mr)) a in
    if negb objMatches && bool_decide (matchObjErr = None) then Ok (false, emptyKind)
    else
      excluded ← matchesResourceRules (range (mr_ExcludeResourceRules mr)) (mr_MatchPolicy mr) a;
      if excluded.1 : bool then Ok (false, emptyKind)
      else
        included ← match range (mr_ResourceRules mr) with
                   | [] => Ok (true, a_kind a)
                   | rules => matchesResourceRules rules (mr_MatchPolicy mr) a
                   end;
        if negb included.1 then Ok (false, emptyKind)
        else match matchNsErr, matchObjErr with
             | Some st, _ | None, Some st => Err (StatusError st)
             | None, None => Ok (true, included.2)
             end.

(** [matcher.DefinitionMatches]; [None] is the panic of a policy without constraints,
    whose nil pointer the object selector is read through, at the latest. *)
Definition DefinitionMatches (definition : ValidatingAdmissionPolicy Native) a
    : option (result error (bool * GroupVersionKind)) :=
  mr ← ps_MatchConstraints (p_Spec definition); Some (Matcher_Matches mr a).

Definition BindingMatches (binding : ValidatingAdmissionPolicyBinding Native) a : result error bool :=
  match bs_MatchResources (b_Spec binding) with
  | None => Ok true
  | Some mr => fst <$> Matcher_Matches mr a
  end.
End Matching.

(** ** Theorems *)

Section Facts.
Context `{!MetaV1, !LabelSelectors} {Obj : Type} `{MetaAccessor Obj, ObjectLabels Obj}.
Context (namespaces : Namespaces) {d : dialect}.
Implicit Types (a : Attributes Obj) (mr : MatchResources d).

Lemma no_equivalents a : EquivalentResourcesFor objectInferfaces (a_resource a) (a_subresource a) = [].
Proof. simpl. by rw lookup_empty. Qed.

Lemma matchesResourceRules_exact (rules : list (NamedRuleWithOperations d)) matchPolicy a :
  matchesResourceRules objectInferfaces rules matchPolicy a
  = Ok (if matchesExactly rules a then (true, a_kind a) else (false, emptyKind)).
Proof.
  unfold matchesResourceRules. destruct (matchesExactly rules a); [done|].
  destruct (bool_decide _); [done|]. rw no_equivalents.
  assert ((rule ← rules; equivalent ← []; [(rule, equivalent)]) = @nil (_ * GroupVersionResource)) as ->; [|done].
  induction rules as [|rule rules IH]; [done|]. simpl. done.
Qed.

Definition with_MatchPolicy (matchPolicy : option string) mr : MatchResources d :=
  {| mr_NamespaceSelector := mr_NamespaceSelector mr; mr_ObjectSelector := mr_ObjectSelector mr;
     mr_ResourceRules := mr_ResourceRules mr; mr_ExcludeResourceRules := mr_ExcludeResourceRules mr;
     mr_MatchPolicy := matchPolicy |}.

(** C10: the match policy has no effect in this webhook: whatever it says, a request is
    matched as with [Exact].  The registry of equivalent resources that the server makes
    is empty, so requests through another group or version of a resource are never
    converted and matched, as the default, [Equivalent], promises. *)
Theorem match_policy_has_no_effect matchPolicy mr a :
  Matcher_Matches namespaces objectInferfaces (with_MatchPolicy matchPolicy mr) a
  = Matcher_Matches namespaces objectInferfaces (with_MatchPolicy (Some Exact) mr) a.
Proof.
  unfold Matcher_Matches. cbn [with_MatchPolicy mr_NamespaceSelector mr_ObjectSelector mr_ResourceRules
    mr_ExcludeResourceRules mr_MatchPolicy]. rw !matchesResourceRules_exact.
  destruct (range (mr_ResourceRules mr)); [done|]. by rw !matchesResourceRules_exact.
Qed.

(** The selector is there and selects one of the label sets. *)
Definition selects (ps : option LabelSelector) (candidates : list Labels) : Prop :=
  ∃ selector, LabelSelectorAsSelector ps = Ok selector ∧
    (sel_Empty selector = true ∨ ∃ ls, ls ∈ candidates ∧ sel_Matches selector ls = true).

(** The labels of the objects of a request. *)
Definition objectLabels a : list Labels := omap labelsOf [a_object a; a_oldObject a].

(** When constraints cover a request. *)
Record covers mr a : Prop := {
  cv_namespace :
    a_namespace a = "" ∧ gvr_Resource (a_resource a) ≠ "namespaces" ∨
    selects (mr_NamespaceSelector mr) (match GetNamespaceLabels namespaces a with Ok ls => [ls] | Err _ => [] end);
  cv_object : selects (mr_ObjectSelector mr) (objectLabels a);
  cv_excluded : matchesExactly (range (mr_ExcludeResourceRules mr)) a = false;
  cv_included : range (mr_ResourceRules mr) = [] ∨ matchesExactly (range (mr_ResourceRules mr)) a = true;
}.

Lemma MatchNamespaceSelector_true ps a matchNsErr :
  MatchNamespaceSelector namespaces (LabelSelectorAsSelector ps) a = (true, matchNsErr) ↔
  matchNsErr = None ∧
  (a_namespace a = "" ∧ gvr_Resource (a_resource a) ≠ "namespaces" ∨
   selects ps (match GetNamespaceLabels namespaces a with Ok ls => [ls] | Err _ => [] end)).
Proof.
  unfold MatchNamespaceSelector, selects. destruct (bool_decide _ && _) eqn:Hc.
  { apply andb_true_iff in Hc as [Hn%bool_decide_eq_true Hr%negb_true_iff%bool_decide_eq_false].
    split; [intros [= <-]; by auto|by intros [-> _]]. }
  assert (¬ (a_namespace a = "" ∧ gvr_Resource (a_resource a) ≠ "namespaces")) as Hno.
  { intros [Hn Hr]. by rw bool_decide_true // bool_decide_false in Hc. }
  destruct (LabelSelectorAsSelector ps) as [selector|err];
    [|by split; [|intros [_ [?|(s & ? & _)]]]].
  destruct (sel_Empty selector) eqn:He.
  { split; [intros [= <-]; eauto 6|by intros [-> _]]. }
  destruct (GetNamespaceLabels namespaces a) as [ls|err]; split.
  - intros [= Hm <-]. split; [done|]. right. exists selector. split; [done|]. right. exists ls.
    split; [by left|done].
  - intros [-> [?|(s & [= <-] & [He'|(ls' & ->%list_elem_of_singleton & Hm)])]]; [done|congruence|]. by rw Hm.
  - done.
  - intros [_ [?|(s & [= <-] & [He'|(ls' & ?%elem_of_nil & _)])]]; [done|congruence|done].
Qed.

Lemma matchObject_or a selector :
  matchObject (a_object a) selector || matchObject (a_oldObject a) selector = true ↔
  ∃ ls, ls ∈ objectLabels a ∧ sel_Matches selector ls = true.
Proof.
  unfold matchObject, objectLabels. cbn [omap list_omap]. rw orb_true_iff.
  destruct (labelsOf (a_object a)) as [l1|], (labelsOf (a_oldObject a)) as [l2|]; set_solver.
Qed.

Lemma MatchObjectSelector_true ps a matchObjErr :
  MatchObjectSelector (LabelSelectorAsSelector ps) a = (true, matchObjErr) ↔
  matchObjErr = None ∧ selects ps (objectLabels a).
Proof.
  unfold MatchObjectSelector, selects. destruct (LabelSelectorAsSelector ps) as [selector|err];
    [|by split; [|intros [_ (s & ? & _)]]].
  destruct (sel_Empty selector) eqn:He.
  { split; [intros [= <-]; eauto|by intros [-> _]]. }
  split.
  - intros [= Hm <-]. apply matchObject_or in Hm. eauto.
  - intros [-> (s & [= <-] & [He'|Hm])]; [congruence|]. apply matchObject_or in Hm. by rw Hm.
Qed.

Definition included mr a : bool :=
  match range (mr_ResourceRules mr) with [] => true | rules => matchesExactly rules a end.

Lemma included_rules mr a :
  match range (mr_ResourceRules mr) with
  | [] => Ok (true, a_kind a)
  | rules => matchesResourceRules objectInferfaces rules (mr_MatchPolicy mr) a
  end = Ok (if included mr a then (true, a_kind a) else (false, emptyKind)).
Proof. unfold included. destruct (range _); [done|]. apply matchesResourceRules_exact. Qed.

Lemma included_iff mr a :
  included mr a = true ↔ range (mr_ResourceRules mr) = [] ∨ matchesExactly (range (mr_ResourceRules mr)) a = true.
Proof. unfold included. destruct (range _); naive_solver. Qed.

(** What [Matches] answers, once the predicates have answered. *)
Definition combine (ns obj : bool * option Status) (excluded included : bool) (kind : GroupVersionKind)
    : result error (bool * GroupVersionKind) :=
  if negb ns.1 && bool_decide (ns.2 = None) || negb obj.1 && bool_decide (obj.2 = None) || excluded || negb included
  then Ok (false, emptyKind)
  else match ns.2, obj.2 with
       | Some st, _ | None, Some st => Err (StatusError st)
       | None, None => Ok (true, kind)
       end.

Lemma Matches_combine mr a :
  Matcher_Matches namespaces objectInferfaces mr a =
  combine (MatchNamespaceSelector namespaces (LabelSelectorAsSelector (mr_NamespaceSelector mr)) a)
    (MatchObjectSelector (LabelSelectorAsSelector (mr_ObjectSelector mr)) a)
    (matchesExactly (range (mr_ExcludeResourceRules mr)) a) (included mr a) (a_kind a).
Proof.
  unfold Matcher_Matches, combine. rw matchesResourceRules_exact included_rules.
  destruct (MatchNamespaceSelector _ _ _) as [nsMatches nsErr], (MatchObjectSelector _ _) as [objMatches objErr].
  simpl. destruct (negb nsMatches && _), (negb objMatches && _), (matchesExactly _ a), (included mr a); done.
Qed.

(** C9: constraints match a request exactly when both selectors select it, no exclude
    rule matches it and, if there are resource rules, one of them does; the kind it is
    then evaluated as is the request's own. *)
Theorem Matches_iff_covers mr a matchKind :
  Matcher_Matches namespaces objectInferfaces mr a = Ok (true, matchKind) ↔ covers mr a ∧ matchKind = a_kind a.
Proof.
  rw Matches_combine. unfold combine.
  pose proof (MatchNamespaceSelector_true (mr_NamespaceSelector mr) a) as Hns.
  pose proof (MatchObjectSelector_true (mr_ObjectSelector mr) a) as Hobj. pose proof (included_iff mr a) as Hin.
  destruct (MatchNamespaceSelector _ _ _) as [nsMatches nsErr], (MatchObjectSelector _ _) as [objMatches objErr].
  cbn [fst snd]. split.
  - destruct nsErr, objErr; [by intros Hx; repeat case_match..|].
    destruct nsMatches, objMatches; [|done..].
    destruct (matchesExactly (range (mr_ExcludeResourceRules mr)) a) eqn:Hex; [done|].
    destruct (included mr a); [|done].
    intros [= <-]. split; [|done].
    constructor; [by apply (proj1 (Hns None))|by apply (proj1 (Hobj None))|done|by apply Hin].
  - intros [[Hcn Hco Hce Hci] ->]. apply Hin in Hci.
    pose proof (proj2 (Hns None) (conj eq_refl Hcn)) as [= -> ->].
    pose proof (proj2 (Hobj None) (conj eq_refl Hco)) as [= -> ->]. by rw Hce Hci.
Qed.
End Facts.
