(* ===== verification/PolicyValidator.v ===== *)
(** * What a policy decides about a request

    The vendored CEL filters ([apiserver/pkg/admission/plugin/cel/compile.go] and
    [filter.go]), match conditions ([webhook/matchconditions/matcher.go]) and the
    validator of one policy
    ([plugin/validatingadmissionpolicy/validator.go], [policy_decision.go],
    [interface.go]): from compiled expressions to decisions and audit annotations.
    Compiling and evaluating a CEL expression is code of the CEL library, a parameter;
    so is the conversion of objects to the values expressions see. *)
From S2P Require Import Prelude GoStrings ApiMachinery Admission Json ApiTypes Matching.
From Stdlib Require Import Ascii.

(** ** CEL values and errors *)

(** [ref.Val], as far as the validator tells them apart. *)
Inductive celValue := CelBool (b : bool) | CelString (s : string) | CelNull | CelOther (type : string).

#[export] Instance celValue_eq_dec : EqDecision celValue.
Proof. solve_decision. Defined.

(** [apiservercel.Error]. *)
Inductive ErrorType := ErrorTypeRequired | ErrorTypeInvalid | ErrorTypeInternal.
#[export] Instance ErrorType_eq_dec : EqDecision ErrorType.
Proof. solve_decision. Defined.

Record celError := { ce_Type : ErrorType; ce_Detail : string }.

(** The error of [ForInput]: a CEL error, or one of a conversion. *)
Inductive filterError := CelError (e : celError) | OtherFilterError (err : error).

Definition filterError_Error (e : filterError) : string :=
  match e with CelError e => ce_Detail e | OtherFilterError err => Error err end.

(** ** Expressions *)

Inductive ExpressionAccessor :=
| ValidationCondition (Expression Message : string) (Reason : option string)
| AuditAnnotationCondition (Key ValueExpression : string)
| MessageExpressionCondition (MessageExpression : string)
| MatchConditionAccessor (Name Expression : string).

Definition GetExpression (e : ExpressionAccessor) : string :=
  match e with
  | ValidationCondition expression _ _ => expression
  | AuditAnnotationCondition _ expression => expression
  | MessageExpressionCondition expression => expression
  | MatchConditionAccessor _ expression => expression
  end.

Inductive celType := BoolType | StringType | NullType.

Definition ReturnTypes (e : ExpressionAccessor) : list celType :=
  match e with
  | ValidationCondition _ _ _ | MatchConditionAccessor _ _ => [BoolType]
  | AuditAnnotationCondition _ _ => [StringType; NullType]
  | MessageExpressionCondition _ => [StringType]
  end.

Record OptionalVariableDeclarations := { HasParams : bool; HasAuthorizer : bool }.

(** [admission.VersionedAttributes]. *)
Record VersionedAttributes (Obj : Type) := {
  v_Attributes : Attributes Obj;
  v_VersionedOldObject : option Obj;
  v_VersionedObject : option Obj;
  v_VersionedKind : GroupVersionKind;
}.
Arguments Build_VersionedAttributes {Obj}.
Arguments v_Attributes {Obj}.
Arguments v_VersionedOldObject {Obj}.
Arguments v_VersionedObject {Obj}.
Arguments v_VersionedKind {Obj}.

(** The variables of an expression, [evaluationActivation]. *)
Record activation (V Authorizer : Type) := {
  va_object : option V;
  va_oldObject : option V;
  va_params : option V;
  va_request : V;
  va_authorizer : option (DefaultInfo * Authorizer);
}.
Arguments Build_activation {V Authorizer}.

(** The outcome of [Program.ContextEval]: the details with the cost ([None] for a nil
    pointer), and a value or the text of an error. *)
Record evaluation := { ev_details : option (option Z); ev_result : result string celValue }.

(** The CEL library and the conversions of objects to its values. *)
Class CEL (Obj Authorizer : Type) := {
  V : Type;
  Program : Type;
  compile : string → list celType → OptionalVariableDeclarations → result celError Program;
  ContextEval : Program → activation V Authorizer → evaluation;
  ToUnstructured : Obj → result error V;
  requestVal : Attributes Obj → result error V;
}.

(** [EvaluationResult]; all its fields are zero for a placeholder. *)
Record EvaluationResult := {
  er_EvalResult : option celValue;
  er_ExpressionAccessor : option ExpressionAccessor;
  er_Error : option celError;
}.

Definition zeroEvaluation : EvaluationResult :=
  {| er_EvalResult := None; er_ExpressionAccessor := None; er_Error := None |}.

Definition maxInt64 : Z := 2 ^ 63 - 1.

Definition outOfBudget : celError :=
  {| ce_Type := ErrorTypeInvalid;
     ce_Detail := "validation failed due to running out of cost budget, no further validation rules will be run" |}.

Section Filter.
Context {Obj Authorizer : Type} `{CEL Obj Authorizer}.
Implicit Types (va : VersionedAttributes Obj) (act : activation V Authorizer).

(** [CompilationResult]: a placeholder has no accessor. *)
Record CompilationResult := {
  cr_Program : option Program;
  cr_Error : option celError;
  cr_ExpressionAccessor : option ExpressionAccessor;
}.

Definition CompileCELExpression (e : ExpressionAccessor) (decls : OptionalVariableDeclarations) : CompilationResult :=
  match compile (GetExpression e) (ReturnTypes e) decls with
  | Ok program => {| cr_Program := Some program; cr_Error := None; cr_ExpressionAccessor := Some e |}
  | Err err => {| cr_Program := None; cr_Error := Some err; cr_ExpressionAccessor := Some e |}
  end.

Abbreviation Filter := (list CompilationResult).

Definition Compile (accessors : list (option ExpressionAccessor)) (decls : OptionalVariableDeclarations) : Filter :=
  (λ accessor, match accessor with
               | None => {| cr_Program := None; cr_Error := None; cr_ExpressionAccessor := None |}
               | Some e => CompileCELExpression e decls
               end) <$> accessors.

(** [OptionalVariableBindings]. *)
Record bindings := { VersionedParams : option Obj; bound_Authorizer : option Authorizer }.

Definition objectToResolveVal (r : option Obj) : result error (option V) :=
  match r with None => Ok None | Some r => Some <$> ToUnstructured r end.

Definition activate va (inputs : bindings) : result error (activation V Authorizer) :=
  oldObjectVal ← objectToResolveVal (v_VersionedOldObject va);
  objectVal ← objectToResolveVal (v_VersionedObject va);
  paramsVal ← objectToResolveVal (VersionedParams inputs);
  request ← requestVal (v_Attributes va);
  Ok {| va_object := objectVal; va_oldObject := oldObjectVal; va_params := paramsVal; va_request := request;
        va_authorizer := pair (a_userInfo (v_Attributes va)) <$> bound_Authorizer inputs |}.

Definition noCost (type : ErrorType) (e : ExpressionAccessor) : celError :=
  {| ce_Type := type;
     ce_Detail := "runtime cost could not be calculated for expression: " +:+ GetExpression e +:+
                  ", no further expression will be run" |}.

(** One turn of the loop of [ForInput]: the evaluation and the budget left. *)
Definition evaluate act (cr : CompilationResult) (budget : Z) : result celError (EvaluationResult * Z) :=
  match cr_ExpressionAccessor cr with
  | None => Ok (zeroEvaluation, budget)
  | Some e =>
      let failed err := {| er_EvalResult := None; er_ExpressionAccessor := Some e; er_Error := Some err |} in
      match cr_Error cr, cr_Program cr with
      | Some err, _ =>
          Ok (failed {| ce_Type := ErrorTypeInvalid; ce_Detail := "compilation error: " +:+ ce_Detail err |}, budget)
      | None, None =>
          Ok (failed {| ce_Type := ErrorTypeInternal; ce_Detail := "unexpected internal error compiling expression" |},
              budget)
      | None, Some program =>
          let r := ContextEval program act in
          match ev_details r with
          | None => Err (noCost ErrorTypeInternal e)
          | Some None => Err (noCost ErrorTypeInvalid e)
          | Some (Some cost) =>
              if ((maxInt64 <? cost) || (budget <? cost))%Z then Err outOfBudget
              else Ok (match ev_result r with
                       | Ok v => {| er_EvalResult := Some v; er_ExpressionAccessor := Some e; er_Error := None |}
                       | Err msg =>
                           failed {| ce_Type := ErrorTypeInvalid;
                                     ce_Detail := "expression '" +:+ GetExpression e +:+ "' resulted in error: " +:+ msg |}
                       end, (budget - cost)%Z)
          end
      end
  end.

Fixpoint evaluateAll act (f : Filter) (budget : Z) : result celError (list EvaluationResult * Z) :=
  match f with
  | [] => Ok ([], budget)
  | cr :: f =>
      '(r, budget) ← evaluate act cr budget;
      '(rs, budget) ← evaluateAll act f budget;
      Ok (r :: rs, budget)
  end.

Definition ForInput (f : Filter) va (inputs : bindings) (budget : Z) : result filterError (list EvaluationResult * Z) :=
  match activate va inputs with
  | Err err => Err (OtherFilterError err)
  | Ok act => match evaluateAll act f budget with Err err => Err (CelError err) | Ok r => Ok r end
  end.
End Filter.
Arguments bindings : clear implicits.
Arguments Build_bindings {Obj Authorizer}.
Arguments CompilationResult Obj Authorizer {_}.

(** ** Match conditions *)

Definition Fail : string := "Fail".
Definition Ignore : string := "Ignore".

Definition RuntimeCELCostBudget : Z := 10000000.
Definition RuntimeCELCostBudgetMatchConditions : Z := 2500000.
Definition MaxEvaluatedMessageExpressionSizeBytes : nat := 5 * 1024.

(** The message of [utilerrors.NewAggregate] of a non-empty list: its distinct messages. *)
Definition aggregateMessage (msgs : list string) : string :=
  let distinct := foldl (λ seen msg, if decide (msg ∈ seen) then seen else seen ++ [msg]) [] msgs in
  match distinct with
  | [msg] => msg
  | _ => "[" +:+ Join distinct ", " +:+ "]"
  end.

(** [MatchResult], without the name of the failed condition, which nobody reads. *)
Record MatchResult := { mt_Matches : bool; mt_Error : option string }.

Section Validator.
Context {Obj Authorizer : Type} `{CEL Obj Authorizer}.
Abbreviation Filter := (list (CompilationResult Obj Authorizer)).
Implicit Types (va : VersionedAttributes Obj) (param : option Obj).

(** [matchconditions.matcher]. *)
Record conditionMatcher := {
  cm_filter : Filter;
  cm_authorizer : option Authorizer;
  cm_failPolicy : string;
}.

(** The loop over the evaluated conditions: the errors, or that one is false. *)
Fixpoint conditionErrors (rs : list EvaluationResult) : option (list string) :=
  match rs with
  | [] => Some []
  | r :: rs =>
      match er_ExpressionAccessor r with
      | Some (MatchConditionAccessor _ _) =>
          if bool_decide (er_EvalResult r = Some (CelBool false)) then None
          else errs ← conditionErrors rs; Some (option_list (ce_Detail <$> er_Error r) ++ errs)
      | _ =>
          errs ← conditionErrors rs;
          Some ("internal error converting ExpressionAccessor to MatchCondition" :: errs)
      end
  end.

Definition Match (m : conditionMatcher) va param : MatchResult :=
  let onError (msg : string) (otherwise : MatchResult) : MatchResult :=
    if bool_decide (cm_failPolicy m = Fail) then {| mt_Matches := false; mt_Error := Some msg |}
    else if bool_decide (cm_failPolicy m = Ignore) then {| mt_Matches := false; mt_Error := None |}
    else otherwise in
  let matched := {| mt_Matches := true; mt_Error := None |} in
  match ForInput (cm_filter m) va {| VersionedParams := param; bound_Authorizer := cm_authorizer m |}
          RuntimeCELCostBudgetMatchConditions with
  | Err err => onError (filterError_Error err) matched
  | Ok (rs, _) =>
      match conditionErrors rs with
      | None => {| mt_Matches := false; mt_Error := None |}
      | Some [] => matched
      | Some errs => onError (aggregateMessage errs) matched
      end
  end.

(** ** Decisions *)

Inductive PolicyDecisionAction := ActionAdmit | ActionDeny.
Inductive PolicyDecisionEvaluation := EvalNone | EvalAdmit | EvalError.

(** [PolicyDecision], without the time it took. *)
Record PolicyDecision := {
  pd_Action : PolicyDecisionAction;
  pd_Evaluation : PolicyDecisionEvaluation;
  pd_Message : string;
  pd_Reason : string;
}.

(** [AuditAnnotationActionUnset] is the zero value. *)
Inductive PolicyAuditAnnotationAction :=
| AuditAnnotationActionUnset | AuditAnnotationActionPublish
| AuditAnnotationActionError | AuditAnnotationActionExclude.

Record PolicyAuditAnnotation := {
  pa_Key : string;
  pa_Value : string;
  pa_Action : PolicyAuditAnnotationAction;
  pa_Error : string;
}.

Record ValidateResult := { vr_Decisions : list PolicyDecision; vr_AuditAnnotations : list PolicyAuditAnnotation }.

Definition policyDecisionActionForError (f : string) : PolicyDecisionAction :=
  if bool_decide (f = Ignore) then ActionAdmit else ActionDeny.

Definition auditAnnotationEvaluationForError (f : string) : PolicyAuditAnnotationAction :=
  if bool_decide (f = Ignore) then AuditAnnotationActionExclude else AuditAnnotationActionError.

(** [validator]. *)
Record validator := {
  vd_celMatcher : option conditionMatcher;
  vd_validationFilter : Filter;
  vd_auditAnnotationFilter : Filter;
  vd_messageFilter : Filter;
  vd_failPolicy : option string;
  vd_authorizer : option Authorizer;
}.

Definition errorDecision (f : string) (message : string) : PolicyDecision :=
  {| pd_Action := policyDecisionActionForError f; pd_Evaluation := EvalError;
     pd_Message := message; pd_Reason := "" |}.

Definition failed (f : string) (message : string) : ValidateResult :=
  {| vr_Decisions := [errorDecision f message]; vr_AuditAnnotations := [] |}.

(** The message an evaluated message expression gives, if any: not too long, on one
    line, and a string. *)
Definition evaluatedMessage (messageResult : option EvaluationResult) : string :=
  match messageResult with
  | Some {| er_EvalResult := Some (CelString message); er_Error := None |} =>
      let message := TrimSpace message in
      if (MaxEvaluatedMessageExpressionSizeBytes <? String.length message)%nat then ""
      else if has_byte "010" message then "" else message
  | _ => ""
  end.

(** The failure message of a validation. *)
Definition failureMessage (expression message : string) (messageResult : option EvaluationResult) : string :=
  let evaluated := evaluatedMessage messageResult in
  let chosen := if bool_decide (evaluated = "") then TrimSpace message else evaluated in
  if bool_decide (chosen = "") then "failed expression: " +:+ TrimSpace expression else chosen.

(** The errors of the message filter that fail the validation. *)
Definition fatalMessageError (err : option filterError) : bool :=
  match err with
  | Some (CelError {| ce_Type := ErrorTypeInternal |}) => true
  | Some (CelError {| ce_Type := ErrorTypeInvalid; ce_Detail := detail |}) =>
      HasPrefix detail "validation failed due to running out of cost budget"
  | _ => false
  end.

(** One turn of the loop over the evaluated validations. *)
Definition decide_validation (f : string) (messageErr : option filterError)
    (evalResult : EvaluationResult) (messageResult : option EvaluationResult) : PolicyDecision :=
  match er_ExpressionAccessor evalResult with
  | Some (ValidationCondition expression message reason) =>
      match er_Error evalResult with
      | Some err => errorDecision f (ce_Detail err)
      | None =>
          if fatalMessageError messageErr
          then errorDecision f ("failed messageExpression: " +:+ default "" (filterError_Error <$> messageErr))
          else if bool_decide (er_EvalResult evalResult = Some (CelBool true))
          then {| pd_Action := ActionAdmit; pd_Evaluation := EvalAdmit; pd_Message := ""; pd_Reason := "" |}
          else {| pd_Action := ActionDeny; pd_Evaluation := EvalNone;
                  pd_Message := failureMessage expression message messageResult;
                  pd_Reason := default "Invalid" reason |}
      end
  | _ => errorDecision f "Invalid type sent to validator, expected ValidationCondition"
  end.

(** The loop: the message results may be missing. *)
Definition decisionsOf (f : string) (messageErr : option filterError)
    (evalResults messageResults : list EvaluationResult) : list PolicyDecision :=
  imap (λ i evalResult, decide_validation f messageErr evalResult (messageResults !! i)) evalResults.

Definition celType_name (v : celValue) : string :=
  match v with CelBool _ => "bool" | CelString _ => "string" | CelNull => "null_type" | CelOther type => type end.

(** The [%T] verb on an accessor. *)
Definition goType (e : ExpressionAccessor) : string :=
  match e with
  | ValidationCondition _ _ _ => "*validatingadmissionpolicy.ValidationCondition"
  | AuditAnnotationCondition _ _ => "*validatingadmissionpolicy.AuditAnnotationCondition"
  | MessageExpressionCondition _ => "*validatingadmissionpolicy.MessageExpressionCondition"
  | MatchConditionAccessor _ _ => "*matchconditions.MatchCondition"
  end.

(** One turn of the loop over the evaluated audit annotations. *)
Definition annotationOf (f : string) (evalResult : EvaluationResult) : PolicyAuditAnnotation :=
  match er_ExpressionAccessor evalResult with
  | None => {| pa_Key := ""; pa_Value := ""; pa_Action := AuditAnnotationActionUnset; pa_Error := "" |}
  | Some (AuditAnnotationCondition key valueExpression) =>
      let result action value error := {| pa_Key := key; pa_Value := value; pa_Action := action; pa_Error := error |} in
      match er_Error evalResult, er_EvalResult evalResult with
      | Some err, _ => result (auditAnnotationEvaluationForError f) "" (ce_Detail err)
      | None, Some (CelString s) =>
          let value := TrimSpace s in
          if bool_decide (value = "") then result AuditAnnotationActionExclude "" ""
          else result AuditAnnotationActionPublish value ""
      | None, Some CelNull => result AuditAnnotationActionExclude "" ""
      | None, v =>
          result AuditAnnotationActionError ""
            ("valueExpression '" +:+ valueExpression +:+ "' resulted in unsupported return type: " +:+
             default "" (celType_name <$> v) +:+ ". Return type must be either string or null.")
      end
  | Some e =>
      {| pa_Key := ""; pa_Value := ""; pa_Action := auditAnnotationEvaluationForError f;
         pa_Error := "Invalid type sent to validator, expected AuditAnnotationCondition but got " +:+ goType e |}
  end.

(** [validator.Validate] after its match conditions. *)
Definition runValidations (v : validator) (f : string) va param (runtimeCELCostBudget : Z) : ValidateResult :=
  let optionalVars := {| VersionedParams := param; bound_Authorizer := vd_authorizer v |} in
  let expressionOptionalVars := {| VersionedParams := param; bound_Authorizer := None |} in
  match ForInput (vd_validationFilter v) va optionalVars runtimeCELCostBudget with
  | Err err => failed f (filterError_Error err)
  | Ok (evalResults, remainingBudget) =>
      let decisions :=
        match ForInput (vd_messageFilter v) va expressionOptionalVars remainingBudget with
        | Ok (messageResults, _) => decisionsOf f None evalResults messageResults
        | Err err => decisionsOf f (Some err) evalResults []
        end in
      match ForInput (vd_auditAnnotationFilter v) va expressionOptionalVars runtimeCELCostBudget with
      | Err err => failed f (filterError_Error err)
      | Ok (annotationResults, _) =>
          {| vr_Decisions := decisions; vr_AuditAnnotations := annotationOf f <$> annotationResults |}
      end
  end.

Definition validator_Validate (v : validator) va param (runtimeCELCostBudget : Z) : ValidateResult :=
  let f := default Fail (vd_failPolicy v) in
  match vd_celMatcher v with
  | None => runValidations v f va param runtimeCELCostBudget
  | Some m =>
      let matchResults := Match m va param in
      match mt_Error matchResults with
      | Some err => failed f err
      | None =>
          if negb (mt_Matches matchResults) then {| vr_Decisions := []; vr_AuditAnnotations := [] |}
          else runValidations v f va param runtimeCELCostBudget
      end
  end.
End Validator.
Arguments conditionMatcher Obj Authorizer {_}.
Arguments validator Obj Authorizer {_}.

(** ** The validator of a policy

    [latestPolicyData] of [controller_reconcile.go] compiles a policy's expressions for
    each of its bindings. *)

Definition convertv1alpha1FailurePolicyTypeTov1FailurePolicyType (policyType : option string) : option string :=
  (λ t, if bool_decide (t = Fail) then Fail else if bool_decide (t = Ignore) then Ignore else "") <$> policyType.

Section NewValidator.
Context `{!MetaV1} {Obj Authorizer : Type} `{CEL Obj Authorizer}.
Implicit Types (spec : ValidatingAdmissionPolicySpec Native) (authz : option Authorizer).

Definition convertv1alpha1Validations (vs : list (Validation Native)) : list (option ExpressionAccessor) :=
  (λ v, Some (ValidationCondition (va_Expression v) (va_Message v) (va_Reason v))) <$> vs.

Definition convertV1Alpha1MessageExpressions (vs : list (Validation Native)) : list (option ExpressionAccessor) :=
  (λ v, if bool_decide (va_MessageExpression v = "") then None
        else Some (MessageExpressionCondition (va_MessageExpression v))) <$> vs.

Definition convertv1alpha1AuditAnnotations (aas : list (AuditAnnotation Native)) : list (option ExpressionAccessor) :=
  (λ a, Some (AuditAnnotationCondition (aa_Key a) (aa_ValueExpression a))) <$> aas.

Definition convertMatchConditions (mcs : list (MatchCondition Native)) : list (option ExpressionAccessor) :=
  (λ c, Some (MatchConditionAccessor (mc_Name c) (mc_Expression c))) <$> mcs.

(** [matchconditions.NewMatcher]. *)
Definition NewMatcher (f : list (CompilationResult Obj Authorizer)) authz (failPolicy : option string) :
    conditionMatcher Obj Authorizer :=
  {| cm_filter := f; cm_authorizer := authz; cm_failPolicy := default Fail failPolicy |}.

Definition compileValidator authz spec : validator Obj Authorizer :=
  let hasParam := bool_decide (is_Some (ps_ParamKind spec)) in
  let optionalVars := {| HasParams := hasParam; HasAuthorizer := true |} in
  let expressionOptionalVars := {| HasParams := hasParam; HasAuthorizer := false |} in
  let failurePolicy := convertv1alpha1FailurePolicyTypeTov1FailurePolicyType (ps_FailurePolicy spec) in
  {| vd_celMatcher := match range (ps_MatchConditions spec) with
                      | [] => None
                      | mcs => Some (NewMatcher (Compile (convertMatchConditions mcs) optionalVars) authz failurePolicy)
                      end;
     vd_validationFilter := Compile (convertv1alpha1Validations (range (ps_Validations spec))) optionalVars;
     vd_auditAnnotationFilter :=
       Compile (convertv1alpha1AuditAnnotations (range (ps_AuditAnnotations spec))) optionalVars;
     vd_messageFilter :=
       Compile (convertV1Alpha1MessageExpressions (range (ps_Validations spec))) expressionOptionalVars;
     vd_failPolicy := failurePolicy; vd_authorizer := authz |}.
End NewValidator.

(** ** Theorems *)

Section Facts.
Context `{!MetaV1} {Obj Authorizer : Type} `{CEL Obj Authorizer}.
Implicit Types (spec : ValidatingAdmissionPolicySpec Native) (authz : option Authorizer).
Implicit Types (va : VersionedAttributes Obj) (param : option Obj) (act : activation V Authorizer).
Implicit Types (r : EvaluationResult) (cr : CompilationResult Obj Authorizer) (d : PolicyDecision).

(** The expression compiles and evaluates to the value. *)
Definition evaluates (decls : OptionalVariableDeclarations) act (e : ExpressionAccessor) (v : celValue) : Prop :=
  ∃ program, compile (GetExpression e) (ReturnTypes e) decls = Ok program ∧
             ev_result (ContextEval program act) = Ok v.

Lemma evaluateAll_Forall2 act f budget rs budget' :
  evaluateAll act f budget = Ok (rs, budget') →
  Forall2 (λ cr r, ∃ b b', evaluate act cr b = Ok (r, b')) f rs.
Proof.
  revert budget rs. induction f as [|cr f IH]; intros budget rs; simpl; [intros [= <- <-]; constructor|].
  intros ([r b] & Hr & ([rs' b'] & Hrs & [= <- <-])%bind_Ok)%bind_Ok. constructor; [eauto|by eapply IH].
Qed.

(** What the evaluation of a compiled expression is. *)
Lemma evaluate_compiled decls act e b r b' :
  evaluate act (CompileCELExpression e decls) b = Ok (r, b') →
  er_ExpressionAccessor r = Some e ∧
  ((∃ v, er_Error r = None ∧ er_EvalResult r = Some v ∧ evaluates decls act e v) ∨
   (is_Some (er_Error r) ∧ er_EvalResult r = None)).
Proof.
  unfold evaluate, CompileCELExpression, evaluates.
  destruct (compile (GetExpression e) (ReturnTypes e) decls) as [program|err] eqn:Hc; simpl.
  - destruct (ev_details _) as [[cost|]|]; [|done..]. destruct (_ || _); [done|].
    destruct (ev_result _) as [v|msg] eqn:Hv; intros [= <- <-]; simpl; eauto 8.
  - intros [= <- <-]; simpl; eauto.
Qed.

Lemma evaluateAll_compiled {A} (accessor : A → ExpressionAccessor) decls act (xs : list A) budget rs budget' :
  evaluateAll act (Compile ((λ x, Some (accessor x)) <$> xs) decls) budget = Ok (rs, budget') →
  Forall2 (λ x r, er_ExpressionAccessor r = Some (accessor x) ∧
    ((∃ v, er_Error r = None ∧ er_EvalResult r = Some v ∧ evaluates decls act (accessor x) v) ∨
     (is_Some (er_Error r) ∧ er_EvalResult r = None))) xs rs.
Proof.
  intros Hf%evaluateAll_Forall2. unfold Compile in Hf. rw -list_fmap_compose Forall2_fmap_l in Hf.
  eapply Forall2_impl; [exact Hf|]. intros x r (b & b' & Hr). by eapply evaluate_compiled.
Qed.

(** The failure policy the validator runs under. *)
Definition failPolicyOf spec : string :=
  default Fail (convertv1alpha1FailurePolicyTypeTov1FailurePolicyType (ps_FailurePolicy spec)).

Lemma failPolicyOf_Ignore spec : failPolicyOf spec = Ignore ↔ ps_FailurePolicy spec = Some Ignore.
Proof.
  unfold failPolicyOf, convertv1alpha1FailurePolicyTypeTov1FailurePolicyType.
  destruct (ps_FailurePolicy spec) as [t|]; simpl; [|done].
  repeat case_bool_decide; naive_solver.
Qed.

Lemma conditionErrors_None rs :
  conditionErrors rs = None → ∃ r, r ∈ rs ∧ er_EvalResult r = Some (CelBool false).
Proof.
  induction rs as [|r rs IH]; simpl; [done|]. destruct (er_ExpressionAccessor r) as [[]|];
    try (destruct (conditionErrors rs); [done|]; intros _; destruct IH as (r' & ? & ?); [done|];
         exists r'; split; [by right|done]).
  case_bool_decide; [intros _; exists r; split; [by left|done]|].
  destruct (conditionErrors rs); [done|]. intros _. destruct IH as (r' & ? & ?); [done|].
  exists r'. split; [by right|done].
Qed.

Definition optionalVars spec : OptionalVariableDeclarations :=
  {| HasParams := bool_decide (is_Some (ps_ParamKind spec)); HasAuthorizer := true |}.

(** A match condition of the policy is false. *)
Definition condition_unmet authz spec va param : Prop :=
  ∃ act c, activate va {| VersionedParams := param; bound_Authorizer := authz |} = Ok act ∧
    c ∈ range (ps_MatchConditions spec) ∧
    evaluates (optionalVars spec) act (MatchConditionAccessor (mc_Name c) (mc_Expression c)) (CelBool false).

(** Match conditions end in a false one, in an error, or let the validations run. *)
Lemma Match_cases authz spec va param mcs (f := failPolicyOf spec) :
  range (ps_MatchConditions spec) = mcs →
  let m := NewMatcher (Compile (convertMatchConditions mcs) (optionalVars spec)) authz
             (convertv1alpha1FailurePolicyTypeTov1FailurePolicyType (ps_FailurePolicy spec)) in
  Match m va param = {| mt_Matches := true; mt_Error := None |} ∨
  (Match m va param = {| mt_Matches := false; mt_Error := None |} ∧
   (condition_unmet authz spec va param ∨ f = Ignore)) ∨
  (∃ err, Match m va param = {| mt_Matches := false; mt_Error := Some err |} ∧ f = Fail).
Proof.
  intros Hmcs m. unfold Match, ForInput. change (cm_failPolicy m) with f.
  cbn [m NewMatcher cm_filter cm_authorizer].
  destruct (activate va _) as [act|err] eqn:Hact; simpl; [|by repeat case_bool_decide; eauto 8].
  destruct (evaluateAll _ _ _) as [[rs b]|err] eqn:Hrs; simpl; [|by repeat case_bool_decide; eauto 8].
  destruct (conditionErrors rs) as [[|err errs]|] eqn:Hc; [by eauto|by repeat case_bool_decide; eauto 8|].
  right; left. split; [done|]. left. apply conditionErrors_None in Hc as (r & Hr & Hv).
  unfold convertMatchConditions in Hrs.
  apply (evaluateAll_compiled (λ c, MatchConditionAccessor (mc_Name c) (mc_Expression c))) in Hrs.
  apply list_elem_of_lookup in Hr as [i Hi]. destruct (Forall2_lookup_r _ _ _ _ _ Hrs Hi) as (c & Hci & _ & Hev).
  exists act, c. split; [done|]. split; [by rw Hmcs; eapply list_elem_of_lookup_2|].
  destruct Hev as [(v & _ & Hv' & Hev)|[_ Hv']]; [|congruence]. by rw Hv in Hv'; injection Hv' as <-.
Qed.

Lemma errorDecision_Deny f msg : f ≠ Ignore → pd_Action (errorDecision f msg) = ActionDeny.
Proof. intros Hf. simpl. unfold policyDecisionActionForError. by rw bool_decide_eq_false_2. Qed.

Lemma errorDecision_Ignore msg : pd_Action (errorDecision Ignore msg) = ActionAdmit.
Proof. done. Qed.

(** The validations themselves, once they run. *)
Definition validationOf (v : Validation Native) : ExpressionAccessor :=
  ValidationCondition (va_Expression v) (va_Message v) (va_Reason v).

Definition validation_gives authz spec va param (v : Validation Native) (value : celValue) : Prop :=
  ∃ act, activate va {| VersionedParams := param; bound_Authorizer := authz |} = Ok act ∧
    evaluates (optionalVars spec) act (validationOf v) value.

Lemma decide_admits f messageErr r message v decls act :
  f ≠ Ignore → er_ExpressionAccessor r = Some (validationOf v) →
  (∃ v', er_Error r = None ∧ er_EvalResult r = Some v' ∧ evaluates decls act (validationOf v) v') ∨
    (is_Some (er_Error r) ∧ er_EvalResult r = None) →
  pd_Action (decide_validation f messageErr r message) = ActionAdmit →
  evaluates decls act (validationOf v) (CelBool true).
Proof.
  intros Hf Ha Hr. unfold decide_validation. rw Ha. cbn [validationOf].
  destruct Hr as [(v' & -> & Hv & Hev)|[[err ->] _]]; [|by rw errorDecision_Deny].
  destruct (fatalMessageError _); [by rw errorDecision_Deny|]. rw Hv.
  case_bool_decide as Ht; [by injection Ht as ->|done].
Qed.

(** A deny decision of a policy that ignores errors is a validation that is not true. *)
Lemma decide_denies messageErr r message v decls act :
  er_ExpressionAccessor r = Some (validationOf v) →
  (∃ v', er_Error r = None ∧ er_EvalResult r = Some v' ∧ evaluates decls act (validationOf v) v') ∨
    (is_Some (er_Error r) ∧ er_EvalResult r = None) →
  pd_Action (decide_validation Ignore messageErr r message) = ActionDeny →
  ∃ value, value ≠ CelBool true ∧ evaluates decls act (validationOf v) value.
Proof.
  intros Ha Hr. unfold decide_validation. rw Ha. cbn [validationOf].
  destruct Hr as [(v' & -> & Hv & Hev)|[[err ->] _]]; [|by rw errorDecision_Ignore].
  destruct (fatalMessageError _); [by rw errorDecision_Ignore|]. rw Hv.
  case_bool_decide as Ht; [done|]. intros _. exists v'. split; [by intros ->|done].
Qed.

Abbreviation result_of authz spec va param budget := (validator_Validate (compileValidator authz spec) va param budget).

(** What the validations come to, once they run. *)
Definition ran authz spec va param (f : string) (r : ValidateResult) : Prop :=
  ∃ act rs messageErr messages,
    activate va {| VersionedParams := param; bound_Authorizer := authz |} = Ok act ∧
    vr_Decisions r = decisionsOf f messageErr rs messages ∧
    Forall2 (λ v r, er_ExpressionAccessor r = Some (validationOf v) ∧
      ((∃ v', er_Error r = None ∧ er_EvalResult r = Some v' ∧ evaluates (optionalVars spec) act (validationOf v) v') ∨
       (is_Some (er_Error r) ∧ er_EvalResult r = None))) (range (ps_Validations spec)) rs.

Lemma runValidations_cases authz spec f va param budget (r := runValidations (compileValidator authz spec) f va param budget) :
  (∃ msg, r = failed f msg) ∨ ran authz spec va param f r.
Proof.
  subst r. unfold runValidations, ran. cbn [compileValidator vd_validationFilter vd_authorizer].
  unfold ForInput at 1 4. destruct (activate va _) as [act|err]; [|by eauto].
  destruct (evaluateAll _ _ _) as [[rs b]|err] eqn:Hrs; [|by eauto].
  destruct (ForInput (vd_auditAnnotationFilter _) _ _ _) as [[as_ b']|err]; [|by eauto].
  right. apply (evaluateAll_compiled validationOf) in Hrs. exists act, rs. cbn [vr_Decisions].
  destruct (ForInput _ _ _ _) as [[messages b'']|err]; [by exists None, messages|by exists (Some err), []].
Qed.

(** How the validator comes to its decisions: a failure, unmet conditions, or one
    decision for each validation. *)
Lemma Validate_cases authz spec va param budget (f := failPolicyOf spec) (r := result_of authz spec va param budget) :
  (∃ msg, r = failed f msg) ∨
  (r = {| vr_Decisions := []; vr_AuditAnnotations := [] |} ∧ (condition_unmet authz spec va param ∨ f = Ignore)) ∨
  ran authz spec va param f r.
Proof.
  subst r. unfold validator_Validate. change (default Fail (vd_failPolicy _)) with f.
  pose proof (runValidations_cases authz spec f va param budget) as Hrun.
  cbn [compileValidator vd_celMatcher]. fold (optionalVars spec).
  destruct (range (ps_MatchConditions spec)) as [|mc mcs] eqn:Hmcs;
    [by destruct Hrun; auto|].
  destruct (Match_cases authz spec va param _ Hmcs) as [->|[[-> ?]|(err & -> & _)]]; simpl;
    [by destruct Hrun; auto|by eauto..].
Qed.

(** C5: a policy that does not ignore errors admits a request only if it has nothing to
    say about it, because one of its match conditions is false, or if every one of its
    validations compiles and evaluates to true on the request: errors, exhausted budgets,
    other values and failed conversions are denials. *)
Theorem fail_policy_admits_only_valid authz spec va param budget :
  ps_FailurePolicy spec ≠ Some Ignore →
  (∀ d, d ∈ vr_Decisions (result_of authz spec va param budget) → pd_Action d = ActionAdmit) →
  condition_unmet authz spec va param ∨
  ∀ v, v ∈ range (ps_Validations spec) → validation_gives authz spec va param v (CelBool true).
Proof.
  rw -failPolicyOf_Ignore. intros Hf Hadmit. destruct (Validate_cases authz spec va param budget)
    as [[msg Hr]|[[Hr [?|?]]|(act & rs & messageErr & messages & Hact & Hd & Hrs)]]; [|by left|done|].
  - rw Hr in Hadmit. specialize (Hadmit _ ltac:(by left)). by rw (errorDecision_Deny _ msg Hf) in Hadmit.
  - right. intros v [i Hi]%list_elem_of_lookup. exists act. split; [done|].
    destruct (Forall2_lookup_l _ _ _ _ _ Hrs Hi) as (r & Hri & Ha & Hev).
    apply (decide_admits (failPolicyOf spec) messageErr r (messages !! i) v _ _ Hf Ha Hev), Hadmit.
    rw Hd. apply list_elem_of_lookup. exists i. unfold decisionsOf. by rw list_lookup_imap Hri.
Qed.

(** C6: a policy that ignores errors denies a request only if one of its validations
    evaluates, without an error, to something other than true. *)
Theorem ignore_policy_denies_only_invalid authz spec va param budget d :
  ps_FailurePolicy spec = Some Ignore →
  d ∈ vr_Decisions (result_of authz spec va param budget) → pd_Action d = ActionDeny →
  ∃ v value, v ∈ range (ps_Validations spec) ∧ value ≠ CelBool true ∧ validation_gives authz spec va param v value.
Proof.
  rw -failPolicyOf_Ignore. intros Hf Hd Hdeny. destruct (Validate_cases authz spec va param budget)
    as [[msg Hr]|[[Hr _]|(act & rs & messageErr & messages & Hact & Hds & Hrs)]].
  - rw Hr Hf in Hd. by apply list_elem_of_singleton in Hd as ->.
  - rw Hr in Hd. by apply elem_of_nil in Hd.
  - rw Hds Hf in Hd. apply list_elem_of_lookup in Hd as [i Hi]. unfold decisionsOf in Hi.
    rw list_lookup_imap in Hi. destruct (rs !! i) as [r|] eqn:Hri; [|done]. injection Hi as <-.
    destruct (Forall2_lookup_r _ _ _ _ _ Hrs Hri) as (v & Hvi & Ha & Hev).
    destruct (decide_denies messageErr r (messages !! i) v _ _ Ha Hev Hdeny) as (value & Hne & Hval).
    exists v, value. split; [by eapply list_elem_of_lookup_2|]. split; [done|]. by exists act.
Qed.

(** A compiled validator sets the action of every audit annotation. *)
Lemma annotations_are_set authz spec va param budget aa :
  aa ∈ vr_AuditAnnotations (result_of authz spec va param budget) → pa_Action aa ≠ AuditAnnotationActionUnset.
Proof.
  assert (∀ f, aa ∈ vr_AuditAnnotations (runValidations (compileValidator authz spec) f va param budget) →
               pa_Action aa ≠ AuditAnnotationActionUnset) as Hrun.
  { intros f. unfold runValidations. destruct (ForInput (vd_validationFilter _) _ _ _) as [[rs b]|err];
      [|by intros ?%elem_of_nil].
    destruct (ForInput (vd_auditAnnotationFilter _) _ _ _) as [[as_ b']|err] eqn:Has; [|by intros ?%elem_of_nil].
    unfold ForInput in Has. destruct (activate va _) as [act|err]; [|done].
    destruct (evaluateAll _ _ _) as [[? ?]|err] eqn:Hall; [|done]. injection Has as -> ->. rename Hall into Has.
    cbn [compileValidator vd_auditAnnotationFilter] in Has.
    apply (evaluateAll_compiled (λ a, AuditAnnotationCondition (aa_Key a) (aa_ValueExpression a))) in Has.
    cbn [vr_AuditAnnotations]. intros (r & -> & [i Hi]%list_elem_of_lookup)%list_elem_of_fmap.
    destruct (Forall2_lookup_r _ _ _ _ _ Has Hi) as (x & _ & Ha & _). unfold annotationOf. rw Ha.
    destruct (er_Error r); [cbn [pa_Action]; unfold auditAnnotationEvaluationForError; by destruct (bool_decide (f = _))|].
    destruct (er_EvalResult r) as [[| s | |]|]; [done| |done..]. by destruct (bool_decide (TrimSpace s = _)). }
  unfold validator_Validate. cbn [compileValidator vd_celMatcher].
  destruct (range (ps_MatchConditions spec)) as [|mc mcs]; [apply Hrun|].
  destruct (mt_Error _); [by intros ?%elem_of_nil|]. destruct (negb _); [by intros ?%elem_of_nil|apply Hrun].
Qed.
End Facts.

(** ** Witnesses: objects are texts, and the expressions understood are [true] and one
    that is true of [good] and in error of anything else but [bad]. *)
Module PolicyWitness.
#[export] Instance demo_meta : MetaV1 := {|
  ObjectMeta := string; LabelSelector := ParamRef CRD; Condition := ExpressionWarning CRD; zero_ObjectMeta := "";
  marshalObjectMeta name := Ok (JObj [("name", JStr name)]);
  unmarshalObjectMeta j := match j with JObj fs => getField "name" fs | _ => typeError end;
|}.

#[export] Instance demo_cel : CEL string unit := {|
  V := string;
  Program := string;
  compile expression _ _ :=
    if bool_decide (expression = "(") then Err {| ce_Type := ErrorTypeInvalid; ce_Detail := "syntax error" |}
    else Ok expression;
  ContextEval program act :=
    {| ev_details := Some (Some 1%Z);
       ev_result := if bool_decide (program = "true") then Ok (CelBool true)
                    else if bool_decide (va_object _ _ act = Some "good") then Ok (CelBool true)
                    else if bool_decide (va_object _ _ act = Some "bad") then Ok (CelBool false)
                    else Err "no such key" |};
  ToUnstructured object := Ok object;
  requestVal _ := Ok "";
|}.

Definition demo_rule : NamedRuleWithOperations Native :=
  {| nr_ResourceNames := mk_slice None;
     nr_RuleWithOperations :=
       {| rw_Operations := mk_slice (Some ["*"]);
          rw_Rule := {| ru_APIGroups := mk_slice (Some ["*"]); ru_APIVersions := mk_slice (Some ["v1"]);
                        ru_Resources := mk_slice (Some ["pods"]); ru_Scope := None |} |} |}.

(** Selectors are empty and select everything. *)
Definition demo_spec (failurePolicy : string) (paramKind : option (ParamKind Native)) : ValidatingAdmissionPolicySpec Native :=
  {| ps_ParamKind := paramKind;
     ps_MatchConstraints := Some
       {| mr_NamespaceSelector := Some {| pr_Name := ""; pr_Namespace := "" |};
          mr_ObjectSelector := Some {| pr_Name := ""; pr_Namespace := "" |};
          mr_ResourceRules := mk_slice (Some [demo_rule]); mr_ExcludeResourceRules := mk_slice None;
          mr_MatchPolicy := Some "Equivalent" |};
     ps_Validations := mk_slice (Some
       [{| va_Expression := "object.good"; va_Message := ""; va_Reason := None; va_MessageExpression := "" |}]);
     ps_FailurePolicy := Some failurePolicy;
     ps_AuditAnnotations := mk_slice None;
     ps_MatchConditions := mk_slice (Some [{| mc_Name := "always"; mc_Expression := "true" |}]) |}.

Abbreviation result_of authz spec va param budget := (validator_Validate (compileValidator authz spec) va param budget).

Definition demo_kind := {| gvk_Group := ""; gvk_Version := "v1"; gvk_Kind := "Pod" |}.
Definition demo_attributes (object : string) : Attributes string :=
  NewAttributesRecord (Some object) None demo_kind "ns" "p"
    {| gvr_Group := ""; gvr_Version := "v1"; gvr_Resource := "pods" |} "" "CREATE" None false
    {| ui_Name := "alice"; ui_UID := ""; ui_Groups := []; ui_Extra := None |}.
Definition demo_versioned (object : string) : VersionedAttributes string :=
  {| v_Attributes := demo_attributes object; v_VersionedOldObject := None; v_VersionedObject := Some object;
     v_VersionedKind := demo_kind |}.

Lemma fail_policy_admits_only_valid_witness :
  pd_Action <$> vr_Decisions (result_of (None (A := unit)) (demo_spec "Fail" None) (demo_versioned "good") None 100)
    = [ActionAdmit] ∧
  (condition_unmet (None (A := unit)) (demo_spec "Fail" None) (demo_versioned "good") None ∨
   ∀ v, v ∈ range (ps_Validations (demo_spec "Fail" None)) →
     validation_gives (None (A := unit)) (demo_spec "Fail" None) (demo_versioned "good") None v (CelBool true)).
Proof.
  split; [by vm_compute|].
  apply (fail_policy_admits_only_valid None (demo_spec "Fail" None) (demo_versioned "good") None 100); [done|].
  intros d Hd. vm_compute in Hd. by apply list_elem_of_singleton in Hd as ->.
Defined.

Lemma ignore_policy_denies_only_invalid_witness :
  pd_Action <$> vr_Decisions (result_of (None (A := unit)) (demo_spec "Ignore" None) (demo_versioned "") None 100)
    = [ActionAdmit] ∧
  ∃ v value, v ∈ range (ps_Validations (demo_spec "Ignore" None)) ∧ value ≠ CelBool true ∧
    validation_gives (None (A := unit)) (demo_spec "Ignore" None) (demo_versioned "bad") None v value.
Proof.
  split; [by vm_compute|].
  apply (ignore_policy_denies_only_invalid None (demo_spec "Ignore" None) (demo_versioned "bad") None 100
           (default {| pd_Action := ActionAdmit; pd_Evaluation := EvalError; pd_Message := ""; pd_Reason := "" |}
              (head (vr_Decisions (result_of None (demo_spec "Ignore" None) (demo_versioned "bad") None 100)))));
    [done|vm_compute; by left|by vm_compute].
Defined.
End PolicyWitness.
