(* ===== verification/PolicyEvaluator.v ===== *)
(** * The CEL evaluator's verdict

    [celAdmissionController.Validate] of the vendored
    [plugin/validatingadmissionpolicy/controller.go], which the plugin of
    [plugin.go] hands every request to: it goes through the policies and their bindings,
    collects denials, warnings and audit annotations, and answers with the first denial.
    The policies come as the snapshot [PolicyController] makes; which order they come in
    is up to Go's maps. *)
From S2P Require Import Prelude GoStrings ApiMachinery Admission Json ApiTypes Matching PolicyValidator.

(** ** Versioned objects *)

(** The kind an object says it has, and [New], [Convert] and [SetGroupVersionKind] of
    the scheme to make it another. *)
Class ObjectConvertor (Obj : Type) := {
  GroupVersionKindOf : Obj → GroupVersionKind;
  convertTo : GroupVersionKind → Obj → result error Obj;
}.

Section Versioned.
Context {Obj : Type} `{ObjectConvertor Obj}.

Definition ConvertToGVK (obj : Obj) (gvk : GroupVersionKind) : result error Obj :=
  if decide (GroupVersionKindOf obj = gvk) then Ok obj else convertTo gvk obj.

Definition convertOptional (obj : option Obj) (gvk : GroupVersionKind) : result error (option Obj) :=
  match obj with None => Ok None | Some obj => Some <$> ConvertToGVK obj gvk end.

Definition NewVersionedAttributes (a : Attributes Obj) (gvk : GroupVersionKind) : result error (VersionedAttributes Obj) :=
  old ← convertOptional (a_oldObject a) gvk;
  obj ← convertOptional (a_object a) gvk;
  Ok {| v_Attributes := a; v_VersionedOldObject := old; v_VersionedObject := obj; v_VersionedKind := gvk |}.
End Versioned.

(** ** The snapshot *)

(** A params controller, at the moment of a request: whether it syncs within the second
    the request waits for it, and its cache. *)
Record paramController (Obj : Type) := { pc_synced : bool; pc_cache : gmap string Obj }.
Arguments pc_synced {Obj}.
Arguments pc_cache {Obj}.

(** What a request leaves behind besides its verdict. *)
Record validationFailureValue := {
  vf_Message : string;
  vf_Policy : string;
  vf_Binding : string;
  vf_ExpressionIndex : nat;
  vf_ValidationActions : list string;
}.

Inductive effect :=
| AddWarning (text : string)
| AddAnnotation (key value : string)
| AddFailureAnnotation (value : validationFailureValue).

Definition Deny : string := "Deny".
Definition Warn : string := "Warn".
Definition Audit : string := "Audit".

Definition maxAuditAnnotationValueLength : nat := 10 * 1024.

Definition StatusReasonInvalid : string := "Invalid".

Definition reasonToCode (r : string) : Z :=
  if bool_decide (r = "Forbidden") then http_StatusForbidden
  else if bool_decide (r = "Unauthorized") then 401%Z
  else if bool_decide (r = "RequestEntityTooLarge") then 413%Z
  else 422%Z.

(** [%v] of a [ParamKind]. *)
Definition ParamKind_String (k : ParamKind Native) : string :=
  "&ParamKind{APIVersion:" +:+ pk_APIVersion k +:+ ",Kind:" +:+ pk_Kind k +:+ ",}".

(** [generic.lister.Get] on the cache. *)
Definition notFound (name : string) : error :=
  StatusError {| st_Status := StatusFailure; st_Message := name +:+ " not found";
                 st_Reason := StatusReasonNotFound; st_Details := None; st_Code := http_StatusNotFound |}.

Definition getParam {Obj} (c : paramController Obj) (namespace name : string) : result error Obj :=
  let key := if bool_decide (namespace = "") then name else namespace +:+ "/" +:+ name in
  match pc_cache c !! key with Some obj => Ok obj | None => Err (notFound name) end.

Section Evaluator.
Context `{!MetaV1, !LabelSelectors} {Obj Authorizer : Type}.
Context `{MetaAccessor Obj, ObjectLabels Obj, ObjectConvertor Obj, CEL Obj Authorizer}.
Context (nameOf : ObjectMeta → string).
Abbreviation Policy := (ValidatingAdmissionPolicy Native).
Abbreviation Binding := (ValidatingAdmissionPolicyBinding Native).
Implicit Types (definition : Policy) (binding : Binding) (a : Attributes Obj).

Record definitionInfo := {
  di_configurationError : option error;
  di_lastReconciledValue : Policy;
}.

Record bindingInfo := {
  bi_validator : option (validator Obj Authorizer);
  bi_lastReconciledValue : Binding;
}.

(** A params controller is referred to by a number. *)
Record policyData := {
  pd_definitionInfo : definitionInfo;
  pd_paramController : option nat;
  pd_bindings : list bindingInfo;
}.

Record policyDecisionWithMetadata := {
  dm_PolicyDecision : PolicyDecision;
  dm_Definition : Policy;
  dm_Binding : option Binding;
}.

(** What a part of [Validate] adds: denials, effects, annotations for the policy's
    collector, and whether it returns at once. *)
Record outcome := {
  oc_denied : list policyDecisionWithMetadata;
  oc_effects : list effect;
  oc_annotations : list (string * string);
  oc_returned : option error;
}.

Definition nothing : outcome :=
  {| oc_denied := []; oc_effects := []; oc_annotations := []; oc_returned := None |}.

Definition denying (denied : list policyDecisionWithMetadata) : outcome :=
  {| oc_denied := denied; oc_effects := []; oc_annotations := []; oc_returned := None |}.

(** One part after another; a return ends it. *)
Definition oc_app (o1 o2 : outcome) : outcome :=
  match oc_returned o1 with
  | Some _ => o1
  | None => {| oc_denied := oc_denied o1 ++ oc_denied o2; oc_effects := oc_effects o1 ++ oc_effects o2;
               oc_annotations := oc_annotations o1 ++ oc_annotations o2; oc_returned := oc_returned o2 |}
  end.

(** A loop over such parts; [None] is a panic, and a return skips what comes after. *)
Fixpoint oc_loop {A} (f : A → option outcome) (xs : list A) : option outcome :=
  match xs with
  | [] => Some nothing
  | x :: xs =>
      o ← f x;
      match oc_returned o with
      | Some _ => Some o
      | None => o' ← oc_loop f xs; Some (oc_app o o')
      end
  end.

Definition denyMessage (message : string) : PolicyDecision :=
  {| pd_Action := ActionDeny; pd_Evaluation := EvalNone; pd_Message := message; pd_Reason := "" |}.

Definition addConfigError (err : error) definition (binding : option Binding) : list policyDecisionWithMetadata :=
  let policy := default Fail (ps_FailurePolicy (p_Spec definition)) in
  let deny message :=
    [{| dm_PolicyDecision := denyMessage message; dm_Definition := definition; dm_Binding := binding |}] in
  if bool_decide (policy = Ignore) then []
  else if bool_decide (policy = Fail)
  then deny (match binding with
             | None => "failed to configure policy: " +:+ Error err
             | Some _ => "failed to configure binding: " +:+ Error err
             end)
  else deny ("unrecognized failure policy: '" +:+ policy +:+ "'").

(** [publishValidationFailureAnnotation]. *)
Definition failureAnnotation binding (i : nat) (decision : PolicyDecision) : effect :=
  AddFailureAnnotation
    {| vf_Message := pd_Message decision; vf_Policy := bs_PolicyName (b_Spec binding);
       vf_Binding := nameOf (b_ObjectMeta binding); vf_ExpressionIndex := i;
       vf_ValidationActions := range (bs_ValidationActions (b_Spec binding)) |}.

Definition warningText definition binding (decision : PolicyDecision) : string :=
  "Validation failed for ValidatingAdmissionPolicy '" +:+ nameOf (p_ObjectMeta definition) +:+
  "' with binding '" +:+ nameOf (b_ObjectMeta binding) +:+ "': " +:+ pd_Message decision.

(** A validation action of the binding, for one failed validation. *)
Definition enforceAction definition binding (i : nat) (decision : PolicyDecision) (action : string) : outcome :=
  if bool_decide (action = Deny)
  then denying [{| dm_PolicyDecision := decision; dm_Definition := definition; dm_Binding := Some binding |}]
  else if bool_decide (action = Audit)
  then {| oc_denied := []; oc_effects := [failureAnnotation binding i decision];
          oc_annotations := []; oc_returned := None |}
  else if bool_decide (action = Warn)
  then {| oc_denied := []; oc_effects := [AddWarning (warningText definition binding decision)];
          oc_annotations := []; oc_returned := None |}
  else nothing.

Definition enforceDecision definition binding (i : nat) (decision : PolicyDecision) : outcome :=
  match pd_Action decision with
  | ActionAdmit => nothing
  | ActionDeny =>
      foldr oc_app nothing
        (enforceAction definition binding i decision <$> range (bs_ValidationActions (b_Spec binding)))
  end.

(** An audit annotation of the result. *)
Definition enforceAnnotation definition binding (aa : PolicyAuditAnnotation) : outcome :=
  match pa_Action aa with
  | AuditAnnotationActionPublish =>
      {| oc_denied := []; oc_effects := [];
         oc_annotations := [(pa_Key aa, String.substring 0 maxAuditAnnotationValueLength (pa_Value aa))];
         oc_returned := None |}
  | AuditAnnotationActionError =>
      denying [{| dm_PolicyDecision := {| pd_Action := ActionDeny; pd_Evaluation := EvalError;
                                          pd_Message := pa_Error aa; pd_Reason := "" |};
                  dm_Definition := definition; dm_Binding := Some binding |}]
  | AuditAnnotationActionExclude => nothing
  | AuditAnnotationActionUnset =>
      {| oc_denied := []; oc_effects := []; oc_annotations := [];
         oc_returned := Some (ErrorString "unsupported AuditAnnotation Action: ") |}
  end.

Definition enforceResult definition binding (r : ValidateResult) : outcome :=
  foldr oc_app nothing
    (imap (enforceDecision definition binding) (vr_Decisions r)
     ++ (enforceAnnotation definition binding <$> vr_AuditAnnotations r)).

(** ** Params *)

Section Request.
Context (namespaces : Namespaces) (o : EquivalentResourceMapper) (authz : option Authorizer).
(** The params controllers, as the request finds them. *)
Context (paramControllers : nat → paramController Obj).

(** The parameter of a binding: none is needed, it is found, or the binding is
    misconfigured. *)
Definition paramOf (data : policyData) binding : result error (option Obj) :=
  match ps_ParamKind (p_Spec (di_lastReconciledValue (pd_definitionInfo data))), bs_ParamRef (b_Spec binding) with
  | Some paramKind, Some paramRef =>
      match paramControllers <$> pd_paramController data with
      | None => Err (ErrorString ("paramKind kind `" +:+ ParamKind_String paramKind +:+ "` not known"))
      | Some c =>
          if negb (pc_synced c)
          then Err (ErrorString ("paramKind kind `" +:+ ParamKind_String paramKind +:+
                                 "` not yet synced to use for admission"))
          else Some <$> getParam c (pr_Namespace paramRef) (pr_Name paramRef)
      end
  | _, _ => Ok None
  end.

(** ** Validate *)

(** The loop over a policy's bindings; a validator that is missing panics.  The test of
    [err] after the validator ran is never true: [err] is nil by then. *)
Definition evaluateBinding a (data : policyData) (matchKind : GroupVersionKind) (info : bindingInfo) : option outcome :=
  let definition := di_lastReconciledValue (pd_definitionInfo data) in
  let binding := bi_lastReconciledValue info in
  let misconfigured err := Some (denying (addConfigError err definition (Some binding))) in
  match BindingMatches namespaces o binding a with
  | Err err => misconfigured err
  | Ok false => Some nothing
  | Ok true =>
      match paramOf data binding with
      | Err err => misconfigured err
      | Ok param =>
          match NewVersionedAttributes a matchKind with
          | Err err => misconfigured (WrapError ("failed to convert object version: " +:+ Error err) err)
          | Ok va =>
              v ← bi_validator info;
              Some (enforceResult definition binding (validator_Validate v va param RuntimeCELCostBudget))
          end
      end
  end.

(** [auditAnnotationCollector]: a value is kept once. *)
Definition collector_add (c : gmap string (list string)) (kv : string * string) : gmap string (list string) :=
  let values := default [] (c !! kv.1) in
  if decide (kv.2 ∈ values) then c else <[kv.1 := values ++ [kv.2]]> c.

Definition collector_publish (c : gmap string (list string)) definition : list effect :=
  (λ '(key, values),
     AddAnnotation (nameOf (p_ObjectMeta definition) +:+ "/" +:+ key)
       (Join values ", ")) <$> map_to_list c.

(** After a policy's bindings, its annotations are published. *)
Definition published definition (oc : outcome) : outcome :=
  match oc_returned oc with
  | Some _ => oc
  | None =>
      {| oc_denied := oc_denied oc;
         oc_effects := oc_effects oc ++ collector_publish (foldl collector_add ∅ (oc_annotations oc)) definition;
         oc_annotations := []; oc_returned := None |}
  end.

(** The loop over the policies. *)
Definition evaluatePolicy a (data : policyData) : option outcome :=
  let definition := di_lastReconciledValue (pd_definitionInfo data) in
  match DefinitionMatches namespaces o definition a with
  | None => None
  | Some (Err err) => Some (denying (addConfigError err definition None))
  | Some (Ok (false, _)) => Some nothing
  | Some (Ok (true, matchKind)) =>
      match di_configurationError (pd_definitionInfo data) with
      | Some err => Some (denying (addConfigError err definition None))
      | None => published definition <$> oc_loop (evaluateBinding a data matchKind) (pd_bindings data)
      end
  end.

Definition denialMessage (d : policyDecisionWithMetadata) : string :=
  "ValidatingAdmissionPolicy '" +:+ nameOf (p_ObjectMeta (dm_Definition d)) +:+ "' " +:+
  match dm_Binding d with
  | Some binding => "with binding '" +:+ nameOf (b_ObjectMeta binding) +:+ "' denied request: "
  | None => "denied request: "
  end +:+ pd_Message (dm_PolicyDecision d).

(** The error a denial becomes. *)
Definition denialError a (d : policyDecisionWithMetadata) : option error :=
  let message := denialMessage d in
  match admission_NewForbidden a (ErrorString message) with
  | StatusError st =>
      details ← st_Details st;
      let reason := if bool_decide (pd_Reason (dm_PolicyDecision d) = "") then StatusReasonInvalid
                    else pd_Reason (dm_PolicyDecision d) in
      Some (StatusError
        {| st_Status := st_Status st; st_Message := st_Message st; st_Reason := reason;
           st_Details := Some {| sd_Name := sd_Name details; sd_Group := sd_Group details; sd_Kind := sd_Kind details;
                                 sd_Causes := sd_Causes details ++ [{| cause_Type := ""; cause_Message := message |}] |};
           st_Code := reasonToCode reason |})
  | _ => None
  end.

(** The verdict over a snapshot. *)
Definition evaluatePolicies a (definitions : list policyData) : option (option error * list effect) :=
  oc ← oc_loop (evaluatePolicy a) definitions;
  match oc_returned oc, oc_denied oc with
  | Some err, _ => Some (Some err, oc_effects oc)
  | None, [] => Some (None, oc_effects oc)
  | None, d :: _ => err ← denialError a d; Some (Some err, oc_effects oc)
  end.

(** [celAdmissionController]: whether the policy informers are synced, the stored
    snapshot, and what requests left behind. *)
Record celAdmissionController := {
  ce_policiesSynced : bool;
  ce_definitions : option (list policyData);
  ce_effects : list effect;
}.

Definition evaluator_HasSynced (c : celAdmissionController) : bool :=
  ce_policiesSynced c && bool_decide (is_Some (ce_definitions c)).

Definition evaluator_Validate a (c : celAdmissionController) : option (option error * celAdmissionController) :=
  if negb (evaluator_HasSynced c)
  then Some (Some (admission_NewForbidden a (ErrorString "not yet ready to handle request")), c)
  else
    definitions ← ce_definitions c;
    '(err, effects) ← evaluatePolicies a definitions;
    Some (err, {| ce_policiesSynced := ce_policiesSynced c; ce_definitions := ce_definitions c;
                  ce_effects := ce_effects c ++ effects |}).
End Request.
End Evaluator.
Arguments bindingInfo {_} Obj Authorizer {_}.
Arguments policyData {_} Obj Authorizer {_}.
Arguments celAdmissionController {_} Obj Authorizer {_}.

(** ** Theorems *)

Section Outcomes.
Context `{!MetaV1}.
Implicit Types (oc : outcome) (d : policyDecisionWithMetadata).

(** Nothing returned at once. *)
Definition clean oc : Prop := oc_returned oc = None.

Lemma oc_app_clean o1 o2 : clean o1 → oc_app o1 o2 =
  {| oc_denied := oc_denied o1 ++ oc_denied o2; oc_effects := oc_effects o1 ++ oc_effects o2;
     oc_annotations := oc_annotations o1 ++ oc_annotations o2; oc_returned := oc_returned o2 |}.
Proof. unfold clean, oc_app. by intros ->. Qed.

Lemma foldr_clean (os : list outcome) :
  (∀ o, o ∈ os → clean o) →
  clean (foldr oc_app nothing os) ∧ oc_denied (foldr oc_app nothing os) = concat (oc_denied <$> os).
Proof.
  induction os as [|o os IH]; intros Hc; [done|]. simpl. rw oc_app_clean; [apply Hc; by left|].
  destruct IH as [IHc IHd]; [intros; apply Hc; by right|]. split; [done|]. simpl. by rw IHd.
Qed.

Lemma oc_loop_clean {A} (f : A → option outcome) (g : A → outcome) xs :
  (∀ x, x ∈ xs → f x = Some (g x) ∧ clean (g x)) →
  ∃ o, oc_loop f xs = Some o ∧ clean o ∧ oc_denied o = concat ((λ x, oc_denied (g x)) <$> xs).
Proof.
  induction xs as [|x xs IH]; intros Hf; simpl; [by exists nothing|].
  destruct (Hf x) as [Hx Hc]; [by left|]. rw Hx. simpl. rw Hc.
  destruct IH as (o & -> & Ho & Hd); [intros; apply Hf; by right|]. simpl. eexists. split; [done|].
  rw oc_app_clean //. split; [done|]. simpl. by rw Hd.
Qed.
End Outcomes.

Section Verdict.
Context `{!MetaV1, !LabelSelectors} {Obj Authorizer : Type}.
Context `{MetaAccessor Obj, ObjectLabels Obj, ObjectConvertor Obj, CEL Obj Authorizer}.
Context (nameOf : ObjectMeta → string) (namespaces : Namespaces) (o : EquivalentResourceMapper).
Context (authz : option Authorizer) (paramControllers : nat → paramController Obj).
Abbreviation Policy := (ValidatingAdmissionPolicy Native).
Abbreviation Binding := (ValidatingAdmissionPolicyBinding Native).
Implicit Types (definition : Policy) (binding : Binding) (a : Attributes Obj).
Implicit Types (data : policyData Obj Authorizer) (info : bindingInfo Obj Authorizer).

(** *** What denies a request *)

Definition definitionOf data : Policy := di_lastReconciledValue (pd_definitionInfo data).

(** The policy does not ignore errors. *)
Definition enforces_errors definition : Prop := ps_FailurePolicy (p_Spec definition) ≠ Some Ignore.

(** A failed validation under a binding that denies, or an audit annotation in error. *)
Definition result_denies binding (r : ValidateResult) : Prop :=
  (Deny ∈ range (bs_ValidationActions (b_Spec binding)) ∧ ∃ d, d ∈ vr_Decisions r ∧ pd_Action d = ActionDeny) ∨
  ∃ aa, aa ∈ vr_AuditAnnotations r ∧ pa_Action aa = AuditAnnotationActionError.

Definition binding_denies a data (matchKind : GroupVersionKind) info : Prop :=
  let definition := definitionOf data in
  let binding := bi_lastReconciledValue info in
  match BindingMatches namespaces o binding a with
  | Err _ => enforces_errors definition
  | Ok false => False
  | Ok true =>
      match paramOf paramControllers data binding, NewVersionedAttributes a matchKind with
      | Err _, _ | _, Err _ => enforces_errors definition
      | Ok param, Ok va =>
          result_denies binding
            (validator_Validate (compileValidator authz (p_Spec definition)) va param RuntimeCELCostBudget)
      end
  end.

Definition policy_denies a data : Prop :=
  match DefinitionMatches namespaces o (definitionOf data) a with
  | None | Some (Ok (false, _)) => False
  | Some (Err _) => enforces_errors (definitionOf data)
  | Some (Ok (true, matchKind)) =>
      match di_configurationError (pd_definitionInfo data) with
      | Some _ => enforces_errors (definitionOf data)
      | None => ∃ info, info ∈ pd_bindings data ∧ binding_denies a data matchKind info
      end
  end.

(** A policy with constraints whose bindings have the validators of its own spec. *)
Record well_compiled data : Prop := {
  wc_constraints : is_Some (ps_MatchConstraints (p_Spec (definitionOf data)));
  wc_validators : di_configurationError (pd_definitionInfo data) = None →
    ∀ info, info ∈ pd_bindings data →
      bi_validator info = Some (compileValidator authz (p_Spec (definitionOf data)));
}.

Lemma addConfigError_denies err definition (binding : option Binding) :
  addConfigError err definition binding ≠ [] ↔ enforces_errors definition.
Proof.
  unfold addConfigError, enforces_errors. destruct (ps_FailurePolicy _) as [f|]; simpl.
  - destruct (bool_decide (f = Ignore)) eqn:Hf; [apply bool_decide_eq_true in Hf as ->; naive_solver|].
    apply bool_decide_eq_false in Hf. destruct (bool_decide (f = Fail)); naive_solver.
  - naive_solver.
Qed.

Lemma enforceAction_clean definition binding i d action : clean (enforceAction nameOf definition binding i d action).
Proof. unfold enforceAction, clean. by repeat case_bool_decide. Qed.

Lemma enforceAction_denied definition binding i d action :
  oc_denied (enforceAction nameOf definition binding i d action) ≠ [] ↔ action = Deny.
Proof.
  unfold enforceAction. case_bool_decide; [naive_solver|]. repeat case_bool_decide; simpl; naive_solver.
Qed.

Lemma concat_not_nil {A} (xss : list (list A)) : concat xss ≠ [] ↔ ∃ xs, xs ∈ xss ∧ xs ≠ [].
Proof.
  induction xss as [|xs xss IH]; [split; [done|by intros (? & ?%elem_of_nil & _)]|].
  destruct xs as [|x xs]; simpl.
  - rw IH. split; [intros (ys & ? & ?); exists ys; split; [by right|done]|].
    intros (ys & [->|?]%elem_of_cons & ?); [done|by exists ys].
  - split; [|done]. intros _. exists (x :: xs). split; [by left|done].
Qed.

Lemma enforceDecision_clean definition binding i d :
  clean (enforceDecision nameOf definition binding i d) ∧
  (oc_denied (enforceDecision nameOf definition binding i d) ≠ [] ↔
   Deny ∈ range (bs_ValidationActions (b_Spec binding)) ∧ pd_Action d = ActionDeny).
Proof.
  unfold enforceDecision. destruct (pd_Action d); [by split; [|naive_solver]|].
  destruct (foldr_clean (enforceAction nameOf definition binding i d <$> range (bs_ValidationActions (b_Spec binding))))
    as [Hc ->]; [intros oc (x & -> & _)%list_elem_of_fmap; apply enforceAction_clean|].
  split; [done|]. rw concat_not_nil. split.
  - intros (ds & (oc & -> & (x & -> & Hx)%list_elem_of_fmap)%list_elem_of_fmap & Hne).
    by apply enforceAction_denied in Hne as ->.
  - intros [Hd _]. exists (oc_denied (enforceAction nameOf definition binding i d Deny)).
    split; [|by apply enforceAction_denied]. by do 2 apply list_elem_of_fmap_2.
Qed.

Lemma enforceAnnotation_denied definition binding aa :
  oc_denied (enforceAnnotation definition binding aa) ≠ [] ↔ pa_Action aa = AuditAnnotationActionError.
Proof. unfold enforceAnnotation. destruct (pa_Action aa); simpl; naive_solver. Qed.

Lemma enforceResult_denies definition binding r :
  (∀ aa, aa ∈ vr_AuditAnnotations r → pa_Action aa ≠ AuditAnnotationActionUnset) →
  clean (enforceResult nameOf definition binding r) ∧
  (oc_denied (enforceResult nameOf definition binding r) ≠ [] ↔ result_denies binding r).
Proof.
  intros Hset. unfold enforceResult.
  destruct (foldr_clean (imap (enforceDecision nameOf definition binding) (vr_Decisions r)
              ++ (enforceAnnotation definition binding <$> vr_AuditAnnotations r))) as [Hc ->].
  { intros oc [(i & d & -> & _)%elem_of_lookup_imap_1|(aa & -> & Ha)%list_elem_of_fmap]%elem_of_app;
      [apply enforceDecision_clean|].
    specialize (Hset aa Ha). unfold enforceAnnotation, clean. by destruct (pa_Action aa). }
  split; [done|]. rw concat_not_nil. unfold result_denies. split.
  - intros (ds & (oc & -> & Hoc)%list_elem_of_fmap & Hne). apply elem_of_app in Hoc as [Hoc|Hoc].
    + apply elem_of_lookup_imap_1 in Hoc as (i & d & -> & Hd). apply enforceDecision_clean in Hne as [? ?].
      left. split; [done|]. exists d. split; [by eapply list_elem_of_lookup_2|done].
    + apply list_elem_of_fmap in Hoc as (aa & -> & Ha). apply enforceAnnotation_denied in Hne. right. eauto.
  - intros [[HD (d & [i Hd]%list_elem_of_lookup & Hdeny)]|(aa & Ha & He)].
    + exists (oc_denied (enforceDecision nameOf definition binding i d)). split; [|by apply enforceDecision_clean].
      apply list_elem_of_fmap_2, elem_of_app. left. by apply elem_of_lookup_imap_2.
    + exists (oc_denied (enforceAnnotation definition binding aa)). split; [|by apply enforceAnnotation_denied].
      apply list_elem_of_fmap_2, elem_of_app. right. by apply list_elem_of_fmap_2.
Qed.

(** A part that ran through, denying exactly when [P]. *)
Definition ran_through (oc : option outcome) (P : Prop) : Prop :=
  ∃ oc', oc = Some oc' ∧ clean oc' ∧ (oc_denied oc' ≠ [] ↔ P).

Lemma ran_denying denied (P : Prop) : (denied ≠ [] ↔ P) → ran_through (Some (denying denied)) P.
Proof. intros HP. by exists (denying denied). Qed.

Lemma ran_nothing (P : Prop) : ¬ P → ran_through (Some nothing) P.
Proof. intros HP. exists nothing. split; [done|]. split; [done|]. simpl. tauto. Qed.

Lemma ran_misconfigured err definition (for_ : option Binding) :
  ran_through (Some (denying (addConfigError err definition for_))) (enforces_errors definition).
Proof. apply ran_denying, addConfigError_denies. Qed.

Lemma ran_loop {A} (f : A → option outcome) (P : A → Prop) xs :
  (∀ x, x ∈ xs → ran_through (f x) (P x)) → ran_through (oc_loop f xs) (∃ x, x ∈ xs ∧ P x).
Proof.
  intros Hf. destruct (oc_loop_clean f (λ x, default nothing (f x)) xs) as (oc & Hoc & Hc & Hd).
  { intros x Hx. destruct (Hf x Hx) as (oc & -> & Hc & _). done. }
  exists oc. split; [done|]. split; [done|]. rw Hd concat_not_nil. split.
  - intros (ds & (x & -> & Hx)%list_elem_of_fmap & Hne). exists x. split; [done|].
    destruct (Hf x Hx) as (oc' & Hfx & _ & HP). apply HP. by rw Hfx in Hne.
  - intros (x & Hx & HPx). destruct (Hf x Hx) as (oc' & Hfx & _ & HP).
    exists (oc_denied (default nothing (f x))). split; [by apply list_elem_of_fmap; exists x|].
    rw Hfx. by apply HP.
Qed.

Lemma evaluateBinding_denies a data matchKind info :
  bi_validator info = Some (compileValidator authz (p_Spec (definitionOf data))) →
  ran_through (evaluateBinding nameOf namespaces o paramControllers a data matchKind info)
    (binding_denies a data matchKind info).
Proof.
  intros Hv. unfold evaluateBinding, binding_denies. fold (definitionOf data). rw Hv.
  destruct (BindingMatches _ _ _ _) as [[]|err]; [|by apply ran_nothing; intros []|apply ran_misconfigured].
  destruct (paramOf _ _ _) as [param|err]; [|apply ran_misconfigured].
  destruct (NewVersionedAttributes _ _) as [va|err]; [|apply ran_misconfigured].
  eexists. split; [done|]. apply enforceResult_denies. intros aa. apply annotations_are_set.
Qed.

Lemma evaluatePolicy_denies a data :
  well_compiled data →
  ran_through (evaluatePolicy nameOf namespaces o paramControllers a data) (policy_denies a data).
Proof.
  intros [[mr Hmr] Hv]. unfold evaluatePolicy, policy_denies, DefinitionMatches.
  fold (definitionOf data). rw Hmr. simpl.
  destruct (Matcher_Matches _ _ _ _) as [[[] matchKind]|err];
    [|by apply ran_nothing; intros []|apply ran_misconfigured].
  destruct (di_configurationError _) as [err|]; [apply ran_misconfigured|].
  destruct (ran_loop (evaluateBinding nameOf namespaces o paramControllers a data matchKind)
              (binding_denies a data matchKind) (pd_bindings data)) as (oc & -> & Hc & HP).
  { intros info Hin. by apply evaluateBinding_denies, Hv. }
  eexists. split; [done|]. unfold published, clean in *. by rw Hc.
Qed.

Lemma denialError_is_Some a d : is_Some (denialError nameOf a d).
Proof.
  unfold denialError, admission_NewForbidden. simpl. destruct (extractResourceName a) as [name resource].
  simpl. by eexists.
Qed.

(** The verdict on a request: over well compiled policies the evaluator comes to one, and
    it rejects exactly when one of the policies denies the request. *)
Lemma evaluatePolicies_verdict a definitions :
  (∀ data, data ∈ definitions → well_compiled data) →
  ∃ err effects,
    evaluatePolicies nameOf namespaces o paramControllers a definitions = Some (err, effects) ∧
    (err ≠ None ↔ ∃ data, data ∈ definitions ∧ policy_denies a data).
Proof.
  intros Hwc. destruct (ran_loop (evaluatePolicy nameOf namespaces o paramControllers a) (policy_denies a) definitions)
    as (oc & Hoc & Hc & HP); [intros data Hd; by apply evaluatePolicy_denies, Hwc|].
  unfold evaluatePolicies. rw Hoc. simpl. rw Hc. destruct (oc_denied oc) as [|d ds].
  - exists None, (oc_effects oc). split; [done|]. rw -HP. tauto.
  - destruct (denialError_is_Some a d) as [err Herr]. rw Herr. simpl. exists (Some err), (oc_effects oc).
    split; [done|]. rw -HP. done.
Qed.

(** C12: a policy without match constraints breaks every request: the evaluator panics
    exactly when the snapshot has such a policy, whatever the request is about. *)
Theorem evaluation_panics_iff a definitions :
  (∀ data, data ∈ definitions → di_configurationError (pd_definitionInfo data) = None →
     ∀ info, info ∈ pd_bindings data →
       bi_validator info = Some (compileValidator authz (p_Spec (definitionOf data)))) →
  evaluatePolicies nameOf namespaces o paramControllers a definitions = None ↔
  ∃ data, data ∈ definitions ∧ ps_MatchConstraints (p_Spec (definitionOf data)) = None.
Proof.
  intros Hv. split.
  - intros Hnone. destruct (decide (Exists (λ data, ps_MatchConstraints (p_Spec (definitionOf data)) = None) definitions))
      as [Hex|Hall]; [by apply Exists_exists in Hex|].
    destruct (evaluatePolicies_verdict a definitions) as (err & effects & Hs & _); [|congruence].
    intros data Hd. constructor; [|by apply Hv]. apply not_eq_None_Some. intros Hn.
    apply Hall, Exists_exists. by exists data.
  - intros (data & Hin & Hn). unfold evaluatePolicies.
    assert (oc_loop (evaluatePolicy nameOf namespaces o paramControllers a) definitions = None) as ->; [|done].
    induction definitions as [|data' definitions IH]; [by apply elem_of_nil in Hin|]. simpl.
    destruct (decide (ps_MatchConstraints (p_Spec (definitionOf data')) = None)) as [Hn'|Hs].
    { unfold evaluatePolicy, DefinitionMatches. fold (definitionOf data'). by rw Hn'. }
    destruct (evaluatePolicy_denies a data') as (oc & -> & Hc & _).
    { constructor; [by apply not_eq_None_Some|]. intros He. apply Hv; [by left|done]. }
    simpl. rw Hc. rw IH //; [intros data'' Hd; apply Hv; by right|].
    apply elem_of_cons in Hin as [->|Hin]; done.
Qed.

(** *** Actions that decide nothing *)

(** A binding without its validation actions other than [Deny], and a snapshot of such
    bindings. *)
Definition only_denying binding : Binding :=
  {| b_TypeMeta := b_TypeMeta binding; b_ObjectMeta := b_ObjectMeta binding;
     b_Spec := {| bs_PolicyName := bs_PolicyName (b_Spec binding); bs_ParamRef := bs_ParamRef (b_Spec binding);
                  bs_MatchResources := bs_MatchResources (b_Spec binding);
                  bs_ValidationActions :=
                    mk_slice (Some (filter (.= Deny) (range (bs_ValidationActions (b_Spec binding))))) |} |}.

Definition quiet_info info : bindingInfo Obj Authorizer :=
  {| bi_validator := bi_validator info; bi_lastReconciledValue := only_denying (bi_lastReconciledValue info) |}.

Definition quiet data : policyData Obj Authorizer :=
  {| pd_definitionInfo := pd_definitionInfo data; pd_paramController := pd_paramController data;
     pd_bindings := quiet_info <$> pd_bindings data |}.

Definition quiet_decision (d : policyDecisionWithMetadata) : policyDecisionWithMetadata :=
  {| dm_PolicyDecision := dm_PolicyDecision d; dm_Definition := dm_Definition d;
     dm_Binding := only_denying <$> dm_Binding d |}.

(** The same denials and the same return. *)
Definition agree (oc oc' : outcome) : Prop :=
  oc_denied oc' = quiet_decision <$> oc_denied oc ∧ oc_returned oc' = oc_returned oc.

Lemma agree_app o1 o1' o2 o2' : agree o1 o1' → agree o2 o2' → agree (oc_app o1 o2) (oc_app o1' o2').
Proof.
  intros [Hd1 Hr1] [Hd2 Hr2]. unfold oc_app, agree. rw Hr1. destruct (oc_returned o1) eqn:Hr; [by rw Hr1|].
  simpl. by rw fmap_app Hd1 Hd2.
Qed.

Lemma agree_foldr os os' : Forall2 agree os os' → agree (foldr oc_app nothing os) (foldr oc_app nothing os').
Proof. induction 1; [done|]. by apply agree_app. Qed.

Lemma agree_bind (m m' : option outcome) (k k' : outcome → option outcome) :
  option_Forall2 agree m m' → (∀ oc oc', agree oc oc' → option_Forall2 agree (k oc) (k' oc')) →
  option_Forall2 agree (m ≫= k) (m' ≫= k').
Proof. intros [oc oc' Hoc|] Hk; [by apply Hk|constructor]. Qed.

Lemma agree_bind_same {A} (m : option A) (k k' : A → option outcome) :
  (∀ x, option_Forall2 agree (k x) (k' x)) → option_Forall2 agree (m ≫= k) (m ≫= k').
Proof. intros Hk. destruct m; [apply Hk|constructor]. Qed.

Lemma agree_loop {A} (f f' : A → option outcome) (g : A → A) xs :
  (∀ x, x ∈ xs → option_Forall2 agree (f x) (f' (g x))) →
  option_Forall2 agree (oc_loop f xs) (oc_loop f' (g <$> xs)).
Proof.
  induction xs as [|x xs IH]; intros Hf; simpl; [by constructor|].
  apply agree_bind; [apply Hf; by left|]. intros oc oc' Hoc. pose proof Hoc as [_ ->].
  destruct (oc_returned oc); [by constructor|]. apply agree_bind; [apply IH; intros; apply Hf; by right|].
  intros oc2 oc2' Hoc2. constructor. by apply agree_app.
Qed.

Lemma agree_config err definition (for_ : option Binding) :
  agree (denying (addConfigError err definition for_)) (denying (addConfigError err definition (only_denying <$> for_))).
Proof.
  unfold addConfigError, agree. simpl. destruct for_; repeat (destruct (bool_decide _); [done|]); done.
Qed.

Lemma agree_actions definition binding i d actions :
  agree (foldr oc_app nothing (enforceAction nameOf definition binding i d <$> actions))
    (foldr oc_app nothing (enforceAction nameOf definition (only_denying binding) i d <$> filter (.= Deny) actions)).
Proof.
  induction actions as [|action actions IH]; [done|]. rw filter_cons. simpl.
  destruct (decide (action = Deny)) as [->|Hne]; [by apply agree_app|].
  destruct IH as [IHd IHr]. unfold agree. rw oc_app_clean; [apply enforceAction_clean|]. simpl.
  rw IHd IHr fmap_app. assert (oc_denied (enforceAction nameOf definition binding i d action) = []) as ->; [|done].
  unfold enforceAction. rw bool_decide_false //. by destruct (bool_decide (action = Audit)), (bool_decide (action = Warn)).
Qed.

Lemma agree_result definition binding r :
  agree (enforceResult nameOf definition binding r) (enforceResult nameOf definition (only_denying binding) r).
Proof.
  apply agree_foldr, Forall2_app.
  - apply Forall2_lookup. intros i. rw !list_lookup_imap. destruct (_ !! i) as [d|]; constructor.
    unfold enforceDecision. destruct (pd_Action d); [done|]. apply agree_actions.
  - apply Forall2_fmap_2, Forall_Forall2_diag, Forall_true. intros aa. unfold enforceAnnotation.
    by destruct (pa_Action aa).
Qed.

Lemma agree_policy a data :
  option_Forall2 agree (evaluatePolicy nameOf namespaces o paramControllers a data)
    (evaluatePolicy nameOf namespaces o paramControllers a (quiet data)).
Proof.
  unfold evaluatePolicy. cbn [quiet pd_definitionInfo pd_bindings].
  destruct (DefinitionMatches _ _ _ _) as [[[[] matchKind]|err]|]; [|by constructor..|constructor; apply (agree_config err _ None)|constructor].
  destruct (di_configurationError _) as [err|]; [constructor; apply (agree_config err _ None)|].
  change (published _ <$> ?m) with (m ≫= λ oc, Some (published nameOf (definitionOf data) oc)).
  apply agree_bind.
  - apply agree_loop. intros info _. unfold evaluateBinding.
    cbn [quiet_info bi_lastReconciledValue bi_validator quiet pd_definitionInfo].
    change (BindingMatches namespaces o (only_denying ?b) a) with (BindingMatches namespaces o b a).
    change (paramOf paramControllers (quiet data) (only_denying ?b)) with (paramOf paramControllers data b).
    destruct (BindingMatches _ _ _ _) as [[]|err]; [|by constructor|constructor; apply (agree_config err _ (Some _))].
    destruct (paramOf _ _ _) as [param|err]; [|constructor; apply (agree_config err _ (Some _))].
    destruct (NewVersionedAttributes _ _) as [va|err]; [|constructor; apply (agree_config _ _ (Some _))].
    apply agree_bind_same. intros v. constructor. apply agree_result.
  - intros oc oc' [Hd Hr]. constructor. unfold published, agree. rw Hr. destruct (oc_returned oc) eqn:Hret; [|done].
    by rw Hret.
Qed.

Lemma denialError_quiet a d : denialError nameOf a (quiet_decision d) = denialError nameOf a d.
Proof. unfold denialError, denialMessage, quiet_decision. by destruct (dm_Binding d). Qed.

(** The verdict on a request is the same when every validation action other than [Deny] is
    taken out of the bindings. *)
Lemma evaluatePolicies_quiet a definitions :
  fst <$> evaluatePolicies nameOf namespaces o paramControllers a (quiet <$> definitions)
  = fst <$> evaluatePolicies nameOf namespaces o paramControllers a definitions.
Proof.
  unfold evaluatePolicies.
  pose proof (agree_loop (evaluatePolicy nameOf namespaces o paramControllers a)
                (evaluatePolicy nameOf namespaces o paramControllers a) quiet definitions
                (λ data _, agree_policy a data)) as [oc oc' [Hd Hr]|]; [|done].
  simpl. rw Hd Hr. destruct (oc_returned oc); [done|]. destruct (oc_denied oc) as [|d ds]; [done|].
  simpl. rw denialError_quiet. by destruct (denialError _ _ d).
Qed.

(** The evaluator with such a snapshot. *)
Definition silenced (c : celAdmissionController Obj Authorizer) : celAdmissionController Obj Authorizer :=
  {| ce_policiesSynced := ce_policiesSynced c; ce_definitions := (λ definitions : list (policyData Obj Authorizer), quiet <$> definitions) <$> ce_definitions c;
     ce_effects := ce_effects c |}.

Lemma silenced_HasSynced c : evaluator_HasSynced (silenced c) = evaluator_HasSynced c.
Proof.
  unfold evaluator_HasSynced, silenced. simpl. f_equal. apply bool_decide_ext. by rw fmap_is_Some.
Qed.

Lemma silenced_Validate a c :
  fst <$> evaluator_Validate nameOf namespaces o paramControllers a (silenced c)
  = fst <$> evaluator_Validate nameOf namespaces o paramControllers a c.
Proof.
  unfold evaluator_Validate. rw silenced_HasSynced. destruct (evaluator_HasSynced c); [|done]. simpl.
  destruct (ce_definitions c) as [definitions|]; [|done]. simpl.
  pose proof (evaluatePolicies_quiet a definitions) as Hq.
  destruct (evaluatePolicies _ _ _ _ _ (quiet <$> definitions)) as [[]|],
    (evaluatePolicies _ _ _ _ _ definitions) as [[]|]; by simplify_eq/=.
Qed.
End Verdict.

(** ** Witness: a policy without constraints. *)
Module EvaluatorWitness.
Import PolicyWitness.
#[export] Instance demo_selectors : LabelSelectors :=
  {| ls_MatchLabels _ := ∅; ls_MatchExpressions _ := []; requirementError _ _ _ := None |}.
#[export] Instance demo_accessor : MetaAccessor string := λ _, None.
#[export] Instance demo_labels : ObjectLabels string := λ _, ∅.
#[export] Instance demo_convertor : ObjectConvertor string :=
  {| GroupVersionKindOf _ := demo_kind; convertTo _ object := Ok object |}.

Definition demo_nameOf (name : @ObjectMeta demo_meta) : string := name.
Definition demo_namespaces : Namespaces := {| ns_Lister _ := Ok ∅; ns_Client _ := Ok ∅ |}.
Definition demo_params (i : nat) : paramController string := {| pc_synced := true; pc_cache := ∅ |}.

Definition demo_policy (spec : ValidatingAdmissionPolicySpec Native) : ValidatingAdmissionPolicy Native :=
  {| p_TypeMeta := {| tm_Kind := ""; tm_APIVersion := "" |}; p_ObjectMeta := "policy" : @ObjectMeta demo_meta;
     p_Spec := spec; p_Status := zero |}.

Definition without_constraints : ValidatingAdmissionPolicySpec Native :=
  {| ps_ParamKind := None; ps_MatchConstraints := None; ps_Validations := mk_slice None; ps_FailurePolicy := None;
     ps_AuditAnnotations := mk_slice None; ps_MatchConditions := mk_slice None |}.

Definition demo_data : policyData string unit :=
  {| pd_definitionInfo := {| di_configurationError := None; di_lastReconciledValue := demo_policy without_constraints |};
     pd_paramController := None; pd_bindings := [] |}.

Lemma evaluation_panics_iff_witness :
  evaluatePolicies demo_nameOf demo_namespaces objectInferfaces demo_params (demo_attributes "good") [demo_data] = None.
Proof.
  apply (evaluation_panics_iff demo_nameOf demo_namespaces objectInferfaces None demo_params (demo_attributes "good")
           [demo_data]).
  - intros data ->%list_elem_of_singleton _ info Hinfo. by apply elem_of_nil in Hinfo.
  - exists demo_data. split; [by apply list_elem_of_singleton|reflexivity].
Defined.
End EvaluatorWitness.
