(* ===== verification/PolicyController.v ===== *)
(** * How the evaluator learns of policies

    [policyController] of the vendored
    [plugin/validatingadmissionpolicy/controller_reconcile.go] and the loop of
    [controller.go] that stores its snapshots: what the two generic controllers, of
    policies and of bindings, do on every change, under one lock, to the index from
    policies to bindings and to the informers of parameters, and [latestPolicyData].

    One step is a reconcile call, or a refresh of the stored snapshot, in the order Go's
    maps happen to have; [None] is a panic.  [Status]: the updates of a policy's status. *)
From S2P Require Import Prelude GoStrings ApiMachinery Admission Json ApiTypes Scheme RestMapper Matching PolicyValidator PolicyEvaluator.
From stdpp Require Import gmap.
From Stdlib Require Import Ascii.

#[export] Instance ParamKind_eq_dec d : EqDecision (ParamKind d).
Proof. solve_decision. Defined.
#[export] Instance ParamKind_countable d : Countable (ParamKind d).
Proof.
  apply (inj_countable' (λ k, (pk_APIVersion k, pk_Kind k)) (λ '(v, k), {| pk_APIVersion := v; pk_Kind := k |})).
  by intros [].
Defined.

(** [schema.ParseGroupVersion]. *)
Definition ParseGroupVersion (gv : string) : result error GroupVersion :=
  if bool_decide (gv = "") || bool_decide (gv = "/") then Ok {| gv_Group := ""; gv_Version := "" |}
  else match Split gv "/" with
       | [version] => Ok {| gv_Group := ""; gv_Version := version |}
       | [group; version] => Ok {| gv_Group := group; gv_Version := version |}
       | _ => Err (ErrorString ("unexpected GroupVersion string: " +:+ gv))
       end.

Definition namespacedName : Type := string * string.

(** A params controller that runs, and the policies that use it. *)
Record paramInfo := { pi_controller : nat; pi_dependentDefinitions : gset namespacedName }.

Section Controller.
Context `{!MetaV1} {Obj Authorizer : Type} `{CEL Obj Authorizer}.
Context (authz : option Authorizer).
(** [apiequality.Semantic.DeepEqual] on the two spec types. *)
Context (specEqual : ValidatingAdmissionPolicySpec Native → ValidatingAdmissionPolicySpec Native → bool).
Context (bindingSpecEqual : ValidatingAdmissionPolicyBindingSpec Native → ValidatingAdmissionPolicyBindingSpec Native → bool).
Abbreviation Policy := (ValidatingAdmissionPolicy Native).
Abbreviation Binding := (ValidatingAdmissionPolicyBinding Native).
Abbreviation bindingInfo := (bindingInfo Obj Authorizer).
Abbreviation policyData := (policyData Obj Authorizer).
Implicit Types (nn : namespacedName) (definition : Policy) (binding : Binding) (info : bindingInfo).

(** [policyController], and the snapshot of [celAdmissionController].  No cached policies
    is the nil slice; [pc_running] are the params controllers that were started and not
    stopped. *)
Record policyController := {
  pc_cachedPolicies : list policyData;
  pc_paramsCRDControllers : gmap (ParamKind Native) paramInfo;
  pc_definitionInfo : gmap namespacedName definitionInfo;
  pc_bindingInfos : gmap namespacedName bindingInfo;
  pc_definitionsToBindings : gmap namespacedName (gset namespacedName);
  pc_started : nat;
  pc_running : gset nat;
  pc_stored : option (list policyData);
}.
Implicit Types (s : policyController).

Definition newPolicyController : policyController :=
  {| pc_cachedPolicies := []; pc_paramsCRDControllers := ∅; pc_definitionInfo := ∅; pc_bindingInfos := ∅;
     pc_definitionsToBindings := ∅; pc_started := 0; pc_running := ∅; pc_stored := None |}.

Definition with_cached c s := {| pc_cachedPolicies := c; pc_paramsCRDControllers := pc_paramsCRDControllers s;
  pc_definitionInfo := pc_definitionInfo s; pc_bindingInfos := pc_bindingInfos s;
  pc_definitionsToBindings := pc_definitionsToBindings s; pc_started := pc_started s; pc_running := pc_running s;
  pc_stored := pc_stored s |}.
Definition with_params p running s := {| pc_cachedPolicies := pc_cachedPolicies s; pc_paramsCRDControllers := p;
  pc_definitionInfo := pc_definitionInfo s; pc_bindingInfos := pc_bindingInfos s;
  pc_definitionsToBindings := pc_definitionsToBindings s; pc_started := pc_started s; pc_running := running;
  pc_stored := pc_stored s |}.
Definition with_definitions d s := {| pc_cachedPolicies := pc_cachedPolicies s;
  pc_paramsCRDControllers := pc_paramsCRDControllers s; pc_definitionInfo := d; pc_bindingInfos := pc_bindingInfos s;
  pc_definitionsToBindings := pc_definitionsToBindings s; pc_started := pc_started s; pc_running := pc_running s;
  pc_stored := pc_stored s |}.
Definition with_bindings b s := {| pc_cachedPolicies := pc_cachedPolicies s;
  pc_paramsCRDControllers := pc_paramsCRDControllers s; pc_definitionInfo := pc_definitionInfo s; pc_bindingInfos := b;
  pc_definitionsToBindings := pc_definitionsToBindings s; pc_started := pc_started s; pc_running := pc_running s;
  pc_stored := pc_stored s |}.
Definition with_index i s := {| pc_cachedPolicies := pc_cachedPolicies s;
  pc_paramsCRDControllers := pc_paramsCRDControllers s; pc_definitionInfo := pc_definitionInfo s;
  pc_bindingInfos := pc_bindingInfos s; pc_definitionsToBindings := i; pc_started := pc_started s;
  pc_running := pc_running s; pc_stored := pc_stored s |}.
Definition with_started n s := {| pc_cachedPolicies := pc_cachedPolicies s;
  pc_paramsCRDControllers := pc_paramsCRDControllers s; pc_definitionInfo := pc_definitionInfo s;
  pc_bindingInfos := pc_bindingInfos s; pc_definitionsToBindings := pc_definitionsToBindings s; pc_started := n;
  pc_running := pc_running s; pc_stored := pc_stored s |}.
Definition with_stored r s := {| pc_cachedPolicies := pc_cachedPolicies s;
  pc_paramsCRDControllers := pc_paramsCRDControllers s; pc_definitionInfo := pc_definitionInfo s;
  pc_bindingInfos := pc_bindingInfos s; pc_definitionsToBindings := pc_definitionsToBindings s;
  pc_started := pc_started s; pc_running := pc_running s; pc_stored := r |}.

(** ** Definitions *)

(** Leave the params controller the policy used, if it uses another or none from now on;
    the last to leave stops it. *)
Definition leaveParams nn (old new : option (ParamKind Native)) s : policyController :=
  match old with
  | None => s
  | Some oldParamSource =>
      if decide (new = Some oldParamSource) then s
      else match pc_paramsCRDControllers s !! oldParamSource with
           | None => s
           | Some info =>
               let dependents := pi_dependentDefinitions info ∖ {[nn]} in
               if decide (dependents = ∅)
               then with_params (delete oldParamSource (pc_paramsCRDControllers s))
                      (pc_running s ∖ {[pi_controller info]}) s
               else with_params (<[oldParamSource := {| pi_controller := pi_controller info;
                                                        pi_dependentDefinitions := dependents |}]>
                                   (pc_paramsCRDControllers s)) (pc_running s) s
           end
  end.

Definition forget info : bindingInfo :=
  {| bi_validator := None; bi_lastReconciledValue := bi_lastReconciledValue info |}.

(** The loop that resets the compiled validators; a binding that is not there panics. *)
Definition resetOne nn (infos : option (gmap namespacedName bindingInfo)) : option (gmap namespacedName bindingInfo) :=
  infos ← infos; info ← infos !! nn; Some (<[nn := forget info]> infos).
Definition resetValidators (bindings : gset namespacedName) (infos : gmap namespacedName bindingInfo) :
    option (gmap namespacedName bindingInfo) :=
  foldr resetOne (Some infos) (elements bindings).

(** Use the params controller of a kind, or start one (over a typed or a dynamic informer:
    which is left out). *)
Definition joinParams nn (paramSource : ParamKind Native) s : policyController :=
  match pc_paramsCRDControllers s !! paramSource with
  | Some info =>
      with_params (<[paramSource := {| pi_controller := pi_controller info;
                                       pi_dependentDefinitions := {[nn]} ∪ pi_dependentDefinitions info |}]>
                     (pc_paramsCRDControllers s)) (pc_running s) s
  | None =>
      let id := pc_started s in
      with_started (S id)
        (with_params (<[paramSource := {| pi_controller := id; pi_dependentDefinitions := {[nn]} |}]>
                        (pc_paramsCRDControllers s)) ({[id]} ∪ pc_running s) s)
  end.

Definition setDefinition nn definition (configurationError : option error) s : policyController :=
  with_definitions (<[nn := {| di_configurationError := configurationError; di_lastReconciledValue := definition |}]>
                      (pc_definitionInfo s)) s.

Definition paramKindOf (definition : option Policy) : option (ParamKind Native) :=
  definition ≫= λ definition, ps_ParamKind (p_Spec definition).

Definition lastDefinition nn s : option Policy := di_lastReconciledValue <$> pc_definitionInfo s !! nn.

(** The end of the reconciliation, with the params of the policy's kind: the mapper is
    asked for their resource. *)
Definition resolveParams nn definition (restMapping : GroupKind → list string → result mapError RESTMapping) s
    : option error * policyController :=
  match ps_ParamKind (p_Spec definition) with
  | None => (None, setDefinition nn definition None s)
  | Some paramSource =>
      match ParseGroupVersion (pk_APIVersion paramSource) with
      | Err err =>
          let configurationError :=
            WrapError ("failed to parse apiVersion of paramKind '" +:+ ParamKind_String paramSource +:+
                       "' with error: " +:+ Error err) err in
          (None, setDefinition nn definition (Some configurationError) s)
      | Ok gv =>
          match restMapping {| gk_Group := gv_Group gv; gk_Kind := pk_Kind paramSource |} [gv_Version gv] with
          | Err _ =>
              let configurationError :=
                ErrorString ("failed to find resource referenced by paramKind: '" +:+
                             gvk_String (WithKind gv (pk_Kind paramSource)) +:+ "'") in
              (Some configurationError, setDefinition nn definition (Some configurationError) s)
          | Ok _ => (None, joinParams nn paramSource (setDefinition nn definition None s))
          end
      end
  end.

(** [reconcilePolicyDefinitionSpec]: the error it returns, which puts the key back into
    the queue. *)
Definition reconcilePolicyDefinitionSpec nn (definition : option Policy)
    (restMapping : GroupKind → list string → result mapError RESTMapping) s : option (option error * policyController) :=
  let s := with_cached [] s in
  let last := lastDefinition nn s in
  let unchanged := match last, definition with
                   | Some last, Some definition => specEqual (p_Spec last) (p_Spec definition)
                   | _, _ => false
                   end in
  if unchanged then Some (None, s)
  else
    let s := leaveParams nn (paramKindOf last) (paramKindOf definition) s in
    infos ← resetValidators (default ∅ (pc_definitionsToBindings s !! nn)) (pc_bindingInfos s);
    let s := with_bindings infos s in
    match definition with
    | None => Some (None, with_definitions (delete nn (pc_definitionInfo s)) s)
    | Some definition => Some (resolveParams nn definition restMapping s)
    end.

(** ** Bindings *)

Definition policyOf binding : namespacedName := ("", bs_PolicyName (b_Spec binding)).

(** [reconcilePolicyBinding]; a missing object has the zero name. *)
Definition reconcilePolicyBinding nn (binding : option Binding) s : policyController :=
  let s := with_cached [] s in
  let last := bi_lastReconciledValue <$> pc_bindingInfos s !! nn in
  let unchanged := match last, binding with
                   | Some last, Some binding => bindingSpecEqual (b_Spec last) (b_Spec binding)
                   | _, _ => false
                   end in
  if unchanged then s
  else
    let old := default ("", "") (policyOf <$> last) in
    let new := default ("", "") (policyOf <$> binding) in
    let s := if decide (old = new) then s
             else match pc_definitionsToBindings s !! old with
                  | None => s
                  | Some dependents =>
                      let dependents := dependents ∖ {[nn]} in
                      with_index (if decide (dependents = ∅) then delete old (pc_definitionsToBindings s)
                                  else <[old := dependents]> (pc_definitionsToBindings s)) s
                  end in
    match binding with
    | None => with_bindings (delete nn (pc_bindingInfos s)) s
    | Some binding =>
        with_bindings (<[nn := {| bi_validator := None; bi_lastReconciledValue := binding |}]> (pc_bindingInfos s))
          (with_index (<[new := {[nn]} ∪ default ∅ (pc_definitionsToBindings s !! new)]> (pc_definitionsToBindings s)) s)
    end.

(** ** Snapshots *)

(** A binding's validator is compiled when it has none and its policy can be enforced. *)
Definition compileBinding (d : definitionInfo) info : bindingInfo :=
  match bi_validator info, di_configurationError d with
  | None, None =>
      {| bi_validator := Some (compileValidator authz (p_Spec (di_lastReconciledValue d)));
         bi_lastReconciledValue := bi_lastReconciledValue info |}
  | _, _ => info
  end.

(** The loop over a policy's bindings: their infos, and the index with the validators. *)
Fixpoint collectBindings (d : definitionInfo) (names : list namespacedName) (infos : gmap namespacedName bindingInfo) :
    option (list bindingInfo * gmap namespacedName bindingInfo) :=
  match names with
  | [] => Some ([], infos)
  | nn :: names =>
      info ← infos !! nn;
      let info := compileBinding d info in
      '(rest, infos) ← collectBindings d names (<[nn := info]> infos);
      Some (info :: rest, infos)
  end.

Definition paramControllerOf s (d : definitionInfo) : option nat :=
  k ← ps_ParamKind (p_Spec (di_lastReconciledValue d)); pi_controller <$> pc_paramsCRDControllers s !! k.

(** The loop over the policies; [bindingOrder] is the order of a policy's set. *)
Fixpoint collectPolicies (names : list namespacedName) (bindingOrder : namespacedName → list namespacedName) s :
    option (list policyData * policyController) :=
  match names with
  | [] => Some ([], s)
  | nn :: names =>
      d ← pc_definitionInfo s !! nn;
      '(bindings, infos) ← collectBindings d (bindingOrder nn) (pc_bindingInfos s);
      let data := {| pd_definitionInfo := d; pd_paramController := paramControllerOf s d; pd_bindings := bindings |} in
      '(rest, s) ← collectPolicies names bindingOrder (with_bindings infos s);
      Some (data :: rest, s)
  end.

(** [latestPolicyData], with the orders in which the maps are visited. *)
Definition latestPolicyData (names : list namespacedName) (bindingOrder : namespacedName → list namespacedName) s :
    option (list policyData * policyController) :=
  match pc_cachedPolicies s with
  | (_ :: _) as existing => Some (existing, s)
  | [] => '(res, s) ← collectPolicies names bindingOrder s; Some (res, with_cached res s)
  end.

(** The orders visit each key once. *)
Definition visits (names : list namespacedName) (keys : gset namespacedName) : Prop :=
  NoDup names ∧ list_to_set names = keys.
#[global] Instance visits_dec names keys : Decision (visits names keys).
Proof. unfold visits. apply _. Defined.

Inductive pevent :=
| ReconcileDefinition nn (definition : option Policy) (restMapping : GroupKind → list string → result mapError RESTMapping)
| ReconcileBinding nn (binding : option Binding)
| RefreshPolicies (names : list namespacedName) (bindingOrder : namespacedName → list namespacedName).

(** One step; refreshing stores the snapshot.  [None]: it panics, or the order is none
    of the maps. *)
Definition ordered s (names : list namespacedName) (bindingOrder : namespacedName → list namespacedName) : Prop :=
  visits names (dom (pc_definitionInfo s)) ∧
  Forall (λ nn, visits (bindingOrder nn) (default ∅ (pc_definitionsToBindings s !! nn))) names.
#[global] Instance ordered_dec s names bindingOrder : Decision (ordered s names bindingOrder).
Proof. unfold ordered. apply _. Defined.

Definition policyStep (e : pevent) s : option policyController :=
  match e with
  | ReconcileDefinition nn definition restMapping => snd <$> reconcilePolicyDefinitionSpec nn definition restMapping s
  | ReconcileBinding nn binding => Some (reconcilePolicyBinding nn binding s)
  | RefreshPolicies names bindingOrder =>
      if decide (ordered s names bindingOrder)
      then '(res, s) ← latestPolicyData names bindingOrder s; Some (with_stored (Some res) s)
      else None
  end.
End Controller.

(** ** Policy status *)

Section Status.
Context `{!MetaV1} {Obj Authorizer : Type} `{CEL Obj Authorizer}.
Context (specEqual : ValidatingAdmissionPolicySpec Native → ValidatingAdmissionPolicySpec Native → bool).
(** The type checker, there if the evaluator was given a schema resolver, and
    [ObjectMeta.Generation]. *)
Context (typeChecker : option (ValidatingAdmissionPolicy Native → slice (ExpressionWarning Native))).
Context (generationOf : ObjectMeta → int64).
Implicit Types (definition : ValidatingAdmissionPolicy Native).

Definition calculatePolicyStatus (Check : ValidatingAdmissionPolicy Native → slice (ExpressionWarning Native)) definition :
    ValidatingAdmissionPolicyStatus Native :=
  {| pt_ObservedGeneration := generationOf (p_ObjectMeta definition);
     pt_TypeChecking := Some {| tc_ExpressionWarnings := Check definition |};
     pt_Conditions := pt_Conditions (p_Status definition) |}.

(** The object [UpdateStatus] is called with, if it is; its error is only logged. *)
Definition reconcilePolicyStatus (Check : ValidatingAdmissionPolicy Native → slice (ExpressionWarning Native))
    (definition : option (ValidatingAdmissionPolicy Native)) : option (ValidatingAdmissionPolicy Native) :=
  definition ← definition;
  if (i64 (pt_ObservedGeneration (p_Status definition)) <? i64 (generationOf (p_ObjectMeta definition)))%Z
  then Some {| p_TypeMeta := p_TypeMeta definition; p_ObjectMeta := p_ObjectMeta definition;
               p_Spec := p_Spec definition; p_Status := calculatePolicyStatus Check definition |}
  else None.

(** [reconcilePolicyDefinition]: its error, the object whose status it updates, and the
    new state. *)
Definition reconcilePolicyDefinition nn (definition : option (ValidatingAdmissionPolicy Native))
    (restMapping : GroupKind → list string → result mapError RESTMapping)
    (s : policyController (Obj := Obj) (Authorizer := Authorizer)) :
    option (option error * option (ValidatingAdmissionPolicy Native) * policyController (Obj := Obj) (Authorizer := Authorizer)) :=
  '(err, s) ← reconcilePolicyDefinitionSpec specEqual nn definition restMapping s;
  match err, typeChecker with
  | Some err, _ => Some (Some err, None, s)
  | None, None => Some (None, None, s)
  | None, Some Check => Some (None, reconcilePolicyStatus Check definition, s)
  end.
End Status.

(** ** The index *)

Section Index.
Context `{!MetaV1} {Obj Authorizer : Type} `{CEL Obj Authorizer}.
Context (authz : option Authorizer).
Context (specEqual : ValidatingAdmissionPolicySpec Native → ValidatingAdmissionPolicySpec Native → bool).
Context (bindingSpecEqual : ValidatingAdmissionPolicyBindingSpec Native → ValidatingAdmissionPolicyBindingSpec Native → bool).
Abbreviation Policy := (ValidatingAdmissionPolicy Native).
Abbreviation Binding := (ValidatingAdmissionPolicyBinding Native).
Abbreviation bindingInfo := (bindingInfo Obj Authorizer).
Abbreviation policyData := (policyData Obj Authorizer).
Abbreviation policyController := (policyController (Obj := Obj) (Authorizer := Authorizer)).
Abbreviation reconcileDefinition := (reconcilePolicyDefinitionSpec specEqual).
Abbreviation reconcileBinding := (reconcilePolicyBinding bindingSpecEqual).
Abbreviation policyStep := (policyStep authz specEqual bindingSpecEqual).
Implicit Types (nn b : namespacedName) (definition : Policy) (binding : Binding) (info : bindingInfo).
Implicit Types (s : policyController) (infos : gmap namespacedName bindingInfo) (d : definitionInfo).

Definition bindingsOf nn s : gset namespacedName := default ∅ (pc_definitionsToBindings s !! nn).

(** The index lists, for each policy, the bindings that name it; compiled validators are
    those of the policy their binding names, which has no configuration error. *)
Record indexed s : Prop := {
  ix_index : ∀ nn b, nn ≠ ("", "") →
    b ∈ bindingsOf nn s ↔ ∃ info, pc_bindingInfos s !! b = Some info ∧ policyOf (bi_lastReconciledValue info) = nn;
  ix_validators : ∀ b info v, pc_bindingInfos s !! b = Some info → bi_validator info = Some v →
    ∃ d, pc_definitionInfo s !! policyOf (bi_lastReconciledValue info) = Some d ∧
         di_configurationError d = None ∧ v = compileValidator authz (p_Spec (di_lastReconciledValue d));
  ix_named : pc_definitionInfo s !! ("", "") = None;
}.

(** What [indexed] looks at. *)
Lemma indexed_proper s s' :
  pc_definitionsToBindings s' = pc_definitionsToBindings s → pc_bindingInfos s' = pc_bindingInfos s →
  pc_definitionInfo s' = pc_definitionInfo s → indexed s → indexed s'.
Proof. intros Hi Hb Hd [H1 H2 H3]. constructor; unfold bindingsOf; rw ?Hi ?Hb ?Hd; done. Qed.

Lemma leaveParams_maps nn old new s :
  pc_definitionsToBindings (leaveParams nn old new s) = pc_definitionsToBindings s ∧
  pc_bindingInfos (leaveParams nn old new s) = pc_bindingInfos s ∧
  pc_definitionInfo (leaveParams nn old new s) = pc_definitionInfo s.
Proof.
  unfold leaveParams. destruct old as [old|]; [|done]. destruct (decide _); [done|].
  destruct (_ !! old); [|done]. by destruct (decide _).
Qed.

Lemma joinParams_maps nn k s :
  pc_definitionsToBindings (joinParams nn k s) = pc_definitionsToBindings s ∧
  pc_bindingInfos (joinParams nn k s) = pc_bindingInfos s ∧
  pc_definitionInfo (joinParams nn k s) = pc_definitionInfo s.
Proof. unfold joinParams. by destruct (_ !! k). Qed.

Lemma resolveParams_maps nn definition restMapping s :
  pc_definitionsToBindings (resolveParams nn definition restMapping s).2 = pc_definitionsToBindings s ∧
  pc_bindingInfos (resolveParams nn definition restMapping s).2 = pc_bindingInfos s ∧
  ∃ d, pc_definitionInfo (resolveParams nn definition restMapping s).2 = <[nn := d]> (pc_definitionInfo s) ∧
       di_lastReconciledValue d = definition.
Proof.
  unfold resolveParams. destruct (ps_ParamKind _) as [k|]; [|by eauto 6].
  destruct (ParseGroupVersion _) as [gv|err]; [|by eauto 6].
  destruct (restMapping _ _) as [mapping|err]; [|by eauto 6]. simpl.
  destruct (joinParams_maps nn k (setDefinition nn definition None s)) as (-> & -> & ->). eauto.
Qed.

Lemma resetAll_lookup names infos :
  (∀ b, b ∈ names → is_Some (infos !! b)) →
  ∃ infos', foldr resetOne (Some infos) names = Some infos' ∧
    ∀ b, infos' !! b = if decide (b ∈ names) then forget <$> infos !! b else infos !! b.
Proof.
  induction names as [|n names IH]; intros Hin; [by exists infos; split|].
  destruct IH as (infos' & Hf & Hl); [intros; apply Hin; by right|]. cbn [foldr]. rw Hf. unfold resetOne at 1. simpl.
  destruct (Hin n) as [i Hi]; [by left|].
  assert (∃ i', infos' !! n = Some i' ∧ forget i' = forget i) as (i' & -> & Hi').
  { rw Hl Hi. destruct (decide _); simpl; eauto. }
  simpl. eexists. split; [done|]. intros b. destruct (decide (b = n)) as [->|Hne].
  - rw lookup_insert_eq Hi decide_True; [by left|]. simpl. by rw Hi'.
  - rw lookup_insert_ne // Hl. destruct (decide (b ∈ names)).
    + rw decide_True //. by right.
    + rw decide_False //. by intros [?|?]%elem_of_cons.
Qed.

(** Resetting the validators of a policy's bindings. *)
Lemma reset_policy nn s :
  nn ≠ ("", "") → indexed s →
  ∃ infos, resetValidators (bindingsOf nn s) (pc_bindingInfos s) = Some infos ∧
    ∀ b, infos !! b = (λ info, if decide (policyOf (bi_lastReconciledValue info) = nn) then forget info else info)
                      <$> pc_bindingInfos s !! b.
Proof.
  intros Hnn Hs. destruct (resetAll_lookup (elements (bindingsOf nn s)) (pc_bindingInfos s)) as (infos & Hr & Hl).
  { intros b Hin%elem_of_elements. apply (ix_index s Hs) in Hin as (info & -> & _); done. }
  exists infos. split; [done|]. intros b. rw Hl. destruct (pc_bindingInfos s !! b) as [info|] eqn:Hb; simpl;
    [|by destruct (decide _)].
  assert (b ∈ elements (bindingsOf nn s) ↔ policyOf (bi_lastReconciledValue info) = nn) as Hiff.
  { rw elem_of_elements (ix_index s Hs nn b Hnn) Hb. naive_solver. }
  destruct (decide (b ∈ _)), (decide (policyOf _ = nn)); naive_solver.
Qed.

(** A state whose policy [nn] is another, and whose bindings are those of an indexed one
    with the validators of [nn] reset. *)
Lemma reset_indexed nn s s' :
  nn ≠ ("", "") → indexed s → pc_definitionsToBindings s' = pc_definitionsToBindings s →
  (∀ b, pc_bindingInfos s' !! b =
        (λ info, if decide (policyOf (bi_lastReconciledValue info) = nn) then forget info else info)
        <$> pc_bindingInfos s !! b) →
  (∀ n, n ≠ nn → pc_definitionInfo s' !! n = pc_definitionInfo s !! n) → indexed s'.
Proof.
  intros Hnn [H1 H2 H3] Hi Hb Hd. constructor; [| |by rw Hd].
  - intros n b Hn. unfold bindingsOf. rw Hi Hb. change (default ∅ _) with (bindingsOf n s). rw (H1 n b Hn).
    destruct (pc_bindingInfos s !! b) as [info|]; simpl; [|naive_solver].
    split; intros (info' & [= <-] & Hp); eexists; (split; [done|]); by destruct (decide _).
  - intros b info v. rw Hb. destruct (pc_bindingInfos s !! b) as [info0|] eqn:Hb0; [|done]. simpl.
    destruct (decide _) as [Hp|Hp]; intros [= <-] Hv; [done|]. rw (Hd _ Hp). by eapply H2.
Qed.

Lemma reconcileDefinition_indexed nn new restMapping s :
  nn ≠ ("", "") → indexed s →
  ∃ r s', reconcileDefinition nn new restMapping s = Some (r, s') ∧ indexed s'.
Proof.
  intros Hnn Hs. unfold reconcilePolicyDefinitionSpec. set (s0 := with_cached [] s).
  assert (indexed s0) as Hs0 by by apply (indexed_proper s). clearbody s0.
  destruct (match lastDefinition nn s0, new with Some _, Some _ => _ | _, _ => _ end); [by eauto|].
  destruct (leaveParams_maps nn (paramKindOf (lastDefinition nn s0)) (paramKindOf new) s0) as (Hi & Hb & Hd).
  set (s1 := leaveParams _ _ _ s0) in *.
  assert (indexed s1) as Hs1 by by apply (indexed_proper s0). clearbody s1.
  change (default ∅ _) with (bindingsOf nn s1). destruct (reset_policy nn s1 Hnn Hs1) as (infos & -> & Hl). simpl.
  destruct new as [definition|].
  - destruct (resolveParams_maps nn definition restMapping (with_bindings infos s1)) as (Hi2 & Hb2 & d & Hd2 & _).
    destruct (resolveParams _ _ _ _) as [r s2]. simpl in *. exists r, s2. split; [done|].
    apply (reset_indexed nn s1 s2); [done..|by rw Hb2|]. intros n Hn. by rw Hd2 lookup_insert_ne.
  - eexists _, _. split; [done|]. apply (reset_indexed nn s1); [done..|]. intros n Hn. simpl. by rw lookup_delete_ne.
Qed.

(** A binding leaves a policy. *)
Definition leavePolicy b (old new : namespacedName) s : policyController :=
  if decide (old = new) then s
  else match pc_definitionsToBindings s !! old with
       | None => s
       | Some dependents =>
           let dependents := dependents ∖ {[b]} in
           with_index (if decide (dependents = ∅) then delete old (pc_definitionsToBindings s)
                       else <[old := dependents]> (pc_definitionsToBindings s)) s
       end.

Lemma leavePolicy_maps b old new s :
  pc_bindingInfos (leavePolicy b old new s) = pc_bindingInfos s ∧
  pc_definitionInfo (leavePolicy b old new s) = pc_definitionInfo s ∧
  ∀ nn, bindingsOf nn (leavePolicy b old new s)
        = if decide (nn = old ∧ old ≠ new) then bindingsOf nn s ∖ {[b]} else bindingsOf nn s.
Proof.
  unfold leavePolicy. destruct (decide (old = new)) as [->|Hne].
  { split_and!; [done..|]. intros nn. by rw decide_False; [intros []|]. }
  destruct (pc_definitionsToBindings s !! old) as [dependents|] eqn:Hold.
  - split_and!; [done..|]. intros nn. unfold bindingsOf. simpl. destruct (decide (nn = old ∧ _)) as [[-> _]|Hn].
    + rw Hold. destruct (decide (_ = ∅)) as [He|He]; simpl; [by rw lookup_delete_eq|by rw lookup_insert_eq].
    + assert (nn ≠ old) by (intros ->; by apply Hn).
      destruct (decide (_ = ∅)); simpl; [by rw lookup_delete_ne|by rw lookup_insert_ne].
  - split_and!; [done..|]. intros nn. destruct (decide (nn = old ∧ _)) as [[-> _]|Hn]; [|done].
    unfold bindingsOf. rw Hold. set_solver.
Qed.

(** A state whose binding [b] is another. *)
Lemma rebind_indexed b (new : option bindingInfo) s s' :
  indexed s → (∀ info, new = Some info → bi_validator info = None) →
  pc_definitionInfo s' = pc_definitionInfo s →
  (∀ b', pc_bindingInfos s' !! b' = if decide (b' = b) then new else pc_bindingInfos s !! b') →
  (∀ nn b', nn ≠ ("", "") → b' ∈ bindingsOf nn s' ↔
     (b' ≠ b ∧ b' ∈ bindingsOf nn s) ∨
     (b' = b ∧ ∃ info, new = Some info ∧ policyOf (bi_lastReconciledValue info) = nn)) →
  indexed s'.
Proof.
  intros [H1 H2 H3] Hnew Hd Hb Hi. constructor; [| |by rw Hd].
  - intros nn b' Hnn. rw (Hi nn b' Hnn) Hb (H1 nn b' Hnn). destruct (decide (b' = b)) as [->|Hne]; naive_solver.
  - intros b' info v. rw Hb Hd. destruct (decide (b' = b)) as [->|Hne]; [|by apply H2].
    intros Hinfo Hv. by rw (Hnew info Hinfo) in Hv.
Qed.

(** The set a binding leaves, seen from a policy it does not join. *)
Lemma leaves_elem (X : gset namespacedName) nn old new b b' :
  (b ∈ X → nn = old) → nn ≠ new →
  b' ∈ (if decide (nn = old ∧ old ≠ new) then X ∖ {[b]} else X) ↔ b' ≠ b ∧ b' ∈ X.
Proof.
  intros Hold Hnew. destruct (decide _) as [_|Hno].
  - rw elem_of_difference elem_of_singleton. naive_solver.
  - split; [|by intros []]. intros Hin. split; [|done]. intros ->. apply Hno. pose proof (Hold Hin). naive_solver.
Qed.

Lemma reconcileBinding_indexed b new s : indexed s → indexed (reconcileBinding b new s).
Proof.
  intros Hs. unfold reconcilePolicyBinding. set (s0 := with_cached [] s).
  assert (indexed s0) as Hs0 by by apply (indexed_proper s). clearbody s0.
  destruct (match bi_lastReconciledValue <$> _, new with Some _, Some _ => _ | _, _ => _ end); [done|].
  set (old := default ("", "") (policyOf <$> (bi_lastReconciledValue <$> pc_bindingInfos s0 !! b))).
  set (newName := default ("", "") (policyOf <$> new)).
  change (if decide (old = newName) then s0 else _) with (leavePolicy b old newName s0).
  destruct (leavePolicy_maps b old newName s0) as (Hb & Hd & Hi). set (s1 := leavePolicy _ _ _ _) in *.
  assert (∀ nn, nn ≠ ("", "") → b ∈ bindingsOf nn s0 → nn = old) as Hold.
  { intros nn Hnn (info & Hinfo & <-)%(ix_index _ Hs0); [|done]. unfold old. by rw Hinfo. }
  destruct new as [binding|]; simpl in newName; simpl.
  - apply (rebind_indexed b (Some {| bi_validator := None; bi_lastReconciledValue := binding |}) s0); [done| |done|..].
    + by intros info [= <-].
    + intros b'. simpl. rw Hb. destruct (decide (b' = b)) as [->|]; [by rw lookup_insert_eq|by rw lookup_insert_ne].
    + intros nn b' Hnn. unfold bindingsOf at 1. simpl. specialize (Hold nn Hnn).
      change (default ∅ (pc_definitionsToBindings s1 !! newName)) with (bindingsOf newName s1).
      destruct (decide (nn = newName)) as [->|Hne].
      * rw lookup_insert_eq Hi. rw decide_False; [by intros [-> ?]|]. simpl. rw elem_of_union elem_of_singleton.
        destruct (decide (b' = b)) as [->|?]; naive_solver.
      * rw lookup_insert_ne //. change (default ∅ _) with (bindingsOf nn s1). rw Hi leaves_elem //.
        destruct (decide (b' = b)) as [->|?]; naive_solver.
  - apply (rebind_indexed b None s0); [done..| |].
    + intros b'. simpl. rw Hb. destruct (decide (b' = b)) as [->|]; [by rw lookup_delete_eq|by rw lookup_delete_ne].
    + intros nn b' Hnn. change (bindingsOf nn (with_bindings _ s1)) with (bindingsOf nn s1).
      specialize (Hold nn Hnn). rw Hi leaves_elem //. naive_solver.
Qed.
End Index.

(** ** Status updates *)

Section StatusFacts.
Context `{!MetaV1} {Obj Authorizer : Type} `{CEL Obj Authorizer}.
Context (specEqual : ValidatingAdmissionPolicySpec Native → ValidatingAdmissionPolicySpec Native → bool).
Context (typeChecker : option (ValidatingAdmissionPolicy Native → slice (ExpressionWarning Native))).
Context (generationOf : ObjectMeta → int64).
Implicit Types (s : policyController (Obj := Obj) (Authorizer := Authorizer)).

(** Status updates do not feed themselves: the reconciliation that the update of a policy's
    status causes changes nothing of the policies, asks nobody, and updates no status,
    when the spec kept for it is its own. *)
Theorem status_update_settles nn definition updated restMapping s s' :
  (∀ spec, specEqual spec spec = true) →
  reconcilePolicyDefinition specEqual typeChecker generationOf nn (Some definition) restMapping s
    = Some (None, Some updated, s') →
  (∃ d, pc_definitionInfo s' !! nn = Some d ∧ p_Spec (di_lastReconciledValue d) = p_Spec definition) →
  ∀ restMapping',
    reconcilePolicyDefinition specEqual typeChecker generationOf nn (Some updated) restMapping' s'
    = Some (None, None, with_cached [] s').
Proof.
  intros Hrefl Hr (d & Hd & Hspec) restMapping'. unfold reconcilePolicyDefinition in *.
  destruct (reconcilePolicyDefinitionSpec _ _ _ _ s) as [[[err|] s1]|]; [done| |done]. cbn [mbind option_bind] in Hr.
  destruct typeChecker as [Check|]; [|done]. injection Hr as Hst <-. unfold reconcilePolicyStatus in Hst. simpl in Hst.
  destruct (_ <? _)%Z; [|done]. injection Hst as <-.
  unfold reconcilePolicyDefinitionSpec at 1, lastDefinition. simpl. rw Hd. simpl. rw Hspec Hrefl. simpl.
  by rw Z.ltb_irrefl.
Qed.
End StatusFacts.
