(* ===== verification/PolicySnapshot.v ===== *)
(** * The policies the evaluator sees

    What the policy controller of [PolicyController] promises [celAdmissionController]:
    the snapshot a refresh stores is the policies and bindings that were last reconciled,
    whatever order the reconciliations and Go's maps came in; its params controllers are
    those in use; and what it does not promise, that a policy whose [paramKind] could not
    be resolved recovers. *)
From S2P Require Import Prelude GoStrings ApiMachinery Admission Json ApiTypes Scheme RestMapper Matching PolicyValidator PolicyEvaluator PolicyController.
From stdpp Require Import gmap.

Section Snapshot.
Context `{!MetaV1} {Obj Authorizer : Type} `{CEL Obj Authorizer}.
Context (authz : option Authorizer).
Context (specEqual : ValidatingAdmissionPolicySpec Native → ValidatingAdmissionPolicySpec Native → bool).
Context (bindingSpecEqual : ValidatingAdmissionPolicyBindingSpec Native → ValidatingAdmissionPolicyBindingSpec Native → bool).
Abbreviation Policy := (ValidatingAdmissionPolicy Native).
Abbreviation Binding := (ValidatingAdmissionPolicyBinding Native).
Abbreviation bindingInfo := (bindingInfo Obj Authorizer).
Abbreviation policyData := (policyData Obj Authorizer).
Abbreviation policyController := (policyController (Obj := Obj) (Authorizer := Authorizer)).
Abbreviation reconcileDefinition := (reconcilePolicyDefinitionSpec specEqual).
Abbreviation reconcileBinding := (reconcilePolicyBinding bindingSpecEqual).
Abbreviation policyStep := (policyStep authz specEqual bindingSpecEqual).
Abbreviation indexed := (indexed authz).
Implicit Types (nn b : namespacedName) (definition : Policy) (binding : Binding) (info : bindingInfo).
Implicit Types (s : policyController) (infos : gmap namespacedName bindingInfo) (d : definitionInfo).
Implicit Types (names : list namespacedName) (order : namespacedName → list namespacedName).

(** ** One refresh *)

(** A policy's binding, with the validator of the policy if it can be enforced. *)
Definition enforcedBy d info : bindingInfo :=
  {| bi_validator := match di_configurationError d with
                     | None => Some (compileValidator authz (p_Spec (di_lastReconciledValue d)))
                     | Some _ => None
                     end;
     bi_lastReconciledValue := bi_lastReconciledValue info |}.

Definition policyDataOf s (bindings : list namespacedName) d : policyData :=
  {| pd_definitionInfo := d; pd_paramController := paramControllerOf s d;
     pd_bindings := enforcedBy d <$> omap (pc_bindingInfos s !!.) bindings |}.

Definition snapshotOf s names order : list policyData :=
  omap (λ nn, policyDataOf s (order nn) <$> pc_definitionInfo s !! nn) names.

Lemma omap_at {A B} (f : A → option B) x (xs : list A) :
  omap f (x :: xs) = match f x with Some y => y :: omap f xs | None => omap f xs end.
Proof. done. Qed.

Lemma omap_ext_in {A B} (f g : A → option B) (xs : list A) : (∀ x, x ∈ xs → f x = g x) → omap f xs = omap g xs.
Proof.
  induction xs as [|x xs IH]; intros Hfg; [done|]. rw !omap_at (Hfg x); [by left|].
  rw IH; [intros y Hy; apply Hfg; by right|]. done.
Qed.

Lemma collectBindings_spec d names infos :
  NoDup names → (∀ b, b ∈ names → ∃ info, infos !! b = Some info ∧ compileBinding authz d info = enforcedBy d info) →
  ∃ infos', collectBindings authz d names infos = Some (enforcedBy d <$> omap (infos !!.) names, infos') ∧
    ∀ b, infos' !! b = if decide (b ∈ names) then enforcedBy d <$> infos !! b else infos !! b.
Proof.
  revert infos. induction names as [|n names IH]; intros infos Hnd Hin; [by exists infos|].
  apply NoDup_cons in Hnd as [Hn Hnd]. destruct (Hin n) as (info & Hinfo & Hcompile); [by left|].
  destruct (IH (<[n := enforcedBy d info]> infos) Hnd) as (infos' & Hc & Hl).
  { intros b Hb. rw lookup_insert_ne; [by intros ->|]. apply Hin. by right. }
  exists infos'. cbn [collectBindings]. rw omap_at Hinfo. simpl. rw Hcompile Hc. simpl. split.
  - do 3 f_equal. apply (f_equal (fmap (enforcedBy d))), omap_ext_in. intros b Hb.
    by rw lookup_insert_ne; [intros ->|].
  - intros b. rw Hl. destruct (decide (b = n)) as [->|Hne].
    + rw decide_False // decide_True; [by left|]. by rw lookup_insert_eq Hinfo.
    + rw lookup_insert_ne //. destruct (decide (b ∈ names)) as [Hb|Hb].
      * rw decide_True //. by right.
      * rw decide_False //. by intros [?|?]%elem_of_cons.
Qed.

(** The same policies and bindings, up to the compiled validators. *)
Definition same s s' : Prop :=
  pc_definitionInfo s' = pc_definitionInfo s ∧ pc_definitionsToBindings s' = pc_definitionsToBindings s ∧
  pc_paramsCRDControllers s' = pc_paramsCRDControllers s ∧ pc_running s' = pc_running s ∧
  pc_started s' = pc_started s ∧
  ∀ b, bi_lastReconciledValue <$> pc_bindingInfos s' !! b = bi_lastReconciledValue <$> pc_bindingInfos s !! b.

#[export] Instance same_preorder : PreOrder same.
Proof.
  split; [by intros s|]. intros s1 s2 s3 (H1 & H2 & H3 & H4 & H5 & H6) (G1 & G2 & G3 & G4 & G5 & G6). unfold same.
  rw G1 G2 G3 G4 G5. split_and!; [done..|]. intros b. by rw G6.
Qed.

Lemma snapshotOf_same s s' names order : same s s' → snapshotOf s' names order = snapshotOf s names order.
Proof.
  intros (Hd & _ & Hp & _ & _ & Hb). unfold snapshotOf. apply omap_ext_in. intros nn _. rw Hd.
  destruct (_ !! nn) as [d|]; [|done]. simpl. f_equal. unfold policyDataOf, paramControllerOf. rw Hp. f_equal.
  induction (order nn) as [|b bs IH]; [done|]. rw !omap_at. specialize (Hb b).
  destruct (pc_bindingInfos s' !! b) as [i'|], (pc_bindingInfos s !! b) as [i|]; simpl in Hb; [|done..].
  injection Hb as Hl. rw !fmap_cons IH. unfold enforcedBy. by rw Hl.
Qed.

(** A binding of a policy compiles to what the snapshot shows. *)
Lemma compileBinding_indexed s nn b d :
  indexed s → nn ≠ ("", "") → pc_definitionInfo s !! nn = Some d → b ∈ bindingsOf nn s →
  ∃ info, pc_bindingInfos s !! b = Some info ∧ compileBinding authz d info = enforcedBy d info.
Proof.
  intros Hs Hnn Hd (info & Hinfo & Hp)%(ix_index _ s Hs); [|done]. exists info. split; [done|].
  unfold compileBinding, enforcedBy. destruct info as [[v|] last]; simpl in *.
  - destruct (ix_validators _ s Hs b _ v Hinfo) as (d' & Hd' & He & ->); [done|]. simpl in Hd'.
    rw Hp Hd in Hd'. injection Hd' as <-. by rw He.
  - by destruct (di_configurationError d).
Qed.

(** Compiling a policy's validators keeps the index. *)
Lemma compiled_indexed s nn d infos :
  indexed s → nn ≠ ("", "") → pc_definitionInfo s !! nn = Some d →
  (∀ b, infos !! b = if decide (b ∈ bindingsOf nn s) then enforcedBy d <$> pc_bindingInfos s !! b
                     else pc_bindingInfos s !! b) →
  indexed (with_bindings infos s) ∧ same s (with_bindings infos s).
Proof.
  intros Hs Hnn Hd Hl. pose proof Hs as [H1 H2 H3].
  assert (∀ b, bi_lastReconciledValue <$> infos !! b = bi_lastReconciledValue <$> pc_bindingInfos s !! b) as Hb.
  { intros b. rw Hl. destruct (decide _); [|done]. by destruct (_ !! b). }
  split; [|by split_and!]. constructor; [| |done].
  - intros n b Hn. change (bindingsOf n (with_bindings infos s)) with (bindingsOf n s). rw (H1 n b Hn). simpl.
    specialize (Hb b). destruct (infos !! b) as [i'|], (pc_bindingInfos s !! b) as [i|]; simpl in *; [|done..|naive_solver].
    injection Hb as Hb. split; intros (? & [= <-] & Hp); eexists; (split; [done|]); congruence.
  - intros b info v. simpl. rw Hl. destruct (decide _) as [Hin|_]; [|by apply H2].
    apply H1 in Hin as (i & Hi & Hp); [|done]. rw Hi. intros [= <-]. simpl. rw Hp. intros Hv.
    exists d. split; [done|]. destruct (di_configurationError d); [done|]. split; [done|]. by injection Hv as <-.
Qed.

Lemma collectPolicies_spec names order s :
  indexed s → (∀ nn, nn ∈ names → is_Some (pc_definitionInfo s !! nn) ∧ visits (order nn) (bindingsOf nn s)) →
  ∃ s', collectPolicies authz names order s = Some (snapshotOf s names order, s') ∧ indexed s' ∧ same s s' ∧
        pc_cachedPolicies s' = pc_cachedPolicies s.
Proof.
  revert s. induction names as [|nn names IH]; intros s Hs Hin; [by exists s|].
  destruct (Hin nn) as [[d Hd] [Hnd Hset]]; [by left|].
  assert (nn ≠ ("", "")) as Hnn by (intros ->; by rw (ix_named _ s Hs) in Hd).
  assert (∀ b, b ∈ order nn ↔ b ∈ bindingsOf nn s) as Horder by (intros b; by rw -Hset elem_of_list_to_set).
  destruct (collectBindings_spec d (order nn) (pc_bindingInfos s) Hnd) as (infos & Hc & Hl).
  { intros b Hb. apply (compileBinding_indexed s nn); [done..|by apply Horder]. }
  destruct (compiled_indexed s nn d infos) as [Hs' Hsame]; [done..| |].
  { intros b. rw Hl. destruct (decide (b ∈ order nn)), (decide (b ∈ bindingsOf nn s)); naive_solver. }
  destruct (IH (with_bindings infos s) Hs') as (s' & Hcp & Hs'' & Hsame' & Hcached).
  { intros n Hn. apply Hin. by right. }
  exists s'. cbn [collectPolicies]. rw Hd. cbn [mbind option_bind]. rw Hc. cbn [mbind option_bind]. rw Hcp. cbn [mbind option_bind]. split; [|split; [done|]].
  - do 2 f_equal. unfold snapshotOf. rw omap_at Hd. cbn [fmap option_fmap option_map]. f_equal.
    by apply (snapshotOf_same s (with_bindings infos s) names order).
  - split; [by trans (with_bindings infos s)|done].
Qed.

(** ** Runs *)

(** The cached snapshot is one of the present state. *)
Definition cached_current s : Prop :=
  pc_cachedPolicies s = [] ∨ ∃ names order, ordered s names order ∧ pc_cachedPolicies s = snapshotOf s names order.

Lemma ordered_same s s' names order : same s s' → ordered s names order → ordered s' names order.
Proof. unfold ordered. by intros (-> & -> & _). Qed.

(** A refresh stores a snapshot of the present state, and changes nothing else. *)
Lemma refresh_stores names order s :
  indexed s → cached_current s → ordered s names order →
  ∃ s' names' order',
    policyStep (RefreshPolicies names order) s = Some s' ∧ ordered s names' order' ∧
    pc_stored s' = Some (snapshotOf s names' order') ∧ same s s' ∧ indexed s' ∧ cached_current s'.
Proof.
  intros Hs Hcached Ho. unfold PolicyController.policyStep. rw decide_True //. unfold latestPolicyData.
  destruct (pc_cachedPolicies s) as [|x xs] eqn:Hx.
  - destruct (collectPolicies_spec names order s Hs) as (s' & -> & Hs' & Hsame & _).
    { destruct Ho as [[_ Hdom] Hb]. intros nn Hnn. rw Forall_forall in Hb. split; [|by apply Hb].
      apply elem_of_dom. rw -Hdom. by apply elem_of_list_to_set. }
    cbn [mbind option_bind]. eexists _, names, order. split_and!; [done..|exact Hsame|by apply (indexed_proper authz s')|].
    right. exists names, order. split; [by apply (ordered_same s)|]. simpl. symmetry. by apply snapshotOf_same.
  - destruct Hcached as [?|(names' & order' & Ho' & Heq)]; [congruence|]. cbn [mbind option_bind].
    eexists _, names', order'. split_and!; [done..|by simpl; rw -Heq Hx|by split_and!|by apply (indexed_proper authz s)|].
    right. by exists names', order'.
Qed.

(** Reconciling forgets the cached snapshot. *)
Lemma resolveParams_cached nn definition restMapping s :
  pc_cachedPolicies (resolveParams nn definition restMapping s).2 = pc_cachedPolicies s.
Proof.
  unfold resolveParams. destruct (ps_ParamKind _) as [k|]; [|done]. destruct (ParseGroupVersion _); [|done].
  destruct (restMapping _ _); [|done]. simpl. unfold joinParams. by destruct (_ !! k).
Qed.

Lemma leaveParams_cached nn old new s : pc_cachedPolicies (leaveParams nn old new s) = pc_cachedPolicies s.
Proof.
  unfold leaveParams. destruct old as [old|]; [|done]. destruct (decide _); [done|].
  destruct (_ !! old); [|done]. by destruct (decide _).
Qed.

Lemma reconcileDefinition_cached nn new restMapping s r s' :
  reconcileDefinition nn new restMapping s = Some (r, s') → pc_cachedPolicies s' = [].
Proof.
  unfold reconcilePolicyDefinitionSpec.
  destruct (match lastDefinition nn _, new with Some _, Some _ => _ | _, _ => _ end); [by intros [= _ <-]|].
  destruct (resetValidators _ _) as [infos|]; [|done]. simpl.
  destruct new as [definition|]; intros [= Heq].
  - change s' with (r, s').2. rw -Heq resolveParams_cached. simpl. by rw leaveParams_cached.
  - subst s'. simpl. by rw leaveParams_cached.
Qed.

Lemma leavePolicy_cached b old new s : pc_cachedPolicies (leavePolicy b old new s) = pc_cachedPolicies s.
Proof.
  unfold leavePolicy. destruct (decide _); [done|]. by destruct (pc_definitionsToBindings s !! old).
Qed.

Lemma reconcileBinding_cached b new s : pc_cachedPolicies (reconcileBinding b new s) = [].
Proof.
  unfold reconcilePolicyBinding.
  destruct (match bi_lastReconciledValue <$> _, new with Some _, Some _ => _ | _, _ => _ end); [done|].
  set (old := default ("", "") (policyOf <$> (bi_lastReconciledValue <$> _))).
  set (newName := default ("", "") (policyOf <$> new)).
  change (if decide (old = newName) then _ else _) with (leavePolicy b old newName (with_cached [] s)).
  pose proof (leavePolicy_cached b old newName (with_cached [] s)) as Hc.
  by destruct new.
Qed.

(** ** What the snapshots show *)

(** The policies and bindings last reconciled. *)
Record desired := {
  ds_policies : gmap namespacedName Policy;
  ds_bindings : gmap namespacedName Binding;
}.
Implicit Types (w : desired).

Definition nothing_desired : desired := {| ds_policies := ∅; ds_bindings := ∅ |}.

Definition desire (e : pevent) w : desired :=
  match e with
  | ReconcileDefinition nn definition _ =>
      {| ds_policies := partial_alter (λ _, definition) nn (ds_policies w); ds_bindings := ds_bindings w |}
  | ReconcileBinding b binding =>
      {| ds_policies := ds_policies w; ds_bindings := partial_alter (λ _, binding) b (ds_bindings w) |}
  | RefreshPolicies _ _ => w
  end.

(** The object kept, and the one last reconciled: the same, or one of an equal spec. *)
Definition keeps d definition : Prop :=
  di_lastReconciledValue d = definition ∨ specEqual (p_Spec (di_lastReconciledValue d)) (p_Spec definition) = true.
Definition keepsBinding (kept : Binding) binding : Prop :=
  kept = binding ∨ bindingSpecEqual (b_Spec kept) (b_Spec binding) = true.

Record follows s w : Prop := {
  fo_policies : ∀ nn, option_Forall2 keeps (pc_definitionInfo s !! nn) (ds_policies w !! nn);
  fo_bindings : ∀ b, option_Forall2 keepsBinding (bi_lastReconciledValue <$> pc_bindingInfos s !! b)
                       (ds_bindings w !! b);
}.

Lemma follows_same s s' w : same s s' → follows s w → follows s' w.
Proof. intros (Hd & _ & _ & _ & _ & Hb) [H1 H2]. constructor; [by rw Hd|]. intros b. by rw Hb. Qed.

Lemma resetValidators_last bindings infos infos' :
  resetValidators bindings infos = Some infos' →
  ∀ b, bi_lastReconciledValue <$> infos' !! b = bi_lastReconciledValue <$> infos !! b.
Proof.
  unfold resetValidators. generalize (elements bindings). intros names. revert infos'.
  induction names as [|n names IH]; intros infos'; [by intros [= ->]|]. cbn [foldr]. unfold resetOne at 1.
  destruct (foldr resetOne (Some infos) names) as [infos1|]; [|done]. simpl.
  destruct (infos1 !! n) as [info|] eqn:Hn; [|done]. intros [= <-] b. rw -(IH infos1 eq_refl b).
  destruct (decide (b = n)) as [->|Hne]; [by rw lookup_insert_eq Hn|by rw lookup_insert_ne].
Qed.

(** The effect of a reconciliation of a policy on the maps. *)
Lemma reconcileDefinition_maps nn new restMapping s r s' :
  reconcileDefinition nn new restMapping s = Some (r, s') →
  (∀ b, bi_lastReconciledValue <$> pc_bindingInfos s' !! b = bi_lastReconciledValue <$> pc_bindingInfos s !! b) ∧
  (∀ n, n ≠ nn → pc_definitionInfo s' !! n = pc_definitionInfo s !! n) ∧
  option_Forall2 keeps (pc_definitionInfo s' !! nn) new.
Proof.
  unfold reconcilePolicyDefinitionSpec.
  destruct (match lastDefinition nn _, new with Some _, Some _ => _ | _, _ => _ end) eqn:Hsame.
  { intros [= _ <-]. split_and!; [done..|]. unfold lastDefinition in Hsame. simpl in *.
    destruct (pc_definitionInfo s !! nn) as [d|], new as [definition|]; [|done..]. constructor. by right. }
  destruct (leaveParams_maps nn (paramKindOf (lastDefinition nn (with_cached [] s))) (paramKindOf new) (with_cached [] s))
    as (Hi & Hb & Hd). set (s1 := leaveParams _ _ _ _) in *.
  destruct (resetValidators _ _) as [infos|] eqn:Hr; [|done]. simpl.
  pose proof (resetValidators_last _ _ _ Hr) as Hl. rw Hb in Hl. simpl in Hl, Hd.
  destruct new as [definition|].
  - destruct (resolveParams_maps nn definition restMapping (with_bindings infos s1)) as (_ & Hb2 & d & Hd2 & Hdef).
    intros [= Heq]. rw Heq in Hb2 Hd2. simpl in *. rw Hb2 Hd2 Hd. split_and!; [done| |].
    + intros n Hn. by rw lookup_insert_ne.
    + rw lookup_insert_eq. constructor. by left.
  - intros [= _ <-]. simpl. rw Hd. split_and!; [done| |].
    + intros n Hn. by rw lookup_delete_ne.
    + rw lookup_delete_eq. constructor.
Qed.

Lemma reconcileBinding_maps b new s :
  pc_definitionInfo (reconcileBinding b new s) = pc_definitionInfo s ∧
  (∀ b', b' ≠ b → pc_bindingInfos (reconcileBinding b new s) !! b' = pc_bindingInfos s !! b') ∧
  option_Forall2 keepsBinding (bi_lastReconciledValue <$> pc_bindingInfos (reconcileBinding b new s) !! b) new.
Proof.
  unfold reconcilePolicyBinding.
  destruct (match bi_lastReconciledValue <$> _, new with Some _, Some _ => _ | _, _ => _ end) eqn:Hsame.
  { split_and!; [done..|]. simpl in *. destruct (pc_bindingInfos s !! b) as [info|], new as [binding|]; [|done..].
    constructor. by right. }
  set (old := default ("", "") (policyOf <$> (bi_lastReconciledValue <$> _))).
  set (newName := default ("", "") (policyOf <$> new)).
  change (if decide (old = newName) then _ else _) with (leavePolicy b old newName (with_cached [] s)).
  destruct (leavePolicy_maps b old newName (with_cached [] s)) as (Hb & Hd & _).
  destruct new as [binding|]; simpl in *; rw Hd Hb; (split; [done|split]).
  - intros b' Hne. by rw lookup_insert_ne.
  - rw lookup_insert_eq. constructor. by left.
  - intros b' Hne. by rw lookup_delete_ne.
  - rw lookup_delete_eq. constructor.
Qed.

(** Names of policies are not the zero name. *)
Definition named (e : pevent) : Prop :=
  match e with ReconcileDefinition nn _ _ => nn ≠ ("", "") | _ => True end.

Fixpoint policyRun (events : list pevent) s : option policyController :=
  match events with
  | [] => Some s
  | e :: events => s ← policyStep e s; policyRun events s
  end.

(** What every reachable state satisfies. *)
Record sound s w : Prop := {
  so_indexed : indexed s;
  so_cached : cached_current s;
  so_follows : follows s w;
}.

Lemma newPolicyController_sound : sound newPolicyController nothing_desired.
Proof.
  constructor; [constructor|by left|constructor]; unfold bindingsOf; simpl.
  - intros nn b _. rw !lookup_empty. simpl. split; [by intros ?%elem_of_empty|by intros (? & ? & _)].
  - intros b info v. by rw lookup_empty.
  - by rw lookup_empty.
  - intros nn. rw !lookup_empty. constructor.
  - intros b. rw !lookup_empty. constructor.
Qed.

Lemma policyStep_sound e s s' w : named e → policyStep e s = Some s' → sound s w → sound s' (desire e w).
Proof.
  intros He Hstep [Hs Hc Hf]. destruct e as [nn new restMapping|b new|names order].
  - simpl in Hstep. destruct (reconcileDefinition_indexed authz specEqual nn new restMapping s He Hs)
      as (r & s1 & Heq & Hs1). rw Heq in Hstep. injection Hstep as ->.
    constructor; [done|left; by eapply reconcileDefinition_cached|].
    destruct (reconcileDefinition_maps _ _ _ _ _ _ Heq) as (Hb & Hd & Hn), Hf as [F1 F2]. constructor; simpl.
    + intros n. destruct (decide (n = nn)) as [->|Hne]; [by rw lookup_partial_alter_eq|].
      rw (Hd n Hne) lookup_partial_alter_ne //.
    + intros b. rw Hb. apply F2.
  - injection Hstep as <-. destruct (reconcileBinding_maps b new s) as (Hd & Hb & Hn), Hf as [F1 F2].
    constructor; [by apply reconcileBinding_indexed|left; apply reconcileBinding_cached|].
    constructor; simpl; [by rw Hd|]. intros b'. destruct (decide (b' = b)) as [->|Hne]; [by rw lookup_partial_alter_eq|].
    rw (Hb b' Hne) lookup_partial_alter_ne //.
  - assert (ordered s names order) as Ho by (simpl in Hstep; by destruct (decide (ordered _ _ _))).
    destruct (refresh_stores names order s Hs Hc Ho) as (s1 & names' & order' & Heq & _ & _ & Hsame & Hs1 & Hc1).
    rw Heq in Hstep. injection Hstep as ->. constructor; [done..|]. by apply (follows_same s).
Qed.

Lemma policyRun_sound events s s' w :
  Forall named events → policyRun events s = Some s' → sound s w → sound s' (foldl (λ w e, desire e w) w events).
Proof.
  revert s w. induction events as [|e events IH]; intros s w; [by intros _ [= ->]|].
  intros [He Hn]%Forall_cons Hrun Hs. simpl in Hrun. destruct (policyStep e s) as [s1|] eqn:Hstep; [|done].
  simpl in *. apply (IH s1); [done..|]. by eapply policyStep_sound.
Qed.

(** A policy of a snapshot is the one desired, with a binding for each one that names it
    and, unless it cannot be enforced, the validator its own spec compiles to. *)
Definition shows_policy w nn (data : policyData) : Prop :=
  let d := pd_definitionInfo data in
  (∃ definition, ds_policies w !! nn = Some definition ∧ keeps d definition) ∧
  ∃ bindings, NoDup bindings ∧
    (∀ b, b ∈ bindings ↔ ∃ binding, ds_bindings w !! b = Some binding ∧ policyOf binding = nn) ∧
    Forall2 (λ b info, ∃ binding, ds_bindings w !! b = Some binding ∧
                         keepsBinding (bi_lastReconciledValue info) binding ∧
                         bi_validator info = match di_configurationError d with
                           | None => Some (compileValidator authz (p_Spec (di_lastReconciledValue d)))
                           | Some _ => None
                           end)
      bindings (pd_bindings data).

Definition shows w (data : list policyData) : Prop :=
  ∃ names, NoDup names ∧ list_to_set names = dom (ds_policies w) ∧ Forall2 (shows_policy w) names data.

Lemma omap_all {A B} (f : A → option B) (P : A → B → Prop) (xs : list A) :
  (∀ x, x ∈ xs → ∃ y, f x = Some y ∧ P x y) → Forall2 P xs (omap f xs).
Proof.
  induction xs as [|x xs IH]; intros Hf; [constructor|]. rw omap_at. destruct (Hf x) as (y & Hy & HP); [by left|].
  rw Hy. constructor; [done|]. apply IH. intros z Hz. apply Hf. by right.
Qed.

(** The bindings the index has for a policy are the desired ones that name it. *)
Lemma bindingsOf_desired s w nn b :
  (∀ x y, bindingSpecEqual x y = true → bs_PolicyName x = bs_PolicyName y) →
  sound s w → nn ≠ ("", "") →
  b ∈ bindingsOf nn s ↔ ∃ binding, ds_bindings w !! b = Some binding ∧ policyOf binding = nn.
Proof.
  intros Hname [Hs _ [_ F]] Hnn. rw (ix_index _ s Hs nn b Hnn). specialize (F b).
  destruct (pc_bindingInfos s !! b) as [info|], (ds_bindings w !! b) as [binding|]; simpl in F; inversion F; subst;
    [|naive_solver].
  assert (policyOf (bi_lastReconciledValue info) = policyOf binding) as Hp.
  { destruct H3 as [->|Heq%Hname]; [done|]. unfold policyOf. by rw Heq. }
  split; intros (? & [= <-] & <-); eauto.
Qed.

Lemma policyDataOf_shows s w nn order d :
  (∀ x y, bindingSpecEqual x y = true → bs_PolicyName x = bs_PolicyName y) →
  sound s w → pc_definitionInfo s !! nn = Some d → visits (order nn) (bindingsOf nn s) →
  shows_policy w nn (policyDataOf s (order nn) d).
Proof.
  intros Hname Hw Hd [Hnd Hset]. pose proof Hw as [Hs _ [F1 F2]].
  assert (nn ≠ ("", "")) as Hnn by (intros ->; by rw (ix_named _ s Hs) in Hd).
  assert (∀ b, b ∈ order nn ↔ b ∈ bindingsOf nn s) as Horder by (intros b; by rw -Hset elem_of_list_to_set).
  split.
  - specialize (F1 nn). rw Hd in F1. inversion F1; subst. eauto.
  - exists (order nn). split; [done|]. split; [intros b; rw Horder; by apply bindingsOf_desired|].
    simpl. apply Forall2_fmap_r, omap_all. intros b Hb%Horder. pose proof Hb as (info & Hinfo & _)%(ix_index _ s Hs); [|done].
    exists info. split; [done|]. specialize (F2 b). rw Hinfo in F2. inversion F2; subst. by eexists.
Qed.

(** C4: the evaluator sees the policies and bindings as last reconciled: after any
    reconciliations and refreshes in any order, a refresh, in whatever order it goes
    through the maps, does not panic and stores a snapshot that has each policy there is
    exactly once, with exactly the bindings that name it, each with the validator that
    policy's own spec compiles to unless the policy is misconfigured; and the next
    reconciliation does not panic either. *)
Theorem snapshot_is_current events s :
  (∀ x y, bindingSpecEqual x y = true → bs_PolicyName x = bs_PolicyName y) →
  Forall named events → policyRun events newPolicyController = Some s →
  let w := foldl (λ w e, desire e w) nothing_desired events in
  (∀ names order, ordered s names order →
     ∃ s' data, policyStep (RefreshPolicies names order) s = Some s' ∧ pc_stored s' = Some data ∧ shows w data) ∧
  (∀ nn new restMapping, nn ≠ ("", "") → is_Some (policyStep (ReconcileDefinition nn new restMapping) s)).
Proof.
  intros Hname Hn Hrun w. pose proof (policyRun_sound events _ _ _ Hn Hrun newPolicyController_sound) as Hw. fold w in Hw. split.
  - intros names order Ho. pose proof Hw as [Hs Hc Hf].
    destruct (refresh_stores names order s Hs Hc Ho) as (s' & names' & order' & Heq & Ho' & Hst & _).
    exists s', (snapshotOf s names' order'). split; [done|]. split; [done|].
    destruct Ho' as [[Hnd Hdom] Hb]. exists names'. split; [done|]. split.
    + rw Hdom. apply set_eq. intros nn. rw !elem_of_dom. pose proof (fo_policies s w Hf nn) as F.
      split; intros [? Hx]; rw Hx in F; inversion F; by subst.
    + apply omap_all. intros nn Hin. rw Forall_forall in Hb. specialize (Hb nn Hin).
      assert (nn ∈ dom (pc_definitionInfo s)) as [d Hd]%elem_of_dom by (rw -Hdom; by apply elem_of_list_to_set).
      rw Hd. eexists. split; [done|]. by apply (policyDataOf_shows s w nn order' d).
  - intros nn new restMapping Hnn.
    destruct (reconcileDefinition_indexed authz specEqual nn new restMapping s Hnn (so_indexed s w Hw))
      as (r & s1 & Heq & _). simpl. rw Heq. by eexists.
Qed.

(** ** A param kind that does not resolve *)

Lemma collectPolicies_keeps names order s data s' :
  collectPolicies authz names order s = Some (data, s') →
  pc_definitionInfo s' = pc_definitionInfo s ∧ pc_paramsCRDControllers s' = pc_paramsCRDControllers s ∧
  pc_running s' = pc_running s ∧ pc_started s' = pc_started s.
Proof.
  revert s data. induction names as [|nn names IH]; intros s data; [by intros [= _ <-]|]. cbn [collectPolicies].
  destruct (pc_definitionInfo s !! nn) as [d|]; [|done]. cbn [mbind option_bind].
  destruct (collectBindings _ _ _ _) as [[bindings infos]|]; [|done]. cbn [mbind option_bind].
  destruct (collectPolicies _ names order _) as [[rest s1]|] eqn:Hc; [|done]. intros [= _ <-]. by apply IH in Hc.
Qed.

Lemma refresh_keeps names order s s' :
  policyStep (RefreshPolicies names order) s = Some s' →
  pc_definitionInfo s' = pc_definitionInfo s ∧ pc_paramsCRDControllers s' = pc_paramsCRDControllers s ∧
  pc_running s' = pc_running s ∧ pc_started s' = pc_started s.
Proof.
  unfold PolicyController.policyStep. destruct (decide _); [|done]. unfold latestPolicyData.
  destruct (pc_cachedPolicies s); cbn [mbind option_bind]; [|by intros [= <-]].
  destruct (collectPolicies _ _ _ _) as [[data s1]|] eqn:Hc; [|done]. intros [= <-]. by apply collectPolicies_keeps in Hc.
Qed.

Lemma refresh_has_stored names order s s' : policyStep (RefreshPolicies names order) s = Some s' → is_Some (pc_stored s').
Proof.
  unfold PolicyController.policyStep. destruct (decide _); [|done].
  destruct (latestPolicyData _ _ _ _) as [[res s1]|]; [|done]. intros [= <-]. by eexists.
Qed.

(** The policy is reconciled again only with the spec it has. *)
Definition same_policy nn definition (e : pevent) : Prop :=
  match e with
  | ReconcileDefinition n new _ =>
      n = nn → ∃ again, new = Some again ∧ specEqual (p_Spec definition) (p_Spec again) = true
  | _ => True
  end.

Lemma reconcile_unchanged nn d again restMapping s :
  pc_definitionInfo s !! nn = Some d → specEqual (p_Spec (di_lastReconciledValue d)) (p_Spec again) = true →
  reconcileDefinition nn (Some again) restMapping s = Some (None, with_cached [] s).
Proof. intros Hd Heq. unfold reconcilePolicyDefinitionSpec, lastDefinition. simpl. rw Hd. simpl. by rw Heq. Qed.

Lemma failed_mapping_recorded nn new restMapping s err s' :
  reconcileDefinition nn new restMapping s = Some (Some err, s') →
  ∃ definition, new = Some definition ∧
    pc_definitionInfo s' !! nn = Some {| di_configurationError := Some err; di_lastReconciledValue := definition |}.
Proof.
  unfold reconcilePolicyDefinitionSpec.
  destruct (match lastDefinition nn _, new with Some _, Some _ => _ | _, _ => _ end); [done|].
  destruct (resetValidators _ _) as [infos|]; [|done]. simpl. destruct new as [definition|]; [|done].
  unfold resolveParams. destruct (ps_ParamKind _) as [k|]; [|done]. destruct (ParseGroupVersion _) as [gv|]; [|done].
  destruct (restMapping _ _); [done|]. intros [= <- <-]. exists definition. split; [done|]. simpl. by rw lookup_insert_eq.
Qed.

(** C8: a policy whose [paramKind] could not be resolved stays misconfigured: when the
    mapper does not know the kind the reconciliation fails, to be retried, but every retry
    returns at once without an error and without asking the mapper, because the failed
    attempt recorded the spec; whatever the mapper would answer by then, and whatever else
    is reconciled, the policy keeps its configuration error until its spec changes. *)
Theorem unresolved_param_kind_is_never_retried nn definition restMapping err s s' events s'' :
  reconcileDefinition nn (Some definition) restMapping s = Some (Some err, s') →
  Forall (same_policy nn definition) events → policyRun events s' = Some s'' →
  pc_definitionInfo s'' !! nn = Some {| di_configurationError := Some err; di_lastReconciledValue := definition |} ∧
  ∀ again restMapping', specEqual (p_Spec definition) (p_Spec again) = true →
    reconcileDefinition nn (Some again) restMapping' s'' = Some (None, with_cached [] s'').
Proof.
  intros (? & [= <-] & Hd)%failed_mapping_recorded Hevents Hrun.
  assert (pc_definitionInfo s'' !! nn = Some {| di_configurationError := Some err; di_lastReconciledValue := definition |})
    as Hd'; [|split; [done|]; intros; by eapply reconcile_unchanged].
  revert s' Hd Hrun. induction Hevents as [|e events He _ IH]; intros s' Hd; [by intros [= <-]|]. simpl.
  destruct (policyStep e s') as [s1|] eqn:Hstep; [|done]. simpl. apply IH. rw -Hd.
  destruct e as [n new rm|b new|names order].
  - simpl in Hstep. destruct (decide (n = nn)) as [->|Hne].
    + destruct He as (again & -> & Heq); [done|].
      rw (reconcile_unchanged nn _ again rm s' Hd) // in Hstep. by injection Hstep as <-.
    + destruct (reconcileDefinition n new rm s') as [[r s2]|] eqn:Hr; [|done]. injection Hstep as <-.
      destruct (reconcileDefinition_maps _ _ _ _ _ _ Hr) as (_ & Hkeep & _). by apply Hkeep.
  - injection Hstep as <-. by destruct (reconcileBinding_maps b new s') as [-> _].
  - by destruct (refresh_keeps _ _ _ _ Hstep) as [-> _].
Qed.

(** ** The params controllers in use *)

Implicit Types (U V : namespacedName → ParamKind Native → Prop) (c : paramInfo) (k : ParamKind Native).

(** The running controllers are those of the param kinds, and each has users; [U] are
    the uses there may be, [V] those there must be. *)
Record params_of U V s : Prop := {
  pu_running : ∀ i, i ∈ pc_running s ↔ ∃ k c, pc_paramsCRDControllers s !! k = Some c ∧ pi_controller c = i;
  pu_distinct : ∀ k k' c c', pc_paramsCRDControllers s !! k = Some c → pc_paramsCRDControllers s !! k' = Some c' →
    pi_controller c = pi_controller c' → k = k';
  pu_started : ∀ k c, pc_paramsCRDControllers s !! k = Some c → pi_controller c < pc_started s;
  pu_needed : ∀ k c, pc_paramsCRDControllers s !! k = Some c → pi_dependentDefinitions c ≠ ∅;
  pu_users : ∀ k c nn, pc_paramsCRDControllers s !! k = Some c → nn ∈ pi_dependentDefinitions c → U nn k;
  pu_served : ∀ nn k, V nn k → ∃ c, pc_paramsCRDControllers s !! k = Some c ∧ nn ∈ pi_dependentDefinitions c;
}.

Lemma params_of_impl U U' V V' s s' :
  pc_paramsCRDControllers s' = pc_paramsCRDControllers s → pc_running s' = pc_running s →
  pc_started s' = pc_started s → (∀ n k, U n k → U' n k) → (∀ n k, V' n k → V n k) →
  params_of U V s → params_of U' V' s'.
Proof. intros Hp Hr Hs HU HV [P1 P2 P3 P4 P5 P6]. constructor; rw ?Hp ?Hr ?Hs; eauto. Qed.

(** A policy leaves a kind. *)
Lemma leave_params U V nn k c s :
  params_of U V s → pc_paramsCRDControllers s !! k = Some c →
  let dependents := pi_dependentDefinitions c ∖ {[nn]} in
  params_of (λ n k', U n k' ∧ ¬ (n = nn ∧ k' = k)) (λ n k', V n k' ∧ ¬ (n = nn ∧ k' = k))
    (if decide (dependents = ∅)
     then with_params (delete k (pc_paramsCRDControllers s)) (pc_running s ∖ {[pi_controller c]}) s
     else with_params (<[k := {| pi_controller := pi_controller c; pi_dependentDefinitions := dependents |}]>
            (pc_paramsCRDControllers s)) (pc_running s) s).
Proof.
  intros [P1 P2 P3 P4 P5 P6] Hk dependents. destruct (decide (dependents = ∅)) as [He|He].
  - assert (∀ n, n ∈ pi_dependentDefinitions c → n = nn) as Honly.
    { intros n Hn. destruct (decide (n = nn)); [done|]. assert (n ∈ dependents) as Hin by (apply elem_of_difference; by rw elem_of_singleton).
      rw He in Hin. by apply elem_of_empty in Hin. }
    constructor; simpl.
    + intros i. rw elem_of_difference elem_of_singleton P1. split.
      * intros ((k' & c' & Hc' & <-) & Hne). exists k', c'. split; [|done]. rw lookup_delete_ne //. intros <-. congruence.
      * intros (k' & c' & [Hne Hc']%lookup_delete_Some & <-). split; [by eauto|]. intros Heq. by apply Hne, (P2 k k' c c').
    + intros k1 k2 c1 c2 [_ H1]%lookup_delete_Some [_ H2]%lookup_delete_Some. by eapply P2.
    + intros k' c' [_ Hc']%lookup_delete_Some. by eapply P3.
    + intros k' c' [_ Hc']%lookup_delete_Some. by eapply P4.
    + intros k' c' n [Hne Hc']%lookup_delete_Some Hn. split; [by eapply P5|]. intros [_ ->]. done.
    + intros n k' [(c' & Hc' & Hn)%P6 Hno]. exists c'. split; [|done]. rw lookup_delete_ne //. intros ->.
      apply Hno. rw Hk in Hc'. injection Hc' as ->. by split; [apply Honly|].
  - assert (∀ k' c', <[k:={| pi_controller := pi_controller c; pi_dependentDefinitions := dependents |}]>
              (pc_paramsCRDControllers s) !! k' = Some c' →
            ∃ c0, pc_paramsCRDControllers s !! k' = Some c0 ∧ pi_controller c0 = pi_controller c' ∧
                  (k' = k ∧ pi_dependentDefinitions c' = pi_dependentDefinitions c0 ∖ {[nn]} ∧ pi_dependentDefinitions c' ≠ ∅ ∨
                   k' ≠ k ∧ c' = c0)) as Hold.
    { intros k' c' [[<- <-]|[Hne Hc']]%lookup_insert_Some; [exists c; naive_solver|exists c'; naive_solver]. }
    constructor; simpl.
    + intros i. rw P1. split; intros (k' & c' & Hc' & <-).
      * destruct (decide (k' = k)) as [->|Hne].
        -- rw Hk in Hc'. injection Hc' as ->. eexists k, _. by rw lookup_insert_eq.
        -- exists k', c'. by rw lookup_insert_ne.
      * apply Hold in Hc' as (c0 & Hc0 & <- & _). by eauto.
    + intros k1 k2 c1 c2 (c1' & H1 & <- & _)%Hold (c2' & H2 & <- & _)%Hold. by eapply P2.
    + intros k' c' (c0 & Hc0 & <- & _)%Hold. by eapply P3.
    + intros k' c' (c0 & Hc0 & _ & [(_ & _ & Hn)|[_ ->]])%Hold; [done|by eapply P4].
    + intros k' c' n (c0 & Hc0 & _ & [(-> & -> & _)|[Hne ->]])%Hold.
      * intros [Hn Hno]%elem_of_difference. rw elem_of_singleton in Hno. split; [by eapply P5|]. by intros [-> _].
      * intros Hn. split; [by eapply P5|]. by intros [_ ->].
    + intros n k' [(c' & Hc' & Hn)%P6 Hno]. destruct (decide (k' = k)) as [->|Hne].
      * eexists. rw lookup_insert_eq. split; [done|]. simpl. rw Hk in Hc'. injection Hc' as ->.
        apply elem_of_difference. rw elem_of_singleton. split; [done|]. intros ->. by apply Hno.
      * exists c'. by rw lookup_insert_ne.
Qed.

(** A policy joins a kind that has a controller. *)
Lemma join_running U V nn k c s :
  params_of U V s → pc_paramsCRDControllers s !! k = Some c →
  params_of (λ n k', U n k' ∨ n = nn ∧ k' = k) (λ n k', V n k' ∨ n = nn ∧ k' = k) (joinParams nn k s).
Proof.
  intros [P1 P2 P3 P4 P5 P6] Hk. unfold joinParams. rw Hk.
  set (joined := {| pi_controller := pi_controller c; pi_dependentDefinitions := {[nn]} ∪ pi_dependentDefinitions c |}).
  assert (∀ k' c', <[k:=joined]> (pc_paramsCRDControllers s) !! k' = Some c' →
          ∃ c0, pc_paramsCRDControllers s !! k' = Some c0 ∧ pi_controller c0 = pi_controller c' ∧
                ∀ n, n ∈ pi_dependentDefinitions c' ↔ n ∈ pi_dependentDefinitions c0 ∨ n = nn ∧ k' = k) as Hold.
  { intros k' c' [[<- <-]|[Hne Hc']]%lookup_insert_Some; eexists; (split; [done|]); (split; [done|]); intros n.
    - simpl. rw elem_of_union elem_of_singleton. naive_solver.
    - naive_solver. }
  assert (∀ k' c0, pc_paramsCRDControllers s !! k' = Some c0 →
          ∃ c', <[k:=joined]> (pc_paramsCRDControllers s) !! k' = Some c' ∧ pi_controller c0 = pi_controller c') as Hnew.
  { intros k' c0 Hc0. destruct (decide (k' = k)) as [->|Hne]; [|exists c0; by rw lookup_insert_ne].
    exists joined. rw lookup_insert_eq. split; [done|]. rw Hk in Hc0. by injection Hc0 as ->. }
  constructor; simpl.
  - intros i. rw P1. split; [intros (k' & c0 & (c' & Hc' & Heq)%Hnew & <-)|intros (k' & c' & (c0 & Hc0 & Heq & _)%Hold & <-)];
      eauto.
  - intros k1 k2 c1 c2 (c1' & H1 & <- & _)%Hold (c2' & H2 & <- & _)%Hold. by eapply P2.
  - intros k' c' (c0 & Hc0 & <- & _)%Hold. by eapply P3.
  - intros k' c' (c0 & Hc0 & _ & Hdep)%Hold He. pose proof (P4 k' c0 Hc0) as [n Hn]%set_choose_L.
    apply (not_elem_of_empty (C:=gset namespacedName) n). rw -He Hdep. by left.
  - intros k' c' n (c0 & Hc0 & _ & Hdep)%Hold [Hn|?]%Hdep; [left; by eapply P5|by right].
  - intros n k' [(c0 & Hc0 & Hn)%P6|[-> ->]].
    + pose proof (Hnew k' c0 Hc0) as (c' & Hc' & _). exists c'. split; [done|].
      destruct (Hold k' c' Hc') as (c1 & Hc1 & _ & Hdep). apply Hdep. left. rw Hc0 in Hc1. by injection Hc1 as <-.
    + exists joined. rw lookup_insert_eq. split; [done|]. apply elem_of_union_l. by apply elem_of_singleton.
Qed.

(** The first policy of a kind. *)
Lemma join_first U V nn k s :
  params_of U V s → pc_paramsCRDControllers s !! k = None →
  params_of (λ n k', U n k' ∨ n = nn ∧ k' = k) (λ n k', V n k' ∨ n = nn ∧ k' = k) (joinParams nn k s).
Proof.
  intros [P1 P2 P3 P4 P5 P6] Hk. unfold joinParams. rw Hk.
  set (joined := {| pi_controller := pc_started s; pi_dependentDefinitions := {[nn]} |}).
  constructor; simpl.
  - intros i. rw elem_of_union elem_of_singleton P1. split.
    + intros [->|(k' & c' & Hc' & <-)]; [exists k, joined; by rw lookup_insert_eq|].
      exists k', c'. rw lookup_insert_ne //. congruence.
    + intros (k' & c' & [[<- <-]|[Hne Hc']]%lookup_insert_Some & <-); [by left|right; eauto].
  - intros k1 k2 c1 c2 [[<- <-]|[Hne1 H1]]%lookup_insert_Some [[<- <-]|[Hne2 H2]]%lookup_insert_Some Heq; [done|..].
    + apply P3 in H2. simpl in Heq. lia.
    + apply P3 in H1. simpl in Heq. lia.
    + by eapply P2.
  - intros k' c' [[<- <-]|[Hne Hc']]%lookup_insert_Some; simpl; [lia|]. apply P3 in Hc'. lia.
  - intros k' c' [[<- <-]|[Hne Hc']]%lookup_insert_Some; [|by eapply P4]. simpl. apply non_empty_singleton_L.
  - intros k' c' n [[<- <-]|[Hne Hc']]%lookup_insert_Some; [|left; by eapply P5].
    simpl. rw elem_of_singleton. naive_solver.
  - intros n k' [(c' & Hc' & Hn)%P6|[-> ->]].
    + exists c'. rw lookup_insert_ne //. congruence.
    + exists joined. rw lookup_insert_eq. split; [done|]. unfold joined. simpl. by apply elem_of_singleton.
Qed.

Lemma join_params U V nn k s :
  params_of U V s →
  params_of (λ n k', U n k' ∨ n = nn ∧ k' = k) (λ n k', V n k' ∨ n = nn ∧ k' = k) (joinParams nn k s).
Proof.
  intros Hp. destruct (pc_paramsCRDControllers s !! k) as [c|] eqn:Hk; [by eapply join_running|by apply join_first].
Qed.

(** The policies of a kind, and those of them that are not misconfigured. *)
Definition has_kind s nn k : Prop :=
  ∃ d, pc_definitionInfo s !! nn = Some d ∧ ps_ParamKind (p_Spec (di_lastReconciledValue d)) = Some k.
Definition configured s nn k : Prop :=
  ∃ d, pc_definitionInfo s !! nn = Some d ∧ di_configurationError d = None ∧
       ps_ParamKind (p_Spec (di_lastReconciledValue d)) = Some k.

Definition params_in_use s : Prop := params_of (has_kind s) (configured s) s.

Lemma leaveParams_params nn new s :
  params_in_use s →
  params_of (λ n k, if decide (n = nn) then new = Some k else has_kind s n k) (λ n k, n ≠ nn ∧ configured s n k)
    (leaveParams nn (paramKindOf (lastDefinition nn s)) new s).
Proof.
  intros Hp. assert (∀ k, has_kind s nn k → paramKindOf (lastDefinition nn s) = Some k) as Hof.
  { intros k (d & Hd & Hk). unfold lastDefinition. by rw Hd. }
  assert (∀ U', (∀ n k, has_kind s n k → U' n k) → params_of U' (λ n k, n ≠ nn ∧ configured s n k) s) as Hweak.
  { intros U' HU. by apply (params_of_impl (has_kind s) U' (configured s) _ s s); [..|intros n k []|]. }
  unfold leaveParams. destruct (paramKindOf (lastDefinition nn s)) as [k|].
  2: { apply Hweak. intros n k Hn. destruct (decide (n = nn)) as [->|]; [|done]. by apply Hof in Hn. }
  destruct (decide (new = Some k)) as [->|Hnew].
  { apply Hweak. intros n k' Hn. destruct (decide (n = nn)) as [->|]; [|done]. by apply Hof. }
  destruct (pc_paramsCRDControllers s !! k) as [c|] eqn:Hk.
  - eapply params_of_impl; [..|by apply (leave_params (has_kind s) (configured s) nn k c s)]; [done..| |].
    + intros n k' [Hn Hno]. destruct (decide (n = nn)) as [->|]; [|done]. apply Hof in Hn as [= ->]. by destruct Hno.
    + intros n k' [Hne Hn]. split; [done|]. by intros [-> _].
  - destruct Hp as [P1 P2 P3 P4 P5 P6]. constructor; [done..| |].
    + intros k' c n Hc Hn. destruct (decide (n = nn)) as [->|]; [|by eapply P5].
      pose proof (Hof k' (P5 k' c nn Hc Hn)) as [= ->]. congruence.
    + intros n k' [_ Hn]. by apply P6.
Qed.

(** Reconciling keeps the params controllers in use. *)
Lemma resolveParams_params nn definition restMapping s :
  params_of (λ n k, if decide (n = nn) then ps_ParamKind (p_Spec definition) = Some k else has_kind s n k)
    (λ n k, n ≠ nn ∧ configured s n k) s →
  params_in_use (resolveParams nn definition restMapping s).2.
Proof.
  intros Hp.
  assert (∀ err, (err = None → ps_ParamKind (p_Spec definition) = None) →
            params_in_use (setDefinition nn definition err s)) as Hset.
  { intros err Herr. refine (params_of_impl _ _ _ _ s (setDefinition nn definition err s) eq_refl eq_refl eq_refl _ _ Hp).
    - intros n k. unfold has_kind. simpl. destruct (decide (n = nn)) as [->|Hne]; [|by rw lookup_insert_ne].
      intros Hk. rw lookup_insert_eq. by eexists.
    - intros n k. unfold configured. simpl. destruct (decide (n = nn)) as [->|Hne]; [|by rw lookup_insert_ne].
      rw lookup_insert_eq. intros (d & [= <-] & He & Hk). simpl in *. by rw Herr in Hk. }
  unfold resolveParams. destruct (ps_ParamKind (p_Spec definition)) as [k|] eqn:Hkind; [|by apply Hset].
  destruct (ParseGroupVersion _) as [gv|err]; [|by apply Hset].
  destruct (restMapping _ _) as [mapping|err]; [|by apply Hset].
  cbn [snd]. set (s1 := setDefinition nn definition None s).
  refine (params_of_impl _ _ _ _ (joinParams nn k s1) (joinParams nn k s1) eq_refl eq_refl eq_refl _ _
            (join_params _ _ nn k s1
               (params_of_impl _ _ _ _ s s1 eq_refl eq_refl eq_refl (λ _ _ Hn, Hn) (λ _ _ Hn, Hn) Hp))).
  - intros n k'. unfold has_kind. rw (proj2 (proj2 (joinParams_maps nn k _))). simpl.
    destruct (decide (n = nn)) as [->|Hne]; [|rw lookup_insert_ne //; naive_solver].
    rw lookup_insert_eq. intros Hk. eexists. split; [done|]. simpl. rw Hkind. destruct Hk as [?|[_ ->]]; done.
  - intros n k'. unfold configured. rw (proj2 (proj2 (joinParams_maps nn k _))). simpl.
    destruct (decide (n = nn)) as [->|Hne]; [|rw lookup_insert_ne //; naive_solver].
    rw lookup_insert_eq. intros (d & [= <-] & _ & Hk). simpl in Hk. rw Hkind in Hk. injection Hk as ->. by right.
Qed.

Lemma params_in_use_proper s s' :
  pc_definitionInfo s' = pc_definitionInfo s → pc_paramsCRDControllers s' = pc_paramsCRDControllers s →
  pc_running s' = pc_running s → pc_started s' = pc_started s → params_in_use s → params_in_use s'.
Proof.
  intros Hd Hk Hr Hst Hp. refine (params_of_impl _ _ _ _ s s' Hk Hr Hst _ _ Hp); unfold has_kind, configured; by rw Hd.
Qed.

Lemma leavePolicy_params b old new s : params_in_use s → params_in_use (leavePolicy b old new s).
Proof.
  intros Hp. unfold leavePolicy. destruct (decide _); [done|].
  destruct (pc_definitionsToBindings s !! old); [|done]. by apply (params_in_use_proper s).
Qed.

Lemma params_step e s s' : policyStep e s = Some s' → params_in_use s → params_in_use s'.
Proof.
  intros Hstep Hp. destruct e as [nn new restMapping|b new|names order].
  - simpl in Hstep. destruct (reconcilePolicyDefinitionSpec _ _ _ _ _) as [[r s2]|] eqn:Hr; [|done].
    injection Hstep as <-. revert Hr. unfold reconcilePolicyDefinitionSpec.
    apply (params_in_use_proper s (with_cached [] s)) in Hp; [|done..]. set (s0 := with_cached [] s) in *.
    destruct (match lastDefinition nn _, new with Some _, Some _ => _ | _, _ => _ end); [by intros [= _ <-]|].
    apply (leaveParams_params nn (paramKindOf new)) in Hp. set (s1 := leaveParams _ _ _ _) in *.
    destruct (leaveParams_maps nn (paramKindOf (lastDefinition nn s0)) (paramKindOf new) s0) as (_ & _ & Hd).
    fold s1 in Hd. destruct (resetValidators _ _) as [infos|]; [|done]. simpl.
    assert (∀ n k, has_kind s0 n k ↔ has_kind s1 n k) as Hkind by (intros n k; unfold has_kind; by rw Hd).
    assert (∀ n k, configured s0 n k ↔ configured s1 n k) as Hconf by (intros n k; unfold configured; by rw Hd).
    destruct new as [definition|]; simpl in Hp.
    + intros [= Heq]. change s2 with (r, s2).2. rw -Heq. apply resolveParams_params.
      refine (params_of_impl _ _ _ _ s1 (with_bindings infos s1) eq_refl eq_refl eq_refl _ _ Hp); intros n k.
      * intros Hn. destruct (decide (n = nn)); [done|]. by apply Hkind.
      * intros [Hne Hn]. split; [done|]. by apply Hconf.
    + intros [= _ <-]. refine (params_of_impl _ _ _ _ s1 (with_definitions (delete nn (pc_definitionInfo s1))
        (with_bindings infos s1)) eq_refl eq_refl eq_refl _ _ Hp); intros n k.
      * intros Hn. destruct (decide (n = nn)); [done|]. unfold has_kind. simpl. rw lookup_delete_ne //. by apply Hkind.
      * intros (d & Hn & He & Hk). simpl in Hn. apply lookup_delete_Some in Hn as [Hne Hn]. split; [done|]. apply Hconf. by exists d.
  - injection Hstep as <-. unfold reconcilePolicyBinding.
    destruct (match bi_lastReconciledValue <$> _, new with Some _, Some _ => _ | _, _ => _ end);
      [by apply (params_in_use_proper s)|].
    set (old := default ("", "") (policyOf <$> (bi_lastReconciledValue <$> _))).
    set (newName := default ("", "") (policyOf <$> new)).
    change (if decide (old = newName) then _ else _) with (leavePolicy b old newName (with_cached [] s)).
    assert (params_in_use (leavePolicy b old newName (with_cached [] s))) as Hl
      by by apply leavePolicy_params, (params_in_use_proper s).
    set (s1 := leavePolicy _ _ _ _) in *. by destruct new; apply (params_in_use_proper s1).
  - destruct (refresh_keeps _ _ _ _ Hstep) as (Hd & Hk & Hr & Hst). by apply (params_in_use_proper s).
Qed.

(** C7: the params informers are those in use: after any reconciliations and refreshes, the
    informers that run are exactly those of the param kinds on record, one per kind; each
    has a policy of that kind that uses it, so none outlives its last policy; and a policy
    with a [paramKind] that is not misconfigured always has its informer. *)
Theorem params_controllers_are_those_in_use events s :
  policyRun events newPolicyController = Some s → params_in_use s.
Proof.
  intros Hrun. assert (params_in_use newPolicyController) as Hp.
  { constructor; simpl.
    - intros i. split; [by intros ?%elem_of_empty|]. intros (k & c & Hc & _). by rw lookup_empty in Hc.
    - intros k k' c c' Hc. by rw lookup_empty in Hc.
    - intros k c Hc. by rw lookup_empty in Hc.
    - intros k c Hc. by rw lookup_empty in Hc.
    - intros k c nn Hc. by rw lookup_empty in Hc.
    - intros nn k (d & Hd & _). simpl in Hd. by rw lookup_empty in Hd. }
  revert Hrun Hp. generalize newPolicyController. induction events as [|e events IH]; intros s0; [by intros [= ->]|].
  simpl. destruct (policyStep e s0) as [s1|] eqn:Hstep; [|done]. intros Hrun Hp. apply (IH s1 Hrun). by eapply params_step.
Qed.
End Snapshot.

(** ** Requests *)

Section Requests.
Context `{!MetaV1, !LabelSelectors} {Obj Authorizer : Type}.
Context `{MetaAccessor Obj, ObjectLabels Obj, ObjectConvertor Obj, CEL Obj Authorizer}.
Context (authz : option Authorizer).
Context (specEqual : ValidatingAdmissionPolicySpec Native → ValidatingAdmissionPolicySpec Native → bool).
Context (bindingSpecEqual : ValidatingAdmissionPolicyBindingSpec Native → ValidatingAdmissionPolicyBindingSpec Native → bool).
Context (nameOf : ObjectMeta → string) (namespaces : Namespaces) (o : EquivalentResourceMapper).
Context (paramControllers : nat → paramController Obj).
Abbreviation policyController := (policyController (Obj := Obj) (Authorizer := Authorizer)).
Abbreviation policyData := (policyData Obj Authorizer).
Implicit Types (s : policyController) (data : policyData) (a : Attributes Obj).

(** Whether a policy denies does not depend on the order of its bindings. *)
Lemma policy_denies_order a data data' :
  pd_definitionInfo data' = pd_definitionInfo data → pd_paramController data' = pd_paramController data →
  (∀ info, info ∈ pd_bindings data' ↔ info ∈ pd_bindings data) →
  policy_denies namespaces o authz paramControllers a data' ↔ policy_denies namespaces o authz paramControllers a data.
Proof.
  destruct data as [d p bs], data' as [d' p' bs']. simpl. intros -> -> Hb. unfold policy_denies. simpl.
  change (definitionOf {| pd_definitionInfo := d; pd_paramController := p; pd_bindings := bs' |}) with (di_lastReconciledValue d).
  change (definitionOf {| pd_definitionInfo := d; pd_paramController := p; pd_bindings := bs |}) with (di_lastReconciledValue d).
  destruct (DefinitionMatches _ _ _ _) as [[[[] kind]|]|]; [|done..]. destruct (di_configurationError d); [done|].
  split; intros (info & Hin%Hb & Hd); by exists info.
Qed.

(** The policy as the index has it. *)
Definition presentPolicy s (nn : namespacedName) (d : definitionInfo) : policyData :=
  policyDataOf authz s (elements (bindingsOf nn s)) d.

Lemma snapshot_present s names order data :
  data ∈ snapshotOf authz s names order ↔
  ∃ nn d, pc_definitionInfo s !! nn = Some d ∧ nn ∈ names ∧ data = policyDataOf authz s (order nn) d.
Proof.
  unfold snapshotOf. rw list_elem_of_omap. split.
  - intros (nn & Hnn & Heq). destruct (pc_definitionInfo s !! nn) as [d|] eqn:Hd; [|done].
    injection Heq as <-. by exists nn, d.
  - intros (nn & d & Hd & Hnn & ->). exists nn. by rw Hd.
Qed.

Lemma policyDataOf_order s nn d bindings a :
  visits bindings (bindingsOf nn s) →
  policy_denies namespaces o authz paramControllers a (policyDataOf authz s bindings d) ↔
  policy_denies namespaces o authz paramControllers a (presentPolicy s nn d).
Proof.
  intros [_ Hset]. apply policy_denies_order; [done..|]. intros info. simpl.
  rw !list_elem_of_fmap. setoid_rewrite list_elem_of_omap. setoid_rewrite elem_of_elements. rw -Hset.
  by setoid_rewrite elem_of_list_to_set.
Qed.

(** After any run and a refresh in any order, when every policy has match constraints, the
    evaluator comes to a verdict on every request, and rejects it exactly when a policy in
    the index denies it. *)
Lemma current_verdict events s names order s' c a :
  Forall named events → policyRun authz specEqual bindingSpecEqual events newPolicyController = Some s →
  policyStep authz specEqual bindingSpecEqual (RefreshPolicies names order) s = Some s' →
  (∀ nn d, pc_definitionInfo s !! nn = Some d → is_Some (ps_MatchConstraints (p_Spec (di_lastReconciledValue d)))) →
  ce_policiesSynced c = true → ce_definitions c = pc_stored s' →
  ∃ err c', evaluator_Validate nameOf namespaces o paramControllers a c = Some (err, c') ∧
    (err ≠ None ↔ ∃ nn d, pc_definitionInfo s !! nn = Some d ∧
       policy_denies namespaces o authz paramControllers a (presentPolicy s nn d)).
Proof.
  intros Hn Hrun Hstep Hmc Hsync Hdef.
  pose proof (policyRun_sound authz specEqual bindingSpecEqual events _ _ _ Hn Hrun (newPolicyController_sound _ _ _)) as [Hs Hc _].
  assert (ordered s names order) as Ho by (simpl in Hstep; by destruct (decide (ordered _ _ _))).
  destruct (refresh_stores authz specEqual bindingSpecEqual names order s Hs Hc Ho)
    as (s1 & names' & order' & Heq & Ho' & Hst & _). rw Heq in Hstep. injection Hstep as ->.
  destruct (evaluatePolicies_verdict nameOf namespaces o authz paramControllers a (snapshotOf authz s names' order'))
    as (err & effects & Hev & Hiff).
  { intros data (nn & d & Hd & _ & ->)%snapshot_present. constructor; [by apply (Hmc nn)|].
    simpl. intros He info (i & -> & _)%list_elem_of_fmap. simpl. by rw He. }
  unfold evaluator_Validate, evaluator_HasSynced. rw Hsync Hdef Hst. simpl. rw Hev. simpl.
  eexists err, _. split; [done|]. rw Hiff. destruct Ho' as [Hv Hb]. rw Forall_forall in Hb. split.
  - intros (data & (nn & d & Hd & Hnn & ->)%snapshot_present & Hden).
    exists nn, d. split; [done|]. apply (policyDataOf_order s nn d (order' nn) a); [by apply Hb|done].
  - intros (nn & d & Hd & Hden).
    assert (nn ∈ names') as Hnn.
    { apply (elem_of_list_to_set (C:=gset namespacedName)). destruct Hv as [_ ->]. by apply elem_of_dom_2 in Hd. }
    exists (policyDataOf authz s (order' nn) d). split.
    + apply snapshot_present. by exists nn, d.
    + apply (policyDataOf_order s nn d (order' nn) a); [by apply Hb|done].
Qed.
End Requests.

(** ** Witnesses: a policy, its binding and a params controller. *)
Module SnapshotWitness.
Import PolicyWitness EvaluatorWitness.
Abbreviation policyController := (policyController (Obj := string) (Authorizer := unit)).

(** Specs are equal when they have the same failure policy, bindings when they name the
    same policy. *)
Definition demo_specEqual (x y : ValidatingAdmissionPolicySpec Native) : bool :=
  bool_decide (ps_FailurePolicy x = ps_FailurePolicy y).
Definition demo_bindingEqual (x y : ValidatingAdmissionPolicyBindingSpec Native) : bool :=
  bool_decide (bs_PolicyName x = bs_PolicyName y).

Definition demo_paramKind : ParamKind Native := {| pk_APIVersion := "v1"; pk_Kind := "ConfigMap" |}.
Definition demo_mapper (gk : GroupKind) (versions : list string) : result mapError RESTMapping :=
  if bool_decide (gk_Kind gk = "ConfigMap")
  then Ok {| rm_Resource := {| gvr_Group := ""; gvr_Version := "v1"; gvr_Resource := "configmaps" |};
             rm_GroupVersionKind := {| gvk_Group := ""; gvk_Version := "v1"; gvk_Kind := "ConfigMap" |};
             rm_Scope := RESTScopeNamespace |}
  else Err (NoKindMatchError gk versions).
Definition no_mapper (gk : GroupKind) (versions : list string) : result mapError RESTMapping :=
  Err (NoKindMatchError gk versions).

Definition demo_binding : ValidatingAdmissionPolicyBinding Native :=
  {| b_TypeMeta := {| tm_Kind := ""; tm_APIVersion := "" |}; b_ObjectMeta := "binding" : @ObjectMeta demo_meta;
     b_Spec := {| bs_PolicyName := "policy"; bs_ParamRef := None; bs_MatchResources := None;
                  bs_ValidationActions := mk_slice (Some ["Warn"; "Deny"]) |} |}.

Definition policyNN : namespacedName := ("", "policy").
Definition bindingNN : namespacedName := ("", "binding").
Definition demo_names : list namespacedName := [policyNN].
Definition demo_order (nn : namespacedName) : list namespacedName := [bindingNN].

(** A binding, its policy, a refresh, and the policy again, with params. *)
Definition demo_events : list pevent :=
  [ReconcileBinding bindingNN (Some demo_binding);
   ReconcileDefinition policyNN (Some (demo_policy (demo_spec "Ignore" None))) demo_mapper;
   RefreshPolicies demo_names demo_order;
   ReconcileDefinition policyNN (Some (demo_policy (demo_spec "Fail" (Some demo_paramKind)))) demo_mapper].

Abbreviation demo_run := (policyRun (None (A := unit)) demo_specEqual demo_bindingEqual).
Abbreviation demo_step := (policyStep (None (A := unit)) demo_specEqual demo_bindingEqual).
Definition demo_state : policyController := default newPolicyController (demo_run demo_events newPolicyController).

Lemma demo_state_run : demo_run demo_events newPolicyController = Some demo_state.
Proof.
  unfold demo_state. destruct (demo_run demo_events newPolicyController) eqn:Hrun; [done|]. exfalso.
  assert (match demo_run demo_events newPolicyController with Some _ => true | None => false end = true) as Hok
    by (vm_compute; reflexivity). by rw Hrun in Hok.
Qed.

Lemma demo_named : Forall named demo_events.
Proof. repeat constructor; discriminate. Qed.

Lemma demo_ordered : ordered demo_state demo_names demo_order.
Proof. apply (bool_decide_unpack (ordered demo_state demo_names demo_order)). vm_compute. exact I. Qed.

Lemma demo_bindingEqual_name (x y : ValidatingAdmissionPolicyBindingSpec Native) :
  demo_bindingEqual x y = true → bs_PolicyName x = bs_PolicyName y.
Proof. apply bool_decide_eq_true. Qed.

Lemma snapshot_is_current_witness :
  ∃ s' data, demo_step (RefreshPolicies demo_names demo_order) demo_state = Some s' ∧ pc_stored s' = Some data ∧
    shows None demo_specEqual demo_bindingEqual
      (foldl (λ w e, desire e w) nothing_desired demo_events) data.
Proof.
  destruct (snapshot_is_current None demo_specEqual demo_bindingEqual demo_events demo_state demo_bindingEqual_name
              demo_named demo_state_run) as [Hrefresh _].
  exact (Hrefresh demo_names demo_order demo_ordered).
Defined.

Lemma params_controllers_are_those_in_use_witness :
  pc_running demo_state = {[0]} ∧ params_in_use demo_state.
Proof.
  split; [by vm_compute|].
  exact (params_controllers_are_those_in_use None demo_specEqual demo_bindingEqual demo_events demo_state demo_state_run).
Defined.

(** The policy first met a mapper that did not know its kind. *)
Definition unresolved : option (option error * policyController) :=
  reconcilePolicyDefinitionSpec demo_specEqual policyNN (Some (demo_policy (demo_spec "Fail" (Some demo_paramKind))))
    no_mapper newPolicyController.
Definition retries : list pevent :=
  [ReconcileDefinition policyNN (Some (demo_policy (demo_spec "Fail" (Some demo_paramKind)))) demo_mapper;
   ReconcileBinding bindingNN (Some demo_binding); RefreshPolicies demo_names demo_order].

Lemma unresolved_param_kind_is_never_retried_witness :
  ∃ err s s', unresolved = Some (Some err, s) ∧ demo_run retries s = Some s' ∧
    pc_definitionInfo s' !! policyNN =
      Some {| di_configurationError := Some err;
              di_lastReconciledValue := demo_policy (demo_spec "Fail" (Some demo_paramKind)) |}.
Proof.
  assert (match unresolved with
          | Some (Some _, s) => match demo_run retries s with Some _ => true | None => false end
          | _ => false end = true) as Hok by (vm_compute; reflexivity).
  destruct unresolved as [[[err|] s]|] eqn:Hu; [|discriminate Hok..].
  destruct (demo_run retries s) as [s'|] eqn:Hr; [|discriminate Hok].
  exists err, s, s'. split; [done|]. split; [exact Hr|].
  apply (unresolved_param_kind_is_never_retried None demo_specEqual demo_bindingEqual policyNN
           (demo_policy (demo_spec "Fail" (Some demo_paramKind))) no_mapper err newPolicyController s retries s'); [exact Hu| |exact Hr].
  constructor; [|by repeat constructor]. intros _. by eexists.
Defined.
End SnapshotWitness.
