(* ===== verification/FakeClientset.v ===== *)
(** * The generated fake clientset

    [pkg/generated/clientset/versioned/fake] and [.../typed/.../v1alpha1/fake]: the
    clientset tests use instead of the REST one, over the object tracker of
    [ObjectTracker].  The two typed fakes are the same code at another type and
    resource, so they are written once over [FakeKind]; bindings have no
    [UpdateStatus].  What a watch will deliver is decided by later calls, so the
    stream of a watch is an argument indexed by the watcher's number. *)
From S2P Require Import Prelude GoStrings ApiMachinery Scheme Admission TransformedClient RestClient.
From S2P Require Import ObjectTracker.

(** ** The objects of the fake's scheme *)

(** The metadata of an API type, as its accessors see it, and its zero value. *)
Class MetaObject (T : Type) := {
  om_view : T → ObjectMetaView;
  om_SetNamespace : string → T → T;
  om_Labels : T → gmap string string;
  om_zero : T;
}.

Class MetaObjectLaws (T : Type) `{!MetaObject T} : Prop :=
  om_SetNamespace_same t : om_SetNamespace (mo_Namespace (om_view t)) t = t.

(** [runtime.Object] restricted to what the fake's scheme knows: the four policy
    types, an API status, and the other registered types, which have no metadata. *)
Inductive fakeObject (P B : Type) :=
| FPolicy (p : P)
| FPolicyList (l : KList P)
| FBinding (b : B)
| FBindingList (l : KList B)
| FStatus (s : Status)
| FOther (ty : GoType).
Arguments FPolicy {P B}.
Arguments FPolicyList {P B}.
Arguments FBinding {P B}.
Arguments FBindingList {P B}.
Arguments FStatus {P B}.
Arguments FOther {P B}.

Definition zero_KList {A} : KList A :=
  {| l_TypeMeta := zero_TypeMeta; l_ListMeta := zero_ListMeta; l_Items := None |}.

Definition set_Items {A} (items : list A) (l : KList A) : KList A :=
  {| l_TypeMeta := l_TypeMeta l; l_ListMeta := l_ListMeta l; l_Items := Some items |}.

Section Objects.
Context {P B : Type} `{!MetaObject P, !MetaObject B}.
Abbreviation Obj := (fakeObject P B).

Definition zero_Status : Status :=
  {| st_Status := ""; st_Message := ""; st_Reason := ""; st_Details := None; st_Code := 0 |}.

Definition object_new (ty : GoType) : Obj :=
  if decide (ty = policyType "ValidatingAdmissionPolicy") then FPolicy om_zero
  else if decide (ty = policyType "ValidatingAdmissionPolicyList") then FPolicyList zero_KList
  else if decide (ty = policyType "ValidatingAdmissionPolicyBinding") then FBinding om_zero
  else if decide (ty = policyType "ValidatingAdmissionPolicyBindingList") then FBindingList zero_KList
  else if decide (ty = metaType "Status") then FStatus zero_Status
  else FOther ty.

Definition asPolicy (o : Obj) : option P := match o with FPolicy p => Some p | _ => None end.
Definition asBinding (o : Obj) : option B := match o with FBinding b => Some b | _ => None end.
Definition asPolicyList (o : Obj) : option (KList P) :=
  match o with FPolicyList l => Some l | _ => None end.
Definition asBindingList (o : Obj) : option (KList B) :=
  match o with FBindingList l => Some l | _ => None end.

(** The assignments of [meta.SetList] into a slice of structs. *)
Definition assignItems {A} (cast : Obj → option A) (objs : list Obj) : result error (list A) :=
  mapE (λ o, match cast o with
             | Some a => Ok a
             | None => Err (ErrorString "can't assign or convert")
             end) objs.

#[export] Instance fakeObject_accessor : MetaAccessor Obj := λ o,
  match o with FPolicy p => Some (om_view p) | FBinding b => Some (om_view b) | _ => None end.

#[export] Instance fakeObject_object : RuntimeObject Obj := {|
  ro_type o :=
    match o with
    | FPolicy _ => policyType "ValidatingAdmissionPolicy"
    | FPolicyList _ => policyType "ValidatingAdmissionPolicyList"
    | FBinding _ => policyType "ValidatingAdmissionPolicyBinding"
    | FBindingList _ => policyType "ValidatingAdmissionPolicyBindingList"
    | FStatus _ => metaType "Status"
    | FOther ty => ty
    end;
  ro_new := object_new;
  ro_SetNamespace ns o :=
    match o with
    | FPolicy p => FPolicy (om_SetNamespace ns p)
    | FBinding b => FBinding (om_SetNamespace ns b)
    | _ => o
    end;
  ro_ExtractList o :=
    match o with
    | FPolicyList l => Some (FPolicy <$> getItems l)
    | FBindingList l => Some (FBinding <$> getItems l)
    | _ => None
    end;
  ro_SetList list objs :=
    match list with
    | FPolicyList l => items ← assignItems asPolicy objs; Ok (FPolicyList (set_Items items l))
    | FBindingList l => items ← assignItems asBinding objs; Ok (FBindingList (set_Items items l))
    | _ => Err (ErrorString "no Items field in this object")
    end;
  ro_Status o := match o with FStatus s => Some s | _ => None end
|}.
End Objects.

(** The selectors of [metav1.ListOptions], as written. *)
Class ListOptions (Opts : Type) := { lo_LabelSelector : Opts → string; lo_FieldSelector : Opts → string }.

(** ** The typed fakes *)

(** What distinguishes the two files: resource, kind, and the object types with
    their type assertions. *)
Record FakeKind (Obj T : Type) := {
  fk_resource : GroupVersionResource;
  fk_kind : GroupVersionKind;
  fk_object : T → Obj;
  fk_list : KList T → Obj;
  fk_asObject : Obj → option T;
  fk_asList : Obj → option (KList T);
}.
Arguments fk_resource {Obj T}.
Arguments fk_kind {Obj T}.
Arguments fk_object {Obj T}.
Arguments fk_list {Obj T}.
Arguments fk_asObject {Obj T}.
Arguments fk_asList {Obj T}.

Section Typed.
Context {Obj : Type} {T : Type} `{!MetaObject T} (kind : FakeKind Obj T).
Context (chain : list (Reactor (Obj := Obj))) (watchChain : list (WatchReactor (Obj := Obj))).
Context {Opts EvObj : Type} `{!ListOptions Opts}.
(** [labels.Parse] and [fields.ParseSelector]. *)
Context (parseLabels parseFields : string → result string (gmap string string → bool)).
Context (future : nat → list EvObj).
Implicit Types (opts : Opts) (w : Fake (Obj := Obj)).

(** [ExtractFromListOptions]: an invalid selector panics. *)
Definition invalidSelector (selector err : string) : string :=
  "invalid selector " +:+ Quote selector +:+ ": " +:+ err.

Definition ExtractFromListOptions opts : result string ListRestrictions :=
  match parseLabels (lo_LabelSelector opts) with
  | Err e => Err (invalidSelector (lo_LabelSelector opts) e)
  | Ok labels =>
      match parseFields (lo_FieldSelector opts) with
      | Err e => Err (invalidSelector (lo_FieldSelector opts) e)
      | Ok fields => Ok {| lr_Labels := labels; lr_Fields := fields |}
      end
  end.

Definition interfaceConversion {A} : outcome A := Panic "interface conversion".

(** [if obj == nil { return nil, err }; return obj.(A), err]: the value counts only
    when there is no error. *)
Definition asserted {A} (cast : Obj → option A) (r : result string (option Obj * option error)) :
    outcome (option A) :=
  match r with
  | Err msg => Panic msg
  | Ok (None, Some e) => Done (Err e)
  | Ok (None, None) => Done (Ok None)
  | Ok (Some obj, err) =>
      match cast obj with
      | None => interfaceConversion
      | Some a => match err with Some e => Done (Err e) | None => Done (Ok (Some a)) end
      end
  end.

Definition invoke {A} (action : Action) (defaultReturnObj : Obj) (cast : Obj → option A) w :
    outcome (option A) * Fake :=
  let '(r, w') := Invokes chain action defaultReturnObj w in (asserted cast r, w').

Definition zero_object : Obj := fk_object kind om_zero.

Definition fake_Get (name : string) opts w : outcome (option T) * Fake :=
  invoke (NewRootGetAction (fk_resource kind) name) zero_object (fk_asObject kind) w.

(** The items the label selector matches, appended to a nil slice. *)
Definition matching (r : ListRestrictions) (l : KList T) : KList T :=
  let items := filter (λ item, lr_Labels r (om_Labels item) = true) (getItems l) in
  {| l_TypeMeta := zero_TypeMeta; l_ListMeta := l_ListMeta l;
     l_Items := match items with [] => None | _ => Some items end |}.

Definition fake_List opts w : outcome (option (KList T)) * Fake :=
  match ExtractFromListOptions opts with
  | Err msg => (Panic msg, w)
  | Ok r =>
      let '(l, w') := invoke (NewRootListAction (fk_resource kind) (fk_kind kind) r)
                        (fk_list kind zero_KList) (fk_asList kind) w in
      (match l with
       | Done (Ok (Some l)) => Done (Ok (Some (matching r l)))
       | l => l
       end, w')
  end.

Definition fake_Watch opts w : outcome nat * Fake :=
  match ExtractFromListOptions opts with
  | Err msg => (Panic msg, w)
  | Ok r => let '(i, w') := InvokesWatch watchChain (NewRootWatchAction (fk_resource kind) r) w in
            (Done i, w')
  end.

Definition fake_Create (object : option T) opts w : outcome (option T) * Fake :=
  invoke (NewRootCreateAction (fk_resource kind) (fk_object kind <$> object)) zero_object
    (fk_asObject kind) w.

Definition fake_Update (object : option T) opts w : outcome (option T) * Fake :=
  invoke (NewRootUpdateAction (fk_resource kind) (fk_object kind <$> object)) zero_object
    (fk_asObject kind) w.

Definition fake_UpdateStatus (object : option T) opts w : outcome (option T) * Fake :=
  invoke (NewRootUpdateSubresourceAction (fk_resource kind) "status" (fk_object kind <$> object))
    zero_object (fk_asObject kind) w.

(** [_, err := c.Fake.Invokes(...); return err]. *)
Definition invokeErr (action : Action) (defaultReturnObj : Obj) w : outcome unit * Fake :=
  let '(r, w') := Invokes chain action defaultReturnObj w in
  (match r with
   | Err msg => Panic msg
   | Ok (_, Some e) => Done (Err e)
   | Ok (_, None) => Done (Ok tt)
   end, w').

Definition fake_Delete (name : string) opts w : outcome unit * Fake :=
  invokeErr (NewRootDeleteActionWithOptions (fk_resource kind) name) zero_object w.

Definition fake_DeleteCollection opts listOpts w : outcome unit * Fake :=
  match ExtractFromListOptions listOpts with
  | Err msg => (Panic msg, w)
  | Ok r => invokeErr (NewRootDeleteCollectionAction (fk_resource kind) r) (fk_list kind zero_KList) w
  end.

Definition fake_Patch (name pt data : string) opts (subresources : list string) w :
    outcome (option T) * Fake :=
  invoke (NewRootPatchSubresourceAction (fk_resource kind) name pt data subresources) zero_object
    (fk_asObject kind) w.

Definition fakeClient (hasStatus : bool) : ClientInterface Opts Fake T EvObj :=
  {| Create := fake_Create; Update := fake_Update;
     UpdateStatus := if hasStatus then Some fake_UpdateStatus else None;
     Delete := fake_Delete; DeleteCollection := fake_DeleteCollection; Get := fake_Get;
     List := fake_List; Watch opts w := then_convert (λ i, Ok (future i)) (fake_Watch opts w);
     Patch := fake_Patch |}.
End Typed.

(** ** The clientset *)

(** The scheme of the fake package, after its [init]. *)
Definition fake_Scheme : result string Scheme :=
  andThen (AddToGroupVersion Unversioned) (forEach id [AddToScheme]) NewScheme.

Definition scheme : Scheme := match fake_Scheme with Ok s => s | Err _ => NewScheme end.

Definition policyResource (resource : string) : GroupVersionResource :=
  {| gvr_Group := gv_Group SchemeGroupVersion; gvr_Version := gv_Version SchemeGroupVersion;
     gvr_Resource := resource |}.

Section Clientset.
Context {P B : Type} `{!MetaObject P, !MetaObject B}.
Abbreviation Obj := (fakeObject P B).
Context (lib : PatchLibrary (Obj := Obj)).

Definition FakeValidatingAdmissionPolicies : FakeKind Obj P :=
  {| fk_resource := policyResource "validatingadmissionpolicies";
     fk_kind := WithKind SchemeGroupVersion "ValidatingAdmissionPolicy";
     fk_object := FPolicy; fk_list := FPolicyList;
     fk_asObject := asPolicy; fk_asList := asPolicyList |}.

Definition FakeValidatingAdmissionPolicyBindings : FakeKind Obj B :=
  {| fk_resource := policyResource "validatingadmissionpolicybindings";
     fk_kind := WithKind SchemeGroupVersion "ValidatingAdmissionPolicyBinding";
     fk_object := FBinding; fk_list := FBindingList;
     fk_asObject := asBinding; fk_asList := asBindingList |}.

(** The reactors [NewSimpleClientset] adds, and the tracker it fills; an error of
    [Add] panics. *)
Definition reactors : list (Reactor (Obj := Obj)) :=
  [{| re_Verb := "*"; re_Resource := "*"; re_Reaction := ObjectReaction scheme lib |}].

Definition watchReactors : list (WatchReactor (Obj := Obj)) :=
  [{| wr_Resource := "*";
      wr_Reaction := λ action t,
        let '(i, t') := tracker_Watch (ac_Resource (base action)) (ac_Namespace (base action)) t in
        (true, Ok i, t') |}].

Fixpoint addAll (objects : list Obj) (t : tracker) : result string tracker :=
  match objects with
  | [] => Ok t
  | obj :: rest =>
      match tracker_Add scheme obj t with
      | (Done (Ok _), t') => addAll rest t'
      | (Done (Err e), _) => Err (Error e)
      | (Panic msg, _) => Err msg
      end
  end.

Definition NewSimpleClientset (objects : list Obj) : result string Fake :=
  match addAll objects NewObjectTracker with
  | Ok t => Ok {| f_actions := []; f_tracker := t |}
  | Err msg => Err msg
  end.
End Clientset.
