(* ===== verification/FakeStore.v ===== *)
(** * What the fake clientset implements

    The abstract specification of a typed fake of [FakeClientset], a store of objects
    by namespace and name with one transition per client method, and the proof that
    the fakes over the object tracker refine it; the clientset as a machine whose
    watchers can replay the store. *)
From S2P Require Import Prelude GoStrings ApiMachinery Scheme Admission TransformedClient RestClient.
From S2P Require Import ObjectTracker FakeClientset.

(** ** What the fakes implement *)

(** A store of cluster-scoped objects by namespace and name; an object added with a
    namespace is listed but cannot be read by name. *)
Section Spec.
Context {Opts T : Type} `{!MetaObject T}.
Abbreviation store := (gmap (string * string) T).

Inductive call :=
| CGet (name : string)
| CList (opts : Opts)
| CCreate (object : option T)
| CUpdate (object : option T)
| CUpdateStatus (object : option T)
| CDelete (name : string)
| CDeleteCollection (opts : Opts)
| CPatch (name pt data : string) (subresources : list string).

Inductive answer :=
| AObject (r : result error (option T))
| AList (r : result error (option (KList T)))
| AUnit (r : result error unit).

Definition answering {A W} (f : result error A → answer) (r : outcome A * W) : outcome answer * W :=
  match r with (Done r, w) => (Done (Ok (f r)), w) | (Panic msg, w) => (Panic msg, w) end.

(** A call of a client's method, with [opts] as the options that are no selectors. *)
Definition do_call {W EvObj} (client : ClientInterface Opts W T EvObj) (opts : Opts) (c : call) (w : W) :
    outcome answer * W :=
  match c with
  | CGet name => answering AObject (Get client name opts w)
  | CList opts => answering AList (List client opts w)
  | CCreate o => answering AObject (Create client o opts w)
  | CUpdate o => answering AObject (Update client o opts w)
  | CUpdateStatus o =>
      match UpdateStatus client with
      | Some method => answering AObject (method o opts w)
      | None => (Panic "no such method", w)
      end
  | CDelete name => answering AUnit (Delete client name opts w)
  | CDeleteCollection listOpts => answering AUnit (DeleteCollection client opts listOpts w)
  | CPatch name pt data subresources => answering AObject (Patch client name pt data opts subresources w)
  end.

Definition objectKey (x : T) : string * string := (mo_Namespace (om_view x), mo_Name (om_view x)).

Definition before_key (x y : T) : Prop := key_le (objectKey x) (objectKey y) = true.
#[export] Instance before_key_dec x y : Decision (before_key x y).
Proof. unfold before_key. apply _. Defined.

Section Steps.
Context (resource : GroupVersionResource).
Context (patch : string → string → T → result error T).
Context (selects : Opts → gmap string string → bool).
Implicit Types m : store.

Definition notFound (name : string) : error :=
  StatusError (NewNotFound (gvr_GroupResource resource) name).
Definition alreadyExists (name : string) : error :=
  StatusError (NewAlreadyExists (gvr_GroupResource resource) name).

(** A write of an existing or a new object. *)
Definition spec_write (existing : bool) (object : option T) m : result error (option T) * store :=
  match object with
  | None => (Err errNotObject, m)
  | Some x =>
      let v := om_view x in
      if decide (mo_Namespace v ≠ "") then (Err (namespaceMismatch "" (mo_Namespace v)), m)
      else match m !! ("", mo_Name v), existing with
           | Some _, false => (Err (alreadyExists (mo_Name v)), m)
           | None, true => (Err (notFound (mo_Name v)), m)
           | _, _ => (Ok (Some x), <[("", mo_Name v) := x]> m)
           end
  end.

Definition spec_items m : list T := merge_sort before_key (map_to_list m).*2.

(** A patch reads the object under [name] and updates the object it computes, under
    that object's own name. *)
Definition spec_call (c : call) m : answer * store :=
  match c with
  | CGet name =>
      (AObject (match m !! ("", name) with Some x => Ok (Some x) | None => Err (notFound name) end), m)
  | CList opts =>
      let items := filter (λ x, selects opts (om_Labels x) = true) (spec_items m) in
      (AList (Ok (Some {| l_TypeMeta := zero_TypeMeta; l_ListMeta := zero_ListMeta;
                          l_Items := match items with [] => None | _ => Some items end |})), m)
  | CCreate o => let '(r, m') := spec_write false o m in (AObject r, m')
  | CUpdate o | CUpdateStatus o => let '(r, m') := spec_write true o m in (AObject r, m')
  | CDelete name =>
      match m !! ("", name) with
      | Some _ => (AUnit (Ok tt), delete ("", name) m)
      | None => (AUnit (Err (notFound name)), m)
      end
  | CDeleteCollection _ => (AUnit (Ok tt), m)
  | CPatch name pt data _ =>
      match m !! ("", name) with
      | None => (AObject (Err (notFound name)), m)
      | Some x =>
          match patch pt data x with
          | Err e => (AObject (Err e), m)
          | Ok y => let '(r, m') := spec_write true (Some y) m in (AObject r, m')
          end
      end
  end.
End Steps.
End Spec.
Arguments call : clear implicits.
Arguments answer : clear implicits.
#[global] Arguments spec_write : simpl never.

(** ** The fakes implement the store *)

Section Refinement.
Context {Obj T Opts EvObj : Type} `{!MetaAccessor Obj, !RuntimeObject Obj, !MetaObject T,
  !MetaObjectLaws T, !ListOptions Opts}.
Context (kind : FakeKind Obj T) (sch : Scheme) (lib : PatchLibrary (Obj := Obj)).
Context (watchChain : list (WatchReactor (Obj := Obj))).
Context (parseLabels parseFields : string → result string (gmap string string → bool)).
Context (future : nat → list EvObj) (hasStatus : bool).
Implicit Types (t : tracker (Obj := Obj)) (w : Fake (Obj := Obj)) (m : gmap (string * string) T).
Implicit Types opts listOpts : Opts.

(** What the definitions of a kind promise the tracker. *)
Class FakeKindLaws : Prop := {
  fkl_asObject x : fk_asObject kind (fk_object kind x) = Some x;
  fkl_asList l : fk_asList kind (fk_list kind l) = Some l;
  fkl_Accessor x : Accessor (fk_object kind x) = Some (om_view x);
  fkl_SetNamespace ns x : ro_SetNamespace ns (fk_object kind x) = fk_object kind (om_SetNamespace ns x);
  fkl_Status x : ro_Status (fk_object kind x) = None;
  fkl_version : gvk_Version (fk_kind kind) ≠ "";
  fkl_New : ∃ ty, New sch (WithKind (gvk_GroupVersion (fk_kind kind)) (gvk_Kind (fk_kind kind) +:+ "List"))
                  = Some ty ∧ ro_new ty = fk_list kind zero_KList;
  fkl_ExtractList l : is_Some (ro_ExtractList (fk_list kind l));
  fkl_SetList l xs : ro_SetList (fk_list kind l) (fk_object kind <$> xs)
                     = Ok (fk_list kind (set_Items xs l));
}.

(** [json.Unmarshal] keeps the type of the object it fills. *)
Class PatchLaws : Prop :=
  unmarshal_typed x s o : pl_Unmarshal lib s (ro_type (fk_object kind x)) = Ok o →
    ∃ y, o = fk_object kind y.

Context `{KindLaws : !FakeKindLaws, Patches : !PatchLaws}.

Abbreviation chain := [{| re_Verb := "*"; re_Resource := "*"; re_Reaction := ObjectReaction sch lib |}].
Abbreviation client := (fakeClient kind chain watchChain parseLabels parseFields future hasStatus).
Abbreviation gvr := (fk_resource kind).

Definition patch_object (pt data : string) (x : T) : result error T :=
  old ← pl_Marshal lib (fk_object kind x);
  modified ← applyPatch lib pt old data (ro_type (fk_object kind x));
  o ← pl_Unmarshal lib modified (ro_type (fk_object kind x));
  match fk_asObject kind o with
  | Some y => Ok y
  | None => Err (ErrorString "interface conversion")
  end.

Definition selected (opts : Opts) : gmap string string → bool :=
  match ExtractFromListOptions parseLabels parseFields opts with
  | Ok r => lr_Labels r
  | Err _ => λ _, false
  end.

(** The calls a program can make: valid selectors, and [UpdateStatus] where there
    is one. *)
Definition valid_call (c : call Opts T) : Prop :=
  match c with
  | CList opts | CDeleteCollection opts =>
      is_ok (ExtractFromListOptions parseLabels parseFields opts) = true
  | CUpdateStatus _ => hasStatus = true
  | _ => True
  end.

(** The tracker holds the store [m] under the kind's resource. *)
Record represents t m : Prop := {
  rep_objects : objectsOf t gvr = fk_object kind <$> m;
  rep_keys k x : m !! k = Some x → objectKey x = k;
}.

(** What a call of this client may do to the tracker. *)
Definition effect t t' : Prop :=
  same t t' ∨ ∃ ev, is_Some (Accessor ev.2) ∧ changes gvr "" ev t t'.

Lemma keyOf_object x : keyOf (fk_object kind x) = objectKey x.
Proof. unfold keyOf. by rw fkl_Accessor. Qed.

Lemma rep_lookup t m k : represents t m → objectsOf t gvr !! k = fk_object kind <$> m !! k.
Proof. intros [-> _]. by rw lookup_fmap. Qed.

Lemma represents_same t t' m : same t t' → represents t m → represents t' m.
Proof. intros [Ho _ _] [E Hk]. split; [by rw Ho|done]. Qed.

Lemma represents_put ns t t' m x e :
  e ≠ Deleted → changes gvr ns (e, fk_object kind x) t t' → represents t m →
  represents t' (<[objectKey x := x]> m).
Proof.
  intros He [Ho _ _] [E Hk]. split.
  - rw Ho decide_True // E fmap_insert -keyOf_object. by destruct e.
  - intros k y. rw lookup_insert_Some. intros [[<- <-]|[_ ?]]; auto.
Qed.

Lemma represents_delete t t' m x k :
  changes gvr "" (Deleted, fk_object kind x) t t' → represents t m → objectKey x = k →
  represents t' (delete k m).
Proof.
  intros [Ho _ _] [E Hk] <-. split.
  - by rw Ho decide_True // E fmap_delete -keyOf_object.
  - intros k y. rw lookup_delete_Some. intros [_ ?]. auto.
Qed.

Lemma effect_objects t t' g : effect t t' → g ≠ gvr → objectsOf t' g = objectsOf t g.
Proof. intros [Hs|(ev & _ & Hc)] Hg; [apply (same_objects _ _ Hs)|]. rw (ch_objects _ _ _ _ _ Hc). by case_decide. Qed.

Lemma effect_wf t t' : effect t t' → tracker_wf t → tracker_wf t'.
Proof. intros [Hs|(ev & Ha & Hc)]; [by apply same_wf|by eapply changes_wf]. Qed.

Lemma effect_coherent t t' (g : GroupVersionResource) (i : nat) (m0 : gmap (string * string) Obj) :
  effect t t' → tracker_wf t → coherent g i m0 t → coherent g i m0 t'.
Proof. intros [Hs|(ev & Ha & Hc)] Hwf; [by apply same_coherent|by eapply changes_coherent]. Qed.

Lemma SetNamespace_own x : ro_SetNamespace (mo_Namespace (om_view x)) (fk_object kind x) = fk_object kind x.
Proof. by rw fkl_SetNamespace om_SetNamespace_same. Qed.

(** A write through the tracker is a write of the store. *)
Lemma add_spec existing x t m r t' :
  represents t m → tracker_add gvr (fk_object kind x) "" existing t = (r, t') →
  (r = channel_full ∧ full t') ∨
  (r = Done ((λ _, tt) <$> (spec_write gvr existing (Some x) m).1) ∧
   represents t' (spec_write gvr existing (Some x) m).2 ∧ effect t t' ∧
   (is_ok (spec_write gvr existing (Some x) m).1 = true →
    (spec_write gvr existing (Some x) m).2 !! ("", mo_Name (om_view x)) = Some x)).
Proof.
  intros Hr Ha. unfold spec_write. case_decide as Hns.
  - rw (tracker_add_foreign _ _ (om_view x)) // in Ha; [apply fkl_Accessor|].
    simplify_eq/=. right. split_and!; [done|done|left; apply same_refl|done].
  - apply (tracker_add_own _ _ (om_view x)) in Ha;
      [|apply fkl_Accessor|done|rw -Hns; apply SetNamespace_own].
    rw (rep_lookup _ _ _ Hr) in Ha.
    assert (objectKey x = ("", mo_Name (om_view x))) as Hk by (unfold objectKey; by rw Hns).
    destruct (m !! ("", mo_Name (om_view x))) as [y|] eqn:Hm, existing; simpl in *.
    + destruct Ha as [[-> ?]|[-> Hc]]; [by left|right]. split_and!; [done| | |by rw lookup_insert_eq].
      * rw -Hk. by eapply represents_put; [|exact Hc|].
      * right. eexists. split; [|exact Hc]. by rw fkl_Accessor.
    + destruct Ha as [-> Hs]. right. split_and!; [done|by eapply represents_same|by left|done].
    + destruct Ha as [-> Hs]. right. split_and!; [done|by eapply represents_same|by left|done].
    + destruct Ha as [[-> ?]|[-> Hc]]; [by left|right]. split_and!; [done| | |by rw lookup_insert_eq].
      * rw -Hk. by eapply represents_put; [|exact Hc|].
      * right. eexists. split; [|exact Hc]. by rw fkl_Accessor.
Qed.

Lemma get_spec t m name :
  represents t m →
  tracker_Get t gvr "" name =
  match m !! ("", name) with
  | Some x => Ok (fk_object kind x)
  | None => Err (notFound gvr name)
  end.
Proof.
  intros Hr. pose proof (rep_lookup _ _ ("", name) Hr) as Hl.
  assert (∀ obj, objectsOf t gvr !! ("", name) = Some obj → ro_Status obj = None) as Hs.
  { rw Hl. intros obj (x & _ & ->)%fmap_Some. apply fkl_Status. }
  rw (tracker_Get_objectsOf _ _ _ _ Hs) Hl. by destruct (m !! ("", name)).
Qed.

Lemma delete_spec t m name r t' :
  represents t m → tracker_Delete gvr "" name t = (r, t') →
  match m !! ("", name) with
  | Some x => (r = channel_full ∧ full t') ∨
              (r = Done (Ok tt) ∧ represents t' (delete ("", name) m) ∧ effect t t')
  | None => r = Done (Err (notFound gvr name)) ∧ represents t' m ∧ effect t t'
  end.
Proof.
  intros Hr Hd. apply tracker_Delete_spec in Hd.
  - rw (rep_lookup _ _ _ Hr) in Hd. destruct (m !! ("", name)) as [x|] eqn:Hm; simpl in Hd.
    + destruct Hd as [[-> ?]|[-> Hc]]; [by left|right]. split_and!; [done| |].
      * eapply represents_delete; [done|done|by eapply rep_keys].
      * right. eexists. split; [|exact Hc]. by rw fkl_Accessor.
    + destruct Hd as [-> Hs]. split_and!; [done|by eapply represents_same|by left].
  - intros obj. rw (rep_lookup _ _ _ Hr). intros (x & Hx & ->)%fmap_Some.
    rw keyOf_object. by eapply rep_keys.
Qed.

Lemma spec_items_sorted m : StronglySorted before_key (spec_items m).
Proof.
  apply StronglySorted_merge_sort; intros ? **; unfold before_key in *;
    [by eapply key_le_trans|apply key_le_total].
Qed.

Lemma list_spec t m :
  represents t m →
  ∃ l, tracker_List sch gvr (fk_kind kind) "" t = Ok (fk_list kind l) ∧
       l_ListMeta l = zero_ListMeta ∧ getItems l = spec_items m.
Proof.
  intros Hr. unfold tracker_List. rw decide_False; [apply fkl_version|].
  destruct fkl_New as (ty & Hn & Hz). unfold WithKind, gvk_GroupVersion in Hn. simpl in Hn. rw Hn Hz.
  destruct (fkl_ExtractList zero_KList) as [items ->].
  destruct (tr_objects t !! gvr) as [objs|] eqn:Ho.
  - assert (objs = fk_object kind <$> m) as -> by (rw -(rep_objects _ _ Hr) /objectsOf Ho; done).
    rw (filterByNamespace_all _ (fk_object kind <$> spec_items m)).
    + intros k obj. rw lookup_fmap. intros (x & Hx & ->)%fmap_Some.
      rw fkl_Accessor keyOf_object. split; [done|by eapply rep_keys].
    + apply StronglySorted_fmap with before_key; [|apply spec_items_sorted].
      intros x y. unfold before. by rw !keyOf_object.
    + unfold spec_items. rw merge_sort_Permutation map_to_list_fmap. by rw -!list_fmap_compose.
    + simpl. rw fkl_SetList. eexists. split; [done|]. split; done.
  - eexists. split; [done|]. split; [done|]. unfold spec_items, getItems. simpl.
    assert (m = ∅) as ->; [|done]. apply (fmap_empty_inv (fk_object kind)).
    by rw -(rep_objects _ _ Hr) /objectsOf Ho.
Qed.

(** What an action's reaction makes of a call. *)
Lemma invoke_returning {A} action d (cast : Obj → option A) w r t' :
  ObjectReaction sch lib action (f_tracker w) = (returning r, t') →
  invoke chain action d cast w =
  (match r with
   | Ok o => match cast o with Some a => Done (Ok (Some a)) | None => interfaceConversion end
   | Err e => Done (Err e)
   end, with_tracker t' (record action w)).
Proof. intros H. unfold invoke, Invokes. cbn. rw H. by destruct r. Qed.

Lemma invoke_panic {A} action d (cast : Obj → option A) w msg t' :
  ObjectReaction sch lib action (f_tracker w) = (Err msg, t') →
  invoke chain action d cast w = (Panic msg, with_tracker t' (record action w)).
Proof. intros H. unfold invoke, Invokes. cbn. by rw H. Qed.

(** How a call may end: with a full channel, or as the store says. *)
Definition refined {A} w (r : outcome A) w' (spec : result error A * gmap (string * string) T) : Prop :=
  (r = channel_full ∧ full (f_tracker w')) ∨
  (r = Done spec.1 ∧ represents (f_tracker w') spec.2 ∧ effect (f_tracker w) (f_tracker w')).

(** An update and the read-back after it. *)
Lemma afterwards_add existing x t m k rep t' :
  represents t m → afterwards (tracker_add gvr (fk_object kind x) "" existing t) k = (rep, t') →
  (∀ t1, tracker_Get t1 gvr "" (mo_Name (om_view x)) = Ok (fk_object kind x) →
         k t1 = returning (Ok (fk_object kind x))) →
  (rep = Err "channel full" ∧ full t') ∨
  (rep = returning (match (spec_write gvr existing (Some x) m).1 with
                    | Ok _ => Ok (fk_object kind x) | Err e => Err e end) ∧
   represents t' (spec_write gvr existing (Some x) m).2 ∧ effect t t').
Proof.
  intros Hr Ha Hk. destruct (tracker_add _ _ _ _ _) as [r t1] eqn:Hadd.
  apply (add_spec _ _ _ _ _ _ Hr) in Hadd as [[-> ?]|(-> & Hr' & He & Hin)].
  { left. cbn in Ha. by simplify_eq. }
  destruct (spec_write gvr existing (Some x) m) as [[y|e] m']; cbn in *; simplify_eq;
    right; split_and!; try done.
  apply Hk. rw (get_spec _ _ _ Hr'). by rw Hin.
Qed.

Lemma write_Ok existing x m y :
  (spec_write gvr existing (Some x) m).1 = Ok y → y = Some x.
Proof. unfold spec_write. case_decide; [done|]. destruct (m !! _), existing; simpl; congruence. Qed.

Lemma write_call action existing o w r w' m d :
  represents (f_tracker w) m →
  (∀ t, ObjectReaction sch lib action t =
        match with_meta (fk_object kind <$> o) with
        | None => (handled None (Some errNotObject), t)
        | Some (obj, om) => afterwards (tracker_add gvr obj "" existing t)
                              (λ t, returning (tracker_Get t gvr "" (mo_Name om)))
        end) →
  invoke chain action d (fk_asObject kind) w = (r, w') →
  refined w r w' (spec_write gvr existing o m).
Proof.
  intros Hr Hact Hi. specialize (Hact (f_tracker w)). destruct o as [x|]; simpl in Hact.
  - unfold with_meta in Hact. simpl in Hact. rw fkl_Accessor in Hact. simpl in Hact.
    destruct (afterwards _ _) as [rep t'] eqn:Ha.
    apply (afterwards_add _ _ _ _ _ _ _ Hr) in Ha as [[-> ?]|(-> & Hr' & He)]; [| |by intros t1 ->].
    + rw (invoke_panic _ _ _ _ _ _ Hact) in Hi. simplify_eq. by left.
    + rw (invoke_returning _ _ _ _ _ _ Hact) in Hi. simplify_eq. right. split; [|done].
      destruct (spec_write gvr existing (Some x) m).1 as [y|e] eqn:Hw; [|done].
      apply write_Ok in Hw as ->. by rw fkl_asObject.
  - unfold handled in Hact.
    rw (invoke_returning action d (fk_asObject kind) w (Err errNotObject) _ Hact) in Hi. simplify_eq.
    right. split_and!; [done|done|left; apply same_refl].
Qed.

(** A call that only reads. *)
Lemma read_call {A} action o d (cast : Obj → option A) w r w' m :
  represents (f_tracker w) m →
  ObjectReaction sch lib action (f_tracker w) = (returning o, f_tracker w) →
  invoke chain action d cast w = (r, w') →
  r = match o with
      | Ok o => match cast o with Some a => Done (Ok (Some a)) | None => interfaceConversion end
      | Err e => Done (Err e)
      end ∧ represents (f_tracker w') m ∧ effect (f_tracker w) (f_tracker w').
Proof.
  intros Hr Hact Hi. rw (invoke_returning _ _ _ _ _ _ Hact) in Hi. simplify_eq.
  split_and!; [done|done|left; apply same_refl].
Qed.

Lemma get_call name opts w r w' m :
  represents (f_tracker w) m → fake_Get kind chain name opts w = (r, w') →
  refined w r w'
    (match m !! ("", name) with Some x => Ok (Some x) | None => Err (notFound gvr name) end, m).
Proof.
  intros Hr Hg. apply (read_call (NewRootGetAction gvr name) (tracker_Get (f_tracker w) gvr "" name) _ _ _ _ _ _ Hr eq_refl)
    in Hg as (-> & Hr' & He).
  right. split; [|done]. cbn. rw (get_spec _ _ _ Hr). destruct (m !! ("", name)); [|done].
  by rw fkl_asObject.
Qed.

Lemma list_call opts w r w' m :
  is_ok (ExtractFromListOptions parseLabels parseFields opts) = true →
  represents (f_tracker w) m → fake_List kind chain parseLabels parseFields opts w = (r, w') →
  refined w r w'
    (let items := filter (λ x, selected opts (om_Labels x) = true) (spec_items m) in
     Ok (Some {| l_TypeMeta := zero_TypeMeta; l_ListMeta := zero_ListMeta;
                 l_Items := match items with [] => None | _ => Some items end |}), m).
Proof.
  unfold fake_List, selected. destruct (ExtractFromListOptions _ _ _) as [rs|]; [|done].
  intros _ Hr Hl. destruct (invoke _ _ _ _ _) as [l w1] eqn:Hi.
  apply (read_call (NewRootListAction gvr (fk_kind kind) rs)
           (tracker_List sch gvr (fk_kind kind) "" (f_tracker w)) _ _ _ _ _ _ Hr eq_refl) in Hi as (-> & Hr' & He).
  destruct (list_spec _ _ Hr) as (l & Hl1 & Hmeta & Hitems). cbn in Hl. rw Hl1 fkl_asList in Hl.
  simplify_eq. right. split; [|done]. unfold matching. by rw Hmeta Hitems.
Qed.

(** A call whose result is only an error. *)
Lemma invokeErr_reaction action d w ret err t' :
  ObjectReaction sch lib action (f_tracker w) = (handled ret err, t') →
  invokeErr chain action d w =
  (Done (match err with Some e => Err e | None => Ok tt end), with_tracker t' (record action w)).
Proof. intros H. unfold invokeErr, Invokes. cbn. rw H. by destruct err. Qed.

Lemma invokeErr_panic action d w msg t' :
  ObjectReaction sch lib action (f_tracker w) = (Err msg, t') →
  invokeErr chain action d w = (Panic msg, with_tracker t' (record action w)).
Proof. intros H. unfold invokeErr, Invokes. cbn. by rw H. Qed.

Lemma delete_call name opts w r w' m :
  represents (f_tracker w) m → fake_Delete kind chain name opts w = (r, w') →
  refined w r w'
    (match m !! ("", name) with
     | Some _ => (Ok tt, delete ("", name) m)
     | None => (Err (notFound gvr name), m)
     end).
Proof.
  intros Hr Hi. unfold fake_Delete in Hi.
  assert (ObjectReaction sch lib (NewRootDeleteActionWithOptions gvr name) (f_tracker w) =
          afterwards (tracker_Delete gvr "" name (f_tracker w)) (λ _, handled None None)) as Hact by done.
  destruct (tracker_Delete _ _ _ _) as [o t'] eqn:Hd. apply (delete_spec _ _ _ _ _ Hr) in Hd.
  destruct (m !! ("", name)) as [x|].
  - destruct Hd as [[-> ?]|(-> & Hr' & He)].
    + rw (invokeErr_panic _ _ _ _ _ Hact) in Hi. simplify_eq. by left.
    + rw (invokeErr_reaction _ _ _ _ _ _ Hact) in Hi. simplify_eq. by right.
  - destruct Hd as (-> & Hr' & He). rw (invokeErr_reaction _ _ _ _ _ _ Hact) in Hi.
    simplify_eq. by right.
Qed.

(** No reaction handles [DeleteCollection], so the answer is the default one. *)
Lemma deleteCollection_call opts listOpts w r w' m :
  is_ok (ExtractFromListOptions parseLabels parseFields listOpts) = true →
  represents (f_tracker w) m →
  fake_DeleteCollection kind chain parseLabels parseFields opts listOpts w = (r, w') →
  refined w r w' (Ok tt, m).
Proof.
  unfold fake_DeleteCollection. destruct (ExtractFromListOptions _ _ _) as [rs|]; [|done].
  intros _ Hr Hi. injection Hi as <- <-. right. split_and!; [done|done|left; apply same_refl].
Qed.

Lemma patch_call name pt data opts subresources w r w' m :
  represents (f_tracker w) m →
  fake_Patch kind chain name pt data opts subresources w = (r, w') →
  refined w r w'
    (match m !! ("", name) with
     | None => (Err (notFound gvr name), m)
     | Some x =>
         match patch_object pt data x with
         | Err e => (Err e, m)
         | Ok y => spec_write gvr true (Some y) m
         end
     end).
Proof.
  intros Hr Hi. unfold fake_Patch in Hi.
  assert (∀ e, ObjectReaction sch lib (NewRootPatchSubresourceAction gvr name pt data subresources)
                 (f_tracker w) = (returning (Err e), f_tracker w) → refined w r w' (Err e, m)) as Herr.
  { intros e Hact. eapply (read_call _ _ _ _ _ _ _ _ Hr Hact) in Hi as (-> & Hr' & He). by right. }
  pose proof (get_spec _ _ name Hr) as Hg.
  destruct (m !! ("", name)) as [x|]; [|by apply Herr; cbn; rw Hg].
  unfold patch_object.
  destruct (pl_Marshal lib (fk_object kind x)) as [old|e] eqn:Hm; cbn;
    [|by apply Herr; cbn; rw Hg /= Hm].
  destruct (applyPatch lib pt old data (ro_type (fk_object kind x))) as [new|e] eqn:Hp; cbn;
    [|by apply Herr; cbn; rw Hg /= Hm /= Hp].
  destruct (pl_Unmarshal lib new (ro_type (fk_object kind x))) as [o|e] eqn:Hu; cbn;
    [|by apply Herr; cbn; rw Hg /= Hm /= Hp /= Hu].
  destruct (unmarshal_typed _ _ _ Hu) as [y ->]. rw fkl_asObject.
  assert (ObjectReaction sch lib (NewRootPatchSubresourceAction gvr name pt data subresources)
            (f_tracker w) = afterwards (tracker_add gvr (fk_object kind y) "" true (f_tracker w))
                              (λ _, handled (Some (fk_object kind y)) None)) as Hact
    by (cbn; rw Hg /= Hm /= Hp /= Hu; done).
  destruct (afterwards _ _) as [rep t'] eqn:Ha.
  apply (afterwards_add _ _ _ _ _ _ _ Hr) in Ha as [[-> ?]|(-> & Hr' & He)]; [| |done].
  - rw (invoke_panic _ _ _ _ _ _ Hact) in Hi. simplify_eq. by left.
  - rw (invoke_returning _ _ _ _ _ _ Hact) in Hi. simplify_eq. right. split; [|done].
    destruct (spec_write gvr true (Some y) m).1 as [z|e] eqn:Hw; [|done].
    apply write_Ok in Hw as ->. by rw fkl_asObject.
Qed.

(** The same for the answer of a call of the specification. *)
Definition refined_answer w (r : outcome (answer T)) w' (spec : answer T * gmap (string * string) T) :=
  (r = channel_full ∧ full (f_tracker w')) ∨
  (r = Done (Ok spec.1) ∧ represents (f_tracker w') spec.2 ∧ effect (f_tracker w) (f_tracker w')).

Lemma answering_refined {A} (f : result error A → answer T) (x : outcome A * Fake) w r w' sp :
  answering f x = (r, w') → (∀ r0, x = (r0, w') → refined w r0 w' sp) →
  refined_answer w r w' (f sp.1, sp.2).
Proof.
  destruct x as [[a|msg] w1]; cbn; intros ? Hx; simplify_eq; unfold refined_answer.
  - destruct (Hx _ eq_refl) as [[? _]|[[= ->] ?]]; [done|by right].
  - destruct (Hx _ eq_refl) as [[[= ->] ?]|[? ?]]; [by left|done].
Qed.

Lemma call_spec opts c w r w' m :
  valid_call c → represents (f_tracker w) m → do_call client opts c w = (r, w') →
  refined_answer w r w' (spec_call gvr patch_object selected c m).
Proof.
  intros Hv Hr Hc. destruct c; cbn in Hv, Hc |- *.
  - exact (answering_refined _ _ _ _ _ _ Hc (λ r0, get_call _ _ _ _ _ _ Hr)).
  - exact (answering_refined _ _ _ _ _ _ Hc (λ r0, list_call _ _ _ _ _ Hv Hr)).
  - eapply answering_refined in Hc; [|intros r0; by apply (write_call _ false object _ _ _ m)].
    by destruct (spec_write _ _ _ _).
  - eapply answering_refined in Hc; [|intros r0; by apply (write_call _ true object _ _ _ m)].
    by destruct (spec_write _ _ _ _).
  - rw Hv in Hc.
    eapply answering_refined in Hc; [|intros r0; by apply (write_call _ true object _ _ _ m)].
    by destruct (spec_write _ _ _ _).
  - pose proof (answering_refined _ _ _ _ _ _ Hc (λ r0, delete_call _ _ _ _ _ _ Hr)) as H.
    by destruct (m !! ("", name)).
  - exact (answering_refined _ _ _ _ _ _ Hc (λ r0, deleteCollection_call _ _ _ _ _ _ Hv Hr)).
  - pose proof (answering_refined _ _ _ _ _ _ Hc (λ r0, patch_call _ _ _ _ _ _ _ _ _ Hr)) as H.
    destruct (m !! ("", name)) as [x|]; [|done]. destruct (patch_object pt data x); [|done].
    by destruct (spec_write _ _ _ _).
Qed.

Lemma ExtractFromListOptions_cases o :
  (∃ rs, ExtractFromListOptions parseLabels parseFields o = Ok rs) ∨
  ∃ sel e, ExtractFromListOptions parseLabels parseFields o = Err (invalidSelector sel e).
Proof.
  unfold ExtractFromListOptions. destruct (parseLabels _); [|by right; do 2 eexists].
  destruct (parseFields _); [by left; eexists|by right; do 2 eexists].
Qed.

(** A call with an invalid selector panics and does nothing. *)
Definition has_method (c : call Opts T) : Prop :=
  match c with CUpdateStatus _ => hasStatus = true | _ => True end.

Lemma call_cases opts c w r w' m :
  has_method c → represents (f_tracker w) m → do_call client opts c w = (r, w') →
  refined_answer w r w' (spec_call gvr patch_object selected c m) ∨
  ∃ sel e, r = Panic (invalidSelector sel e) ∧ w' = w.
Proof.
  intros Hm Hr Hc.
  destruct c as [| o | | | | | o |]; try (left; by apply (call_spec opts)).
  - destruct (ExtractFromListOptions_cases o) as [[rs He]|(sel & e & He)];
      [left; apply (call_spec opts); cbn; [by rw He|done..]|right].
    cbn in Hc. unfold fake_List in Hc. rw He /= in Hc. simplify_eq. by exists sel, e.
  - destruct (ExtractFromListOptions_cases o) as [[rs He]|(sel & e & He)];
      [left; apply (call_spec opts); cbn; [by rw He|done..]|right].
    cbn in Hc. unfold fake_DeleteCollection in Hc. rw He /= in Hc. simplify_eq. by exists sel, e.
Qed.

(** ** Reading a created object back, in any state *)

Lemma create_stores o opts w x w' :
  fake_Create kind chain o opts w = (Done (Ok (Some x)), w') →
  o = Some x ∧ tracker_Get (f_tracker w') gvr "" (mo_Name (om_view x)) = Ok (fk_object kind x).
Proof.
  unfold fake_Create. destruct o as [y|]; [|done]. set (action := NewRootCreateAction _ _).
  assert (ObjectReaction sch lib action (f_tracker w) =
    afterwards (tracker_add gvr (fk_object kind y) "" false (f_tracker w))
      (λ t, returning (tracker_Get t gvr "" (mo_Name (om_view y))))) as Hact
    by (cbn; rw fkl_Accessor; done).
  clearbody action.
  destruct (tracker_add _ _ _ _ _) as [[[u|e]|msg] t1] eqn:Ha; cbn in Hact;
    [|by rw (invoke_returning _ _ _ _ (Err e) _ Hact)|by rw (invoke_panic _ _ _ _ _ _ Hact)].
  destruct (decide (mo_Namespace (om_view y) = "")) as [Hns|Hns];
    [|by rw (tracker_add_foreign _ _ (om_view y)) // in Ha; apply fkl_Accessor].
  apply (tracker_add_own _ _ (om_view y)) in Ha;
    [|apply fkl_Accessor|done|rw -Hns; apply SetNamespace_own].
  destruct (objectsOf (f_tracker w) gvr !! _); [by destruct Ha as [? _]|].
  destruct Ha as [[? _]|[_ Hc]]; [done|].
  assert (objectsOf t1 gvr !! ("", mo_Name (om_view y)) = Some (fk_object kind y)) as Hl.
  { rw (ch_objects _ _ _ _ _ Hc). rw decide_True //= keyOf_object /objectKey Hns. apply lookup_insert_eq. }
  assert (tracker_Get t1 gvr "" (mo_Name (om_view y)) = Ok (fk_object kind y)) as Hg.
  { rw tracker_Get_objectsOf; rw Hl; [|done]. intros obj [= <-]. apply fkl_Status. }
  rw Hg in Hact. rw (invoke_returning _ _ _ _ (Ok (fk_object kind y)) _ Hact) fkl_asObject.
  by intros [= -> <-].
Qed.

Lemma fake_ryw : ReadYourWrites client (λ x, mo_Name (om_view x)).
Proof.
  intros o opts w x w1 [_ Hg]%(create_stores _ opts) gopts. eexists. cbn [Get fakeClient]. unfold fake_Get.
  assert (ObjectReaction sch lib (NewRootGetAction gvr (mo_Name (om_view x))) (f_tracker w1) =
          (returning (Ok (fk_object kind x)), f_tracker w1)) as Hact by (cbn; by rw Hg).
  by rw (invoke_returning _ _ _ _ _ _ Hact) fkl_asObject.
Qed.
End Refinement.
