(* ===== verification/FakeMachine.v ===== *)
(** * The fake clientset as a machine

    One clientset of [FakeClientset] with its two typed fakes, its watchers and the
    code that drives them, against two independent stores of [FakeStore].  An event
    is one method call, a receive from a watcher's channel, or a [Stop]; calls are
    atomic because the tracker holds its lock. *)
From S2P Require Import Prelude GoStrings ApiMachinery Scheme Admission TransformedClient RestClient.
From S2P Require Import ObjectTracker FakeClientset FakeStore.

Section Laws.
Context {P B : Type} `{!MetaObject P, !MetaObject B, !MetaObjectLaws P, !MetaObjectLaws B}.
Abbreviation Obj := (fakeObject P B).

Lemma assignItems_all {A} (inj : A → Obj) (cast : Obj → option A) (xs : list A) :
  (∀ x, cast (inj x) = Some x) → assignItems cast (inj <$> xs) = Ok xs.
Proof.
  intros Hc. unfold assignItems. induction xs as [|x xs IH]; [done|].
  rw fmap_cons /= Hc /=. by rw IH.
Qed.

#[export] Instance policies_laws :
  FakeKindLaws (FakeValidatingAdmissionPolicies (P := P) (B := B)) scheme.
Proof.
  split; try done.
  - exists (policyType "ValidatingAdmissionPolicyList"). split; [by vm_compute|done].
  - intros l xs. cbn. by rw assignItems_all.
Qed.

#[export] Instance bindings_laws :
  FakeKindLaws (FakeValidatingAdmissionPolicyBindings (P := P) (B := B)) scheme.
Proof.
  split; try done.
  - exists (policyType "ValidatingAdmissionPolicyBindingList"). split; [by vm_compute|done].
  - intros l xs. cbn. by rw assignItems_all.
Qed.
End Laws.

(** ** Events *)

Section Machine.
Context {P B Opts : Type} `{!MetaObject P, !MetaObject B, !ListOptions Opts}.
Abbreviation Obj := (fakeObject P B).
Context (lib : PatchLibrary (Obj := Obj)).
Context (parseLabels parseFields : string → result string (gmap string string → bool)).
Implicit Types (w : Fake (Obj := Obj)) (opts : Opts).

(** The clients [ValidatingAdmissionPolicies()] and
    [ValidatingAdmissionPolicyBindings()] return. *)
Definition policyClient : ClientInterface Opts Fake P (EventType * Obj) :=
  fakeClient FakeValidatingAdmissionPolicies (reactors lib) watchReactors parseLabels parseFields
    (λ _, []) true.
Definition bindingClient : ClientInterface Opts Fake B (EventType * Obj) :=
  fakeClient FakeValidatingAdmissionPolicyBindings (reactors lib) watchReactors parseLabels
    parseFields (λ _, []) false.

Inductive event :=
| PolicyCall (opts : Opts) (c : call Opts P)
| BindingCall (opts : Opts) (c : call Opts B)
| PolicyWatch (opts : Opts)
| BindingWatch (opts : Opts)
| Receive (i : nat)
| StopWatch (i : nat).

Inductive output :=
| PolicyAnswer (a : answer P)
| BindingAnswer (a : answer B)
| Watching (i : nat)
| Received (ev : EventType * Obj)
| Stopped.

Definition yields {A} (f : A → output) (r : outcome A) : outcome output :=
  match r with
  | Done (Ok a) => Done (Ok (f a))
  | Done (Err e) => Done (Err e)
  | Panic msg => Panic msg
  end.

(** [None]: the event cannot happen now, as a receive from an empty channel, or the
    method does not exist. *)
Definition perform (e : event) w : option (outcome output * Fake) :=
  match e with
  | PolicyCall opts c => let '(r, w') := do_call policyClient opts c w in Some (yields PolicyAnswer r, w')
  | BindingCall _ (CUpdateStatus _) => None
  | BindingCall opts c => let '(r, w') := do_call bindingClient opts c w in Some (yields BindingAnswer r, w')
  | PolicyWatch opts =>
      let '(r, w') := fake_Watch (FakeValidatingAdmissionPolicies (B := B)) watchReactors
                        parseLabels parseFields opts w in Some (yields Watching r, w')
  | BindingWatch opts =>
      let '(r, w') := fake_Watch (FakeValidatingAdmissionPolicyBindings (P := P)) watchReactors
                        parseLabels parseFields opts w in Some (yields Watching r, w')
  | Receive i => '(ev, t) ← receive i (f_tracker w); Some (Done (Ok (Received ev)), with_tracker t w)
  | StopWatch i => t ← stop i (f_tracker w); Some (Done (Ok Stopped), with_tracker t w)
  end.

(** A panic ends the program. *)
Definition fake_step (e : event) w : option (output * Fake) :=
  match perform e w with Some (Done (Ok o), w') => Some (o, w') | _ => None end.

Fixpoint trace (es : list event) w : option (list output * Fake) :=
  match es with
  | [] => Some ([], w)
  | e :: es => '(o, w1) ← fake_step e w; '(os, w2) ← trace es w1; Some (o :: os, w2)
  end.

(** ** The two stores *)

Record stores := { s_policies : gmap (string * string) P; s_bindings : gmap (string * string) B }.
Implicit Types s : stores.

Definition policies_gvr := policyResource "validatingadmissionpolicies".
Definition bindings_gvr := policyResource "validatingadmissionpolicybindings".
Abbreviation policies := (FakeValidatingAdmissionPolicies (P := P) (B := B)).
Abbreviation bindings := (FakeValidatingAdmissionPolicyBindings (P := P) (B := B)).
Abbreviation selects := (selected parseLabels parseFields).

Definition policy_call (c : call Opts P) s : answer P * stores :=
  let '(a, m) := spec_call policies_gvr (patch_object policies lib) selects c (s_policies s) in
  (a, {| s_policies := m; s_bindings := s_bindings s |}).
Definition binding_call (c : call Opts B) s : answer B * stores :=
  let '(a, m) := spec_call bindings_gvr (patch_object bindings lib) selects c (s_bindings s) in
  (a, {| s_policies := s_policies s; s_bindings := m |}).

Fixpoint spec_trace (es : list event) s : list output * stores :=
  match es with
  | [] => ([], s)
  | PolicyCall _ c :: es =>
      let '(a, s1) := policy_call c s in let '(os, s2) := spec_trace es s1 in (PolicyAnswer a :: os, s2)
  | BindingCall _ c :: es =>
      let '(a, s1) := binding_call c s in let '(os, s2) := spec_trace es s1 in (BindingAnswer a :: os, s2)
  | _ :: es => spec_trace es s
  end.

Definition is_answer (o : output) : bool :=
  match o with PolicyAnswer _ | BindingAnswer _ => true | _ => false end.

(** What [NewSimpleClientset] stores: the policies and bindings it is given, in lists
    or alone. *)
Definition flatten (obj : Obj) : list Obj :=
  match obj with
  | FPolicyList l => FPolicy <$> getItems l
  | FBindingList l => FBinding <$> getItems l
  | _ => [obj]
  end.

Definition put_object s (obj : Obj) : stores :=
  match obj with
  | FPolicy p => {| s_policies := <[objectKey p := p]> (s_policies s); s_bindings := s_bindings s |}
  | FBinding b => {| s_policies := s_policies s; s_bindings := <[objectKey b := b]> (s_bindings s) |}
  | _ => s
  end.

Definition no_objects : stores := {| s_policies := ∅; s_bindings := ∅ |}.
Definition stored (objects : list Obj) : stores := foldl put_object no_objects (objects ≫= flatten).
End Machine.

(** ** Facts *)

Section Facts.
Context {P B Opts : Type} `{!MetaObject P, !MetaObject B, !MetaObjectLaws P, !MetaObjectLaws B}.
Context `{!ListOptions Opts}.
Abbreviation Obj := (fakeObject P B).
Abbreviation policies := (FakeValidatingAdmissionPolicies (P := P) (B := B)).
Abbreviation bindings := (FakeValidatingAdmissionPolicyBindings (P := P) (B := B)).
Context (lib : PatchLibrary (Obj := Obj)).
Context `{!PatchLaws policies lib, !PatchLaws bindings lib}.
Context (parseLabels parseFields : string → result string (gmap string string → bool)).
Implicit Types (w : Fake (Obj := Obj)) (t : tracker (Obj := Obj)) (opts : Opts).
Implicit Types (s : stores (P := P) (B := B)) (e : event (P := P) (B := B) (Opts := Opts)).
Abbreviation performs := (perform lib parseLabels parseFields).
Abbreviation steps := (fake_step lib parseLabels parseFields).
Abbreviation traces := (trace lib parseLabels parseFields).
Abbreviation spec_traces := (spec_trace lib parseLabels parseFields).

(** A tracker that holds the two stores. *)
Record holds t s : Prop := {
  ho_wf : tracker_wf t;
  ho_policies : represents policies t (s_policies s);
  ho_bindings : represents bindings t (s_bindings s);
}.

(** A step from [t] to [t'] loses no watcher's history. *)
Definition keeps_watchers t t' : Prop :=
  ∀ (g : GroupVersionResource) (i : nat) (m0 : gmap (string * string) Obj),
    coherent g i m0 t → coherent g i m0 t'.

Lemma holds_objects t t' s :
  holds t s → tracker_wf t' → (∀ g, objectsOf t' g = objectsOf t g) → holds t' s.
Proof. intros [_ [Hp ?] [Hb ?]] Hwf Ho. split; [done|split|split]; rw ?Ho; done. Qed.

Lemma holds_policies t t' s m :
  holds t s → effect policies t t' → represents policies t' m →
  holds t' {| s_policies := m; s_bindings := s_bindings s |} ∧ keeps_watchers t t'.
Proof.
  intros [Hwf _ [Hb Hk]] He Hr. split; [|by intros g i m0; eapply effect_coherent].
  split; [by eapply effect_wf|done|split; [|done]]. rw -Hb. by apply (effect_objects _ _ _ _ He).
Qed.

Lemma holds_bindings t t' s m :
  holds t s → effect bindings t t' → represents bindings t' m →
  holds t' {| s_policies := s_policies s; s_bindings := m |} ∧ keeps_watchers t t'.
Proof.
  intros [Hwf [Hp Hk] _] He Hr. split; [|by intros g i m0; eapply effect_coherent].
  split; [by eapply effect_wf|split; [|done]|done]. rw -Hp. by apply (effect_objects _ _ _ _ He).
Qed.

(** What an event does, when it does not panic. *)
Definition simulates e w s (r : outcome output) w' : Prop :=
  ∃ o, r = Done (Ok o) ∧ holds (f_tracker w') (spec_traces [e] s).2 ∧
       keeps_watchers (f_tracker w) (f_tracker w') ∧
       filter (λ o, is_answer o = true) [o] = (spec_traces [e] s).1.

Definition panics w (r : outcome (output (P := P) (B := B))) w' : Prop :=
  (r = channel_full ∧ full (f_tracker w')) ∨ ∃ sel msg, r = Panic (invalidSelector sel msg) ∧ w' = w.

Lemma policy_call_simulated opts c w s r w' :
  holds (f_tracker w) s → performs (PolicyCall opts c) w = Some (r, w') →
  simulates (PolicyCall opts c) w s r w' ∨ panics w r w'.
Proof.
  intros Hh. cbn [perform]. destruct (do_call _ _ _ _) as [a w1] eqn:Hc.
  intros [= <- <-].
  eapply (call_cases policies scheme lib _ _ _ _ _ _ _ _ _ _ (s_policies s)) in Hc
    as [[[-> ?]|(-> & Hr & He)]|(sel & msg & -> & ->)];
    [by right; left| |by right; right; do 2 eexists|by destruct c|apply Hh].
  left. eexists. split; [done|]. cbn [spec_trace]. unfold policy_call.
  destruct (spec_call _ _ _ _ _) as [a m]. by destruct (holds_policies _ _ _ _ Hh He Hr).
Qed.

Lemma binding_call_simulated opts c w s r w' :
  holds (f_tracker w) s → performs (BindingCall opts c) w = Some (r, w') →
  simulates (BindingCall opts c) w s r w' ∨ panics w r w'.
Proof.
  intros Hh Hp.
  assert (has_method false c ∧
    (let '(r, w') := do_call (bindingClient lib parseLabels parseFields) opts c w in
     Some (yields BindingAnswer r, w')) = Some (r, w')) as [Hm Hp'] by by destruct c.
  clear Hp. destruct (do_call _ _ _ _) as [a w1] eqn:Hc. simplify_eq.
  eapply (call_cases bindings scheme lib _ _ _ _ _ _ _ _ _ _ (s_bindings s)) in Hc
    as [[[-> ?]|(-> & Hr & He)]|(sel & msg & -> & ->)];
    [by right; left| |by right; right; do 2 eexists|done|apply Hh].
  left. eexists. split; [done|]. cbn [spec_trace]. unfold binding_call.
  destruct (spec_call _ _ _ _ _) as [a m]. by destruct (holds_bindings _ _ _ _ Hh He Hr).
Qed.

Lemma InvokesWatch_eq (gvr : GroupVersionResource) rs w :
  InvokesWatch watchReactors (NewRootWatchAction gvr rs) w =
  (Ok (tracker_Watch gvr "" (f_tracker w)).1,
   with_tracker (tracker_Watch gvr "" (f_tracker w)).2 (record (NewRootWatchAction gvr rs) w)).
Proof. done. Qed.

(** Watches, receives and stops leave the stores alone. *)
Lemma watch_simulated {T} (kind : FakeKind Obj T) opts e w s r w' :
  spec_traces [e] s = ([], s) → holds (f_tracker w) s →
  (let '(r, w') := fake_Watch kind watchReactors parseLabels parseFields opts w in
   Some (yields Watching r, w')) = Some (r, w') →
  simulates e w s r w' ∨ panics w r w'.
Proof.
  intros Hs Hh. unfold fake_Watch.
  destruct (ExtractFromListOptions_cases parseLabels parseFields opts) as [[rs ->]|(sel & msg & ->)];
    intros Hp; [|simplify_eq; by right; right; exists sel, msg].
  rw InvokesWatch_eq in Hp. cbn [yields] in Hp. simplify_eq. left. eexists. split; [done|]. rw Hs.
  split_and!; [|by intros g i m0; apply Watch_coherent|done].
  apply (holds_objects (f_tracker w)); [done| |done]. by apply Watch_wf, Hh.
Qed.

Lemma perform_simulated e w s r w' :
  holds (f_tracker w) s → performs e w = Some (r, w') → simulates e w s r w' ∨ panics w r w'.
Proof.
  intros Hh Hp. destruct e as [opts c|opts c|opts|opts|i|i].
  - by eapply policy_call_simulated.
  - by eapply binding_call_simulated.
  - by eapply (watch_simulated policies).
  - by eapply (watch_simulated bindings).
  - left. cbn in Hp. apply bind_Some in Hp as ([ev t] & Hr & [= <- <-]).
    eexists. split; [done|]. cbn.
    destruct (receive_frame _ _ _ _ Hr (ho_wf _ _ Hh)) as (Hwf & Ho & Hc).
    split_and!; [by apply (holds_objects (f_tracker w))|done|done].
  - left. cbn in Hp. apply bind_Some in Hp as (t & Hr & [= <- <-]).
    eexists. split; [done|]. cbn.
    destruct (stop_frame _ _ _ Hr (ho_wf _ _ Hh)) as (Hwf & Ho & Hc).
    split_and!; [by apply (holds_objects (f_tracker w))|done|done].
Qed.

(** ** The objects a clientset starts with *)

Lemma addObject_policy p t :
  addObject scheme (FPolicy p : Obj) t =
  match tracker_add policies_gvr (FPolicy p : Obj) (mo_Namespace (om_view p)) false t with
  | (Done (Ok _), t') => (Done (Ok tt), t')
  | r => r
  end.
Proof.
  unfold addObject. cbn [Accessor fakeObject_accessor].
  assert (ObjectKinds scheme (ro_type (FPolicy p : Obj)) =
          Some ([WithKind SchemeGroupVersion "ValidatingAdmissionPolicy"], false)) as -> by by vm_compute.
  done.
Qed.

Lemma addObject_binding b t :
  addObject scheme (FBinding b : Obj) t =
  match tracker_add bindings_gvr (FBinding b : Obj) (mo_Namespace (om_view b)) false t with
  | (Done (Ok _), t') => (Done (Ok tt), t')
  | r => r
  end.
Proof.
  unfold addObject. cbn [Accessor fakeObject_accessor].
  assert (ObjectKinds scheme (ro_type (FBinding b : Obj)) =
          Some ([WithKind SchemeGroupVersion "ValidatingAdmissionPolicyBinding"], false)) as -> by by vm_compute.
  done.
Qed.

Lemma addObject_holds obj t t' s u :
  addObject scheme obj t = (Done (Ok u), t') → holds t s → holds t' (put_object s obj).
Proof.
  intros Ha [Hwf Hp Hb].
  assert (Accessor obj = None → False) as Hno by (intros Hn; unfold addObject in Ha; by rw Hn in Ha).
  destruct obj as [p|l|b|l|st|ty]; try destruct (Hno eq_refl).
  - rw addObject_policy in Ha. destruct (tracker_add _ _ _ _ _) as [r t1] eqn:Hadd.
    apply (tracker_add_own _ _ (om_view p)) in Hadd; [|done|done|by cbn; rw om_SetNamespace_same].
    destruct (objectsOf t policies_gvr !! _); [by destruct Hadd as [-> _]|].
    destruct Hadd as [[-> _]|[-> Hc]]; [done|]. simplify_eq.
    split; [eapply changes_wf; [done|by eexists|done]|by eapply (represents_put policies scheme _ _ _ _ _ Added)|].
    destruct Hb as [Hb ?]. split; [|done]. by rw -Hb (ch_objects _ _ _ _ _ Hc).
  - rw addObject_binding in Ha. destruct (tracker_add _ _ _ _ _) as [r t1] eqn:Hadd.
    apply (tracker_add_own _ _ (om_view b)) in Hadd; [|done|done|by cbn; rw om_SetNamespace_same].
    destruct (objectsOf t bindings_gvr !! _); [by destruct Hadd as [-> _]|].
    destruct Hadd as [[-> _]|[-> Hc]]; [done|]. simplify_eq.
    split; [eapply changes_wf; [done|by eexists|done]| |by eapply (represents_put bindings scheme _ _ _ _ _ Added)].
    destruct Hp as [Hp ?]. split; [|done]. by rw -Hp (ch_objects _ _ _ _ _ Hc).
Qed.

Lemma addObjects_holds objs t t' s u :
  addObjects scheme objs t = (Done (Ok u), t') → holds t s → holds t' (foldl put_object s objs).
Proof.
  revert t s. induction objs as [|obj objs IH]; intros t s; cbn [addObjects foldl];
    [by intros [= <- <-]|].
  destruct (addObject scheme obj t) as [[[v|e]|msg] t1] eqn:Ha; [|discriminate..].
  intros Hr Hh. eapply IH; [done|]. by eapply addObject_holds.
Qed.

Lemma tracker_Add_flatten sch obj t t' :
  tracker_Add sch obj t = (Done (Ok tt), t') → addObjects sch (flatten obj) t = (Done (Ok tt), t').
Proof.
  assert (addObject sch obj t = (Done (Ok tt), t') → addObjects sch [obj] t = (Done (Ok tt), t')) as H
    by (cbn [addObjects]; by intros ->).
  by destruct obj.
Qed.

Lemma addAll_holds objs t t' s :
  addAll objs t = Ok t' → holds t s → holds t' (foldl put_object s (objs ≫= flatten)).
Proof.
  revert t s. induction objs as [|obj objs IH]; intros t s; cbn [addAll];
    [by intros [= <-]|].
  destruct (tracker_Add scheme obj t) as [[[[]|e]|msg] t1] eqn:Ha; [|discriminate..].
  intros Hr Hh. rw bind_cons foldl_app. eapply IH; [done|].
  eapply addObjects_holds; [|done]. by apply tracker_Add_flatten.
Qed.

Lemma holds_new : holds NewObjectTracker no_objects.
Proof. split; [apply tracker_wf_new|split|split]; try done; by rw fmap_empty. Qed.

Lemma NewSimpleClientset_holds objs w :
  NewSimpleClientset objs = Ok w → holds (f_tracker w) (stored objs).
Proof.
  unfold NewSimpleClientset. destruct (addAll objs NewObjectTracker) as [t|] eqn:Ha; [|done].
  intros [= <-]. eapply addAll_holds; [done|apply holds_new].
Qed.

(** ** Runs *)

Lemma spec_trace_cons e es s :
  spec_traces (e :: es) s =
  ((spec_traces [e] s).1 ++ (spec_traces es (spec_traces [e] s).2).1,
   (spec_traces es (spec_traces [e] s).2).2).
Proof.
  destruct e; cbn [spec_trace];
    try (destruct (policy_call _ _ _ _ s) as [? s1] || destruct (binding_call _ _ _ _ s) as [? s1];
         cbn [fst snd]; by destruct (spec_trace _ _ _ es s1)).
  all: cbn [fst snd app]; by destruct (spec_trace _ _ _ es s).
Qed.

Lemma fake_step_simulated e w s o w' :
  holds (f_tracker w) s → steps e w = Some (o, w') →
  holds (f_tracker w') (spec_traces [e] s).2 ∧ keeps_watchers (f_tracker w) (f_tracker w') ∧
  filter (λ o, is_answer o = true) [o] = (spec_traces [e] s).1.
Proof.
  intros Hh. unfold fake_step. destruct (performs e w) as [[r w1]|] eqn:Hp; [|done].
  destruct r as [[o1|]|]; [|done..]. intros [= -> ->].
  destruct (perform_simulated _ _ _ _ _ Hh Hp) as [(o1 & [= <-] & ?)|[[? _]|(sel & msg & ? & _)]]; done.
Qed.

Lemma trace_simulated es w s os w' :
  holds (f_tracker w) s → traces es w = Some (os, w') →
  holds (f_tracker w') (spec_traces es s).2 ∧ keeps_watchers (f_tracker w) (f_tracker w') ∧
  filter (λ o, is_answer o = true) os = (spec_traces es s).1.
Proof.
  revert w s os. induction es as [|e es IH]; intros w s os Hh Ht.
  { cbn in Ht. simplify_eq. by split_and!; [|intros g i m0|]. }
  cbn [trace] in Ht. apply bind_Some in Ht as ([o w1] & Hs & Ht).
  apply bind_Some in Ht as ([os1 w2] & Ht & [= <- <-]).
  destruct (fake_step_simulated _ _ _ _ _ Hh Hs) as (Hh1 & Hk1 & Ho1).
  destruct (IH _ _ _ Hh1 Ht) as (Hh2 & Hk2 & Ho2). rw spec_trace_cons. split_and!; [done| |].
  - intros g i m0 Hc. by apply Hk2, Hk1.
  - cbn [fst]. by rw -Ho1 -Ho2 -(filter_app _ [o]).
Qed.

(** The resource an event watches. *)
Definition watched e : option GroupVersionResource :=
  match e with
  | PolicyWatch _ => Some policies_gvr
  | BindingWatch _ => Some bindings_gvr
  | _ => None
  end.

Lemma watch_starts e gvr w i w' :
  watched e = Some gvr → steps e w = Some (Watching i, w') →
  coherent gvr i (objectsOf (f_tracker w) gvr) (f_tracker w').
Proof.
  destruct e as [| |opts|opts| |]; try done; intros [= <-]; unfold fake_step;
    cbn [perform]; unfold fake_Watch;
    (destruct (ExtractFromListOptions _ _ _) as [rs|]; [|done]);
    rw InvokesWatch_eq; cbn [yields]; intros [= <- <-];
    exact (Watch_new _ (f_tracker w) _ _ (surjective_pairing (tracker_Watch _ "" (f_tracker w)))).
Qed.

(** ** Properties *)

(** C23: a fake clientset started with some objects answers every sequence of calls
    as two plain stores do, one of policies and one of bindings, and ends up holding
    their contents: [Get], [List], [Create], [Update], [UpdateStatus], [Delete] and
    [Patch] are those of a store of cluster-scoped objects, with NotFound,
    AlreadyExists and namespace mismatch errors, and [DeleteCollection] deletes
    nothing. *)
Theorem fake_clientset_refines_stores objs w0 es os w :
  NewSimpleClientset objs = Ok w0 → traces es w0 = Some (os, w) →
  filter (λ o, is_answer o = true) os = (spec_traces es (stored objs)).1 ∧
  objectsOf (f_tracker w) policies_gvr = FPolicy <$> s_policies (spec_traces es (stored objs)).2 ∧
  objectsOf (f_tracker w) bindings_gvr = FBinding <$> s_bindings (spec_traces es (stored objs)).2.
Proof.
  intros Hn%NewSimpleClientset_holds Ht.
  by destruct (trace_simulated _ _ _ _ _ Hn Ht) as ([_ [Hp _] [Hb _]] & _ & Ho).
Qed.

(** C29: the fakes' type assertions never fail: whatever was called before, an event
    either yields a result, or panics because a selector does not parse, or because
    a watcher has a hundred undelivered events. *)
Theorem fakes_are_type_safe objs w0 es os w e r w' :
  NewSimpleClientset objs = Ok w0 → traces es w0 = Some (os, w) →
  perform lib parseLabels parseFields e w = Some (r, w') →
  (∃ o, r = Done (Ok o)) ∨
  (∃ sel msg, r = Panic (invalidSelector sel msg) ∧ w' = w) ∨
  (r = Panic "channel full" ∧
   ∃ i f, tr_fakes (f_tracker w') !! i = Some f ∧ w_Stopped f = false ∧
          DefaultChanSize ≤ length (w_sent f) - w_received f).
Proof.
  intros Hn%NewSimpleClientset_holds Ht Hp.
  destruct (trace_simulated _ _ _ _ _ Hn Ht) as (Hh & _ & _).
  destruct (perform_simulated _ _ _ _ _ Hh Hp) as [(o & -> & _)|[Hf|Hi]]; [left|right; by right|right; by left].
  by exists o.
Qed.

(** C24: a watch misses nothing: applying to the objects of the resource at the time
    of the watch all events sent to the watcher since, in order, gives the objects
    there are now, unless the watcher was stopped. *)
Theorem watch_replays_the_store objs w0 es os w1 e gvr i w2 es' os' w3 f :
  NewSimpleClientset objs = Ok w0 → traces es w0 = Some (os, w1) →
  watched e = Some gvr → steps e w1 = Some (Watching i, w2) → traces es' w2 = Some (os', w3) →
  tr_fakes (f_tracker w3) !! i = Some f → w_Stopped f = false →
  foldl apply_event (objectsOf (f_tracker w1) gvr) (w_sent f) = objectsOf (f_tracker w3) gvr.
Proof.
  intros Hn%NewSimpleClientset_holds Ht Hw Hs Ht' Hf Hst.
  destruct (trace_simulated _ _ _ _ _ Hn Ht) as (Hh & _ & _).
  destruct (fake_step_simulated _ _ _ _ _ Hh Hs) as (Hh2 & _ & _).
  destruct (trace_simulated _ _ _ _ _ Hh2 Ht') as (_ & Hk & _).
  apply (watch_starts _ _ _ _ _ Hw) in Hs. apply Hk in Hs as (_ & f' & Hf' & Hr). simplify_eq. by apply Hr.
Qed.
End Facts.

(** ** Witnesses

    Objects with a namespace, a name and labels; a JSON patch renames an object, and
    options are the value of the label "app" they select ("bad" does not parse). *)
Section FakeWitness.
Record demo := { d_Namespace : string; d_Name : string; d_Labels : gmap string string }.

#[local] Instance demo_meta : MetaObject demo := {|
  om_view d := {| mo_Name := d_Name d; mo_GenerateName := ""; mo_Namespace := d_Namespace d;
                  mo_ResourceVersion := "" |};
  om_SetNamespace ns d := {| d_Namespace := ns; d_Name := d_Name d; d_Labels := d_Labels d |};
  om_Labels := d_Labels;
  om_zero := {| d_Namespace := ""; d_Name := ""; d_Labels := ∅ |}
|}.

#[local] Instance demo_laws : MetaObjectLaws demo.
Proof. by intros []. Qed.

Definition named (name : string) : demo := {| d_Namespace := ""; d_Name := name; d_Labels := ∅ |}.

Definition demo_unmarshal (s : string) (ty : GoType) : result error (fakeObject demo demo) :=
  if decide (ty = policyType "ValidatingAdmissionPolicy") then Ok (FPolicy (named s))
  else if decide (ty = policyType "ValidatingAdmissionPolicyBinding") then Ok (FBinding (named s))
  else Err (ErrorString "unexpected type").

Definition demo_patches : PatchLibrary (Obj := fakeObject demo demo) :=
  {| pl_Marshal o := match o with FPolicy d | FBinding d => Ok (d_Name d) | _ => Ok "" end;
     pl_JSONPatch old patch := if decide (patch = "") then Ok old else Ok patch;
     pl_MergePatch old patch := Err (ErrorString "invalid merge patch");
     pl_StrategicMergePatch old patch ty := Err (ErrorString "invalid strategic merge patch");
     pl_Unmarshal := demo_unmarshal |}.

#[local] Instance demo_policy_patches : PatchLaws FakeValidatingAdmissionPolicies demo_patches.
Proof. intros x s o [= <-]. by eexists. Qed.
#[local] Instance demo_binding_patches : PatchLaws FakeValidatingAdmissionPolicyBindings demo_patches.
Proof. intros x s o [= <-]. by eexists. Qed.

#[local] Instance demo_options : ListOptions string :=
  {| lo_LabelSelector app := app; lo_FieldSelector _ := "" |}.

Definition demo_parse (app : string) : result string (gmap string string → bool) :=
  if decide (app = "bad") then Err "unable to parse"
  else Ok (λ labels, bool_decide (app = "" ∨ labels !! "app" = Some app)).

Abbreviation demo_event := (event (P := demo) (B := demo) (Opts := string)).
Abbreviation demo_trace := (trace demo_patches demo_parse demo_parse).

Definition web : demo := {| d_Namespace := ""; d_Name := "web"; d_Labels := {["app" := "web"]} |}.

Definition demo_objects : list (fakeObject demo demo) :=
  [FPolicyList (listWithItems [web; named "db"]); FBinding (named "b")].

Definition demo_start : Fake :=
  match NewSimpleClientset demo_objects with
  | Ok w => w
  | Err _ => {| f_actions := []; f_tracker := NewObjectTracker |}
  end.

Definition demo_calls : list demo_event :=
  [PolicyCall "" (CCreate (Some (named "app"))); PolicyCall "" (CList "web"); PolicyCall "" (CList "");
   PolicyCall "" (CPatch "db" "application/json-patch+json" "" []);
   PolicyCall "" (CUpdate (Some (named "new"))); BindingCall "" (CDelete "b");
   PolicyCall "" (CDeleteCollection ""); PolicyCall "" (CGet "app")].

Definition after (es : list demo_event) (w : Fake) : Fake := default w (snd <$> demo_trace es w).
Definition said (es : list demo_event) (w : Fake) : list output :=
  default [] (fst <$> demo_trace es w).

Lemma demo_started : NewSimpleClientset demo_objects = Ok demo_start.
Proof.
  assert (is_ok (NewSimpleClientset demo_objects) = true) as H by (vm_compute; reflexivity).
  unfold demo_start. by destruct (NewSimpleClientset demo_objects).
Qed.

Lemma trace_said es w :
  bool_decide (is_Some (demo_trace es w)) = true → demo_trace es w = Some (said es w, after es w).
Proof. intros [[os w'] H]%bool_decide_eq_true. unfold said, after. by rw H. Qed.

Lemma fake_clientset_refines_stores_witness :
  filter (λ o, is_answer o = true) (said demo_calls demo_start) =
  [PolicyAnswer (AObject (Ok (Some (named "app"))));
   PolicyAnswer (AList (Ok (Some (listWithItems [web]))));
   PolicyAnswer (AList (Ok (Some (listWithItems
                                    [named "app"; named "db"; web]))));
   PolicyAnswer (AObject (Ok (Some (named "db"))));
   PolicyAnswer (AObject (Err (notFound policies_gvr "new")));
   BindingAnswer (AUnit (Ok tt)); PolicyAnswer (AUnit (Ok tt));
   PolicyAnswer (AObject (Ok (Some (named "app"))))].
Proof.
  destruct (fake_clientset_refines_stores demo_patches demo_parse demo_parse demo_objects demo_start
              demo_calls (said demo_calls demo_start) (after demo_calls demo_start)) as [H _].
  - apply demo_started.
  - apply trace_said. vm_compute. reflexivity.
  - etransitivity; [exact H|]. vm_compute. reflexivity.
Defined.

(** A watcher that is never read: the hundred-and-first event panics. *)
Definition flood : list demo_event :=
  PolicyWatch "" :: replicate 100 (PolicyCall "" (CUpdate (Some web))).

Definition one_more : demo_event := PolicyCall "" (CUpdate (Some web)).

Lemma fakes_are_type_safe_witness :
  ∃ r w', perform demo_patches demo_parse demo_parse one_more (after flood demo_start) = Some (r, w') ∧
  r = Panic "channel full" ∧
  ∃ i f, tr_fakes (f_tracker w') !! i = Some f ∧ w_Stopped f = false ∧
         DefaultChanSize ≤ length (w_sent f) - w_received f.
Proof.
  destruct (perform demo_patches demo_parse demo_parse one_more (after flood demo_start))
    as [[r w']|] eqn:Hp.
  2: { exfalso. assert (is_Some (perform demo_patches demo_parse demo_parse one_more (after flood demo_start)))
         as [? H] by (apply (bool_decide_unpack _); vm_compute; reflexivity). congruence. }
  assert ((fst <$> perform demo_patches demo_parse demo_parse one_more (after flood demo_start))
          = Some (Panic "channel full")) as Hr by (vm_compute; reflexivity).
  rewrite Hp in Hr. injection Hr as ->. exists (Panic "channel full"), w'. split; [reflexivity|].
  destruct (fakes_are_type_safe demo_patches demo_parse demo_parse demo_objects demo_start flood
              (said flood demo_start) (after flood demo_start) one_more (Panic "channel full") w')
    as [[o Ho]|[(sel & msg & Hm & _)|Hf]].
  - apply demo_started.
  - apply trace_said. vm_compute. reflexivity.
  - exact Hp.
  - discriminate.
  - discriminate.
  - exact Hf.
Defined.

(** Two changes after the watch, one of another resource, one received. *)
Definition changes_after : list demo_event :=
  [PolicyCall "" (CDelete "web"); BindingCall "" (CDelete "b"); Receive 0;
   PolicyCall "" (CCreate (Some (named "app")))].

Abbreviation demo_step := (fake_step demo_patches demo_parse demo_parse).
Definition watching : Fake := default demo_start (snd <$> demo_step (PolicyWatch "") demo_start).

Lemma step_gives e w d o :
  fst <$> demo_step e w = Some o → demo_step e w = Some (o, default d (snd <$> demo_step e w)).
Proof. destruct (demo_step e w) as [[o' w']|]; [|done]. by intros [= ->]. Qed.
Definition changed : Fake := after changes_after watching.

Lemma watch_replays_the_store_witness :
  foldl apply_event (objectsOf (f_tracker demo_start) policies_gvr)
    [(Deleted, FPolicy web); (Added, FPolicy (named "app"))]
  = objectsOf (f_tracker changed) policies_gvr.
Proof.
  apply (watch_replays_the_store demo_patches demo_parse demo_parse demo_objects demo_start []
           [] demo_start (PolicyWatch "") policies_gvr 0 watching changes_after
           (said changes_after watching) changed
           {| w_sent := [(Deleted, FPolicy web); (Added, FPolicy (named "app"))];
              w_received := 1; w_Stopped := false |}).
  - apply demo_started.
  - reflexivity.
  - reflexivity.
  - apply step_gives. vm_compute. reflexivity.
  - apply trace_said. vm_compute. reflexivity.
  - vm_compute. reflexivity.
  - reflexivity.
Defined.
End FakeWitness.
