(* ===== verification/FakeWrapped.v ===== *)
(** * The wrapped clientset over the fake one

    [NewWrappedClient] takes any [versioned.Interface]; over the generated fake
    clientset of [FakeClientset] it serves native policies that are stored as custom
    resources in the object tracker.  Composes [InjectedClient] (conversions),
    [TransformedClient] (the converting client) and [FakeStore] (the tracker). *)
From S2P Require Import Prelude GoStrings ApiMachinery Scheme Admission TransformedClient Json ApiTypes.
From S2P Require Import InjectedClient RestClient ObjectTracker FakeClientset FakeStore FakeMachine.

Section Wrapped.
Context `{!MetaV1, !MetaV1Laws} {Opts Rest Others : Type} `{!ListOptions Opts}.

(** [metav1.ObjectMeta]'s accessors. *)
Context (view : ObjectMeta → ObjectMetaView) (SetNamespace : string → ObjectMeta → ObjectMeta).
Context (labels : ObjectMeta → gmap string string).
Hypothesis SetNamespace_same : ∀ m, SetNamespace (mo_Namespace (view m)) m = m.
(** Encoding and decoding metadata keeps the name. *)
Hypothesis reread_name : ∀ m, mo_Name (view (reread m)) = mo_Name (view m).

#[export] Instance policy_meta : MetaObject (ValidatingAdmissionPolicy CRD) := {|
  om_view p := view (p_ObjectMeta p);
  om_SetNamespace ns p :=
    {| p_TypeMeta := p_TypeMeta p; p_ObjectMeta := SetNamespace ns (p_ObjectMeta p);
       p_Spec := p_Spec p; p_Status := p_Status p |};
  om_Labels p := labels (p_ObjectMeta p);
  om_zero := {| p_TypeMeta := zero_TypeMeta; p_ObjectMeta := zero_ObjectMeta;
                p_Spec := zero; p_Status := zero |}
|}.

#[export] Instance binding_meta : MetaObject (ValidatingAdmissionPolicyBinding CRD) := {|
  om_view b := view (b_ObjectMeta b);
  om_SetNamespace ns b :=
    {| b_TypeMeta := b_TypeMeta b; b_ObjectMeta := SetNamespace ns (b_ObjectMeta b);
       b_Spec := b_Spec b |};
  om_Labels b := labels (b_ObjectMeta b);
  om_zero := {| b_TypeMeta := zero_TypeMeta; b_ObjectMeta := zero_ObjectMeta; b_Spec := zero |}
|}.

#[export] Instance policy_meta_laws : MetaObjectLaws (ValidatingAdmissionPolicy CRD).
Proof. intros [t m s st]. cbn. by rw SetNamespace_same. Qed.
#[export] Instance binding_meta_laws : MetaObjectLaws (ValidatingAdmissionPolicyBinding CRD).
Proof. intros [t m s]. cbn. by rw SetNamespace_same. Qed.

Abbreviation Obj :=
  (fakeObject (ValidatingAdmissionPolicy CRD) (ValidatingAdmissionPolicyBinding CRD)).
Context (lib : PatchLibrary (Obj := Obj)).
Context (parseLabels parseFields : string → result string (gmap string string → bool)).
Context (policyEvents : nat → list (Event (ValidatingAdmissionPolicy Native) (ValidatingAdmissionPolicy CRD))).
Context (bindingEvents : nat →
  list (Event (ValidatingAdmissionPolicyBinding Native) (ValidatingAdmissionPolicyBinding CRD))).
Context (rest : Rest) (others : Others).

(** The clientset [NewSimpleClientset] returns, as a [versioned.Interface]. *)
Definition fakeClientset : Clientset Opts (Fake (Obj := Obj)) Rest Others CRD :=
  {| AdmissionregistrationV1alpha1 :=
       {| RESTClient := rest;
          ValidatingAdmissionPolicies :=
            fakeClient FakeValidatingAdmissionPolicies (reactors lib) watchReactors
              parseLabels parseFields policyEvents true;
          ValidatingAdmissionPolicyBindings :=
            fakeClient FakeValidatingAdmissionPolicyBindings (reactors lib) watchReactors
              parseLabels parseFields bindingEvents false |};
     otherGroups := others |}.

Context (client : Clientset Opts (Fake (Obj := Obj)) Rest Others Native).

(** C27: a native policy created through the wrapped clientset over the fake one comes
    back with its spec, status and metadata as JSON normalises them, and can then be
    read by its name. *)
Theorem created_policy_is_served p j opts w n w1 :
  let policies :=
    ValidatingAdmissionPolicies (AdmissionregistrationV1alpha1 (NewWrappedClient client fakeClientset)) in
  marshalObjectMeta (p_ObjectMeta p) = Ok j →
  Create policies (Some p) opts w = (Done (Ok (Some n)), w1) →
  (p_Spec n = conv (p_Spec p) ∧ p_Status n = conv (p_Status p) ∧
   p_ObjectMeta n = reread (p_ObjectMeta p)) ∧
  ∀ gopts, ∃ w2,
    Get policies (mo_Name (view (p_ObjectMeta p))) gopts w1 = (Done (Ok (Some n)), w2).
Proof.
  intros policies Hj Hc.
  assert (p_Spec n = conv (p_Spec p) ∧ p_Status n = conv (p_Status p) ∧
          p_ObjectMeta n = reread (p_ObjectMeta p)) as Hn.
  { destruct (round_trip "admissionregistration.x-k8s.io/v1alpha1" "apiregistration.k8s.io/v1alpha1"
                p j) as [Hto Hfrom]; [done|done|].
    cbn in Hc. unfold tc_Create, write_through in Hc. unfold NativeToCRDPolicy at 1 in Hc.
    rw Hto in Hc. apply then_convert_Ok in Hc as (c & Hc & Hcn). destruct c as [c|]; [|done].
    destruct (create_stores FakeValidatingAdmissionPolicies scheme lib _ opts _ _ _ Hc) as [[= <-] _].
    unfold CRDToNativePolicy in Hcn. rw Hfrom in Hcn. by simplify_eq. }
  split; [done|]. intros gopts.
  assert (ReadYourWrites policies (λ n, mo_Name (view (p_ObjectMeta n)))) as Hryw.
  { apply (wrapped_reads_its_writes client fakeClientset (λ m, mo_Name (view m)) reread_name).
    exact (fake_ryw FakeValidatingAdmissionPolicies scheme lib watchReactors parseLabels parseFields
             policyEvents true). }
  destruct (Hryw _ _ _ _ _ Hc gopts) as [w2 Hg]. exists w2. rw -Hg.
  destruct Hn as (_ & _ & ->). by rw reread_name.
Qed.
End Wrapped.

(** ** Witness

    Metadata is a name, as in [InjectedClient]; the tracker starts empty. *)
Section FakeWrappedWitness.
Import InjectedWitness.

Definition name_view (name : @ObjectMeta InjectedWitness.demo_meta) : ObjectMetaView :=
  {| mo_Name := name; mo_GenerateName := ""; mo_Namespace := ""; mo_ResourceVersion := "" |}.
Definition keep_meta (ns : string) (m : @ObjectMeta InjectedWitness.demo_meta) := m.
Definition no_labels (m : @ObjectMeta InjectedWitness.demo_meta) : gmap string string := ∅.
#[local] Existing Instance policy_meta.
#[local] Existing Instance binding_meta.
Abbreviation FakeObject :=
  (fakeObject (ValidatingAdmissionPolicy CRD) (ValidatingAdmissionPolicyBinding CRD)).

Definition no_patches : PatchLibrary (Obj := FakeObject) :=
  {| pl_Marshal _ := Err (ErrorString "no patches");
     pl_JSONPatch _ _ := Err (ErrorString "no patches");
     pl_MergePatch _ _ := Err (ErrorString "no patches");
     pl_StrategicMergePatch _ _ _ := Err (ErrorString "no patches");
     pl_Unmarshal _ _ := Err (ErrorString "no patches") |}.
#[local] Instance no_options : ListOptions unit :=
  {| lo_LabelSelector _ := ""; lo_FieldSelector _ := "" |}.

Definition all_labels (selector : string) : result string (gmap string string → bool) := Ok (λ _, true).

Definition empty_fake : Fake (Obj := FakeObject) := {| f_actions := []; f_tracker := NewObjectTracker |}.

Definition unused_client {T E} : ClientInterface unit (Fake (Obj := FakeObject)) T E :=
  {| Create := λ _ _ w, (Panic "unused", w); Update := λ _ _ w, (Panic "unused", w);
     UpdateStatus := None; Delete := λ _ _ w, (Panic "unused", w);
     DeleteCollection := λ _ _ w, (Panic "unused", w); Get := λ _ _ w, (Panic "unused", w);
     List := λ _ w, (Panic "unused", w); Watch := λ _ w, (Panic "unused", w);
     Patch := λ _ _ _ _ _ w, (Panic "unused", w) |}.
Definition native_group : Clientset unit (Fake (Obj := FakeObject)) unit unit Native :=
  {| AdmissionregistrationV1alpha1 :=
       {| RESTClient := tt; ValidatingAdmissionPolicies := unused_client;
          ValidatingAdmissionPolicyBindings := unused_client |};
     otherGroups := tt |}.

Definition fake_group : Clientset unit (Fake (Obj := FakeObject)) unit unit CRD :=
  fakeClientset name_view keep_meta no_labels no_patches all_labels all_labels (λ _, []) (λ _, []) tt tt.

Abbreviation served :=
  (ValidatingAdmissionPolicies (AdmissionregistrationV1alpha1 (NewWrappedClient native_group fake_group))).

Definition sent_policy := demo_policy Native native_version "replicas".

Definition created {A W} (r : outcome (option A) * W) : bool :=
  match r.1 with Done (Ok (Some _)) => true | _ => false end.
Lemma created_inv {A W} (r : outcome (option A) * W) :
  created r = true → ∃ a w, r = (Done (Ok (Some a)), w).
Proof. destruct r as [[[[a|]|]|] w]; try done. eauto. Qed.

Lemma keeps_meta m : keep_meta (mo_Namespace (name_view m)) m = m.
Proof. reflexivity. Qed.
Lemma keeps_name m : mo_Name (name_view (reread m)) = mo_Name (name_view m).
Proof. reflexivity. Qed.

Lemma created_policy_is_served_witness :
  ∃ n w1 w2, Create served (Some sent_policy) tt empty_fake = (Done (Ok (Some n)), w1) ∧
    Get served "replicas" tt w1 = (Done (Ok (Some n)), w2) ∧
    ps_Validations (p_Spec n) = ps_Validations (demo_spec Native).
Proof.
  assert (created (Create served (Some sent_policy) tt empty_fake) = true) as Hok
    by (vm_compute; reflexivity).
  destruct (created_inv _ Hok) as (n & w1 & Hc).
  destruct (created_policy_is_served name_view keep_meta no_labels keeps_meta keeps_name
              no_patches all_labels all_labels (λ _, []) (λ _, []) tt tt native_group sent_policy
              (JObj [("name", JStr "replicas")]) tt empty_fake n w1) as [(Hs & _) Hg].
  - reflexivity.
  - exact Hc.
  - destruct (Hg tt) as [w2 Hw2]. exists n, w1, w2. split; [exact Hc|].
    split; [exact Hw2|]. rewrite Hs. reflexivity.
Defined.
End FakeWrappedWitness.
