(* ===== verification/DeltaFIFO.v ===== *)
(** * The informer's queue of changes

    [k8s.io/client-go/tools/cache]: [delta_fifo.go], between the reflector, which
    adds what it lists and watches, and [processDeltas] of [controller.go], which
    applies it to the informer's store and tells the handlers ([Controller] has what
    those do).  Every method holds the queue's lock, so a method is one step.  The
    informers of this program set no transformer and ask for [Replaced] deltas. *)
From S2P Require Import Prelude GoStrings ApiMachinery Admission Controller.

Section DeltaFIFO.
Context {T : Type} `{MetaAccessor T}.
Implicit Types (obj : T) (store : gmap string T) (k : string).

(** ** Deltas *)

Inductive DeltaType := DAdded | DUpdated | DReplaced | DSync.

(** [Delta]: an object in a state, or its deletion, whose object can be a
    tombstone. *)
Inductive Delta :=
| Changed (ty : DeltaType) (obj : T)
| Removed (o : handlerObject T).
Implicit Types (d : Delta) (ds : list Delta).

Definition d_Object d : handlerObject T :=
  match d with Changed _ obj => Object obj | Removed o => o end.

(** [KeyError], whose text also shows the object. *)
Definition KeyError (err : error) : error := WrapError "couldn't create key for object" err.

(** [KeyOf], and [DeletionHandlingMetaNamespaceKeyFunc] of the store. *)
Definition KeyOf (o : handlerObject T) : result error string :=
  match o with
  | DeletedFinalStateUnknown key _ => Ok key
  | Object _ => MetaNamespaceKeyFunc o
  end.

(** Of the newest two deltas [a] and [b], the one to keep if both are deletions. *)
Definition isDeletionDup (a b : Delta) : option Delta :=
  match a, b with
  | Removed _, Removed (DeletedFinalStateUnknown _ _) => Some a
  | Removed _, Removed (Object _) => Some b
  | _, _ => None
  end.

Definition dedupDeltas ds : list Delta :=
  match reverse ds with
  | a :: b :: older =>
      match isDeletionDup a b with
      | Some out => reverse older ++ [out]
      | None => ds
      end
  | _ => ds
  end.

(** ** The queue *)

Record fifo := {
  df_items : gmap string (list Delta);
  df_queue : list string;
  df_populated : bool;
  df_initialPopulationCount : Z;
  df_closed : bool;
}.
Implicit Types f : fifo.

Definition NewDeltaFIFO : fifo :=
  {| df_items := ∅; df_queue := []; df_populated := false; df_initialPopulationCount := 0;
     df_closed := false |}.

Definition with_items (items : gmap string (list Delta)) (queue : list string) f : fifo :=
  {| df_items := items; df_queue := queue; df_populated := df_populated f;
     df_initialPopulationCount := df_initialPopulationCount f; df_closed := df_closed f |}.
Definition populate (count : Z) f : fifo :=
  {| df_items := df_items f; df_queue := df_queue f; df_populated := true;
     df_initialPopulationCount := count; df_closed := df_closed f |}.
Definition with_populated f : fifo := populate (df_initialPopulationCount f) f.

Definition df_Close f : fifo :=
  {| df_items := df_items f; df_queue := df_queue f; df_populated := df_populated f;
     df_initialPopulationCount := df_initialPopulationCount f; df_closed := true |}.

Definition df_HasSynced f : bool := df_populated f && (df_initialPopulationCount f =? 0)%Z.

(** A method that fails may have changed the queue before. *)
Definition andThen (r : option error * fifo) (g : fifo → option error * fifo) : option error * fifo :=
  match r with (None, f) => g f | (Some err, f) => (Some err, f) end.

(** [dedupDeltas] never gives an empty list for a non-empty one. *)
Definition queueActionLocked d f : option error * fifo :=
  match KeyOf (d_Object d) with
  | Err err => (Some (KeyError err), f)
  | Ok id =>
      let oldDeltas := df_items f !! id in
      let newDeltas := dedupDeltas (default [] oldDeltas ++ [d]) in
      let queue := match oldDeltas with Some _ => df_queue f | None => df_queue f ++ [id] end in
      (None, with_items (<[id := newDeltas]> (df_items f)) queue f)
  end.

Definition df_Add obj f : option error * fifo :=
  queueActionLocked (Changed DAdded obj) (with_populated f).
Definition df_Update obj f : option error * fifo :=
  queueActionLocked (Changed DUpdated obj) (with_populated f).

(** [store] is [knownObjects]. *)
Definition df_Delete store (o : handlerObject T) f : option error * fifo :=
  match KeyOf o with
  | Err err => (Some (KeyError err), f)
  | Ok id =>
      let f := with_populated f in
      if bool_decide (store !! id = None) && bool_decide (df_items f !! id = None) then (None, f)
      else queueActionLocked (Removed o) f
  end.

(** The newest object queued under a key. *)
Definition newestObject ds : option T :=
  match last ds with
  | Some d => match d_Object d with
              | Object obj => Some obj
              | DeletedFinalStateUnknown _ obj => obj
              end
  | None => None
  end.

(** A loop of queued actions that stops at the first error. *)
Fixpoint queueAll ds f : option error * fifo :=
  match ds with
  | [] => (None, f)
  | d :: ds => andThen (queueActionLocked d f) (queueAll ds)
  end.

(** The keys of a list, and the deletions [Replace] detects with them: of what is
    queued and of what is known. *)
Definition keysOf (objs : list T) : list string :=
  omap (λ obj, match KeyOf (Object obj) with Ok k => Some k | Err _ => None end) objs.
Definition queuedMissing (keys : list string) f : list Delta :=
  (λ kd : string * list Delta, Removed (DeletedFinalStateUnknown kd.1 (newestObject kd.2)))
    <$> filter (λ kd, kd.1 ∉ keys) (map_to_list (df_items f)).
Definition knownMissing (keys : list string) store f : list Delta :=
  (λ ko : string * T, Removed (DeletedFinalStateUnknown ko.1 (Some ko.2)))
    <$> filter (λ ko, (ko.1 ∉ keys) ∧ df_items f !! (ko.1) = None) (map_to_list store).

Definition df_Replace store (objs : list T) f : option error * fifo :=
  let keys := keysOf objs in
  andThen (queueAll (Changed DReplaced <$> objs) f) (λ f,
    let queued := queuedMissing keys f in
    andThen (queueAll queued f) (λ f,
      let known := knownMissing keys store f in
      andThen (queueAll known f) (λ f,
        let count := length (remove_dups keys) + length queued + length known in
        (None, if df_populated f then f else populate (Z.of_nat count) f)))).

(** [Resync]: every known object that has nothing queued. *)
Fixpoint resyncKeys (known : list (string * T)) f : option error * fifo :=
  match known with
  | [] => (None, f)
  | (_, obj) :: known =>
      match KeyOf (Object obj) with
      | Err err => (Some (KeyError err), f)
      | Ok id =>
          if bool_decide (is_Some (df_items f !! id)) then resyncKeys known f
          else andThen (queueActionLocked (Changed DSync obj) f) (resyncKeys known)
      end
  end.
Definition df_Resync store f : option error * fifo := resyncKeys (map_to_list store) f.

(** [Pop] up to the call of its argument: [None] waits; [Some None] is
    [ErrFIFOClosed].  A key without items would be skipped. *)
Fixpoint popFrom (queue : list string) (count : Z) f : option (option (list Delta * fifo)) :=
  match queue with
  | [] => if df_closed f then Some None else None
  | id :: queue =>
      let count := (if (0 <? count)%Z then count - 1 else count)%Z in
      match df_items f !! id with
      | None => popFrom queue count f
      | Some item =>
          Some (Some (item, {| df_items := delete id (df_items f); df_queue := queue;
                               df_populated := df_populated f; df_initialPopulationCount := count;
                               df_closed := df_closed f |}))
      end
  end.
Definition df_Pop f : option (option (list Delta * fifo)) :=
  popFrom (df_queue f) (df_initialPopulationCount f) f.

(** ** processDeltas

    The store, and what the handlers are told; an error leaves the rest of the
    deltas unapplied. *)
Fixpoint processDeltas ds (st : gmap string T * list (notification T)) :
    option error * (gmap string T * list (notification T)) :=
  match ds with
  | [] => (None, st)
  | Changed _ obj :: ds =>
      match KeyOf (Object obj) with
      | Err err => (Some (KeyError err), st)
      | Ok key =>
          let n := match st.1 !! key with Some old => NUpdate old obj | None => NAdd obj end in
          processDeltas ds (<[key := obj]> st.1, st.2 ++ [n])
      end
  | Removed o :: ds =>
      match KeyOf o with
      | Err err => (Some (KeyError err), st)
      | Ok key => processDeltas ds (delete key st.1, st.2 ++ [NDelete o])
      end
  end.

(** ** What the queue stands for

    The store as it will be once everything queued is processed. *)

Definition delta_result d : option T :=
  match d with Changed _ obj => Some obj | Removed _ => None end.
Definition delta_apply (cur : option T) ds : option T := foldl (λ _ d, delta_result d) cur ds.

Definition view f store : gmap string T :=
  merge (λ (queued : option (list Delta)) cur, delta_apply cur (default [] queued)) (df_items f) store.

(** Deltas the queue can hold under key [k] for a stored object [cur]: deletions are
    of present objects, and a tombstone carries the object it deletes. *)
Fixpoint deltas_ok k (cur : option T) ds : Prop :=
  match ds with
  | [] => True
  | Changed _ obj :: ds => KeyOf (Object obj) = Ok k ∧ deltas_ok k (Some obj) ds
  | Removed o :: ds =>
      is_Some cur ∧ KeyOf o = Ok k ∧
      match o with DeletedFinalStateUnknown _ obj => obj = cur | Object _ => True end ∧
      deltas_ok k None ds
  end.

Record df_wf store f : Prop := {
  wf_nodup : NoDup (df_queue f);
  wf_queue k : k ∈ df_queue f ↔ is_Some (df_items f !! k);
  wf_items k ds : df_items f !! k = Some ds → ds ≠ [] ∧ deltas_ok k (store !! k) ds;
  wf_store k obj : store !! k = Some obj → KeyOf (Object obj) = Ok k;
  wf_count : (0 ≤ df_initialPopulationCount f ≤ Z.of_nat (length (df_queue f)))%Z;
}.

(** A deletion the queue accepts under [k]. *)
Definition removal_ok k store f (o : handlerObject T) : Prop :=
  (is_Some (df_items f !! k) ∨ is_Some (store !! k)) ∧
  match o with
  | DeletedFinalStateUnknown _ obj =>
      obj = match df_items f !! k with Some ds => newestObject ds | None => store !! k end
  | Object _ => True
  end.

Lemma delta_apply_app cur ds1 ds2 : delta_apply cur (ds1 ++ ds2) = delta_apply (delta_apply cur ds1) ds2.
Proof. apply foldl_app. Qed.

Lemma deltas_ok_app k cur ds1 ds2 :
  deltas_ok k cur (ds1 ++ ds2) ↔ deltas_ok k cur ds1 ∧ deltas_ok k (delta_apply cur ds1) ds2.
Proof.
  revert cur. induction ds1 as [|[ty obj|o] ds1 IH]; intros cur; simpl; [naive_solver|..]; rw IH; tauto.
Qed.

Lemma lookup_view f store k : view f store !! k = delta_apply (store !! k) (default [] (df_items f !! k)).
Proof. unfold view. rw lookup_merge. by destruct (df_items f !! k), (store !! k). Qed.

Lemma dedup_snoc ds b d :
  dedupDeltas (ds ++ [b] ++ [d]) = ds ++ match isDeletionDup d b with Some out => [out] | None => [b; d] end.
Proof.
  unfold dedupDeltas. rw assoc_L reverse_snoc reverse_snoc.
  destruct (isDeletionDup d b); [by rw reverse_involutive|by rw -assoc_L].
Qed.

(** Adding a delta keeps a key's deltas in order and has the delta's effect. *)
Lemma dedup_ok k cur ds d :
  deltas_ok k cur ds → KeyOf (d_Object d) = Ok k →
  match d with
  | Changed _ _ => True
  | Removed o => (ds ≠ [] ∨ is_Some cur) ∧
      match o with
      | DeletedFinalStateUnknown _ obj =>
          obj = match ds with [] => cur | _ => newestObject ds end
      | Object _ => True
      end
  end →
  dedupDeltas (ds ++ [d]) ≠ [] ∧ deltas_ok k cur (dedupDeltas (ds ++ [d])) ∧
  delta_apply cur (dedupDeltas (ds ++ [d])) = delta_result d.
Proof.
  intros Hok Hk Hd. destruct ds as [|b ds _] using rev_ind.
  { destruct d as [ty obj|o]; simpl in *; [done|]. destruct Hd as [[|Hc] Ho]; [done|].
    split_and!; try done. }
  rw -assoc_L dedup_snoc. apply deltas_ok_app in Hok as [Hok1 Hok2].
  assert (newestObject (ds ++ [b]) = match d_Object b with
            | Object obj => Some obj | DeletedFinalStateUnknown _ obj => obj end) as Hn
    by (unfold newestObject; by rw last_snoc).
  destruct d as [ty obj|o].
  - assert (isDeletionDup (Changed ty obj) b = None) as -> by done.
    split; [by destruct ds|]. rw deltas_ok_app !delta_apply_app. split; [|by destruct b].
    split; [done|]. destruct b; simpl in *; tauto.
  - destruct Hd as [_ Ho].
    assert (match o with DeletedFinalStateUnknown _ obj => obj = newestObject (ds ++ [b])
                       | Object _ => True end) as Ho' by (destruct o; [done|]; by destruct ds).
    clear Ho. rw Hn in Ho'. destruct b as [ty obj|o']; simpl.
    + split; [by destruct ds|]. rw deltas_ok_app !delta_apply_app. split; [|done]. split; [done|].
      simpl in *. split_and!; [tauto|by eexists|done|done|done].
    + destruct Hok2 as (Hc & Hk' & Ht & _). destruct o' as [obj'|k' obj']; simpl in *.
      * split; [by destruct ds|]. by rw deltas_ok_app !delta_apply_app /=.
      * split; [by destruct ds|]. rw deltas_ok_app !delta_apply_app. split; [|done]. split; [done|].
        simpl. split_and!; [done|done| |done]. destruct o; [done|]. by subst.
Qed.

(** The queue after a queued action under [k]. *)
Record queued_action store f f' k (v : option T) : Prop := {
  qa_wf : df_wf store f';
  qa_view : view f' store = partial_alter (λ _, v) k (view f store);
  qa_queue : df_queue f' = if decide (k ∈ df_queue f) then df_queue f else df_queue f ++ [k];
  qa_items k' : k' ≠ k → df_items f' !! k' = df_items f !! k';
  qa_populated : df_populated f' = df_populated f;
  qa_count : df_initialPopulationCount f' = df_initialPopulationCount f;
}.

Lemma queueAction_ok store f d k :
  df_wf store f → KeyOf (d_Object d) = Ok k →
  match d with Changed _ _ => True | Removed o => removal_ok k store f o end →
  ∃ f', queueActionLocked d f = (None, f') ∧ queued_action store f f' k (delta_result d).
Proof.
  intros Hwf Hk Hd. unfold queueActionLocked. rw Hk. eexists. split; [done|].
  set (ds := default [] (df_items f !! k)).
  assert (deltas_ok k (store !! k) ds) as Hok.
  { unfold ds. destruct (df_items f !! k) eqn:Hi; [|done]. by apply (wf_items _ _ Hwf). }
  destruct (dedup_ok k (store !! k) ds d Hok Hk) as (Hne & Hok' & Heff).
  { destruct d as [|o]; [done|]. destruct Hd as [Hp Ho]. unfold ds.
    destruct (df_items f !! k) as [ds'|] eqn:Hi; simpl.
    - pose proof (wf_items _ _ Hwf _ _ Hi) as [Hne _]. split; [by left|]. destruct o; [done|]. by destruct ds'.
    - split; [|done]. right. by destruct Hp as [[]|]. }
  assert (k ∈ df_queue f ↔ is_Some (df_items f !! k)) as Hin by apply Hwf.
  split; simpl.
  - split; simpl.
    + destruct (df_items f !! k) eqn:Hi; [apply Hwf|]. apply NoDup_app. split_and!; [apply Hwf| |].
      * intros x Hx ->%list_elem_of_singleton. by apply Hin in Hx as [].
      * apply NoDup_singleton.
    + intros k'. rw lookup_insert. case_decide as Heq; [subst k'|].
      * split; [by eexists|]. intros _. destruct (df_items f !! k) eqn:Hi; [by apply Hin|].
        apply elem_of_app. right. by apply list_elem_of_singleton.
      * rw -(wf_queue _ _ Hwf). destruct (df_items f !! k); [done|]. rw elem_of_app list_elem_of_singleton.
        split; [by intros [|]|by left].
    + intros k' ds'. rw lookup_insert. case_decide as Heq; [|apply Hwf]. subst k'. by intros [= <-].
    + apply Hwf.
    + pose proof (wf_count _ _ Hwf). destruct (df_items f !! k); [done|]. rw length_app. simpl. lia.
  - apply map_eq. intros k'. rw lookup_view. simpl. rw lookup_insert.
    case_decide as Heq.
    + subst k'. rw lookup_partial_alter_eq. exact Heff.
    + rw lookup_partial_alter_ne //. by rw lookup_view.
  - destruct (df_items f !! k) eqn:Hi; case_decide as Hq; try done.
    + destruct Hq. by apply Hin.
    + by apply Hin in Hq as [].
  - intros k' Hk'. by rw lookup_insert_ne.
  - done.
  - done.
Qed.

Lemma wf_with_populated store f : df_wf store f → df_wf store (with_populated f).
Proof. by intros []. Qed.

(** [Add], [Update] and [Delete] of an object: the queue comes to stand for the store
    with the object put, or deleted. *)
Lemma df_Add_ok store f obj k :
  df_wf store f → KeyOf (Object obj) = Ok k →
  ∃ f', df_Add obj f = (None, f') ∧ queued_action store (with_populated f) f' k (Some obj).
Proof. intros Hwf Hk. by apply queueAction_ok; [apply wf_with_populated| |]. Qed.

Lemma df_Update_ok store f obj k :
  df_wf store f → KeyOf (Object obj) = Ok k →
  ∃ f', df_Update obj f = (None, f') ∧ queued_action store (with_populated f) f' k (Some obj).
Proof. intros Hwf Hk. by apply queueAction_ok; [apply wf_with_populated| |]. Qed.

Lemma df_Delete_ok store f obj k :
  df_wf store f → KeyOf (Object obj) = Ok k →
  ∃ f', df_Delete store (Object obj) f = (None, f') ∧ df_wf store f' ∧
    view f' store = delete k (view f store) ∧ df_populated f' = true ∧
    df_initialPopulationCount f' = df_initialPopulationCount f ∧ df_queue f `prefix_of` df_queue f'.
Proof.
  intros Hwf Hk. unfold df_Delete. rw Hk. simpl.
  destruct (bool_decide (store !! k = None) && bool_decide (df_items f !! k = None)) eqn:Hb.
  - apply andb_true_iff in Hb as [Hs%bool_decide_eq_true Hi%bool_decide_eq_true].
    eexists. split; [done|]. split; [by apply wf_with_populated|]. split_and!; try done.
    rw delete_id; [|done]. rw lookup_view. by rw Hi Hs.
  - destruct (queueAction_ok store (with_populated f) (Removed (Object obj)) k) as (f' & -> & [H1 H2 H3 _ H4 H5]);
      [by apply wf_with_populated|done| |].
    { split; [|done]. simpl. destruct (df_items f !! k); [left; by eexists|].
      right. destruct (store !! k); [by eexists|done]. }
    exists f'. split_and!; try done. simpl in H3. destruct (decide _); rw H3;
      [reflexivity|by apply prefix_app_r].
Qed.

(** A loop of queued actions under distinct keys. *)
Record queued_actions store f f' (kds : list (string * Delta)) : Prop := {
  qs_wf : df_wf store f';
  qs_view k : view f' store !! k =
    match (list_to_map kds : gmap string Delta) !! k with
    | Some d => delta_result d
    | None => view f store !! k
    end;
  qs_queue : df_queue f' = df_queue f ++ filter (λ k, k ∉ df_queue f) kds.*1;
  qs_items k : k ∉ kds.*1 → df_items f' !! k = df_items f !! k;
  qs_populated : df_populated f' = df_populated f;
  qs_count : df_initialPopulationCount f' = df_initialPopulationCount f;
}.

Definition acceptable store f k d : Prop :=
  KeyOf (d_Object d) = Ok k ∧ match d with Changed _ _ => True | Removed o => removal_ok k store f o end.

Lemma queueAll_ok store f kds :
  df_wf store f → NoDup kds.*1 → (∀ k d, (k, d) ∈ kds → acceptable store f k d) →
  ∃ f', queueAll kds.*2 f = (None, f') ∧ queued_actions store f f' kds.
Proof.
  revert f. induction kds as [|[k d] kds IH]; intros f Hwf Hnd Hds.
  { exists f. split; [done|]. split; try done. by rw /= right_id_L. }
  cbn [fmap list_fmap fst] in Hnd. apply NoDup_cons in Hnd as [Hnk Hnd].
  destruct (Hds k d) as [Hk Hd]; [by left|].
  destruct (queueAction_ok store f d k Hwf Hk Hd) as (f1 & Hq1 & [Hwf1 Hv1 Hqu1 Hi1 Hp1 Hc1]).
  destruct (IH f1 Hwf1 Hnd) as (f' & Hq & [Hwf' Hv Hqu Hi Hp Hc]).
  { intros k' d' Hin. destruct (Hds k' d') as [Hk' Hd']; [by right|]. split; [done|].
    assert (k' ≠ k) as Hne. { intros ->. apply Hnk. by apply (list_elem_of_fmap_2 fst _ (k, d')). }
    destruct d'; [done|]. unfold removal_ok in *. by rw Hi1. }
  assert (∀ k', k' ∈ kds.*1 → k' ≠ k) as Hother by (by intros k' Hin ->).
  exists f'. simpl. rw Hq1 /=. split; [done|]. split; [done|..].
  - intros k'. rw Hv Hv1. destruct (decide (k' = k)) as [->|Hne]; simpl.
    + rw lookup_insert_eq not_elem_of_list_to_map_1 //. by rw lookup_partial_alter_eq.
    + rw lookup_insert_ne // lookup_partial_alter_ne //.
  - rw Hqu Hqu1 /= filter_cons. case_decide as Hin.
    + rw decide_False; [by intros []|]. done.
    + rw decide_True // -assoc_L /=. do 2 f_equal. apply filter_ext_in.
      intros k' Hk'. rw elem_of_app list_elem_of_singleton. pose proof (Hother k' Hk'). tauto.
  - intros k' [Hne Hin]%not_elem_of_cons. by rw Hi // Hi1.
  - by rw Hp.
  - by rw Hc.
Qed.

Lemma keysOf_ok objs keys :
  Forall2 (λ obj k, KeyOf (Object obj) = Ok k) objs keys → keysOf objs = keys.
Proof.
  induction 1 as [|obj k objs keys Hk _ IH]; [done|].
  unfold keysOf in *. cbn [omap list_omap]. by rw Hk IH.
Qed.

Lemma zip_keyed objs keys k obj :
  Forall2 (λ obj k, KeyOf (Object obj) = Ok k) objs keys →
  (k, obj) ∈ zip keys objs → KeyOf (Object obj) = Ok k.
Proof.
  induction 1; simpl; [by intros ?%elem_of_nil|]. intros [[= -> ->]|Hin]%elem_of_cons; auto.
Qed.

Lemma queueAll_changed store f objs keys :
  df_wf store f → NoDup keys → Forall2 (λ obj k, KeyOf (Object obj) = Ok k) objs keys →
  ∃ f', queueAll (Changed DReplaced <$> objs) f = (None, f') ∧
    queued_actions store f f' (prod_map id (Changed DReplaced) <$> zip keys objs).
Proof.
  intros Hwf Hnd Hk. pose proof (Forall2_length _ _ _ Hk) as Hlen.
  destruct (queueAll_ok store f (prod_map id (Changed DReplaced) <$> zip keys objs)) as (f' & Hq & Hqa).
  - done.
  - rw -list_fmap_compose. assert (fst ∘ prod_map id (Changed DReplaced) = @fst string T) as -> by done.
    rw fst_zip; [lia|done].
  - intros k d ([k' obj] & [= -> ->] & Hin)%list_elem_of_fmap. split; [|done]. by eapply zip_keyed.
  - exists f'. split; [|done]. rw -Hq -list_fmap_compose. f_equal.
    assert (snd ∘ prod_map id (Changed DReplaced) = Changed DReplaced ∘ @snd string T) as -> by done.
    rw list_fmap_compose snd_zip; [lia|done].
Qed.

Lemma queueAll_tombstones {A} store f (g : A → option T) (l : list (string * A)) :
  df_wf store f → NoDup l.*1 →
  (∀ k a, (k, a) ∈ l → removal_ok k store f (DeletedFinalStateUnknown k (g a))) →
  ∃ f', queueAll ((λ ka, Removed (DeletedFinalStateUnknown ka.1 (g ka.2))) <$> l) f = (None, f') ∧
    queued_actions store f f' ((λ ka, (ka.1, Removed (DeletedFinalStateUnknown ka.1 (g ka.2)))) <$> l).
Proof.
  intros Hwf Hnd Hok.
  destruct (queueAll_ok store f ((λ ka, (ka.1, Removed (DeletedFinalStateUnknown ka.1 (g ka.2)))) <$> l))
    as (f' & Hq & Hqa); [done|by rw -list_fmap_compose| |].
  - intros k d ([k' a] & [= -> ->] & Hin)%list_elem_of_fmap. split; [done|]. by apply Hok.
  - exists f'. split; [|done]. by rw -Hq -list_fmap_compose.
Qed.

Lemma NoDup_filtered {A} (m : gmap string A) (P : string * A → Prop) `{∀ x, Decision (P x)} :
  NoDup (filter P (map_to_list m)).*1.
Proof. eapply sublist_NoDup; [apply (NoDup_fst_map_to_list m)|]. apply fmap_sublist, sublist_filter. Qed.

(** What a loop over tombstones leaves. *)
Lemma tombstones_view {A} store f f' (g : A → option T) (l : list (string * A)) k :
  queued_actions store f f' ((λ ka, (ka.1, Removed (DeletedFinalStateUnknown ka.1 (g ka.2)))) <$> l) →
  view f' store !! k = if decide (k ∈ l.*1) then None else view f store !! k.
Proof.
  intros Hqa. rw (qs_view _ _ _ _ Hqa). case_decide as Hin.
  - destruct (list_to_map _ !! k) as [d|] eqn:Hl.
    + by apply elem_of_list_to_map_2, list_elem_of_fmap in Hl as ([k' a] & [= -> ->] & _).
    + apply not_elem_of_list_to_map_2 in Hl. destruct Hl. by rw -list_fmap_compose.
  - rw not_elem_of_list_to_map_1 //. by rw -list_fmap_compose.
Qed.

(** Nothing is queued yet: the tombstones of the first list. *)
Lemma first_list_count store f f1 f2 f3 objs keys
    (l1 := filter (λ kd, kd.1 ∉ keys) (map_to_list (df_items f1)))
    (l2 := filter (λ ko, (ko.1 ∉ keys) ∧ df_items f2 !! (ko.1) = None) (map_to_list store)) :
  df_queue f = [] → NoDup keys → length keys = length objs →
  queued_actions store f f1 (prod_map id (Changed DReplaced) <$> zip keys objs) →
  queued_actions store f1 f2
    ((λ ka, (ka.1, Removed (DeletedFinalStateUnknown ka.1 (newestObject ka.2)))) <$> l1) →
  queued_actions store f2 f3
    ((λ ka, (ka.1, Removed (DeletedFinalStateUnknown ka.1 (Some ka.2)))) <$> l2) →
  length (df_queue f3) = length (remove_dups keys) + length l1 + length l2.
Proof.
  intros Hq Hnd Hlen H1 H2 H3.
  assert (df_queue f1 = keys) as Hq1.
  { rw (qs_queue _ _ _ _ H1) Hq app_nil_l -list_fmap_compose.
    assert (fst ∘ prod_map id (Changed DReplaced) = @fst string T) as -> by done.
    rw filter_all; [intros k _; apply not_elem_of_nil|]. apply fst_zip. lia. }
  assert (l1 = []) as Hl1.
  { apply filter_none. intros [k ds] Hin%elem_of_map_to_list Hk. apply Hk. simpl.
    rw -Hq1. apply (qs_wf _ _ _ _ H1). by eexists. }
  rw Hl1 in H2 *. pose proof (qs_queue _ _ _ _ H2) as Hq2. rw /= right_id_L Hq1 in Hq2.
  rw (qs_queue _ _ _ _ H3) Hq2 -list_fmap_compose length_app.
  assert (length (remove_dups keys) = length keys) as ->.
  { apply Permutation_length, NoDup_Permutation; [apply NoDup_remove_dups|done|].
    intros k. apply elem_of_remove_dups. }
  rw filter_all; [|rw length_fmap /=; lia].
  by intros k ([k' obj] & -> & [[Hk _] _]%list_elem_of_filter)%list_elem_of_fmap.
Qed.

Lemma elem_filtered {A} (m : gmap string A) (P : string * A → Prop) `{∀ x, Decision (P x)} k :
  k ∈ (filter P (map_to_list m)).*1 ↔ ∃ a, m !! k = Some a ∧ P (k, a).
Proof.
  rw list_elem_of_fmap. split.
  - intros ([k' a] & -> & [HP Hin%elem_of_map_to_list]%list_elem_of_filter). by exists a.
  - intros (a & Hin & HP). exists (k, a). split; [done|]. apply list_elem_of_filter. split; [done|].
    by apply elem_of_map_to_list.
Qed.

(** The loops of [Replace] leave exactly the listed objects. *)
Lemma replaced_view store f f1 f2 f3 objs keys
    (l1 := filter (λ kd, kd.1 ∉ keys) (map_to_list (df_items f1)))
    (l2 := filter (λ ko, (ko.1 ∉ keys) ∧ df_items f2 !! (ko.1) = None) (map_to_list store)) :
  length objs = length keys →
  queued_actions store f f1 (prod_map id (Changed DReplaced) <$> zip keys objs) →
  queued_actions store f1 f2
    ((λ ka, (ka.1, Removed (DeletedFinalStateUnknown ka.1 (newestObject ka.2)))) <$> l1) →
  queued_actions store f2 f3
    ((λ ka, (ka.1, Removed (DeletedFinalStateUnknown ka.1 (Some ka.2)))) <$> l2) →
  view f3 store = list_to_map (zip keys objs).
Proof.
  intros Hlen Hqa1 Hqa2 Hqa3. unfold l1, l2 in *. clear l1 l2.
  apply map_eq. intros k. rw (tombstones_view _ _ _ _ _ _ Hqa3) (tombstones_view _ _ _ _ _ _ Hqa2).
  rw (qs_view _ _ _ _ Hqa1) list_to_map_fmap lookup_fmap.
  assert (is_Some ((list_to_map (zip keys objs) : gmap string T) !! k) ↔ k ∈ keys) as Hkeys.
  { rw -{2}(fst_zip keys objs); [lia|]. rw -not_eq_None_Some. rw -not_elem_of_list_to_map.
    destruct (decide (k ∈ (zip keys objs).*1)); tauto. }
  destruct (decide (k ∈ keys)) as [Hin|Hout].
  - rw !decide_False; [by intros (? & _ & ? & _)%elem_filtered|by intros (? & _ & ?)%elem_filtered|].
    apply Hkeys in Hin as [obj ->]. done.
  - assert ((list_to_map (zip keys objs) : gmap string T) !! k = None) as Hz
      by (apply eq_None_not_Some; tauto).
    rw Hz /=. case_decide as H1; [done|]. case_decide as H2; [done|].
    rw elem_filtered in H1. rw elem_filtered in H2.
    assert (df_items f1 !! k = None) as Hi1 by (apply eq_None_ne_Some; intros ds Hds; apply H2; by exists ds).
    assert (df_items f2 !! k = None) as Hi2.
    { rw (qs_items _ _ _ _ Hqa2) // -list_fmap_compose. intros Hin%(elem_filtered (df_items f1)). by apply H2. }
    assert (store !! k = None) as Hs by (apply eq_None_ne_Some; intros o Ho; apply H1; by exists o).
    rw (qs_items _ _ _ _ Hqa1) in Hi1; [|by rw lookup_view Hs Hi1].
    rw -list_fmap_compose. assert (fst ∘ prod_map id (Changed DReplaced) = @fst string T) as -> by done.
    by rw fst_zip; [lia|].
Qed.

(** [Replace]: the queue comes to stand for exactly the listed objects; the first one
    is the initial population. *)
Lemma df_Replace_ok store f objs keys :
  df_wf store f → (df_populated f = false → df_queue f = []) →
  NoDup keys → Forall2 (λ obj k, KeyOf (Object obj) = Ok k) objs keys →
  ∃ f', df_Replace store objs f = (None, f') ∧ df_wf store f' ∧
    view f' store = list_to_map (zip keys objs) ∧ df_populated f' = true ∧
    df_queue f `prefix_of` df_queue f' ∧
    if df_populated f then df_initialPopulationCount f' = df_initialPopulationCount f
    else df_initialPopulationCount f' = Z.of_nat (length (df_queue f')).
Proof.
  intros Hwf Hpop Hnd Hk. unfold df_Replace. rw (keysOf_ok _ _ Hk).
  destruct (queueAll_changed store f objs keys Hwf Hnd Hk) as (f1 & -> & Hqa1). cbn [andThen].
  pose proof (qs_wf _ _ _ _ Hqa1) as Hwf1.
  destruct (queueAll_tombstones store f1 newestObject (filter (λ kd, kd.1 ∉ keys) (map_to_list (df_items f1))))
    as (f2 & Hq2 & Hqa2); [done|apply NoDup_filtered| |].
  { intros k ds [_ Hin%elem_of_map_to_list]%list_elem_of_filter. split; [left; by eexists|]. by rw Hin. }
  pose proof (qs_wf _ _ _ _ Hqa2) as Hwf2. unfold queuedMissing at 1. rw Hq2. cbn [andThen].
  destruct (queueAll_tombstones store f2 Some
              (filter (λ ko, (ko.1 ∉ keys) ∧ df_items f2 !! (ko.1) = None) (map_to_list store)))
    as (f3 & Hq3 & Hqa3); [done|apply NoDup_filtered| |].
  { intros k obj [[_ Hi] Hin%elem_of_map_to_list]%list_elem_of_filter. simpl in Hi.
    split; [right; by eexists|]. by rw Hi. }
  pose proof (qs_wf _ _ _ _ Hqa3) as Hwf3. unfold knownMissing at 1. rw Hq3. cbn [andThen].
  assert (df_populated f3 = df_populated f) as Hp3.
  { by rw (qs_populated _ _ _ _ Hqa3) (qs_populated _ _ _ _ Hqa2) (qs_populated _ _ _ _ Hqa1). }
  pose proof (replaced_view store f f1 f2 f3 objs keys (Forall2_length _ _ _ Hk) Hqa1 Hqa2 Hqa3) as Hview.
  assert (df_queue f `prefix_of` df_queue f3) as Hpre.
  { rw (qs_queue _ _ _ _ Hqa3) (qs_queue _ _ _ _ Hqa2) (qs_queue _ _ _ _ Hqa1) -!assoc_L.
    by apply prefix_app_r. }
  destruct (df_populated f) eqn:Hpf; rw Hp3; (eexists; split; [done|]).
  - split_and!; try done. by rw (qs_count _ _ _ _ Hqa3) (qs_count _ _ _ _ Hqa2) (qs_count _ _ _ _ Hqa1).
  - pose proof (first_list_count store f f1 f2 f3 objs keys (Hpop eq_refl) Hnd) as Hcount.
    rw -(Forall2_length _ _ _ Hk) in Hcount. specialize (Hcount eq_refl Hqa1 Hqa2 Hqa3).
    unfold queuedMissing, knownMissing. rw !length_fmap -Hcount.
    split_and!; try done. destruct Hwf3. split; try done. simpl. lia.
Qed.

(** [Resync] changes nothing in the end. *)
Lemma resyncKeys_ok store f known :
  df_wf store f → (∀ k obj, (k, obj) ∈ known → store !! k = Some obj) →
  ∃ f', resyncKeys known f = (None, f') ∧ df_wf store f' ∧ view f' store = view f store ∧
    df_populated f' = df_populated f ∧
    df_initialPopulationCount f' = df_initialPopulationCount f ∧ df_queue f `prefix_of` df_queue f'.
Proof.
  revert f. induction known as [|[k obj] known IH]; intros f Hwf Hknown.
  { exists f. by split_and!. }
  assert (store !! k = Some obj) as Hs by (apply Hknown; by left).
  assert (KeyOf (Object obj) = Ok k) as Hk by exact (wf_store _ _ Hwf _ _ Hs).
  assert (∀ k obj, (k, obj) ∈ known → store !! k = Some obj) as Hrest by (intros; apply Hknown; by right).
  cbn [resyncKeys]. rw Hk. case_bool_decide as Hi; [by apply IH|].
  destruct (queueAction_ok store f (Changed DSync obj) k) as (f1 & -> & [Hwf1 Hv1 Hq1 _ Hp1 Hc1]); [done..|].
  destruct (IH f1 Hwf1 Hrest) as (f' & Hf' & Hwf' & Hv & Hp & Hc & Hq). exists f'.
  split; [exact Hf'|]. split_and!; [done| |congruence|congruence|].
  - rw Hv Hv1. apply map_eq. intros k'. destruct (decide (k' = k)) as [->|].
    + rw lookup_partial_alter_eq lookup_view Hs. apply eq_None_not_Some in Hi. by rw Hi.
    + by rw lookup_partial_alter_ne.
  - etrans; [|done]. rw Hq1. case_decide; [done|by apply prefix_app_r].
Qed.

(** [Pop] takes the oldest key with its deltas. *)
Lemma df_Pop_ok store f k queue :
  df_wf store f → df_queue f = k :: queue →
  ∃ ds, df_items f !! k = Some ds ∧ deltas_ok k (store !! k) ds ∧
    df_Pop f = Some (Some (ds,
      {| df_items := delete k (df_items f); df_queue := queue; df_populated := df_populated f;
         df_initialPopulationCount := Z.max 0 (df_initialPopulationCount f - 1);
         df_closed := df_closed f |})).
Proof.
  intros Hwf Hq. assert (k ∈ df_queue f) as [ds Hds]%(wf_queue _ _ Hwf) by (rw Hq; by left).
  exists ds. split; [done|]. split; [by apply (wf_items _ _ Hwf)|].
  unfold df_Pop. rw Hq. cbn [popFrom]. rw Hds. do 4 f_equal. pose proof (wf_count _ _ Hwf).
  destruct (Z.ltb_spec 0 (df_initialPopulationCount f)); lia.
Qed.

(** Once they are processed, the queue still stands for the same store. *)
Lemma df_popped store f k queue ds (f' :=
      {| df_items := delete k (df_items f); df_queue := queue; df_populated := df_populated f;
         df_initialPopulationCount := Z.max 0 (df_initialPopulationCount f - 1);
         df_closed := df_closed f |}) (store' := partial_alter (λ _, delta_apply (store !! k) ds) k store) :
  df_wf store f → df_queue f = k :: queue → df_items f !! k = Some ds →
  df_wf store' f' ∧ view f' store' = view f store.
Proof.
  intros Hwf Hq Hds. pose proof (wf_nodup _ _ Hwf) as Hnd. rw Hq in Hnd.
  apply NoDup_cons in Hnd as [Hk Hnd]. destruct (wf_items _ _ Hwf _ _ Hds) as [_ Hok].
  split; [split; simpl|].
  - done.
  - intros k'. destruct (decide (k' = k)) as [->|Hne].
    + rw lookup_delete_eq. split; [done|by intros []].
    + rw lookup_delete_ne // -(wf_queue _ _ Hwf) Hq elem_of_cons. naive_solver.
  - intros k' ds' Hi. destruct (decide (k' = k)) as [->|Hne]; [by rw lookup_delete_eq in Hi|].
    rw lookup_delete_ne // in Hi. unfold store'. rw lookup_partial_alter_ne //. by apply (wf_items _ _ Hwf).
  - intros k' obj Hs. destruct (decide (k' = k)) as [->|Hne].
    + unfold store' in Hs. rw lookup_partial_alter_eq in Hs.
      destruct ds as [|d ds _] using rev_ind; [by apply (wf_store _ _ Hwf)|].
      rw delta_apply_app in Hs. apply deltas_ok_app in Hok as [_ Hok].
      destruct d; simpl in *; [|done]. simplify_eq. tauto.
    + unfold store' in Hs. rw lookup_partial_alter_ne // in Hs. by apply (wf_store _ _ Hwf).
  - pose proof (wf_count _ _ Hwf) as Hc. rw Hq in Hc. simpl in Hc. lia.
  - apply map_eq. intros k'. rw !lookup_view. simpl. destruct (decide (k' = k)) as [->|Hne].
    + by rw lookup_delete_eq lookup_partial_alter_eq Hds.
    + by rw lookup_delete_ne // lookup_partial_alter_ne.
Qed.

(** Processing the deltas of a key, as events of the controller's informer
    ([Controller]): the store takes the queued value. *)
Definition delta_event d : cevent T :=
  match d with
  | Changed _ obj => EvUpsert obj
  | Removed (Object obj) => EvDelete obj
  | Removed (DeletedFinalStateUnknown key _) => EvDeleteUnknown key
  end.

Lemma processDeltas_run options k ds (s : cstate T) :
  deltas_ok k (c_store s !! k) ds →
  ∃ s', run (step options) (delta_event <$> ds) s = Some s' ∧
    processDeltas ds (c_store s, c_pending s) = (None, (c_store s', c_pending s')) ∧
    c_store s' = partial_alter (λ _, delta_apply (c_store s !! k) ds) k (c_store s).
Proof.
  revert s. induction ds as [|d ds IH]; intros s Hok.
  { exists s. split_and!; try done. symmetry. by apply partial_alter_self. }
  assert (∀ s1 v, c_store s1 = partial_alter (λ _, v) k (c_store s) → v = delta_result d →
    deltas_ok k v ds →
    ∃ s', run (step options) (delta_event <$> ds) s1 = Some s' ∧
      processDeltas ds (c_store s1, c_pending s1) = (None, (c_store s', c_pending s')) ∧
      c_store s' = partial_alter (λ _, delta_apply (c_store s !! k) (d :: ds)) k (c_store s)) as Hstep.
  { intros s1 v Hs1 -> Hok1. destruct (IH s1) as (s' & Hr & Hp & Hs').
    { rw Hs1. by rw lookup_partial_alter_eq. }
    exists s'. split_and!; [done..|]. rw Hs' Hs1 lookup_partial_alter_eq.
    apply map_eq. intros k'. destruct (decide (k' = k)) as [->|]; [by rw !lookup_partial_alter_eq|].
    by rw !lookup_partial_alter_ne. }
  destruct d as [ty obj|[obj|key obj]]; simpl in Hok.
  - destruct Hok as [Hk Hok]. cbn [fmap list_fmap delta_event run step processDeltas].
    unfold informer_upsert. simpl in Hk. cbn [KeyOf].
    rw Hk. cbn [mbind option_bind fst snd]. by apply (Hstep (with_store _ _ s) (Some obj)).
  - destruct Hok as (_ & Hk & _ & Hok). cbn [fmap list_fmap delta_event run step processDeltas].
    unfold informer_delete. simpl in Hk. cbn [KeyOf].
    rw Hk. cbn [mbind option_bind fst snd]. by apply (Hstep (with_store _ _ s) None).
  - destruct Hok as (Hc & [= ->] & -> & Hok). destruct Hc as [old Hold].
    cbn [fmap list_fmap delta_event run step processDeltas]. unfold informer_deleteUnknown.
    rw Hold. cbn [mbind option_bind KeyOf fst snd]. match goal with |- context [run _ _ ?s1] => by apply (Hstep s1 None) end.
Qed.

(** ** Where queued objects come from *)

Section Provenance.
Context (P : T → Prop).

Definition delta_from d : Prop := match d with Changed _ obj => P obj | Removed _ => True end.
Definition queue_from f : Prop := ∀ k ds, df_items f !! k = Some ds → Forall delta_from ds.

Lemma dedup_from ds : Forall delta_from ds → Forall delta_from (dedupDeltas ds).
Proof.
  destruct ds as [|d ds _] using rev_ind; [done|]. destruct ds as [|b ds _] using rev_ind; [done|].
  rw -assoc_L dedup_snoc. intros [Hds Hbd]%Forall_app. apply Forall_app. split; [done|].
  unfold isDeletionDup. destruct d, b as [|[]]; try done; by repeat constructor.
Qed.

Lemma queueAction_from d f : delta_from d → queue_from f → queue_from (queueActionLocked d f).2.
Proof.
  intros Hd Hf. unfold queueActionLocked. destruct (KeyOf (d_Object d)) as [id|]; [|done].
  intros k ds. simpl. rw lookup_insert. case_decide; [|apply Hf]. intros [= <-]. apply dedup_from, Forall_app.
  split; [|by constructor]. destruct (df_items f !! id) eqn:Hi; [by eapply Hf|constructor].
Qed.

Lemma queueAll_from ds f : Forall delta_from ds → queue_from f → queue_from (queueAll ds f).2.
Proof.
  intros Hds. revert f. induction Hds as [|d ds Hd _ IH]; intros f Hf; [done|]. cbn [queueAll].
  pose proof (queueAction_from d f Hd Hf) as Hf'. destruct (queueActionLocked d f) as [[err|] f']; [done|by apply IH].
Qed.

Lemma andThen_from r g :
  queue_from r.2 → (∀ f, queue_from f → queue_from (g f).2) → queue_from (andThen r g).2.
Proof. destruct r as [[err|] f]; [done|]. intros Hf Hg. by apply Hg. Qed.

Lemma df_Replace_from store objs f :
  Forall P objs → queue_from f → queue_from (df_Replace store objs f).2.
Proof.
  intros Hobjs Hf. unfold df_Replace.
  assert (∀ (A : Type) (g : A → Delta) l, (∀ a, delta_from (g a)) → Forall delta_from (g <$> l)) as Hall.
  { intros A g l Hg. apply Forall_fmap. by apply Forall_true. }
  apply andThen_from; [|intros f1 Hf1; apply andThen_from; [|intros f2 Hf2; apply andThen_from; [|intros f3 Hf3]]].
  - apply queueAll_from; [by apply Forall_fmap|done].
  - apply queueAll_from; [by apply Hall|done].
  - apply queueAll_from; [by apply Hall|done].
  - by destruct (df_populated f3).
Qed.

Lemma resyncKeys_from known f :
  Forall P known.*2 → queue_from f → queue_from (resyncKeys known f).2.
Proof.
  revert f. induction known as [|[k obj] known IH]; intros f; [done|].
  cbn [fmap list_fmap]. intros [Hobj Hknown]%Forall_cons Hf. cbn [resyncKeys].
  destruct (KeyOf (Object obj)) as [id|]; [|done]. case_bool_decide; [auto|].
  apply andThen_from; [|auto]. by apply queueAction_from.
Qed.

Lemma df_Delete_from store o f : queue_from f → queue_from (df_Delete store o f).2.
Proof.
  intros Hf. unfold df_Delete. destruct (KeyOf o) as [id|]; [|done]. destruct (_ && _); [done|].
  by apply queueAction_from.
Qed.
End Provenance.

End DeltaFIFO.
Arguments Delta : clear implicits.
Arguments fifo : clear implicits.
