(* ===== verification/Reflector.v ===== *)
(** * The reflector

    [k8s.io/client-go/tools/cache/reflector.go] and [tools/pager]: the goroutine of an
    informer that lists a resource, page by page, and then watches it, and puts what
    it sees into the informer's queue ([DeltaFIFO]).  It is an event machine: an event
    is an answer of the API server, an item of the watch, a tick of the resync timer
    or the stop channel.  Backing off only delays the next request.  The streaming
    list, which only an environment variable turns on, is left out. *)
From S2P Require Import Prelude GoStrings ApiMachinery Admission TransformedClient Controller DeltaFIFO.

(** [metav1.ListOptions], as far as the reflector sets them. *)
Record listOptions := {
  lo_ResourceVersion : string;
  lo_Limit : Z;
  lo_Continue : string;
  lo_AllowWatchBookmarks : bool;
}.

(** ** Errors *)

Definition isExpiredError (err : error) : bool := IsResourceExpired (Some err) || IsGone (Some err).

(** The type assertion to [APIStatus] does not unwrap. *)
Definition isTooLargeResourceVersionError (err : error) : bool :=
  HasStatusCause err CauseTypeResourceVersionTooLarge ||
  IsTimeout (Some err) &&
  match err with
  | StatusError st =>
      match st_Details st with
      | None => false
      | Some details =>
          existsb (λ cause, bool_decide (cause_Message cause = "Too large resource version"))
            (sd_Causes details)
          || Contains (st_Message st) "Too large resource version"
      end
  | _ => false
  end.

(** ** The pager *)

Section Pager.
Context {T : Type}.

Definition defaultPageSize : Z := 500.

(** [ListPager.List] between two calls of its page function: the request it has sent,
    the pages so far with the first one's resource version, and whether the request
    is the full list it falls back to. *)
Record pager := {
  pg_options : listOptions;
  pg_requestedRV : string;
  pg_list : option (string * list T);
  pg_paginated : bool;
  pg_full : bool;
}.

Definition pager_List (options : listOptions) (PageSize : Z) : pager :=
  {| pg_options := {| lo_ResourceVersion := lo_ResourceVersion options;
                      lo_Limit := if decide (lo_Limit options = 0%Z) then PageSize else lo_Limit options;
                      lo_Continue := lo_Continue options;
                      lo_AllowWatchBookmarks := lo_AllowWatchBookmarks options |};
     pg_requestedRV := lo_ResourceVersion options; pg_list := None; pg_paginated := false;
     pg_full := false |}.

(** What is used of a list object: its resource version and its items. *)
Definition listed (obj : KList T) : string * list T := (lm_ResourceVersion (l_ListMeta obj), getItems obj).

Inductive paging :=
| More (pg : pager)
| Finished (list : result error (string * list T)) (paginated : bool).

Definition pager_page (pg : pager) (answer : result error (KList T)) : paging :=
  let options := pg_options pg in
  if pg_full pg
  then Finished (match answer with Ok obj => Ok (listed obj) | Err err => Err err end) (pg_paginated pg)
  else match answer with
  | Err err =>
      if negb (IsResourceExpired (Some err)) || bool_decide (lo_Continue options = "")
      then Finished (Err err) (pg_paginated pg)
      else More {| pg_options := {| lo_ResourceVersion := pg_requestedRV pg; lo_Limit := 0; lo_Continue := "";
                                    lo_AllowWatchBookmarks := lo_AllowWatchBookmarks options |};
                   pg_requestedRV := pg_requestedRV pg; pg_list := pg_list pg;
                   pg_paginated := pg_paginated pg; pg_full := true |}
  | Ok obj =>
      let continue := lm_Continue (l_ListMeta obj) in
      match pg_list pg, bool_decide (continue = "") with
      | None, true => Finished (Ok (listed obj)) (pg_paginated pg)
      | list, last =>
          let '(rv, items) := default ((listed obj).1, []) list in
          let items := items ++ getItems obj in
          if last then Finished (Ok (rv, items)) (pg_paginated pg)
          else More {| pg_options := {| lo_ResourceVersion := ""; lo_Limit := lo_Limit options;
                                        lo_Continue := continue;
                                        lo_AllowWatchBookmarks := lo_AllowWatchBookmarks options |};
                       pg_requestedRV := pg_requestedRV pg; pg_list := Some (rv, items);
                       pg_paginated := true; pg_full := false |}
      end
  end.
End Pager.
Arguments pager : clear implicits.
Arguments paging : clear implicits.

(** ** The reflector *)

Section Reflector.
Context {T : Type} `{MetaAccessor T}.
Context (IsConnectionRefused : error → bool) (WatchListPageSize : Z).
Implicit Types (store : gmap string T) (f : fifo T).

(** Between two runs of [ListAndWatch]; listing, with the resource version first asked
    for, whether this is the second attempt, and the pager; before a watch request;
    receiving, with the number of events so far; stopped. *)
Inductive reflector_pc :=
| RIdle
| RListing (initialRV : string) (retried : bool) (PageSize : Z) (pg : pager T)
| RWatch
| RStreaming (eventCount : nat)
| RStopped.

Record reflector := {
  r_lastSyncResourceVersion : string;
  r_isLastSyncResourceVersionUnavailable : bool;
  r_paginatedResult : bool;
  r_resyncerr : option error;          (* resyncerrc, of capacity one *)
  r_resyncing : bool;                  (* the goroutine of startResync runs *)
  r_pc : reflector_pc;
}.
Implicit Types r : reflector.

Definition NewReflector : reflector :=
  {| r_lastSyncResourceVersion := ""; r_isLastSyncResourceVersionUnavailable := false;
     r_paginatedResult := false; r_resyncerr := None; r_resyncing := false; r_pc := RIdle |}.

Definition with_pc (pc : reflector_pc) r : reflector :=
  {| r_lastSyncResourceVersion := r_lastSyncResourceVersion r;
     r_isLastSyncResourceVersionUnavailable := r_isLastSyncResourceVersionUnavailable r;
     r_paginatedResult := r_paginatedResult r; r_resyncerr := r_resyncerr r; r_resyncing := r_resyncing r; r_pc := pc |}.
Definition setLastSyncResourceVersion (v : string) r : reflector :=
  {| r_lastSyncResourceVersion := v;
     r_isLastSyncResourceVersionUnavailable := r_isLastSyncResourceVersionUnavailable r;
     r_paginatedResult := r_paginatedResult r; r_resyncerr := r_resyncerr r; r_resyncing := r_resyncing r; r_pc := r_pc r |}.
Definition setIsLastSyncResourceVersionUnavailable (b : bool) r : reflector :=
  {| r_lastSyncResourceVersion := r_lastSyncResourceVersion r;
     r_isLastSyncResourceVersionUnavailable := b;
     r_paginatedResult := r_paginatedResult r; r_resyncerr := r_resyncerr r; r_resyncing := r_resyncing r; r_pc := r_pc r |}.
Definition with_paginatedResult (b : bool) r : reflector :=
  {| r_lastSyncResourceVersion := r_lastSyncResourceVersion r;
     r_isLastSyncResourceVersionUnavailable := r_isLastSyncResourceVersionUnavailable r;
     r_paginatedResult := b; r_resyncerr := r_resyncerr r; r_resyncing := r_resyncing r; r_pc := r_pc r |}.
Definition with_resyncerr (err : option error) r : reflector :=
  {| r_lastSyncResourceVersion := r_lastSyncResourceVersion r;
     r_isLastSyncResourceVersionUnavailable := r_isLastSyncResourceVersionUnavailable r;
     r_paginatedResult := r_paginatedResult r; r_resyncerr := err; r_resyncing := r_resyncing r; r_pc := r_pc r |}.
Definition with_resyncing (b : bool) r : reflector :=
  {| r_lastSyncResourceVersion := r_lastSyncResourceVersion r;
     r_isLastSyncResourceVersionUnavailable := r_isLastSyncResourceVersionUnavailable r;
     r_paginatedResult := r_paginatedResult r; r_resyncerr := r_resyncerr r; r_resyncing := b; r_pc := r_pc r |}.

Definition relistResourceVersion r : string :=
  if r_isLastSyncResourceVersionUnavailable r then ""
  else if decide (r_lastSyncResourceVersion r = "") then "0" else r_lastSyncResourceVersion r.

Definition listRequest (rv : string) : listOptions :=
  {| lo_ResourceVersion := rv; lo_Limit := 0; lo_Continue := ""; lo_AllowWatchBookmarks := false |}.

(** The page size [list] sets. *)
Definition PageSize_for (rv : string) r : Z :=
  if decide (WatchListPageSize ≠ 0%Z) then WatchListPageSize
  else if r_paginatedResult r then defaultPageSize
  else if decide (rv ≠ "" ∧ rv ≠ "0") then 0%Z
  else defaultPageSize.

(** [ListAndWatch] starts: the first request of [list]. *)
Definition list_begin r : reflector :=
  let rv := relistResourceVersion r in
  let size := PageSize_for rv r in
  with_pc (RListing rv false size (pager_List (listRequest rv) size)) r.

(** The rest of [list] once the pager has returned: the error is only logged. *)
Definition list_end (initialRV : string) (list : result error (string * list T)) (paginated : bool)
    store r f : reflector * fifo T :=
  match list with
  | Err _ => (with_pc RIdle r, f)
  | Ok (rv, items) =>
      let r := if bool_decide (initialRV = "0") && paginated then with_paginatedResult true r else r in
      let r := setIsLastSyncResourceVersionUnavailable false r in
      match df_Replace store items f with
      | (Some _, f) => (with_pc RIdle r, f)
      | (None, f) => (with_pc RWatch (with_resyncing true (with_resyncerr None (setLastSyncResourceVersion rv r))), f)
      end
  end.

(** An answer to the pager's request. *)
Definition list_page (answer : result error (KList T)) store r f : option (reflector * fifo T) :=
  match r_pc r with
  | RListing initialRV retried size pg =>
      Some match pager_page pg answer with
      | More pg => (with_pc (RListing initialRV retried size pg) r, f)
      | Finished list paginated =>
          match list, retried with
          | Err err, false =>
              if isExpiredError err || isTooLargeResourceVersionError err then
                let r := setIsLastSyncResourceVersionUnavailable true r in
                let pg := pager_List (listRequest (relistResourceVersion r)) size in
                (with_pc (RListing initialRV true size pg) r, f)
              else list_end initialRV list paginated store r f
          | _, _ => list_end initialRV list paginated store r f
          end
      end
  | _ => None
  end.

(** ** Watching *)

Definition watchRequest r : listOptions :=
  {| lo_ResourceVersion := r_lastSyncResourceVersion r; lo_Limit := 0; lo_Continue := "";
     lo_AllowWatchBookmarks := true |}.

Definition isWatchErrorRetriable (err : error) : bool :=
  IsConnectionRefused err || IsTooManyRequests (Some err).

(** The answer to the watch request. *)
Definition watch_begin (answer : result error unit) r : option reflector :=
  match r_pc r with
  | RWatch =>
      Some match answer with
      | Ok _ => with_pc (RStreaming 0) r
      | Err err => if isWatchErrorRetriable err then r else with_pc RIdle r
      end
  | _ => None
  end.

(** [watchHandler] returned an error; [shouldRetry] is what the retry deadline says. *)
Definition watch_failed (err : error) (shouldRetry : bool) r : reflector :=
  if isExpiredError err then with_pc RIdle r
  else if IsTooManyRequests (Some err) then with_pc RWatch r
  else if IsInternalError (Some err) && shouldRetry then with_pc RWatch r
  else with_pc RIdle r.

(** An item of the watch: an object of the expected type, a status, or another
    object. *)
Inductive watchItem :=
| ItemObject (ty : EventType) (obj : T)
| ItemStatus (ty : EventType) (st : Status)
| ItemOther (ty : EventType).

Definition item_Type (i : watchItem) : EventType :=
  match i with ItemObject ty _ | ItemStatus ty _ | ItemOther ty => ty end.

Definition FromObject (i : watchItem) : error :=
  match i with
  | ItemStatus _ st => StatusError st
  | _ => ErrorString "unexpected object"
  end.

(** What an event does to the queue; its errors are only logged. *)
Definition watch_store (ty : EventType) (obj : T) store f : fifo T :=
  match ty with
  | Added => (df_Add obj f).2
  | Modified => (df_Update obj f).2
  | Deleted => (df_Delete store (Object obj) f).2
  | Bookmark | ErrorEvent => f
  end.

(** One round of [watchHandler]'s loop. *)
Definition watch_item (i : watchItem) (shouldRetry : bool) store r f : option (reflector * fifo T) :=
  match r_pc r with
  | RStreaming eventCount =>
      Some match item_Type i, i with
      | ErrorEvent, _ => (watch_failed (FromObject i) shouldRetry r, f)
      | ty, ItemObject _ obj =>
          match Accessor obj with
          | None => (r, f)
          | Some meta =>
              (with_pc (RStreaming (S eventCount)) (setLastSyncResourceVersion (mo_ResourceVersion meta) r),
               watch_store ty obj store f)
          end
      | _, _ => (r, f)
      end
  | _ => None
  end.

(** The result channel was closed; [short]: within a second. *)
Definition watch_closed (short : bool) r : option reflector :=
  match r_pc r with
  | RStreaming eventCount =>
      Some (if short && (eventCount =? 0)%nat
            then watch_failed (ErrorString "very short watch") false r
            else with_pc RWatch r)
  | _ => None
  end.

(** [startResync]: the timer ticks and [ShouldResync] agrees.  An error goes to
    [resyncerrc] and ends the goroutine. *)
Definition resync store r f : option (reflector * fifo T) :=
  match r_pc r, r_resyncing r with
  | (RWatch | RStreaming _), true =>
      match df_Resync store f with
      | (Some err, f) => Some (with_resyncing false (with_resyncerr (Some err) r), f)
      | (None, f) => Some (r, f)
      end
  | _, _ => None
  end.

Inductive revent :=
| RList
| RPage (answer : result error (KList T))
| RWatched (answer : result error unit)
| RItem (i : watchItem) (shouldRetry : bool)
| RClosed (short : bool)
| RResync
| RResyncFailed (shouldRetry : bool)
| RStop.

Definition rstep (e : revent) store (r : reflector) f : option (reflector * fifo T) :=
  match e with
  | RList => match r_pc r with RIdle => Some (list_begin r, f) | _ => None end
  | RPage answer => list_page answer store r f
  | RWatched answer => r ← watch_begin answer r; Some (r, f)
  | RItem i shouldRetry => watch_item i shouldRetry store r f
  | RClosed short => r ← watch_closed short r; Some (r, f)
  | RResync => resync store r f
  | RResyncFailed shouldRetry =>
      match r_pc r, r_resyncerr r with
      | RStreaming _, Some err => Some (watch_failed err shouldRetry (with_resyncerr None r), f)
      | _, _ => None
      end
  | RStop => match r_pc r with RStopped => None | _ => Some (with_pc RStopped r, f) end
  end.
End Reflector.
Arguments reflector_pc : clear implicits.
Arguments reflector : clear implicits.
Arguments watchItem : clear implicits.
Arguments revent : clear implicits.
