(* ===== verification/Informer.v ===== *)
(** * The informer

    [shared_informer.go] of client-go and what the repository's controllers do with it:
    the reflector ([Reflector]), the queue of changes ([DeltaFIFO]), the loop that pops
    it, and the generic controller behind ([Controller]), as one event machine.  The
    API server is not code of the repository: [world] says what its answers to lists
    and watches may be, after the Kubernetes API's documentation, against a history of
    changes.  An update that keeps the resource version goes to every handler here;
    client-go leaves out those that did not ask for resyncs, and the controller's
    handler ignores such updates anyway. *)
From S2P Require Import Prelude GoStrings ApiMachinery Admission TransformedClient Controller DeltaFIFO.
From S2P Require Import Reflector.

(** ** The machine *)

Section Informer.
Context {T : Type} `{MetaAccessor T}.
Context (IsConnectionRefused : error → bool) (WatchListPageSize : Z) (options : ControllerOptions).

Record informer := {
  i_reflector : reflector T;
  i_fifo : fifo T;
  i_controller : cstate T;   (* the indexer, the notifications, and who handles them *)
}.
Implicit Types (i : informer) (s : cstate T) (r : reflector T) (f : fifo T).

Definition i_indexer i : gmap string T := c_store (i_controller i).

Definition new_informer : informer :=
  {| i_reflector := NewReflector; i_fifo := NewDeltaFIFO; i_controller := init |}.

(** [controller/informer.go]: the lister of an informer reads its indexer; the program's
    informers have the namespace index. *)
Definition informer_Lister i : Lister T := NewLister true (i_indexer i).

Definition informer_HasSynced i : bool := df_HasSynced (i_fifo i).

(** [HandleDeltas]: an error is only returned to [processLoop], which ignores it.  The
    keys of tombstones are bookkeeping of [Controller]. *)
Definition HandleDeltas (ds : list (Delta T)) s : cstate T :=
  let '(_, (store, pending)) := processDeltas ds (c_store s, c_pending s) in
  let s := with_store store pending s in
  let keys := omap (λ d, match d with Removed (DeletedFinalStateUnknown key _) => Some key | _ => None end) ds in
  {| c_store := c_store s; c_pending := c_pending s; c_queue := c_queue s; c_addCh := c_addCh s;
     c_waiting := c_waiting s; c_loop := c_loop s; c_failures := c_failures s; c_workers := c_workers s;
     c_run := c_run s; c_ctxDone := c_ctxDone s; c_last := c_last s;
     c_tombstoned := list_to_set keys ∪ c_tombstoned s |}.

(** Events of the reflector, of [processLoop], of the stop channel at the queue, and of
    the controller, whose cache changes only by [processLoop] and which waits for
    [HasSynced]. *)
Inductive ievent :=
| IReflector (e : revent T)
| IPop
| IClose
| IControl (e : cevent T).

Definition control_allowed (e : cevent T) i : bool :=
  match e with
  | EvUpsert _ | EvDelete _ | EvDeleteUnknown _ => false
  | EvSynced => informer_HasSynced i
  | _ => true
  end.

Definition istep (e : ievent) i : option informer :=
  match e with
  | IReflector e =>
      '(r, f) ← rstep IsConnectionRefused WatchListPageSize e (i_indexer i) (i_reflector i) (i_fifo i);
      Some {| i_reflector := r; i_fifo := f; i_controller := i_controller i |}
  | IPop =>
      match df_Pop (i_fifo i) with
      | Some (Some (ds, f)) =>
          Some {| i_reflector := i_reflector i; i_fifo := f;
                  i_controller := HandleDeltas ds (i_controller i) |}
      | _ => None
      end
  | IClose =>
      Some {| i_reflector := i_reflector i; i_fifo := df_Close (i_fifo i); i_controller := i_controller i |}
  | IControl e =>
      if control_allowed e i then
        s ← step options e (i_controller i);
        Some {| i_reflector := i_reflector i; i_fifo := i_fifo i; i_controller := s |}
      else None
  end.
End Informer.
Arguments informer : clear implicits.
Arguments ievent : clear implicits.

(** ** The API server

    Its history: objects written, and objects deleted in their last state.  The
    revision of the n-th change is n+1. *)
Inductive change (R : Type) := Put (obj : R) | Del (obj : R).
Arguments Put {R}.
Arguments Del {R}.

Section Server.
Context {R : Type} `{MetaAccessor R}.

Definition change_object (c : change R) : R := match c with Put obj | Del obj => obj end.

Definition apply_change (m : gmap string R) (c : change R) : gmap string R :=
  match KeyOf (Object (change_object c)), c with
  | Ok k, Put obj => <[k := obj]> m
  | Ok k, Del _ => delete k m
  | Err _, _ => m
  end.

(** A server: its resource versions and continue tokens, which clients must not look
    into, its history, and the order in which it lists a revision. *)
Record server := {
  sv_rv : nat → string;
  sv_token : nat → nat → string;
  sv_history : list (change R);
  sv_list : nat → list R;
}.
Implicit Types sv : server.

Definition state_at sv (n : nat) : gmap string R := foldl apply_change ∅ (take n (sv_history sv)).

Record server_ok sv : Prop := {
  ok_rv_inj : Inj (=) (=) (sv_rv sv);
  ok_rv_proper n : sv_rv sv n ≠ "" ∧ sv_rv sv n ≠ "0";
  ok_token_inj : Inj2 (=) (=) (=) (sv_token sv);
  ok_token_proper n k : sv_token sv n k ≠ "";
  ok_history n c : sv_history sv !! n = Some c →
    ∃ meta, Accessor (change_object c) = Some meta ∧ mo_ResourceVersion meta = sv_rv sv (S n);
  ok_list n : sv_list sv n ≡ₚ (map_to_list (state_at sv n)).*2;
}.

(** The server's side: how many changes there are so far, and the client's watch: none;
    sending the objects it starts with, at a revision; or at a revision. *)
Inductive conn := NoWatch | Initial (rest : list R) (n : nat) | Following (n : nat).
Record environment := { e_committed : nat; e_conn : conn }.
Implicit Types e : environment.

(** A list at least as new as asked for: "" asks for the newest, "0" for any. *)
Definition new_enough sv e (rv : string) (n : nat) : Prop :=
  n ≤ e_committed e ∧ (rv = "" → n = e_committed e) ∧ ∀ m, rv = sv_rv sv m → m ≤ n.

(** A page: some of the objects of a revision, from its start or a continue token on;
    without a limit, all the rest. *)
Definition page_ok sv e (options : listOptions) (page : KList R) : Prop :=
  ∃ n start count,
    (if decide (lo_Continue options = "")
     then start = 0 ∧ new_enough sv e (lo_ResourceVersion options) n
     else lo_Continue options = sv_token sv n start ∧ n ≤ e_committed e) ∧
    (lo_Limit options = 0%Z → length (sv_list sv n) ≤ start + count) ∧
    lm_ResourceVersion (l_ListMeta page) = sv_rv sv n ∧
    getItems page = take count (drop start (sv_list sv n)) ∧
    lm_Continue (l_ListMeta page) =
      if decide (start + count < length (sv_list sv n)) then sv_token sv n (start + count) else "".

(** A watch from a revision sends what happened after it; one from "" first sends the
    objects of the newest revision. *)
Definition watch_ok sv e (rv : string) (c : conn) : Prop :=
  (∃ n, rv = sv_rv sv n ∧ n ≤ e_committed e ∧ c = Following n) ∨
  (rv = "" ∧ ∃ rest, rest ≡ₚ sv_list sv (e_committed e) ∧ c = Initial rest (e_committed e)).

Definition put_type sv (n : nat) (obj : R) : EventType :=
  match KeyOf (Object obj) with
  | Ok k => match state_at sv n !! k with Some _ => Modified | None => Added end
  | Err _ => Added
  end.

Inductive item_ok sv (committed : nat) : conn → watchItem R → conn → Prop :=
| item_initial obj rest n :
    item_ok sv committed (Initial (obj :: rest) n) (ItemObject Added obj) (Initial rest n)
| item_started n i c :
    item_ok sv committed (Following n) i c → item_ok sv committed (Initial [] n) i c
| item_put n obj :
    n < committed → sv_history sv !! n = Some (Put obj) →
    item_ok sv committed (Following n) (ItemObject (put_type sv n obj) obj) (Following (S n))
| item_del n obj :
    n < committed → sv_history sv !! n = Some (Del obj) →
    item_ok sv committed (Following n) (ItemObject Deleted obj) (Following (S n))
| item_bookmark n obj meta :
    Accessor obj = Some meta → mo_ResourceVersion meta = sv_rv sv n →
    item_ok sv committed (Following n) (ItemObject Bookmark obj) (Following n)
| item_error c i :
    item_Type i = ErrorEvent → item_ok sv committed c i NoWatch.

End Server.
Arguments server : clear implicits.
Arguments conn : clear implicits.
Arguments environment : clear implicits.

(** ** An informer and its server

    The reflector's client may change what the server sends ([toPage], [toItem]), or
    swallow an item of the watch. *)
Section World.
Context {R T : Type} `{MetaAccessor R, MetaAccessor T}.
Context (IsConnectionRefused : error → bool) (WatchListPageSize : Z) (options : ControllerOptions).
Context (sv : server R) (toPage : KList R → result error (KList T)).
Context (toItem : watchItem R → option (watchItem T)).
Implicit Types (i : informer T) (e : environment R).

Definition with_conn (c : conn R) e : environment R := {| e_committed := e_committed e; e_conn := c |}.

(** Not an answer of the server. *)
Definition own_event (ev : ievent T) : bool :=
  match ev with
  | IReflector (RPage (Ok _) | RWatched (Ok _) | RItem _ _) => false
  | _ => true
  end.

Abbreviation step_to := (istep IsConnectionRefused WatchListPageSize options).

Inductive world_step : informer T * environment R → informer T * environment R → Prop :=
| world_commit i e :
    e_committed e < length (sv_history sv) →
    world_step (i, e) (i, {| e_committed := S (e_committed e); e_conn := e_conn e |})
| world_own ev i i' e :
    own_event ev = true → step_to ev i = Some i' → world_step (i, e) (i', e)
| world_page initialRV retried size pg page i i' e :
    r_pc (i_reflector i) = RListing initialRV retried size pg → page_ok sv e (pg_options pg) page →
    step_to (IReflector (RPage (toPage page))) i = Some i' → world_step (i, e) (i', e)
| world_watch c i i' e :
    watch_ok sv e (lo_ResourceVersion (watchRequest (i_reflector i))) c →
    step_to (IReflector (RWatched (Ok tt))) i = Some i' → world_step (i, e) (i', with_conn c e)
| world_item it it' shouldRetry c i i' e :
    item_ok sv (e_committed e) (e_conn e) it c → toItem it = Some it' →
    step_to (IReflector (RItem it' shouldRetry)) i = Some i' → world_step (i, e) (i', with_conn c e)
| world_dropped it c n i e :
    r_pc (i_reflector i) = RStreaming n → item_ok sv (e_committed e) (e_conn e) it c → toItem it = None →
    world_step (i, e) (i, with_conn c e).

Definition world_init : informer T * environment R :=
  (new_informer, {| e_committed := 0; e_conn := NoWatch |}).

Definition world_reachable (w : informer T * environment R) : Prop := rtc world_step world_init w.

Lemma own_events evs i i' e :
  forallb own_event evs = true → run step_to evs i = Some i' → rtc world_step (i, e) (i', e).
Proof.
  revert i. induction evs as [|ev evs IH]; intros i; simpl; [by intros _ [= ->]|].
  intros [Hown Hall]%andb_true_iff. destruct (step_to ev i) as [i1|] eqn:Hs; [|done]. intros Hr.
  eapply rtc_l; [by eapply world_own|]. by apply IH.
Qed.

(** What an informer's cache will be once its queue is empty. *)
Definition i_view i : gmap string T := view (i_fifo i) (i_indexer i).
End World.
