(* ===== verification/Mirror.v ===== *)
(** * An informer mirrors the API server

    An informer whose client hands the server's answers on unchanged ([Informer]): its
    cache, once the queue of changes is processed, is the server's state at a revision,
    which is the reflector's last resource version and never goes back. *)
From S2P Require Import Prelude GoStrings ApiMachinery Admission TransformedClient Controller DeltaFIFO.
From S2P Require Import Reflector Informer.

Section Server.
Context {R : Type} `{MetaAccessor R} (sv : server R) (Hsv : server_ok sv).
Implicit Types (obj : R) (m : gmap string R).

Lemma state_at_S n c :
  sv_history sv !! n = Some c → state_at sv (S n) = apply_change (state_at sv n) c.
Proof. intros Hc. unfold state_at. rw (take_S_r _ _ _ Hc) foldl_app. done. Qed.

Lemma KeyOf_Accessor obj meta : Accessor obj = Some meta → KeyOf (Object obj) = Ok (metaKey meta).
Proof. intros Hm. unfold KeyOf, MetaNamespaceKeyFunc. simpl. by rw Hm. Qed.

Lemma apply_change_keyed m c k obj :
  (∀ k obj, m !! k = Some obj → KeyOf (Object obj) = Ok k) →
  apply_change m c !! k = Some obj → KeyOf (Object obj) = Ok k.
Proof.
  intros Hm. unfold apply_change. destruct (KeyOf (Object (change_object c))) as [k'|] eqn:Hk; [|auto].
  destruct c; simpl in Hk.
  - rw lookup_insert. case_decide; [|auto]. intros [= <-]. by subst.
  - rw lookup_delete. case_decide; [done|auto].
Qed.

Lemma state_at_keyed n k obj : state_at sv n !! k = Some obj → KeyOf (Object obj) = Ok k.
Proof.
  revert k obj. induction n as [|n IH]; intros k obj; [by rw /state_at lookup_empty|].
  destruct (sv_history sv !! n) as [c|] eqn:Hc.
  - rw (state_at_S _ _ Hc). by apply apply_change_keyed.
  - apply lookup_ge_None in Hc. unfold state_at in *. rw take_ge; [lia|]. rw take_ge // in IH. apply IH.
Qed.

(** The keys of a listed revision. *)
Lemma omap_keyed m :
  (∀ k obj, m !! k = Some obj → KeyOf (Object obj) = Ok k) →
  omap (λ obj, match KeyOf (Object obj) with Ok k => Some (k, obj) | Err _ => None end) (map_to_list m).*2
  = map_to_list m.
Proof.
  intros Hm. assert (∀ k obj, (k, obj) ∈ map_to_list m → KeyOf (Object obj) = Ok k) as Hl.
  { intros k obj Hin%elem_of_map_to_list. auto. }
  clear Hm. induction (map_to_list m) as [|[k obj] l IH]; [done|].
  cbn [fmap list_fmap omap list_omap snd]. rw (Hl k obj); [by left|]. f_equal. apply IH. intros ???.
  apply Hl. by right.
Qed.

Lemma zip_keysOf (objs : list R) :
  (∀ obj, obj ∈ objs → is_ok (KeyOf (Object obj)) = true) →
  Forall2 (λ obj k, KeyOf (Object obj) = Ok k) objs (keysOf objs) ∧
  zip (keysOf objs) objs
  = omap (λ obj, match KeyOf (Object obj) with Ok k => Some (k, obj) | Err _ => None end) objs.
Proof.
  intros Hall. induction objs as [|obj objs IH]; [done|].
  destruct IH as [IH1 IH2]; [intros; apply Hall; by right|]. pose proof (Hall obj (list_elem_of_here _ _)) as Hk.
  unfold keysOf in *. cbn [omap list_omap]. destruct (KeyOf (Object obj)) as [k|] eqn:Hko; [|done].
  split; [by constructor|]. cbn [zip zip_with]. by f_equal.
Qed.

Lemma listed_revision n :
  let keys := keysOf (sv_list sv n) in
  Forall2 (λ obj k, KeyOf (Object obj) = Ok k) (sv_list sv n) keys ∧ NoDup keys ∧
  list_to_map (zip keys (sv_list sv n)) = state_at sv n.
Proof.
  pose proof (ok_list _ Hsv n) as Hp.
  assert (∀ obj, obj ∈ sv_list sv n → is_ok (KeyOf (Object obj)) = true) as Hall.
  { intros obj. rw Hp. intros ([k obj'] & -> & Hin%elem_of_map_to_list)%list_elem_of_fmap.
    by rw (state_at_keyed _ _ _ Hin). }
  destruct (zip_keysOf _ Hall) as [Hf Hz].
  assert (zip (keysOf (sv_list sv n)) (sv_list sv n) ≡ₚ map_to_list (state_at sv n)) as Hperm.
  { rw Hz Hp omap_keyed //. apply state_at_keyed. }
  assert (NoDup (zip (keysOf (sv_list sv n)) (sv_list sv n)).*1) as Hnd.
  { rw Hperm. apply NoDup_fst_map_to_list. }
  split; [done|]. split.
  - rw fst_zip // in Hnd. by rw (Forall2_length _ _ _ Hf).
  - rw (list_to_map_proper _ _ Hnd Hperm). apply list_to_map_to_list.
Qed.
End Server.

(** ** Listing *)

Section Listing.
Context {R : Type} `{MetaAccessor R} (sv : server R) (Hsv : server_ok sv).
Implicit Types (pg : pager R) (e : environment R).

(** A resource version the reflector may ask for when it is at revision [n]: no answer
    is older. *)
Definition asks_newer (n : nat) (rv : string) : Prop :=
  rv = "" ∨ rv = sv_rv sv n ∨ rv = "0" ∧ n = 0.

Lemma asked_newer e n m rv : n ≤ e_committed e → asks_newer n rv → new_enough sv e rv m → n ≤ m.
Proof. intros Hn [->|[->|[-> ->]]] (Hm & Hnew & Hold); [rw Hnew //|by apply Hold|lia]. Qed.

(** A pager of a reflector at revision [n], while the server is at [committed]. *)
Record pager_ok (n committed : nat) pg : Prop := {
  po_requested : asks_newer n (pg_requestedRV pg);
  po_request :
    if pg_full pg then
      pg_options pg = {| lo_ResourceVersion := pg_requestedRV pg; lo_Limit := 0; lo_Continue := "";
                         lo_AllowWatchBookmarks := lo_AllowWatchBookmarks (pg_options pg) |}
    else match pg_list pg with
    | None => lo_Continue (pg_options pg) = "" ∧ lo_ResourceVersion (pg_options pg) = pg_requestedRV pg
    | Some (rv, items) =>
        ∃ m k, n ≤ m ≤ committed ∧ rv = sv_rv sv m ∧ items = take k (sv_list sv m) ∧
          lo_Continue (pg_options pg) = sv_token sv m k
    end;
}.

Lemma pager_ok_later n committed committed' pg :
  committed ≤ committed' → pager_ok n committed pg → pager_ok n committed' pg.
Proof.
  intros Hc [Hr Ho]. split; [done|]. destruct (pg_full pg); [done|].
  destruct (pg_list pg) as [[rv items]|]; [|done]. destruct Ho as (m & k & ? & ?). exists m, k. split; [lia|done].
Qed.

Lemma pager_List_ok n committed rv size :
  asks_newer n rv → pager_ok n committed (pager_List (listRequest rv) size).
Proof. by split. Qed.

Lemma take_more {A} (l : list A) k count : take k l ++ take count (drop k l) = take (k + count) l.
Proof. by rw take_take_drop. Qed.

(** The pager goes on, or has all objects of one revision. *)
Lemma pager_page_ok n e pg page :
  n ≤ e_committed e → pager_ok n (e_committed e) pg → page_ok sv e (pg_options pg) page →
  match pager_page pg (Ok page) with
  | More pg => pager_ok n (e_committed e) pg
  | Finished list _ => ∃ m, n ≤ m ≤ e_committed e ∧ list = Ok (sv_rv sv m, sv_list sv m)
  end.
Proof.
  intros Hn [Hreq Hpg] (m & start & count & Hstart & Hlimit & Hrv & Hitems & Hcont). unfold pager_page.
  destruct (pg_full pg).
  - rw Hpg /= in Hstart Hlimit. destruct Hstart as [-> Hnew]. exists m.
    pose proof (asked_newer _ _ _ _ Hn Hreq Hnew). destruct Hnew as [Hm _]. split; [done|].
    unfold listed. rw Hrv Hitems drop_0 take_ge //. by apply Hlimit.
  - destruct (pg_list pg) as [[rv items]|] eqn:Hlist.
    + destruct Hpg as (m' & k & Hm' & -> & -> & Hc). rw Hc in Hstart.
      rw decide_False in Hstart; [apply (ok_token_proper _ Hsv)|]. destruct Hstart as [Htok _].
      apply (ok_token_inj _ Hsv) in Htok as [-> ->]. rw Hitems.
      destruct (bool_decide (lm_Continue (l_ListMeta page) = "")) eqn:Hb; simpl.
      * exists m. split; [done|]. apply bool_decide_eq_true in Hb. rw Hb in Hcont.
        case_decide as Hlt; [by destruct (ok_token_proper _ Hsv m (start + count))|].
        rw take_more take_ge //. lia.
      * apply bool_decide_eq_false in Hb. case_decide as Hlt; [|done].
        split; [done|]. simpl. exists m, (start + count). by rw take_more.
    + destruct Hpg as [Hc Hrvo]. rw Hc /= Hrvo in Hstart. destruct Hstart as [-> Hnew].
      pose proof (asked_newer _ _ _ _ Hn Hreq Hnew). destruct Hnew as [Hm _]. rw drop_0 in Hitems.
      destruct (bool_decide (lm_Continue (l_ListMeta page) = "")) eqn:Hb; simpl.
      * exists m. split; [done|]. apply bool_decide_eq_true in Hb. rw Hb in Hcont. unfold listed.
        case_decide as Hlt; [by destruct (ok_token_proper _ Hsv m (0 + count))|].
        rw Hrv Hitems take_ge //. lia.
      * apply bool_decide_eq_false in Hb. case_decide as Hlt; [|done].
        split; [done|]. simpl. exists m, count. unfold listed. rw Hrv Hitems. done.
Qed.

Lemma pager_page_failed n committed pg err :
  pager_ok n committed pg →
  match pager_page pg (Err err) with
  | More pg => pager_ok n committed pg
  | Finished list _ => list = Err err
  end.
Proof.
  intros [Hreq Hpg]. unfold pager_page. destruct (pg_full pg); [done|]. destruct (negb _ || _); [done|].
  by split.
Qed.
End Listing.

(** ** The invariant *)

Section Mirror.
Context {T : Type} `{MetaAccessor T}.
Context (IsConnectionRefused : error → bool) (WatchListPageSize : Z) (options : ControllerOptions).
Context (sv : server T) (Hsv : server_ok sv).
Implicit Types (i : informer T) (e : environment T) (r : reflector T) (f : fifo T) (store : gmap string T).

(** The queue stands for revision [n], and the reflector knows. *)
Record at_revision (n : nat) store r f : Prop := {
  ar_wf : df_wf store f;
  ar_populated : df_populated f = false → df_queue f = [] ∧ store = ∅ ∧ r_lastSyncResourceVersion r = "";
  ar_view : view f store = state_at sv n;
  ar_rv : r_lastSyncResourceVersion r = sv_rv sv n ∨ r_lastSyncResourceVersion r = "" ∧ n = 0;
  ar_resyncerr : r_resyncerr r = None;
  ar_listed : r_lastSyncResourceVersion r = "" → df_populated f = false;
}.

Definition pc_ok (n : nat) r e : Prop :=
  match r_pc r with
  | RIdle | RStopped => True
  | RListing _ _ _ pg => pager_ok sv n (e_committed e) pg
  | RWatch => r_lastSyncResourceVersion r = sv_rv sv n
  | RStreaming _ => r_lastSyncResourceVersion r = sv_rv sv n ∧ e_conn e = Following n
  end.

Definition mirrors (n : nat) (w : informer T * environment T) : Prop :=
  at_revision n (i_indexer w.1) (i_reflector w.1) (i_fifo w.1) ∧ n ≤ e_committed w.2 ∧
  pc_ok n (i_reflector w.1) w.2.

Lemma relist_asks_newer n store r f :
  at_revision n store r f → asks_newer sv n (relistResourceVersion r).
Proof.
  intros Har. unfold relistResourceVersion, asks_newer. destruct (r_isLastSyncResourceVersionUnavailable r); [by left|].
  destruct (ar_rv _ _ _ _ Har) as [->|[-> ->]]; [|by right; right].
  case_decide as Hd; [by destruct (ok_rv_proper _ Hsv n)|]. right. by left.
Qed.

Lemma at_revision_frame n store r r' f :
  at_revision n store r f → r_lastSyncResourceVersion r' = r_lastSyncResourceVersion r →
  r_resyncerr r' = None → at_revision n store r' f.
Proof. intros [H1 H2 H3 H4 H5 H6] Hl He. split; try done; by rw Hl. Qed.

(** A failed watch: the same revision, before another watch or a list. *)
Lemma watch_failed_ok n store r f e err shouldRetry :
  at_revision n store r f → r_lastSyncResourceVersion r = sv_rv sv n →
  at_revision n store (watch_failed err shouldRetry r) f ∧ pc_ok n (watch_failed err shouldRetry r) e.
Proof.
  intros Har Hl. assert (∀ pc, at_revision n store (with_pc pc r) f) as Hpc.
  { intros pc. by apply at_revision_frame with r; [| |apply Har]. }
  unfold watch_failed. destruct (isExpiredError err); [by split|].
  destruct (IsTooManyRequests (Some err)); [by split|]. destruct (IsInternalError _ && _); by split.
Qed.

(** A complete list of a newer revision. *)
Lemma list_end_ok n m store r f initialRV paginated e r' f' :
  at_revision n store r f →
  list_end initialRV (Ok (sv_rv sv m, sv_list sv m)) paginated store r f = (r', f') →
  at_revision m store r' f' ∧ pc_ok m r' e.
Proof.
  intros [Hwf Hpop _ _ Herr _]. unfold list_end.
  destruct (listed_revision sv Hsv m) as (Hkeys & Hnd & Hmap).
  destruct (df_Replace_ok store f _ _ Hwf (λ Hp, proj1 (Hpop Hp)) Hnd Hkeys) as (f1 & -> & Hwf1 & Hv & Hp & _).
  intros [= <- <-]. split; [|done]. split; try done; [by rw Hp|by rw Hv|by left|].
  intros Hl. by destruct (ok_rv_proper _ Hsv m).
Qed.

Lemma list_failed_ok n store r f initialRV paginated err e r' f' :
  at_revision n store r f → list_end initialRV (Err err) paginated store r f = (r', f') →
  at_revision n store r' f' ∧ pc_ok n r' e.
Proof. intros Har [= <- <-]. split; [|done]. by eapply at_revision_frame; [done| |apply Har]. Qed.

(** Any answer to a list request. *)
Lemma list_page_ok n store r f e initialRV retried size pg answer r' f' :
  at_revision n store r f → n ≤ e_committed e → r_pc r = RListing initialRV retried size pg →
  pager_ok sv n (e_committed e) pg →
  match answer with Ok page => page_ok sv e (pg_options pg) page | Err _ => True end →
  list_page answer store r f = Some (r', f') →
  ∃ m, n ≤ m ≤ e_committed e ∧ at_revision m store r' f' ∧ pc_ok m r' e.
Proof.
  intros Har Hn Hpc Hpg Hans. unfold list_page. rw Hpc. intros [= Heq].
  assert (∀ pg', pager_ok sv n (e_committed e) pg' →
    ∃ m, n ≤ m ≤ e_committed e ∧ at_revision m store (with_pc (RListing initialRV retried size pg') r) f ∧
         pc_ok m (with_pc (RListing initialRV retried size pg') r) e) as Hmore.
  { intros pg' Hpg'. exists n. split; [done|]. split; [|done].
    by eapply at_revision_frame; [done| |apply Har]. }
  destruct answer as [page|err].
  - pose proof (pager_page_ok sv Hsv n e pg page Hn Hpg Hans) as Hp.
    destruct (pager_page pg (Ok page)) as [pg'|list paginated]; [simplify_eq; by apply Hmore|].
    destruct Hp as (m & Hm & ->). exists m. split; [done|]. by eapply list_end_ok.
  - pose proof (pager_page_failed sv n (e_committed e) pg err Hpg) as Hp.
    destruct (pager_page pg (Err err)) as [pg'|list paginated]; [simplify_eq; by apply Hmore|].
    subst list. exists n. split; [done|]. destruct retried; [by eapply list_failed_ok|].
    destruct (_ || _); [|by eapply list_failed_ok]. simplify_eq.
    split; [by eapply at_revision_frame; [done| |apply Har]|]. unfold pc_ok. cbn [r_pc with_pc].
    apply pager_List_ok. by left.
Qed.

Lemma resync_ok n store r f r' f' :
  at_revision n store r f → resync store r f = Some (r', f') →
  at_revision n store r' f' ∧ r_pc r' = r_pc r ∧
  r_lastSyncResourceVersion r' = r_lastSyncResourceVersion r.
Proof.
  intros [Hwf Hpop Hview Hrv Herr Hlisted]. unfold resync, df_Resync.
  destruct (resyncKeys_ok store f (map_to_list store) Hwf) as (f1 & Hr & Hwf1 & Hv & Hp & _).
  { by intros k obj Hin%elem_of_map_to_list. }
  rw Hr. intros Heq.
  assert (r' = r ∧ f' = f1) as [-> ->] by (by destruct (r_pc r), (r_resyncing r); simplify_eq).
  split; [|done]. split; try done; [|by rw Hv|by rw Hp].
  rw Hp. intros (Hq & -> & Hl)%Hpop. split; [|done]. rw map_to_list_empty /= in Hr. by simplify_eq.
Qed.

(** What the reflector does without an answer of the server. *)
Lemma own_event_ok n store r f e ev r' f' :
  at_revision n store r f → n ≤ e_committed e → pc_ok n r e → own_event (IReflector ev) = true →
  rstep IsConnectionRefused WatchListPageSize ev store r f = Some (r', f') →
  ∃ m, n ≤ m ≤ e_committed e ∧ at_revision m store r' f' ∧ pc_ok m r' e.
Proof.
  intros Har Hn Hpc Hown Hstep.
  assert (∀ pc, at_revision n store (with_pc pc r) f) as Hsame.
  { intros pc. by apply at_revision_frame with r; [| |apply Har]. }
  assert (at_revision n store r' f' ∧ pc_ok n r' e → ∃ m, n ≤ m ≤ e_committed e ∧ at_revision m store r' f' ∧ pc_ok m r' e)
    as Hn' by (intros []; by exists n). unfold pc_ok in Hpc.
  destruct ev as [|[page|err]|[|err]|it sr|short| |sr|]; simpl in Hown, Hstep; try done.
  - destruct (r_pc r); simplify_eq. apply Hn'. split; [apply Hsame|]. unfold pc_ok. cbn [r_pc list_begin with_pc].
    apply pager_List_ok. by eapply relist_asks_newer.
  - unfold list_page in Hstep. destruct (r_pc r) as [|initialRV retried size pg| | |] eqn:Hr; try done.
    eapply (list_page_ok n store r f e initialRV retried size pg (Err err)); try done. unfold list_page. by rw Hr.
  - unfold watch_begin in Hstep. destruct (r_pc r) eqn:Hr; simplify_eq/=. apply Hn'.
    case_match; [|by split]. split; [done|]. unfold pc_ok. by rw Hr.
  - unfold watch_closed in Hstep. destruct (r_pc r); simplify_eq/=. apply Hn'. destruct Hpc as [Hl _].
    destruct (short && _); [by apply watch_failed_ok|by split].
  - destruct (resync_ok _ _ _ _ _ _ Har Hstep) as (Har' & Hr & Hl). apply Hn'. split; [done|].
    unfold pc_ok. rw Hr Hl. exact Hpc.
  - rw (ar_resyncerr _ _ _ _ Har) in Hstep. by destruct (r_pc r).
  - apply Hn'. by destruct (r_pc r); simplify_eq.
Qed.

Lemma put_type_store n obj store f :
  watch_store (put_type sv n obj) obj store f = (df_Add obj f).2 ∨
  watch_store (put_type sv n obj) obj store f = (df_Update obj f).2.
Proof. unfold put_type. repeat case_match; simpl; auto. Qed.

(** A change sent by the watch takes the queue to the next revision. *)
Lemma watch_change_ok n store r f c :
  at_revision n store r f → sv_history sv !! n = Some c →
  let ty := match c with Put obj => put_type sv n obj | Del _ => Deleted end in
  let f' := watch_store ty (change_object c) store f in
  df_wf store f' ∧ df_populated f' = true ∧ view f' store = state_at sv (S n).
Proof.
  intros [Hwf _ Hview _ _ _] Hc. destruct (ok_history _ Hsv _ _ Hc) as (meta & Hmeta & _).
  pose proof (KeyOf_Accessor _ _ Hmeta) as Hkey. rw (state_at_S _ _ _ Hc). unfold apply_change.
  rw Hkey -Hview. destruct c as [obj|obj]; simpl in Hkey |- *.
  - destruct (put_type_store n obj store f) as [->| ->].
    + destruct (df_Add_ok store f obj _ Hwf Hkey) as (f' & -> & [? Hv _ _ Hp _]). by rw /= Hp Hv.
    + destruct (df_Update_ok store f obj _ Hwf Hkey) as (f' & -> & [? Hv _ _ Hp _]). by rw /= Hp Hv.
  - destruct (df_Delete_ok store f obj _ Hwf Hkey) as (f' & -> & ? & Hv & Hp & _). by rw /= Hp Hv.
Qed.

(** An item of the watch at the reflector's revision. *)
Lemma watch_item_ok n store r f e it shouldRetry c r' f' :
  at_revision n store r f → n ≤ e_committed e → pc_ok n r e →
  item_ok sv (e_committed e) (e_conn e) it c → watch_item it shouldRetry store r f = Some (r', f') →
  ∃ m, n ≤ m ≤ e_committed e ∧ at_revision m store r' f' ∧ pc_ok m r' (with_conn c e).
Proof.
  intros Har Hn Hpc Hit. unfold watch_item, pc_ok in *. destruct (r_pc r) as [| | |count|]; try done.
  destruct Hpc as [Hl Hconn]. intros Hw. rw Hconn in Hit.
  assert (∀ ty ch, sv_history sv !! n = Some ch → n < e_committed e → c = Following (S n) →
    ty = match ch with Put obj => put_type sv n obj | Del _ => Deleted end → ty ≠ ErrorEvent →
    it = ItemObject ty (change_object ch) →
    ∃ m, n ≤ m ≤ e_committed e ∧ at_revision m store r' f' ∧ pc_ok m r' (with_conn c e)) as Hchange.
  { intros ty ch Hch Hlt -> Hty Hne ->. destruct (watch_change_ok n store r f ch Har Hch) as (Hwf & Hp & Hv).
    rw -Hty in Hwf Hp Hv. destruct (ok_history _ Hsv _ _ Hch) as (meta & Hmeta & Hrv).
    simpl in Hw. rw Hmeta Hrv in Hw. assert (Hrf : r' = with_pc (RStreaming (S count)) (setLastSyncResourceVersion (sv_rv sv (S n)) r)
        ∧ f' = watch_store ty (change_object ch) store f) by (by destruct ty; simplify_eq).
    destruct Hrf as [-> ->]. exists (S n). split; [lia|]. split; [|done].
    split; [done|by rw Hp|done|by left|apply Har|]. intros Hl'. by destruct (ok_rv_proper _ Hsv (S n)). }
  inversion Hit as [| |? obj Hlt Hch|? obj Hlt Hch|? obj meta Hmeta Hrv|? ? Herr]; subst.
  - eapply (Hchange _ (Put obj)); try done. unfold put_type. by repeat case_match.
  - by eapply (Hchange _ (Del obj)).
  - simpl in Hw. rw Hmeta Hrv in Hw. simplify_eq/=. exists n. split; [done|]. split; [|done].
    apply at_revision_frame with r; [done| |apply Har]. by rw Hl.
  - rw Herr in Hw. simplify_eq. exists n. split; [done|]. by apply watch_failed_ok.
Qed.

(** The loop that pops the queue. *)
Lemma HandleDeltas_store ds (s : cstate T) store pending err :
  processDeltas ds (c_store s, c_pending s) = (err, (store, pending)) → c_store (HandleDeltas ds s) = store.
Proof. intros Hp. unfold HandleDeltas. by rw Hp. Qed.

Lemma pop_ok n r f (s : cstate T) ds f' :
  at_revision n (c_store s) r f → df_Pop f = Some (Some (ds, f')) →
  at_revision n (c_store (HandleDeltas ds s)) r f'.
Proof.
  intros [Hwf Hpop Hview Hrv Herr Hlisted] Hp. destruct (df_queue f) as [|k queue] eqn:Hq.
  { unfold df_Pop in Hp. rw Hq /= in Hp. by destruct (df_closed f). }
  destruct (df_Pop_ok _ _ _ _ Hwf Hq) as (ds' & Hds & Hok & Heq). rw Heq in Hp. simplify_eq.
  destruct (processDeltas_run options k ds s Hok) as (s' & _ & Hproc & Hs').
  rw (HandleDeltas_store _ _ _ _ _ Hproc) Hs'.
  destruct (df_popped _ _ _ _ _ Hwf Hq Hds) as [Hwf' Hview'].
  split; try done; [|by rw Hview'].
  intros [[=] _]%Hpop.
Qed.

Lemma closed_ok n store r f : at_revision n store r f → at_revision n store r (df_Close f).
Proof. intros [[] ? ? ? ? ?]. by repeat (split; [..|done]). Qed.

(** Nothing but the popping loop changes the cache. *)
Lemma control_store ev i s' :
  control_allowed ev i = true → step options ev (i_controller i) = Some s' → c_store s' = i_indexer i.
Proof.
  unfold i_indexer. destruct ev; simpl; try done; intros _ Hs;
    unfold_step Hs; step_cases; by simplify_eq.
Qed.

Abbreviation direct_step := (world_step IsConnectionRefused WatchListPageSize options sv Ok Some).

Lemma mirrors_step n w w' : mirrors n w → direct_step w w' → ∃ m, n ≤ m ∧ mirrors m w'.
Proof.
  intros (Har & Hn & Hpc) Hstep.
  destruct Hstep as [i e Hlt|ev i i' e Hown Hs|rv retried size pg page i i' e Hr Hpage Hs|c i i' e Hw Hs
    |it it' sr c i i' e Hit [= ->] Hs|]; simpl in *; [..|done].
  - exists n. split; [done|]. split; [done|]. split; [simpl; lia|]. unfold pc_ok in *. cbn [fst snd].
    destruct (r_pc (i_reflector i)); try done. eapply pager_ok_later, Hpc. simpl. lia.
  - destruct ev as [ev| | |ev].
    + simpl in Hs. destruct (rstep _ _ _ _ _ _) as [[r' f']|] eqn:Hrs; simplify_eq/=.
      destruct (own_event_ok _ _ _ _ _ _ _ _ Har Hn Hpc Hown Hrs) as (m & Hm & Har' & Hpc').
      exists m. split; [lia|]. split; [done|]. split; [simpl; lia|done].
    + simpl in Hs. destruct (df_Pop (i_fifo i)) as [[[ds f']|]|] eqn:Hp; simplify_eq/=.
      exists n. split; [done|]. split; [|done]. by eapply pop_ok.
    + simplify_eq/=. exists n. split; [done|]. split; [by apply closed_ok|done].
    + simpl in Hs. destruct (control_allowed ev i) eqn:Ha; [|done].
      destruct (step options ev (i_controller i)) as [s'|] eqn:Hst; simplify_eq/=.
      exists n. split; [done|]. split; [|done]. unfold i_indexer. simpl. by rw (control_store _ _ _ Ha Hst).
  - unfold pc_ok in Hpc. rw Hr in Hpc. destruct (list_page _ _ _ _) as [[r' f']|] eqn:Hl; simplify_eq/=.
    destruct (list_page_ok _ _ _ _ _ _ _ _ _ (Ok page) _ _ Har Hn Hr Hpc Hpage Hl) as (m & Hm & Har' & Hpc').
    exists m. split; [lia|]. split; [done|]. split; [simpl; lia|done].
  - unfold watch_begin in Hs. destruct (r_pc (i_reflector i)) eqn:Hr; simplify_eq/=.
    unfold pc_ok in Hpc. rw Hr in Hpc. exists n. split; [done|].
    split; [by apply at_revision_frame with (i_reflector i); [| |apply Har]|]. split; [done|]. split; [done|].
    destruct Hw as [(m & Hm & _ & ->)|[H0 _]].
    + rw Hpc in Hm. by apply (ok_rv_inj _ Hsv) in Hm as ->.
    + destruct (ok_rv_proper _ Hsv n) as [H1 _]. by rw Hpc in H0.
  - destruct (watch_item _ _ _ _ _) as [[r' f']|] eqn:Hwi; simplify_eq/=.
    destruct (watch_item_ok _ _ _ _ _ _ _ _ _ _ Har Hn Hpc Hit Hwi) as (m & Hm & Har' & Hpc').
    exists m. split; [lia|]. split; [done|]. split; [simpl; lia|done].
Qed.

Lemma mirrors_init : mirrors 0 (world_init (R := T) (T := T)).
Proof.
  split; [|done]. split; try done; [|by right]. split; try done; [apply NoDup_nil_2|].
  intros k. split; [by intros ?%elem_of_nil|by intros []].
Qed.

Lemma mirrors_steps n w w' : mirrors n w → rtc direct_step w w' → ∃ m, n ≤ m ∧ mirrors m w'.
Proof.
  intros Hn Hs. revert n Hn. induction Hs as [w|w w1 w' H1 _ IH]; intros n Hn; [by exists n|].
  destruct (mirrors_step _ _ _ Hn H1) as (m & ? & Hm). destruct (IH _ Hm) as (m' & ? & ?). exists m'. split; [lia|done].
Qed.

Lemma view_drained store f : df_wf store f → df_queue f = [] → view f store = store.
Proof.
  intros Hwf Hq. apply map_eq. intros k. rw lookup_view.
  destruct (df_items f !! k) as [ds|] eqn:Hi; [|done].
  assert (k ∈ df_queue f) as Hin by (apply (wf_queue _ _ Hwf); by eexists).
  rw Hq in Hin. by apply elem_of_nil in Hin.
Qed.

(** C15: an informer mirrors the server: at any time, what its cache will be once its
    queue is processed (and is, when the queue is empty) is the server's state at a
    revision the server had reached; the reflector's resource version is that
    revision's, unless nothing was listed yet; and the revision never goes back,
    whatever the server, the watch and the client do. *)
Theorem informer_mirrors_server w w' :
  world_reachable IsConnectionRefused WatchListPageSize options sv Ok Some w → rtc direct_step w w' →
  ∃ n m, n ≤ m ≤ e_committed w'.2 ∧
    i_view w.1 = state_at sv n ∧ i_view w'.1 = state_at sv m ∧
    (df_queue (i_fifo w'.1) = [] → i_indexer w'.1 = state_at sv m) ∧
    (r_lastSyncResourceVersion (i_reflector w'.1) = sv_rv sv m ∨
     r_lastSyncResourceVersion (i_reflector w'.1) = "" ∧ m = 0).
Proof.
  intros Hr Hs. destruct (mirrors_steps _ _ _ mirrors_init Hr) as (n & _ & Hn).
  destruct (mirrors_steps _ _ _ Hn Hs) as (m & Hnm & Hm). exists n, m.
  destruct Hn as (Har & _ & _), Hm as (Har' & Hc & _). split; [done|]. split; [apply Har|]. split; [apply Har'|].
  split; [|apply Har']. intros Hq. rw -(ar_view _ _ _ _ Har'). symmetry. apply view_drained; [apply Har'|done].
Qed.

(** ** Catching up *)

Definition expired : watchItem T :=
  ItemStatus ErrorEvent {| st_Status := "Failure"; st_Message := "too old resource version";
    st_Reason := StatusReasonExpired; st_Details := None; st_Code := 410 |}.

Definition moves n (w : informer T * environment T) (P : reflector T → Prop) : Prop :=
  ∃ w' m, rtc direct_step w w' ∧ n ≤ m ∧ mirrors m w' ∧ e_committed w'.2 = e_committed w.2 ∧ P (i_reflector w'.1).

Lemma moves_step n w w1 P :
  mirrors n w → direct_step w w1 → e_committed w1.2 = e_committed w.2 →
  (∀ m, n ≤ m → mirrors m w1 → moves m w1 P) → moves n w P.
Proof.
  intros Hn Hs Hc Hnext. destruct (mirrors_step _ _ _ Hn Hs) as (m & Hm & Hm1).
  destruct (Hnext m Hm Hm1) as (w' & m' & Hr & ? & ? & Hc' & ?). exists w', m'.
  split; [by eapply rtc_l|]. split; [lia|]. split; [done|]. by rw Hc'.
Qed.

(** A reflector that was not stopped can be brought back to listing. *)
Lemma streaming_to_idle n i e count :
  mirrors n (i, e) → r_pc (i_reflector i) = RStreaming count → moves n (i, e) (λ r, r_pc r = RIdle).
Proof.
  intros Hn Hr. eapply moves_step; [done| |..].
  - apply (world_item _ _ _ _ _ _ expired expired false NoWatch i
      {| i_reflector := with_pc RIdle (i_reflector i); i_fifo := i_fifo i; i_controller := i_controller i |});
      [by apply item_error|done|]. simpl. unfold watch_item. by rw Hr.
  - done.
  - intros m _ Hm. by eexists _, m.
Qed.

Lemma to_idle n i e :
  mirrors n (i, e) → r_pc (i_reflector i) ≠ RStopped → moves n (i, e) (λ r, r_pc r = RIdle).
Proof.
  intros Hn Hns. destruct (r_pc (i_reflector i)) as [|initialRV retried size pg| |count|] eqn:Hr; [| | | |done].
  - by exists (i, e), n.
  - eapply moves_step; [done| |..].
    + apply (world_own _ _ _ _ _ _ (IReflector (RPage (Err (ErrorString "unavailable")))) i
        {| i_reflector := with_pc RIdle (i_reflector i); i_fifo := i_fifo i; i_controller := i_controller i |}); [done|].
      simpl. unfold list_page. rw Hr. unfold pager_page. by destruct (pg_full pg), retried.
    + done.
    + intros m _ Hm. by eexists _, m.
  - destruct Hn as (Har & Hc & Hpc). pose proof Hpc as Hrv. unfold pc_ok in Hrv. simpl in Hrv. rw Hr in Hrv.
    eapply moves_step; [done| |..].
    + apply (world_watch _ _ _ _ _ _ (Following n) i
        {| i_reflector := with_pc (RStreaming 0) (i_reflector i); i_fifo := i_fifo i; i_controller := i_controller i |}).
      * left. exists n. done.
      * simpl. unfold watch_begin. by rw Hr.
    + done.
    + intros m _ Hm. by eapply streaming_to_idle.
  - by eapply streaming_to_idle.
Qed.

(** The server can answer the next list at once and with everything. *)
Definition whole_page e : KList T :=
  {| l_TypeMeta := zero_TypeMeta;
     l_ListMeta := {| lm_SelfLink := ""; lm_ResourceVersion := sv_rv sv (e_committed e); lm_Continue := "";
                      lm_RemainingItemCount := None |};
     l_Items := Some (sv_list sv (e_committed e)) |}.

Lemma whole_page_ok n e rv limit bookmarks :
  n ≤ e_committed e → asks_newer sv n rv →
  page_ok sv e {| lo_ResourceVersion := rv; lo_Limit := limit; lo_Continue := "";
                  lo_AllowWatchBookmarks := bookmarks |} (whole_page e).
Proof.
  intros Hn Hrv. exists (e_committed e), 0, (length (sv_list sv (e_committed e))). simpl.
  rw drop_0 firstn_all decide_False; [lia|].
  split; [|done]. split; [done|]. split; [done|]. split; [done|]. intros m ->. destruct Hrv as [H0|[H0|[H0 _]]].
  - by destruct (ok_rv_proper _ Hsv m).
  - by apply (ok_rv_inj _ Hsv) in H0 as ->.
  - by destruct (ok_rv_proper _ Hsv m).
Qed.

Lemma list_newest n i e :
  mirrors n (i, e) → r_pc (i_reflector i) = RIdle →
  moves n (i, e) (λ r, r_pc r = RWatch ∧ r_lastSyncResourceVersion r = sv_rv sv (e_committed e)).
Proof.
  intros Hn Hr. pose proof Hn as (Har & Hc & _). simpl in Har, Hc.
  pose proof (relist_asks_newer _ _ _ _ Har) as Hrv.
  set (i1 := {| i_reflector := list_begin WatchListPageSize (i_reflector i); i_fifo := i_fifo i;
                i_controller := i_controller i |}).
  eapply (moves_step n (i, e) (i1, e)); [done| |done|].
  { apply (world_own _ _ _ _ _ _ (IReflector RList)); [done|]. simpl. by rw Hr. }
  intros m Hm Hm1.
  destruct (listed_revision sv Hsv (e_committed e)) as (Hkeys & Hnd & _).
  destruct (df_Replace_ok (i_indexer i) (i_fifo i) _ _ (ar_wf _ _ _ _ Har)
    (λ Hp, proj1 (ar_populated _ _ _ _ Har Hp)) Hnd Hkeys) as (f' & Hrep & _).
  assert (∃ r', list_page (Ok (whole_page e)) (i_indexer i) (i_reflector i1) (i_fifo i) = Some (r', f') ∧
    r_pc r' = RWatch ∧ r_lastSyncResourceVersion r' = sv_rv sv (e_committed e)) as (r' & Hpage & Hpc & Hl).
  { unfold list_page. simpl. unfold list_end, listed. simpl. rw Hrep. by eexists. }
  eapply (moves_step m (i1, e)
    ({| i_reflector := r'; i_fifo := f'; i_controller := i_controller i |}, e)); [done| |done|].
  - eapply (world_page _ _ _ _ _ _ _ _ _ _ (whole_page e) i1); [reflexivity| |].
    + by apply (whole_page_ok n).
    + cbn [istep rstep]. change (i_indexer i1) with (i_indexer i). change (i_fifo i1) with (i_fifo i).
      rw Hpage. reflexivity.
  - intros m' _ Hm'. by eexists _, m'.
Qed.

(** The queue can be drained, which leaves the reflector alone. *)
Lemma drain n i e :
  mirrors n (i, e) →
  ∃ i', rtc direct_step (i, e) (i', e) ∧ df_queue (i_fifo i') = [] ∧ i_reflector i' = i_reflector i.
Proof.
  remember (length (df_queue (i_fifo i))) as len eqn:Hlen. revert i Hlen n.
  induction len as [|len IH]; intros i Hlen n Hn.
  { exists i. split; [done|]. by destruct (df_queue (i_fifo i)). }
  destruct (df_queue (i_fifo i)) as [|k queue] eqn:Hq; [done|]. simplify_eq/=.
  pose proof Hn as (Har & _). simpl in Har.
  destruct (df_Pop_ok _ _ _ _ (ar_wf _ _ _ _ Har) Hq) as (ds & _ & _ & Hpop).
  eassert (direct_step (i, e) (_, e)) as Hs.
  { apply (world_own _ _ _ _ _ _ IPop); [done|]. simpl. rw Hpop. reflexivity. }
  destruct (mirrors_step _ _ _ Hn Hs) as (m & _ & Hm).
  edestruct (λ i Hl, IH i Hl m) as (i' & Hr & Hq' & Hi'); [|exact Hm|]; [done|]. exists i'. split; [by eapply rtc_l|]. done.
Qed.

(** C33: an informer that was not stopped can always catch up: whatever happened, there
    is a way on, without any further change of the server, to an empty queue and a
    cache that is the server's newest state. *)
Theorem informer_can_catch_up w :
  world_reachable IsConnectionRefused WatchListPageSize options sv Ok Some w →
  r_pc (i_reflector w.1) ≠ RStopped →
  ∃ w', rtc direct_step w w' ∧ e_committed w'.2 = e_committed w.2 ∧
    df_queue (i_fifo w'.1) = [] ∧ i_indexer w'.1 = state_at sv (e_committed w.2).
Proof.
  intros Hr Hns. destruct (mirrors_steps _ _ _ mirrors_init Hr) as (n & _ & Hn). destruct w as [i e].
  destruct (to_idle _ _ _ Hn Hns) as ([i1 e1] & n1 & Hr1 & _ & Hn1 & Hc1 & Hpc1). simpl in *.
  destruct (list_newest _ _ _ Hn1 Hpc1) as ([i2 e2] & n2 & Hr2 & _ & Hn2 & Hc2 & Hpc2 & Hl2). simpl in *.
  destruct (drain _ _ _ Hn2) as (i3 & Hr3 & Hq3 & Hi3).
  destruct (mirrors_steps _ _ _ Hn2 Hr3) as (n3 & _ & Har3 & _ & Hpc3). simpl in *.
  exists (i3, e2). split; [by etrans; [|etrans]|]. split; [simpl; congruence|]. split; [done|].
  rw -Hc1. unfold pc_ok in Hpc3. rw Hi3 Hpc2 Hl2 in Hpc3. apply (ok_rv_inj _ Hsv) in Hpc3 as ->.
  rw -(ar_view _ _ _ _ Har3). symmetry. apply view_drained; [apply Har3|done].
Qed.
End Mirror.

(** ** Witnesses

    A server of one object, whose resource versions are unary numbers, and an informer
    that lists its first version and then sees an update. *)
Module MirrorWitness.
Import ControllerWitness.

Fixpoint unary (n : nat) : string := match n with 0 => "" | S n => "1" +:+ unary n end.

Lemma unary_inj : Inj (=) (=) unary.
Proof. intros n. induction n as [|n IH]; intros [|m]; simpl; [done..|]. intros [= Heq]. f_equal. by apply IH. Qed.

Lemma unary_token_inj n m k j : unary n +:+ "," +:+ unary k = unary m +:+ "," +:+ unary j → n = m ∧ k = j.
Proof.
  revert m. induction n as [|n IH]; intros [|m]; simpl; try done.
  - intros [= Heq]. split; [done|]. by apply unary_inj.
  - intros [= Heq]. destruct (IH m Heq) as [-> ->]. done.
Qed.

Definition demo_server (history : list (change demo_obj)) : server demo_obj :=
  {| sv_rv n := unary (S n);
     sv_token n k := unary n +:+ "," +:+ unary k;
     sv_history := history;
     sv_list n := (map_to_list (foldl apply_change ∅ (take n history))).*2 |}.

Definition one_widget : server demo_obj :=
  demo_server [Put (widget "11"); Put (widget "111"); Del (widget "1111")].

Lemma demo_server_ok history :
  (∀ n c, history !! n = Some c → change_object c = widget (unary (S (S n)))) → server_ok (demo_server history).
Proof.
  intros Hh. split; simpl.
  - intros n m [= Heq]. by apply unary_inj.
  - done.
  - intros n1 k1 n2 k2. apply unary_token_inj.
  - intros n k. by destruct n.
  - intros n c Hc. rw (Hh n c Hc). by eexists.
  - done.
Qed.

Lemma one_widget_ok : server_ok one_widget.
Proof. apply demo_server_ok. by intros [|[|[|n]]] c [= <-]. Qed.

Definition first_page : KList demo_obj :=
  {| l_TypeMeta := zero_TypeMeta;
     l_ListMeta := {| lm_SelfLink := ""; lm_ResourceVersion := "11"; lm_Continue := ""; lm_RemainingItemCount := None |};
     l_Items := Some [widget "11"] |}.

Definition refused (err : error) : bool := false.
Abbreviation demo_step := (istep refused 0 demo_options).

Definition script : list (ievent demo_obj) :=
  [IReflector RList; IReflector (RPage (Ok first_page)); IPop; IReflector (RWatched (Ok tt));
   IReflector (RItem (ItemObject Modified (widget "111")) false); IPop].

Definition at_step (k committed : nat) (c : conn demo_obj) : informer demo_obj * environment demo_obj :=
  (default new_informer (run demo_step (take k script) new_informer), {| e_committed := committed; e_conn := c |}).

Abbreviation demo_world := (world_step refused 0 demo_options one_widget Ok Some).

Lemma begun : rtc demo_world world_init (at_step 1 1 NoWatch).
Proof.
  apply rtc_l with (at_step 0 1 NoWatch); [by apply (world_commit _ _ _ _ _ _ _ {| e_committed := 0; e_conn := NoWatch |}); simpl; lia|].
  apply rtc_once. by apply (world_own _ _ _ _ _ _ (IReflector RList)).
Qed.

Lemma first_page_listed : demo_world (at_step 1 1 NoWatch) (at_step 2 1 NoWatch).
Proof.
  eapply (world_page _ _ _ _ _ _ _ _ _ _ first_page); [reflexivity| |reflexivity].
  exists 1, 0, 1. simpl. split; [|split_and!; [intros _; by apply Nat.leb_le|by vm_compute..]].
  split; [done|]. split; [done|]. split; [done|]. by intros [|m].
Qed.

Lemma first_page_popped : rtc demo_world (at_step 2 1 NoWatch) (at_step 3 1 NoWatch).
Proof. by apply rtc_once, (world_own _ _ _ _ _ _ IPop). Qed.

Lemma script_listed : rtc demo_world world_init (at_step 3 1 NoWatch).
Proof. etrans; [exact begun|]. etrans; [apply rtc_once, first_page_listed|exact first_page_popped]. Qed.

Lemma script_watched : rtc demo_world (at_step 3 1 NoWatch) (at_step 6 2 (Following 2)).
Proof.
  apply rtc_l with (at_step 4 1 (Following 1)).
  { apply (world_watch _ _ _ _ _ _ (Following 1) (at_step 3 1 NoWatch).1 (at_step 4 1 (Following 1)).1
      {| e_committed := 1; e_conn := NoWatch |}); [|reflexivity]. left. by exists 1. }
  apply rtc_l with (at_step 4 2 (Following 1)).
  { by apply (world_commit _ _ _ _ _ _ _ {| e_committed := 1; e_conn := Following 1 |}); simpl; lia. }
  apply rtc_l with (at_step 5 2 (Following 2)); [|apply rtc_once; by apply (world_own _ _ _ _ _ _ IPop)].
  eapply (world_item _ _ _ _ _ _ (ItemObject (put_type one_widget 1 (widget "111")) (widget "111")) _ false (Following 2)
    (at_step 4 2 (Following 1)).1 (at_step 5 2 (Following 2)).1 {| e_committed := 2; e_conn := Following 1 |});
    [|reflexivity|reflexivity].
  apply item_put; [simpl; lia|done].
Qed.

Lemma informer_mirrors_server_witness :
  ∃ m, m ≤ 2 ∧ i_indexer (at_step 6 2 (Following 2)).1 = state_at one_widget m ∧
    i_indexer (at_step 6 2 (Following 2)).1 !! key = Some (widget "111").
Proof.
  destruct (informer_mirrors_server refused 0 demo_options one_widget one_widget_ok
    (at_step 3 1 NoWatch) (at_step 6 2 (Following 2)) script_listed script_watched)
    as (n & m & [_ Hm] & _ & _ & Hi & _).
  exists m. split; [exact Hm|]. split; [apply Hi; vm_compute; reflexivity|vm_compute; reflexivity].
Defined.

Lemma informer_can_catch_up_witness :
  ∃ w', rtc demo_world (at_step 3 1 NoWatch) w' ∧ i_indexer w'.1 !! key = Some (widget "11").
Proof.
  destruct (informer_can_catch_up refused 0 demo_options one_widget one_widget_ok (at_step 3 1 NoWatch) script_listed)
    as (w' & Hr & _ & _ & Hi).
  { vm_compute. discriminate. }
  exists w'. split; [exact Hr|]. transitivity (state_at one_widget 1 !! key); [|vm_compute; reflexivity].
  f_equal. exact Hi.
Defined.
End MirrorWitness.
