(* ===== verification/Convergence.v ===== *)
(** * What the reconciler sees of the API server

    The informer ([Mirror]) and the generic controller behind it ([Controller])
    together: once a change has gone through the reflector, the queue of changes, the
    cache, the handlers, the work queue and a worker, the reconciler was called with the
    server's object; and a controller does not start before its cache has all objects
    of the first list. *)
From S2P Require Import Prelude GoStrings ApiMachinery Admission TransformedClient Workqueue Controller DeltaFIFO.
From S2P Require Import Reflector Informer Mirror.

(** Processing a key's deltas is a run of the controller's informer events. *)
Lemma HandleDeltas_run {T} `{MetaAccessor T} options k ds (s : cstate T) :
  deltas_ok k (c_store s !! k) ds → run (step options) (delta_event <$> ds) s = Some (HandleDeltas ds s).
Proof.
  revert s. induction ds as [|d ds IH]; intros s Hok.
  { unfold HandleDeltas. simpl. rw union_empty_l_L. by destruct s. }
  assert (∀ s1, step options (delta_event d) s = Some s1 → deltas_ok k (c_store s1 !! k) ds →
    HandleDeltas ds s1 = HandleDeltas (d :: ds) s →
    run (step options) (delta_event <$> (d :: ds)) s = Some (HandleDeltas (d :: ds) s)) as Hstep.
  { intros s1 He Hok1 <-. cbn [fmap list_fmap run]. rw He. by apply IH. }
  destruct d as [ty obj|[obj|key obj]]; cbn [deltas_ok] in Hok.
  - destruct Hok as [Hk Hok]. eapply Hstep.
    + simpl. unfold informer_upsert. simpl in Hk. by rw Hk.
    + simpl. by rw lookup_insert_eq.
    + unfold HandleDeltas. cbn [processDeltas]. rw Hk. simpl. by destruct (processDeltas ds _) as [? []].
  - destruct Hok as (_ & Hk & _ & Hok). eapply Hstep.
    + simpl. unfold informer_delete. simpl in Hk. by rw Hk.
    + simpl. by rw lookup_delete_eq.
    + unfold HandleDeltas. cbn [processDeltas]. rw Hk. simpl. by destruct (processDeltas ds _) as [? []].
  - destruct Hok as ([old Hold] & [= ->] & -> & Hok). eapply Hstep.
    + simpl. unfold informer_deleteUnknown. by rw Hold.
    + simpl. by rw lookup_delete_eq.
    + unfold HandleDeltas. cbn [processDeltas KeyOf]. rw Hold. simpl.
      destruct (processDeltas ds _) as [? []]. f_equal. set_solver.
Qed.

Section Convergence.
Context {T : Type} `{MetaAccessor T}.
Context (IsConnectionRefused : error → bool) (WatchListPageSize : Z) (options : ControllerOptions).
Context (sv : server T) (Hsv : server_ok sv).
Implicit Types (i : informer T) (e : environment T) (r : reflector T) (f : fifo T) (store : gmap string T).

Abbreviation direct_step := (world_step IsConnectionRefused WatchListPageSize options sv Ok Some).
Abbreviation direct_reachable := (world_reachable IsConnectionRefused WatchListPageSize options sv Ok Some).

(** ** How the queue grows *)

Inductive fifo_move store f : fifo T → Prop :=
| fm_same : fifo_move store f f
| fm_close : fifo_move store f (df_Close f)
| fm_list m f' : df_Replace store (sv_list sv m) f = (None, f') → fifo_move store f f'
| fm_resync f' : df_Resync store f = (None, f') → fifo_move store f f'
| fm_change n c : sv_history sv !! n = Some c → df_populated f = true →
    fifo_move store f
      (watch_store (match c with Put obj => put_type sv n obj | Del _ => Deleted end) (change_object c) store f).

Inductive informer_move i i' : Prop :=
| im_queue : i_controller i' = i_controller i → fifo_move (i_indexer i) (i_fifo i) (i_fifo i') → informer_move i i'
| im_pop ds : df_Pop (i_fifo i) = Some (Some (ds, i_fifo i')) →
    i_controller i' = HandleDeltas ds (i_controller i) → informer_move i i'
| im_control ev : control_allowed ev i = true → step options ev (i_controller i) = Some (i_controller i') →
    i_fifo i' = i_fifo i → informer_move i i'.

Lemma list_end_move initialRV m paginated store r f r' f' n :
  at_revision sv n store r f →
  list_end initialRV (Ok (sv_rv sv m, sv_list sv m)) paginated store r f = (r', f') → fifo_move store f f'.
Proof.
  intros [Hwf Hpop _ _ _ _]. unfold list_end. destruct (listed_revision sv Hsv m) as (Hkeys & Hnd & _).
  destruct (df_Replace_ok store f _ _ Hwf (λ Hp, proj1 (Hpop Hp)) Hnd Hkeys) as (f1 & Hr & _). rw Hr.
  intros [= _ <-]. by eapply fm_list.
Qed.

Lemma list_page_move n store r f e initialRV retried size pg answer r' f' :
  at_revision sv n store r f → n ≤ e_committed e → r_pc r = RListing initialRV retried size pg →
  pager_ok sv n (e_committed e) pg →
  match answer with Ok page => page_ok sv e (pg_options pg) page | Err _ => True end →
  list_page answer store r f = Some (r', f') → fifo_move store f f'.
Proof.
  intros Har Hn Hpc Hpg Hans. unfold list_page. rw Hpc. intros [= Heq].
  destruct answer as [page|err].
  - pose proof (pager_page_ok sv Hsv n e pg page Hn Hpg Hans) as Hp.
    destruct (pager_page pg (Ok page)) as [pg'|list paginated]; [simplify_eq; constructor|].
    destruct Hp as (m & _ & ->). by eapply list_end_move.
  - pose proof (pager_page_failed sv n (e_committed e) pg err Hpg) as Hp.
    destruct (pager_page pg (Err err)) as [pg'|list paginated]; [simplify_eq; constructor|].
    subst list. destruct retried; [|destruct (_ || _)]; simplify_eq/=; constructor.
Qed.

Lemma own_event_move n store r f e ev r' f' :
  at_revision sv n store r f → n ≤ e_committed e → pc_ok sv n r e → own_event (IReflector ev) = true →
  rstep IsConnectionRefused WatchListPageSize ev store r f = Some (r', f') → fifo_move store f f'.
Proof.
  intros Har Hn Hpc Hown Hstep. unfold pc_ok in Hpc.
  destruct ev as [|[page|err]|[|err]|it sr|short| |sr|]; simpl in Hown, Hstep; try done.
  - destruct (r_pc r); simplify_eq. constructor.
  - unfold list_page in Hstep. destruct (r_pc r) as [|initialRV retried size pg| | |] eqn:Hr; try done.
    eapply (list_page_move n store r f e initialRV retried size pg (Err err)); try done. unfold list_page. by rw Hr.
  - destruct (watch_begin _ _ _); simplify_eq/=. constructor.
  - destruct (watch_closed _ _); simplify_eq/=. constructor.
  - unfold resync in Hstep. destruct (df_Resync store f) as [err f1] eqn:Hd.
    destruct (resyncKeys_ok store f (map_to_list store)) as (f2 & Hok & _);
      [apply Har|by intros k obj Hin%elem_of_map_to_list|]. unfold df_Resync in Hd. rw Hd in Hok. simplify_eq.
    assert (f' = f2) as -> by (by destruct (r_pc r), (r_resyncing r); repeat case_match; simplify_eq). by apply fm_resync.
  - assert (f' = f) as -> by (by destruct (r_pc r), (r_resyncerr r); simplify_eq). constructor.
  - assert (f' = f) as -> by (by destruct (r_pc r); simplify_eq). constructor.
Qed.

Lemma watch_item_move n store r f e it shouldRetry c r' f' :
  at_revision sv n store r f → pc_ok sv n r e → item_ok sv (e_committed e) (e_conn e) it c →
  watch_item it shouldRetry store r f = Some (r', f') → fifo_move store f f'.
Proof.
  intros Har Hpc Hit. unfold watch_item, pc_ok in *. destruct (r_pc r) as [| | |count|]; try done.
  destruct Hpc as [Hl Hconn]. intros Hw. rw Hconn in Hit.
  assert (df_populated f = true) as Hpop.
  { apply not_false_iff_true. intros (_ & _ & Hl')%(ar_populated _ _ _ _ _ Har).
    destruct (ok_rv_proper _ Hsv n). congruence. }
  inversion Hit as [| |? obj Hlt Hch|? obj Hlt Hch|? obj meta Hmeta Hrv|? ? Herr]; subst.
  - destruct (ok_history _ Hsv _ _ Hch) as (meta & Hmeta & _). simpl in Hw, Hmeta. rw Hmeta in Hw.
    pose proof (fm_change store f n (Put obj) Hch Hpop) as Hm. simpl in Hm. unfold put_type in *.
    repeat case_match; by simplify_eq.
  - destruct (ok_history _ Hsv _ _ Hch) as (meta & Hmeta & _). simpl in Hw, Hmeta. rw Hmeta in Hw.
    simplify_eq. by apply (fm_change store f n (Del obj)).
  - simpl in Hw. rw Hmeta in Hw. simplify_eq/=. constructor.
  - rw Herr in Hw. simplify_eq. constructor.
Qed.

Lemma direct_step_move n w w' : mirrors sv n w → direct_step w w' → informer_move w.1 w'.1.
Proof.
  intros (Har & Hn & Hpc) Hstep.
  destruct Hstep as [i e Hlt|ev i i' e Hown Hs|rv retried size pg page i i' e Hr Hpage Hs|c i i' e Hw Hs
    |it it' sr c i i' e Hit [= ->] Hs|]; simpl in *; [| | | | |done].
  - apply im_queue; [done|constructor].
  - destruct ev as [ev| | |ev]; simpl in Hs.
    + destruct (rstep _ _ _ _ _ _) as [[r' f']|] eqn:Hrs; simplify_eq/=.
      apply im_queue; [done|]. by eapply own_event_move.
    + destruct (df_Pop (i_fifo i)) as [[[ds f']|]|] eqn:Hp; simplify_eq/=. by apply (im_pop _ _ ds).
    + simplify_eq/=. apply im_queue; [done|constructor].
    + destruct (control_allowed ev i) eqn:Ha; [|done].
      destruct (step options ev (i_controller i)) as [s'|] eqn:Hst; simplify_eq/=. by apply (im_control _ _ ev).
  - unfold pc_ok in Hpc. rw Hr in Hpc. destruct (list_page _ _ _ _) as [[r' f']|] eqn:Hl; simplify_eq/=.
    apply im_queue; [done|]. by eapply (list_page_move _ _ _ _ _ _ _ _ _ (Ok page)).
  - destruct (watch_begin _ _ _) as [r'|]; simplify_eq/=. apply im_queue; [done|constructor].
  - destruct (watch_item _ _ _ _ _) as [[r' f']|] eqn:Hwi; simplify_eq/=.
    apply im_queue; [done|]. by eapply watch_item_move.
Qed.

(** ** The controller's run

    The objects the server ever served; all that is queued or cached is one. *)
Definition served (obj : T) : Prop := ∃ n, sv_history sv !! n = Some (Put obj).

Lemma state_at_served n k obj : state_at sv n !! k = Some obj → served obj.
Proof.
  revert k obj. induction n as [|n IH]; intros k obj; [by rw /state_at lookup_empty|].
  destruct (sv_history sv !! n) as [c|] eqn:Hc.
  - rw (state_at_S _ _ _ Hc). unfold apply_change. destruct (KeyOf _) as [k'|]; [|apply IH].
    destruct c as [o|o].
    + rw lookup_insert. case_decide; [|apply IH]. intros [= <-]. by exists n.
    + rw lookup_delete. case_decide; [done|apply IH].
  - apply lookup_ge_None in Hc. unfold state_at in *. rw take_ge; [lia|]. rw take_ge // in IH. apply IH.
Qed.

Lemma sv_list_served n : Forall served (sv_list sv n).
Proof.
  rw (ok_list _ Hsv). apply Forall_forall.
  intros obj ([k o] & -> & Hin%elem_of_map_to_list)%list_elem_of_fmap. by eapply state_at_served.
Qed.

Lemma fifo_move_served store f f' :
  (∀ k obj, store !! k = Some obj → served obj) → fifo_move store f f' → queue_from served f → queue_from served f'.
Proof.
  intros Hstore [| |m f1 Hr|f1 Hr|n c Hc _] Hf; try done.
  - replace f1 with (df_Replace store (sv_list sv m) f).2 by (by rw Hr).
    apply df_Replace_from; [apply sv_list_served|done].
  - replace f1 with (df_Resync store f).2 by (by rw Hr). apply resyncKeys_from; [|done].
    apply Forall_forall. intros obj ([k o] & -> & Hin%elem_of_map_to_list)%list_elem_of_fmap. by eapply Hstore.
  - destruct c as [obj|obj]; [|by apply df_Delete_from].
    destruct (put_type_store sv n obj store f) as [Heq|Heq]; cbn [change_object]; rw Heq;
      (apply queueAction_from; [by exists n|done]).
Qed.

Record traced i : Prop := {
  tr_run : ∃ es, Forall (served_event served) es ∧ run (step options) es init = Some (i_controller i);
  tr_queue : queue_from served (i_fifo i);
}.

(** Versions identify the objects the server served. *)
Lemma served_version (o1 o2 : T) m1 m2 :
  served o1 → served o2 → Accessor o1 = Some m1 → Accessor o2 = Some m2 →
  mo_ResourceVersion m1 = mo_ResourceVersion m2 → o1 = o2.
Proof.
  intros [n1 H1] [n2 H2] Hm1 Hm2 Heq.
  destruct (ok_history _ Hsv _ _ H1) as (m1' & Hm1' & Hv1), (ok_history _ Hsv _ _ H2) as (m2' & Hm2' & Hv2).
  simpl in Hm1', Hm2'. simplify_eq. rw Heq Hv2 in Hv1. apply (ok_rv_inj _ Hsv) in Hv1. by simplify_eq.
Qed.

Context (names_valid : ∀ (obj : T) m, served obj → Accessor obj = Some m →
  has_byte slash (mo_Name m) = false ∧ has_byte slash (mo_Namespace m) = false).

Lemma traced_cover i : traced i → cover_inv served (i_controller i).
Proof.
  intros [(es & Hes & Hr) _]. apply (run_cover options served names_valid) with es; [|done..].
  intros o1 o2 m1 m2 H1 H2 Ha1 Ha2 _. by apply served_version.
Qed.

Lemma traced_step n w w' : mirrors sv n w → traced w.1 → direct_step w w' → traced w'.1.
Proof.
  intros Hn Htr Hs. destruct (traced_cover _ Htr) as [Hst _]. destruct Htr as [(es & Hes & Hr) Hq].
  destruct (direct_step_move _ _ _ Hn Hs) as [Hc Hf|ds Hp Hc|ev Ha He Hf].
  - split; [rw Hc; by exists es|]. eapply fifo_move_served; [|done|done].
    intros k obj Hobj. by destruct (Hst k obj Hobj).
  - destruct Hn as (Har & _). pose proof (ar_wf _ _ _ _ _ Har) as Hwf.
    destruct (df_queue (i_fifo w.1)) as [|k queue] eqn:Hqu.
    { unfold df_Pop in Hp. rw Hqu /= in Hp. by destruct (df_closed _). }
    destruct (df_Pop_ok _ _ _ _ Hwf Hqu) as (ds' & Hds & Hok & Hpop). rw Hpop in Hp. injection Hp as -> Hf.
    split.
    + exists (es ++ (delta_event <$> ds)). split.
      * apply Forall_app. split; [done|]. apply Forall_fmap. eapply Forall_impl; [by eapply Hq|].
        by intros [ty obj|[]].
      * rw run_app Hr. cbn [mbind option_bind]. rw (HandleDeltas_run _ k); [done|]. by rw Hc.
    + intros k' ds1 Hi. rw -Hf /= in Hi. apply lookup_delete_Some in Hi as [_ Hi]. by eapply Hq.
  - split; [|by rw Hf]. exists (es ++ [ev]). split.
    + apply Forall_app. split; [done|]. constructor; [|done]. by destruct ev.
    + rw run_app Hr /= He. done.
Qed.

Lemma reachable_traced w : direct_reachable w → ∃ n, mirrors sv n w ∧ traced w.1.
Proof.
  assert (∃ n, mirrors sv n world_init ∧ traced (world_init (R := T)).1) as Hinit.
  { exists 0. split; [apply mirrors_init|]. split; [|by intros k ds]. exists []. by split. }
  unfold world_reachable. generalize dependent (world_init (R := T) (T := T)). intros w1 Hw1 Hr.
  induction Hr as [w|w1 w2 w Hs _ IH]; [done|]. apply IH. destruct Hw1 as (n & Hn & Ht).
  destruct (mirrors_step _ _ _ _ Hsv _ _ _ Hn Hs) as (m & _ & Hm). exists m. split; [done|]. by apply (traced_step n w1).
Qed.

(** C14: changes reach the reconciler, for an informer that talks to the API server
    directly, objects whose names have no slash and a controller that is not shutting
    down: whenever the informer's queue is empty and the controller has nothing left to
    do, the reconciler's last accepted call for a key was with the object the server had
    under that key (or with none) at the reflector's resource version; while a watch is
    open, that is the state up to the last change the watch has sent.  Nothing is claimed
    of the keys that were ever deleted with an unknown final state (tombstones, whose
    deletions are lost: [Controller.tombstone_deletion_is_lost]). *)
Theorem reconciler_sees_the_server w k :
  direct_reachable w → df_queue (i_fifo w.1) = [] → quiescent (i_controller w.1) →
  q_shuttingDown (c_queue (i_controller w.1)) = false →
  valid_key k → k ∉ c_tombstoned (i_controller w.1) →
  ∃ n, n ≤ e_committed w.2 ∧ c_last (i_controller w.1) !! k = state_at sv n !! k ∧
    (r_lastSyncResourceVersion (i_reflector w.1) = sv_rv sv n ∨
     r_lastSyncResourceVersion (i_reflector w.1) = "" ∧ n = 0) ∧
    (∀ count, r_pc (i_reflector w.1) = RStreaming count → e_conn w.2 = Following n).
Proof.
  intros Hr Hq Hquiet Hshut Hv Ht. destruct (reachable_traced w Hr) as (n & (Har & Hn & Hpc) & Htr).
  exists n. split; [done|]. split.
  - destruct Htr as [(es & Hes & Hrun) _].
    transitivity (i_indexer w.1 !! k); [apply (quiescent_up_to_date options served names_valid) with es; try done|].
    + intros o1 o2 m1 m2 H1 H2 Ha1 Ha2 _. by apply served_version.
    + rw -(ar_view _ _ _ _ _ Har) view_drained //. apply Har.
  - split; [apply Har|]. intros count Hs. unfold pc_ok in Hpc. rw Hs in Hpc. apply Hpc.
Qed.

(** ** The first list *)

(** The cache has everything as it was at revision [n0] or later. *)
Definition settled (n0 n : nat) (k : string) store : Prop :=
  ∃ m, n0 ≤ m ≤ n ∧ store !! k = state_at sv m !! k.

(** Until the first list is processed, its keys lead the queue. *)
Definition syncing (n0 n : nat) i : Prop :=
  n0 ≤ n ∧ df_populated (i_fifo i) = true ∧
  ∀ k, settled n0 n k (i_indexer i) ∨
       k ∈ take (Z.to_nat (df_initialPopulationCount (i_fifo i))) (df_queue (i_fifo i)).

Lemma fifo_move_grows n store r f f' :
  at_revision sv n store r f → fifo_move store f f' →
  if df_populated f
  then df_populated f' = true ∧ df_initialPopulationCount f' = df_initialPopulationCount f ∧
       df_queue f `prefix_of` df_queue f'
  else df_populated f' = true → store = ∅ ∧ df_initialPopulationCount f' = Z.of_nat (length (df_queue f')).
Proof.
  intros [Hwf Hpop _ _ _ _] Hm. destruct Hm as [| |m f' Hr|f' Hr|m c Hc Hp].
  - by destruct (df_populated f).
  - simpl. by destruct (df_populated f).
  - destruct (listed_revision sv Hsv m) as (Hkeys & Hnd & _).
    destruct (df_Replace_ok store f _ _ Hwf (λ Hp, proj1 (Hpop Hp)) Hnd Hkeys) as (f1 & Hr1 & _ & _ & Hp1 & Hq1 & Hc1).
    rw Hr1 in Hr. simplify_eq. revert Hc1. destruct (df_populated f) eqn:Hp; [done|]. intros Hc1 _. split; [by apply Hpop|done].
  - destruct (resyncKeys_ok store f (map_to_list store) Hwf) as (f2 & Hr2 & _ & _ & Hp2 & Hc2 & Hq2).
    { by intros k obj Hin%elem_of_map_to_list. }
    unfold df_Resync in Hr. rw Hr2 in Hr. simplify_eq. rw Hp2. by destruct (df_populated f).
  - rw Hp. destruct (ok_history _ Hsv _ _ Hc) as (meta & Hmeta & _).
    pose proof (KeyOf_Accessor _ _ Hmeta) as Hkey. destruct c as [obj|obj]; cbn [change_object] in *.
    + assert (∀ f', queued_action store (with_populated f) f' (metaKey meta) (Some obj) →
        df_populated f' = true ∧ df_initialPopulationCount f' = df_initialPopulationCount f ∧
        df_queue f `prefix_of` df_queue f') as Hqa.
      { intros f' [_ _ Hq _ -> ->]. split; [done|]. split; [done|]. simpl in Hq.
        destruct (decide _); rw Hq; [reflexivity|by apply prefix_app_r]. }
      destruct (put_type_store sv m obj store f) as [->| ->].
      * destruct (df_Add_ok store f obj _ Hwf Hkey) as (f' & -> & Hf'). by apply Hqa.
      * destruct (df_Update_ok store f obj _ Hwf Hkey) as (f' & -> & Hf'). by apply Hqa.
    + destruct (df_Delete_ok store f obj _ Hwf Hkey) as (f' & Heq & _ & _ & Hp' & Hc' & Hq').
      simpl. by rw Heq.
Qed.

Lemma take_prefix {A} (n : nat) (l l' : list A) x : l `prefix_of` l' → x ∈ take n l → x ∈ take n l'.
Proof. intros [k ->] Hx. rw take_app. apply elem_of_app. by left. Qed.

Lemma settled_later n0 n n' k store : n ≤ n' → settled n0 n k store → settled n0 n' k store.
Proof. intros Hn (m & Hm & Hk). exists m. split; [lia|done]. Qed.

Lemma pop_settles n n0 i i' e ds :
  mirrors sv n (i, e) → syncing n0 n i → df_Pop (i_fifo i) = Some (Some (ds, i_fifo i')) →
  i_controller i' = HandleDeltas ds (i_controller i) → syncing n0 n i'.
Proof.
  intros (Har & _) (Hn0 & Hp & Hsync) Hpop Hc. simpl in Har. pose proof (ar_wf _ _ _ _ _ Har) as Hwf.
  destruct (df_queue (i_fifo i)) as [|k queue] eqn:Hq.
  { unfold df_Pop in Hpop. rw Hq /= in Hpop. by destruct (df_closed _). }
  destruct (df_Pop_ok _ _ _ _ Hwf Hq) as (ds' & Hds & Hok & Heq). rw Heq in Hpop. injection Hpop as -> Hf.
  destruct (processDeltas_run options k ds (i_controller i) Hok) as (s' & _ & Hproc & Hs').
  assert (i_indexer i' = partial_alter (λ _, view (i_fifo i) (i_indexer i) !! k) k (i_indexer i)) as Hi'.
  { unfold i_indexer. rw Hc (HandleDeltas_store _ _ _ _ _ Hproc) Hs'. f_equal. rw lookup_view Hds. done. }
  split; [done|]. rw -Hf. split; [done|]. intros k'. cbn [df_initialPopulationCount df_queue]. rw Hi'.
  destruct (decide (k' = k)) as [->|Hne].
  - left. exists n. split; [done|]. rw lookup_partial_alter_eq. by rw (ar_view _ _ _ _ _ Har).
  - unfold settled. rw lookup_partial_alter_ne //. destruct (Hsync k') as [|Hin]; [by left|]. right.
    destruct (Z.to_nat (df_initialPopulationCount (i_fifo i))) as [|count] eqn:Hcount; [by apply elem_of_nil in Hin|].
    apply elem_of_cons in Hin as [|Hin]; [done|].
    by replace (Z.to_nat (0 `max` (df_initialPopulationCount (i_fifo i) - 1))) with count by lia.
Qed.

Lemma syncing_step n0 n w w' :
  mirrors sv n w → syncing n0 n w.1 → direct_step w w' → ∃ m, mirrors sv m w' ∧ syncing n0 m w'.1.
Proof.
  intros Hn Hsync Hs. destruct (mirrors_step _ _ _ _ Hsv _ _ _ Hn Hs) as (m & Hnm & Hm).
  exists m. split; [done|]. pose proof Hn as (Har & _).
  assert (syncing n0 n w'.1 → syncing n0 m w'.1) as Hlater.
  { intros (? & ? & Hk). split; [lia|]. split; [done|]. intros k.
    destruct (Hk k) as [Hk'|]; [|by right]. left. by eapply settled_later. }
  apply Hlater. destruct (direct_step_move _ _ _ Hn Hs) as [Hc Hf|ds Hp Hc|ev Ha He Hf].
  - destruct Hsync as (Hn0 & Hp & Hk). pose proof (fifo_move_grows _ _ _ _ _ Har Hf) as Hg. rw Hp in Hg.
    destruct Hg as (Hp' & Hc' & Hq'). split; [done|]. split; [done|]. intros k. unfold i_indexer. rw Hc Hc'.
    destruct (Hk k) as [|Hin]; [by left|]. right. by eapply take_prefix.
  - destruct w as [i e]. by eapply pop_settles.
  - destruct Hsync as (Hn0 & Hp & Hk). split; [done|]. rw Hf. split; [done|].
    unfold i_indexer. by rw (control_store options ev w.1 _ Ha He).
Qed.

Lemma sync_begins n0 n w1 w2 :
  mirrors sv n w1 → df_populated (i_fifo w1.1) = false → direct_step w1 w2 → df_populated (i_fifo w2.1) = true →
  mirrors sv n0 w2 → syncing n0 n0 w2.1.
Proof.
  intros Hn Hp1 Hs Hp2 (Har2 & _). split; [done|]. split; [done|]. intros k. pose proof Hn as (Har & _).
  destruct (direct_step_move _ _ _ Hn Hs) as [Hc Hf|ds Hp Hc|ev Ha He Hf].
  - pose proof (fifo_move_grows _ _ _ _ _ Har Hf) as Hg. rw Hp1 in Hg. destruct (Hg Hp2) as [Hstore Hcount].
    rw Hcount Nat2Z.id firstn_all. pose proof (ar_wf _ _ _ _ _ Har2) as Hwf.
    destruct (df_items (i_fifo w2.1) !! k) as [ds|] eqn:Hi.
    { right. apply (wf_queue _ _ Hwf). by eexists. }
    left. exists n0. split; [done|]. rw -(ar_view _ _ _ _ _ Har2) lookup_view Hi. done.
  - destruct (ar_populated _ _ _ _ _ Har Hp1) as (Hq & _). unfold df_Pop in Hp. rw Hq /= in Hp.
    by destruct (df_closed _).
  - rw Hf in Hp2. congruence.
Qed.

(** C17: a synced cache is complete: once [HasSynced] answers true, which the workers
    and the first reconciliation wait for, the cache has every key as the server had it
    at the first list or later, never as it was before: no object of the first list is
    missing that was not deleted since. *)
Theorem synced_cache_is_complete w1 w2 w :
  direct_reachable w1 → df_populated (i_fifo w1.1) = false →
  direct_step w1 w2 → df_populated (i_fifo w2.1) = true →
  rtc direct_step w2 w → informer_HasSynced w.1 = true →
  ∃ n0, r_lastSyncResourceVersion (i_reflector w2.1) = sv_rv sv n0 ∧
    ∀ k, ∃ m, n0 ≤ m ≤ e_committed w.2 ∧ i_indexer w.1 !! k = state_at sv m !! k.
Proof.
  intros Hr Hp1 Hs Hp2 Hsteps Hsync. destruct (mirrors_steps _ _ _ _ Hsv _ _ _ (mirrors_init sv) Hr) as (n & _ & Hn).
  destruct (mirrors_step _ _ _ _ Hsv _ _ _ Hn Hs) as (n0 & _ & Hn0).
  assert (syncing n0 n0 w2.1) as Hsyncing by by apply (sync_begins n0 n w1).
  exists n0. split.
  { destruct Hn0 as (Har & _). destruct (ar_rv _ _ _ _ _ Har) as [|[Hl _]]; [done|].
    apply (ar_listed _ _ _ _ _ Har) in Hl. congruence. }
  assert (∃ m, mirrors sv m w ∧ syncing n0 m w.1) as (m & (_ & Hm & _) & _ & Hp & Hk).
  { clear Hs Hr Hp1 Hp2 Hsync Hn. revert Hn0 Hsyncing. generalize n0 at 1 3 as m.
    induction Hsteps as [w|w2 w3 w Hs _ IH]; intros m Hm Hsyncing; [by exists m|].
    destruct (syncing_step _ _ _ _ Hm Hsyncing Hs) as (m' & Hm' & Hsyncing'). by eapply IH. }
  intros k. unfold informer_HasSynced, df_HasSynced in Hsync. rw Hp in Hsync. apply Z.eqb_eq in Hsync.
  destruct (Hk k) as [(m' & Hm' & Hk')|Hin]; [exists m'; split; [lia|done]|].
  rw Hsync in Hin. by apply elem_of_nil in Hin.
Qed.
End Convergence.

(** ** Witnesses

    [MirrorWitness] goes on: the controller starts, and a worker reconciles the object's
    second version. *)
Module ConvergenceWitness.
Import ControllerWitness MirrorWitness.

Definition control_script : list (ievent demo_obj) :=
  IControl <$> [EvSynced; EvStart 0; EvDeliver; EvDeliver; EvGet 0; EvLookup 0; EvReturn 0 None; EvForget 0; EvDone 0].

Definition settled_world : informer demo_obj * environment demo_obj :=
  (default new_informer (run demo_step control_script (at_step 6 2 (Following 2)).1),
   {| e_committed := 2; e_conn := Following 2 |}).

Lemma settled_reachable : rtc demo_world (at_step 6 2 (Following 2)) settled_world.
Proof. apply (own_events _ _ _ _ _ _ control_script); vm_compute; reflexivity. Qed.

Lemma reconciler_sees_the_server_witness :
  ∃ n, n ≤ 2 ∧ c_last (i_controller settled_world.1) !! key = state_at one_widget n !! key ∧
    e_conn settled_world.2 = Following n ∧
    c_last (i_controller settled_world.1) !! key = Some (widget "111").
Proof.
  destruct (reconciler_sees_the_server refused 0 demo_options one_widget one_widget_ok) with (w := settled_world) (k := key)
    as (n & Hn & Hl & _ & Hc).
  - intros [rv] m _ Hm. injection Hm as <-. split; reflexivity.
  - unfold world_reachable. etrans; [exact script_listed|]. etrans; [exact script_watched|exact settled_reachable].
  - vm_compute; reflexivity.
  - apply quiescent_check. vm_compute; reflexivity.
  - vm_compute; reflexivity.
  - exists {| mo_Name := "widget"; mo_GenerateName := ""; mo_Namespace := "shop"; mo_ResourceVersion := "" |}.
    split; [reflexivity|]. split; reflexivity.
  - vm_compute. intros Hk. by inversion Hk.
  - exists n. split; [exact Hn|]. split; [exact Hl|]. split; [|vm_compute; reflexivity].
    apply (Hc 1). vm_compute; reflexivity.
Defined.

Lemma synced_cache_is_complete_witness :
  informer_HasSynced settled_world.1 = true ∧
  ∃ n0, unary (S n0) = "11" ∧ ∃ m, n0 ≤ m ≤ 2 ∧ i_indexer settled_world.1 !! key = state_at one_widget m !! key.
Proof.
  split; [vm_compute; reflexivity|].
  destruct (synced_cache_is_complete refused 0 demo_options one_widget one_widget_ok
    (at_step 1 1 NoWatch) (at_step 2 1 NoWatch) settled_world) as (n0 & Hn0 & Hk).
  - exact begun.
  - vm_compute; reflexivity.
  - exact first_page_listed.
  - vm_compute; reflexivity.
  - etrans; [apply first_page_popped|]. etrans; [exact script_watched|exact settled_reachable].
  - vm_compute; reflexivity.
  - exists n0. split; [symmetry; exact Hn0|]. exact (Hk key).
Defined.
End ConvergenceWitness.
