(* ===== verification/WrappedInformer.v ===== *)
(** * Informers over the wrapped client

    [main.go] gives its policy informers the wrapped client of [InjectedClient]: they
    list and watch through [TransformedClient], which converts every object, drops a
    list's resource version and continue token, and swallows events it cannot convert.
    What this does to the informer ([Informer]) is compared with an informer that talks
    to the API server directly ([Mirror]). *)
From S2P Require Import Prelude GoStrings ApiMachinery Admission TransformedClient Controller DeltaFIFO.
From S2P Require Import Reflector Informer Mirror Convergence.

(** ** The client's answers *)

Section Wrapped.
Context {R T : Type} (To : option R → result error (option T)).

(** What [List] makes of a page of the server; a conversion never gives nil. *)
Definition wrapped_page (page : KList R) : result error (KList T) :=
  match convertItems To (getItems page) with
  | Done (Ok newItems) => Ok (listWithItems newItems)
  | Done (Err err) => Err err
  | Panic msg => Err (ErrorString msg)
  end.

Lemma wrapped_page_is_List {Opts W} (client : ClientInterface Opts W R (Event T R)) opts w page w' :
  (∀ r, To (Some r) ≠ Ok None) → List client opts w = (Done (Ok (Some page)), w') →
  tc_List client To opts w
  = (Done match wrapped_page page with Ok list => Ok (Some list) | Err err => Err err end, w').
Proof.
  intros Hnil Hl. unfold tc_List, wrapped_page. rw Hl.
  assert (∀ items msg, convertItems To items ≠ Panic msg) as Hpanic.
  { induction items as [|v items IH]; intros msg; simpl; [done|]. pose proof (Hnil v).
    destruct (To (Some v)) as [[t|]|]; [|done|done]. destruct (convertItems To items) as [[]|]; [done|done|].
    intros _. by destruct (IH msg0). }
  destruct (convertItems To (getItems page)) as [[items|err]|msg] eqn:Hc; [done|done|].
  by destruct (Hpanic _ _ Hc).
Qed.

(** What [Watch] makes of an item. *)
Definition wrapped_item (i : watchItem R) : option (watchItem T) :=
  match i with
  | ItemObject ty obj =>
      let '(out, keep) := watchFilter To {| ev_Type := ty; ev_Object := ObjR (Some obj) |} in
      if keep then Some match ev_Object out with
                        | ObjT (Some converted) => ItemObject (ev_Type out) converted
                        | _ => ItemOther (ev_Type out)
                        end
      else None
  | ItemStatus ty st => Some (ItemStatus ty st)
  | ItemOther ty => Some (ItemOther ty)
  end.
End Wrapped.

(** ** Where cached objects come from *)

Section Genuine.
Context {R T : Type} `{MetaAccessor R, MetaAccessor T}.
Context (IsConnectionRefused : error → bool) (WatchListPageSize : Z) (options : ControllerOptions).
Context (sv : server R) (Hsv : server_ok sv).
Context (toPage : KList R → result error (KList T)) (toItem : watchItem R → option (watchItem T)).
Context (P : T → Prop).
Implicit Types (i : informer T) (e : environment R) (r : reflector T) (f : fifo T) (store : gmap string T).

Definition item_from {A} (Q : A → Prop) (it : watchItem A) : Prop :=
  match it with ItemObject (Added | Modified) obj => Q obj | _ => True end.

Context (Hpage : ∀ page list, Forall (served sv) (getItems page) → toPage page = Ok list → Forall P (getItems list)).
Context (Hitem : ∀ it it', item_from (served sv) it → toItem it = Some it' → item_from P it').

Abbreviation world_step := (world_step IsConnectionRefused WatchListPageSize options sv toPage toItem).

Definition pager_from (pg : pager T) : Prop :=
  match pg_list pg with Some (_, items) => Forall P items | None => True end.
Definition pc_from r : Prop := match r_pc r with RListing _ _ _ pg => pager_from pg | _ => True end.
Definition store_from store : Prop := ∀ k obj, store !! k = Some obj → P obj.
Definition conn_from e : Prop := match e_conn e with Initial rest _ => Forall (served sv) rest | _ => True end.

Lemma pager_page_from pg answer :
  pager_from pg → match answer with Ok page => Forall P (getItems page) | Err _ => True end →
  match pager_page pg answer with
  | More pg => pager_from pg
  | Finished (Ok (_, items)) _ => Forall P items
  | Finished (Err _) _ => True
  end.
Proof.
  unfold pager_page, pager_from, listed. intros Hpg Hans. destruct answer as [page|err].
  - destruct (pg_full pg); [done|]. revert Hpg. destruct (pg_list pg) as [[rv items]|]; simpl;
      destruct (bool_decide _); simpl; try done; intros Hpg; apply Forall_app; by split.
  - destruct (pg_full pg); [done|]. by destruct (_ || _).
Qed.

Lemma list_end_from initialRV list paginated store r f r' f' :
  match list with Ok (_, items) => Forall P items | Err _ => True end → queue_from P f →
  list_end initialRV list paginated store r f = (r', f') → queue_from P f' ∧ pc_from r'.
Proof.
  intros Hl Hf. destruct list as [[rv items]|err]; simpl; [|by intros [= <- <-]].
  pose proof (df_Replace_from P store items f Hl Hf) as Hr.
  destruct (df_Replace store items f) as [[err|] f1]; by intros [= <- <-].
Qed.

Lemma list_page_from answer store r f r' f' :
  pc_from r → queue_from P f → match answer with Ok page => Forall P (getItems page) | Err _ => True end →
  list_page answer store r f = Some (r', f') → queue_from P f' ∧ pc_from r'.
Proof.
  unfold list_page, pc_from at 1. destruct (r_pc r) as [|initialRV retried size pg| | |]; try done.
  intros Hpg Hf Hans [= Heq]. pose proof (pager_page_from pg answer Hpg Hans) as Hp.
  destruct (pager_page pg answer) as [pg'|list paginated]; [by simplify_eq|].
  destruct list as [[rv items]|err]; [destruct retried; by eapply list_end_from, Heq|].
  destruct retried; [by eapply list_end_from, Heq|]. destruct (_ || _); [|by eapply list_end_from, Heq]. by simplify_eq.
Qed.

Lemma watch_failed_from err shouldRetry r : pc_from (watch_failed err shouldRetry r).
Proof. unfold watch_failed. by repeat case_match. Qed.

Lemma watch_item_from it shouldRetry store r f r' f' :
  item_from P it → queue_from P f → watch_item it shouldRetry store r f = Some (r', f') →
  queue_from P f' ∧ pc_from r'.
Proof.
  intros Hit Hf. unfold watch_item. destruct (r_pc r) as [| | |count|] eqn:Hpc; try done.
  assert (pc_from r) as Hr by (unfold pc_from; by rw Hpc).
  destruct it as [[] obj|[] st|[]]; simpl in Hit |- *; try (intros [= <- <-]; split; [done|apply watch_failed_from || done]).
  all: destruct (Accessor obj); intros [= <- <-]; [|done]; split; [|done]; try done.
  - by apply queueAction_from.
  - by apply queueAction_from.
  - by apply df_Delete_from.
Qed.

Lemma rstep_from ev store r f r' f' :
  store_from store → queue_from P f → pc_from r →
  match ev with
  | RPage (Ok page) => Forall P (getItems page)
  | RItem it _ => item_from P it
  | _ => True
  end →
  rstep IsConnectionRefused WatchListPageSize ev store r f = Some (r', f') → queue_from P f' ∧ pc_from r'.
Proof.
  intros Hs Hf Hpc Hev Hstep. destruct ev as [|answer|answer|it sr|short| |sr|]; simpl in Hstep.
  - destruct (r_pc r); simplify_eq. by split.
  - eapply list_page_from; [done..| |done]. by destruct answer.
  - unfold watch_begin in Hstep. destruct (r_pc r) eqn:Hr, answer; simplify_eq/=; try done.
    case_match; simplify_eq; split; try done; unfold pc_from; by rw Hr.
  - by eapply watch_item_from.
  - unfold watch_closed in Hstep. destruct (r_pc r); simplify_eq/=. split; [done|].
    case_match; [apply watch_failed_from|done].
  - assert (queue_from P (df_Resync store f).2) as Hr.
    { apply resyncKeys_from; [|done]. apply Forall_forall.
      intros obj ([k o] & -> & Hin%elem_of_map_to_list)%list_elem_of_fmap. by eapply Hs. }
    unfold resync in Hstep. destruct (df_Resync store f) as [err f1]. unfold pc_from in *.
    destruct (r_pc r) eqn:Hrp, (r_resyncing r), err; simplify_eq/=; rw Hrp; done.
  - destruct (r_pc r), (r_resyncerr r); simplify_eq. split; [done|apply watch_failed_from].
  - destruct (r_pc r); by simplify_eq.
Qed.

Lemma processDeltas_from ds store pending :
  Forall (delta_from P) ds → store_from store → store_from (processDeltas ds (store, pending)).2.1.
Proof.
  revert store pending. induction ds as [|d ds IH]; intros store pending; [done|].
  intros [Hd Hds]%Forall_cons Hs. destruct d as [ty obj|o]; cbn [processDeltas fst snd].
  - destruct (KeyOf _) as [k|]; [|done]. apply IH; [done|]. intros k' obj'. rw lookup_insert.
    case_decide; [by intros [= <-]|apply Hs].
  - destruct (KeyOf o) as [k|]; [|done]. apply IH; [done|]. intros k' obj' [_ Ho]%lookup_delete_Some. by eapply Hs.
Qed.

Lemma popFrom_from queue count f ds f' :
  queue_from P f → popFrom queue count f = Some (Some (ds, f')) → Forall (delta_from P) ds ∧ queue_from P f'.
Proof.
  intros Hf. revert count. induction queue as [|k queue IH]; intros count; simpl; [by destruct (df_closed f)|].
  destruct (df_items f !! k) as [item|] eqn:Hi; [|apply IH]. intros [= -> <-]. split; [by eapply Hf|].
  intros k' ds' Hk'. simpl in Hk'. apply lookup_delete_Some in Hk' as [_ Hk']. by eapply Hf.
Qed.

Lemma listed_served n l : (∃ k j, l = take k (drop j (sv_list sv n))) → Forall (served sv) l.
Proof. intros (k & j & ->). by apply Forall_take, Forall_drop, sv_list_served. Qed.

Lemma item_ok_served committed c it c' :
  match c with Initial rest _ => Forall (served sv) rest | _ => True end → item_ok sv committed c it c' →
  item_from (served sv) it ∧ match c' with Initial rest _ => Forall (served sv) rest | _ => True end.
Proof.
  intros Hc Hit. induction Hit as [obj rest n|n i c _ IH|n obj Hn Hh|n obj Hn Hh|n obj meta _ _|c it Herr]; try done.
  - by apply Forall_cons in Hc.
  - by apply IH.
  - split; [|done]. simpl. unfold put_type. assert (served sv obj) by by exists n. by repeat case_match.
  - split; [|done]. by destruct it as [[]| |].
Qed.

Record genuine (w : informer T * environment R) : Prop := {
  gn_store : store_from (i_indexer w.1);
  gn_queue : queue_from P (i_fifo w.1);
  gn_pc : pc_from (i_reflector w.1);
  gn_conn : conn_from w.2;
}.

Lemma genuine_reflector i i' e ev :
  genuine (i, e) →
  match ev with RPage (Ok page) => Forall P (getItems page) | RItem it _ => item_from P it | _ => True end →
  istep IsConnectionRefused WatchListPageSize options (IReflector ev) i = Some i' →
  store_from (i_indexer i') ∧ queue_from P (i_fifo i') ∧ pc_from (i_reflector i').
Proof.
  intros [Hs Hq Hpc _] Hev Hstep. simpl in Hstep.
  destruct (rstep _ _ _ _ _ _) as [[r' f']|] eqn:Hr; simplify_eq/=.
  destruct (rstep_from _ _ _ _ _ _ Hs Hq Hpc Hev Hr). done.
Qed.

Lemma genuine_own i i' e ev :
  genuine (i, e) → own_event ev = true →
  istep IsConnectionRefused WatchListPageSize options ev i = Some i' → genuine (i', e).
Proof.
  intros Hg Hown Hs. destruct ev as [ev| | |ev].
  - destruct (λ Hev, genuine_reflector i i' e ev Hg Hev Hs) as (? & ? & ?); [|by split; [..|apply Hg]].
    by destruct ev as [|[]|[]| | | | |].
  - simpl in Hs. destruct (df_Pop (i_fifo i)) as [[[ds f']|]|] eqn:Hp; simplify_eq/=.
    destruct Hg as [Hst Hq Hpc Hc]. destruct (popFrom_from _ _ _ _ _ Hq Hp) as [Hds Hq'].
    split; [|done..]. simpl. unfold i_indexer. cbn [i_controller].
    pose proof (processDeltas_from ds _ (c_pending (i_controller i)) Hds Hst) as Hp'.
    unfold HandleDeltas, i_indexer in *. by destruct (processDeltas _ _) as [? []].
  - simplify_eq/=. by destruct Hg.
  - simpl in Hs. destruct (control_allowed ev i) eqn:Ha; [|done].
    destruct (step options ev (i_controller i)) as [s'|] eqn:Hst; simplify_eq/=.
    destruct Hg as [Hsto Hq Hpc Hc]. split; [|done..]. simpl. unfold i_indexer. cbn [i_controller].
    by rw (control_store options ev i s' Ha Hst).
Qed.

Lemma genuine_step w w' : genuine w → world_step w w' → genuine w'.
Proof.
  intros Hg Hstep.
  destruct Hstep as [i e Hlt|ev i i' e Hown Hs|rv retried size pg page i i' e Hr Hp Hs|c i i' e Hw Hs
    |it it' sr c i i' e Hit Hto Hs|it c n i e Hr Hit Hto].
  - by destruct Hg.
  - by eapply genuine_own.
  - destruct (λ Hev, genuine_reflector i i' e (RPage (toPage page)) Hg Hev Hs) as (? & ? & ?); [|by split; [..|apply Hg]].
    destruct (toPage page) as [list|] eqn:Hto; [|done]. eapply Hpage; [|done].
    destruct Hp as (n & start & count & _ & _ & _ & -> & _). apply (listed_served n). eauto.
  - destruct (genuine_reflector i i' e (RWatched (Ok tt)) Hg I Hs) as (? & ? & ?). split; [done..|].
    destruct Hw as [(n & _ & _ & ->)|(_ & rest & Hrest & ->)]; [done|]. unfold conn_from. simpl. rw Hrest.
    by apply sv_list_served.
  - destruct (item_ok_served _ _ _ _ (gn_conn _ Hg) Hit) as [Hsrv Hc].
    destruct (λ Hev, genuine_reflector i i' e (RItem it' sr) Hg Hev Hs) as (? & ? & ?); [|by split].
    by eapply Hitem.
  - destruct (item_ok_served _ _ _ _ (gn_conn _ Hg) Hit) as [_ Hc]. by destruct Hg.
Qed.

Lemma reachable_genuine w : rtc world_step world_init w → genuine w.
Proof.
  assert (genuine world_init) as Hinit by by split; [intros k obj|intros k ds|..].
  generalize dependent (world_init (R := R) (T := T)). intros w1 Hw1 Hr.
  induction Hr as [|w1 w2 w Hs _ IH]; [done|]. by eapply IH, genuine_step.
Qed.
End Genuine.

Section WrappedCache.
Context {R T : Type} `{MetaAccessor R, MetaAccessor T}.
Context (IsConnectionRefused : error → bool) (WatchListPageSize : Z) (options : ControllerOptions).
Context (sv : server R) (Hsv : server_ok sv) (To : option R → result error (option T)).

Definition converted (t : T) : Prop := ∃ r, served sv r ∧ To (Some r) = Ok (Some t).

Lemma wrapped_page_from page list :
  Forall (served sv) (getItems page) → wrapped_page To page = Ok list → Forall converted (getItems list).
Proof.
  intros Hp. unfold wrapped_page. destruct (convertItems To (getItems page)) as [[items|]|] eqn:Hc; [|done..].
  intros [= <-]. apply convertItems_Ok in Hc. simpl. clear -Hp Hc.
  induction Hc as [|r t rs ts Ht _ IH]; [done|]. apply Forall_cons in Hp as [Hr Hp].
  constructor; [by exists r|by apply IH].
Qed.

Lemma wrapped_item_from it it' :
  item_from (served sv) it → wrapped_item To it = Some it' → item_from converted it'.
Proof.
  destruct it as [ty obj|ty st|ty]; simpl; [|by intros _ [= <-]..]. unfold watchFilter. simpl.
  destruct (To (Some obj)) as [[t|]|] eqn:Ht; simpl; intros Hobj [= <-]; [|done].
  by destruct ty; try done; exists obj.
Qed.

(** A wrapped informer makes nothing up: whatever the server, the watch and the
    reflector do, every policy in its cache is the conversion of a custom resource that
    the API server had. *)
Theorem wrapped_cache_is_genuine w k t :
  world_reachable IsConnectionRefused WatchListPageSize options sv (wrapped_page To) (wrapped_item To) w →
  i_indexer w.1 !! k = Some t →
  ∃ n r, sv_history sv !! n = Some (Put r) ∧ To (Some r) = Ok (Some t).
Proof.
  intros Hr Hk.
  destruct (gn_store _ _ _ (reachable_genuine _ _ _ sv Hsv _ _ converted wrapped_page_from wrapped_item_from w Hr) k t Hk)
    as (r & [n Hn] & Ht).
  by exists n, r.
Qed.
End WrappedCache.

(** ** Where it differs from the server *)

(** Nothing is left to happen until the server changes something: all changes were
    sent, and the queue is empty. *)
Definition at_rest {R T} (sv : server R) (w : informer T * environment R) : Prop :=
  e_committed w.2 = length (sv_history sv) ∧
  (e_conn w.2 = Following (e_committed w.2) ∨ e_conn w.2 = Initial [] (e_committed w.2)) ∧
  df_queue (i_fifo w.1) = [] ∧ informer_HasSynced w.1 = true ∧
  ∃ count, r_pc (i_reflector w.1) = RStreaming count.

Module WrappedWitness.
Import ControllerWitness MirrorWitness.

Inductive thing := a_thing (name resourceVersion : string).
#[export] Instance thing_accessor : MetaAccessor thing := λ '(a_thing name rv),
  Some {| mo_Name := name; mo_GenerateName := ""; mo_Namespace := ""; mo_ResourceVersion := rv |}.

Definition things (history : list (change thing)) : server thing :=
  {| sv_rv n := unary (S n);
     sv_token n k := unary n +:+ "," +:+ unary k;
     sv_history := history;
     sv_list n := (map_to_list (foldl apply_change ∅ (take n history))).*2 |}.

Lemma things_ok history :
  (∀ n c, history !! n = Some c → ∃ name, change_object c = a_thing name (unary (S (S n)))) →
  server_ok (things history).
Proof.
  intros Hh. split; simpl.
  - intros n m [= Heq]. by apply unary_inj.
  - done.
  - intros n1 k1 n2 k2. apply unary_token_inj.
  - intros n k. by destruct n.
  - intros n c Hc. destruct (Hh n c Hc) as [name ->]. by eexists.
  - done.
Qed.

(** Deleted between the list and the watch. *)
Definition deleted_early : server thing := things [Put (a_thing "a" "11"); Del (a_thing "a" "111")].
(** Created between the list and the watch, which breaks before it is sent. *)
Definition created_early : server thing := things [Put (a_thing "b" "11"); Put (a_thing "a" "111")].

(** The conversion keeps the object. *)
Definition same (o : option thing) : result error (option thing) := Ok o.
Abbreviation wrapped_world sv := (world_step refused 0 demo_options sv (wrapped_page same) (wrapped_item same)).
Abbreviation thing_step := (istep refused 0 demo_options).

Definition page_of (rv : string) (items : list thing) : KList thing :=
  {| l_TypeMeta := zero_TypeMeta;
     l_ListMeta := {| lm_SelfLink := ""; lm_ResourceVersion := rv; lm_Continue := ""; lm_RemainingItemCount := None |};
     l_Items := Some items |}.

Definition early_delete : list (ievent thing) :=
  [IReflector RList; IReflector (RPage (wrapped_page same (page_of "11" [a_thing "a" "11"])));
   IPop; IReflector (RWatched (Ok tt))].
Definition early_create : list (ievent thing) :=
  [IReflector RList; IReflector (RPage (wrapped_page same (page_of "1" []))); IReflector (RWatched (Ok tt));
   IReflector (RItem (ItemObject Added (a_thing "a" "111")) false); IPop; IReflector (RClosed false);
   IReflector (RWatched (Ok tt))].

Definition world_at (script : list (ievent thing)) (k committed : nat) (c : conn thing)
    : informer thing * environment thing :=
  (default new_informer (run thing_step (take k script) new_informer), {| e_committed := committed; e_conn := c |}).

Lemma commit_step sv script k n c :
  n < length (sv_history sv) → wrapped_world sv (world_at script k n c) (world_at script k (S n) c).
Proof. intros Hn. by apply (world_commit _ _ _ _ _ _ _ {| e_committed := n; e_conn := c |}). Qed.

Lemma begin_step sv script n c :
  take 1 script = [IReflector RList] → wrapped_world sv (world_at script 0 n c) (world_at script 1 n c).
Proof. intros Hs. unfold world_at. rw Hs. by apply (world_own _ _ _ _ _ _ (IReflector RList)). Qed.

Lemma deleted_early_run :
  rtc (wrapped_world deleted_early) world_init (world_at early_delete 4 2 (Initial [] 2)).
Proof.
  apply rtc_l with (world_at early_delete 0 1 NoWatch).
  { apply (commit_step _ early_delete 0 0). simpl. lia. }
  apply rtc_l with (world_at early_delete 1 1 NoWatch); [by apply begin_step|].
  apply rtc_l with (world_at early_delete 2 1 NoWatch).
  { eapply (world_page _ _ _ _ _ _ _ _ _ _ (page_of "11" [a_thing "a" "11"])); [reflexivity| |reflexivity].
    exists 1, 0, 1. simpl. split; [|split_and!; [intros _; by apply Nat.leb_le|by vm_compute..]].
    split; [done|]. split; [done|]. split; [done|]. by intros [|m]. }
  apply rtc_l with (world_at early_delete 3 1 NoWatch); [by apply (world_own _ _ _ _ _ _ IPop)|].
  apply rtc_l with (world_at early_delete 3 2 NoWatch); [apply commit_step; simpl; lia|].
  apply rtc_once.
  apply (world_watch _ _ _ _ _ _ (Initial [] 2) (world_at early_delete 3 2 NoWatch).1
    (world_at early_delete 4 2 (Initial [] 2)).1 {| e_committed := 2; e_conn := NoWatch |}); [|reflexivity].
  right. split; [reflexivity|]. exists []. by split.
Qed.

Lemma created_early_run :
  rtc (wrapped_world created_early) world_init (world_at early_create 7 2 (Following 2)).
Proof.
  apply rtc_l with (world_at early_create 1 0 NoWatch); [by apply (begin_step created_early early_create)|].
  apply rtc_l with (world_at early_create 2 0 NoWatch).
  { eapply (world_page _ _ _ _ _ _ _ _ _ _ (page_of "1" [])); [reflexivity| |reflexivity].
    exists 0, 0, 0. simpl. split; [|split_and!; [intros _; by apply Nat.leb_le|by vm_compute..]].
    split; [done|]. split; [done|]. split; [done|]. by intros [|m]. }
  apply rtc_l with (world_at early_create 2 1 NoWatch); [apply commit_step; simpl; lia|].
  apply rtc_l with (world_at early_create 2 2 NoWatch); [apply commit_step; simpl; lia|].
  apply rtc_l with (world_at early_create 3 2 (Initial [a_thing "a" "111"; a_thing "b" "11"] 2)).
  { apply (world_watch _ _ _ _ _ _ (Initial [a_thing "a" "111"; a_thing "b" "11"] 2) (world_at early_create 2 2 NoWatch).1
      (world_at early_create 3 2 NoWatch).1 {| e_committed := 2; e_conn := NoWatch |}); [|reflexivity].
    right. split; [reflexivity|]. exists [a_thing "a" "111"; a_thing "b" "11"]. split; [|reflexivity].
    change (sv_list _ _) with (sv_list created_early 2).
    assert (sv_list created_early 2 = [a_thing "b" "11"; a_thing "a" "111"] ∨
            sv_list created_early 2 = [a_thing "a" "111"; a_thing "b" "11"]) as [-> | ->]
      by (vm_compute; auto); [by constructor|done]. }
  apply rtc_l with (world_at early_create 4 2 (Initial [a_thing "b" "11"] 2)).
  { eapply (world_item _ _ _ _ _ _ (ItemObject Added (a_thing "a" "111")) _ false (Initial [a_thing "b" "11"] 2)
      (world_at early_create 3 2 NoWatch).1 (world_at early_create 4 2 NoWatch).1
      {| e_committed := 2; e_conn := Initial [a_thing "a" "111"; a_thing "b" "11"] 2 |});
      [constructor|reflexivity|reflexivity]. }
  etrans.
  { apply (own_events _ _ _ _ _ _ [IPop; IReflector (RClosed false)] _ (world_at early_create 6 2 NoWatch).1); reflexivity. }
  apply rtc_once.
  apply (world_watch _ _ _ _ _ _ (Following 2) (world_at early_create 6 2 NoWatch).1
    (world_at early_create 7 2 NoWatch).1 {| e_committed := 2; e_conn := Initial [a_thing "b" "11"] 2 |}); [|reflexivity].
  left. exists 2. by split.
Qed.

Lemma wrapped_cache_is_genuine_witness :
  ∃ n r, sv_history deleted_early !! n = Some (Put r) ∧ same (Some r) = Ok (Some (a_thing "a" "11")).
Proof.
  apply (wrapped_cache_is_genuine refused 0 demo_options deleted_early) with
    (w := world_at early_delete 4 2 (Initial [] 2)) (k := "a").
  - apply things_ok. intros [|[|n]] c Hc; [injection Hc as <-; eexists; reflexivity..|discriminate].
  - exact deleted_early_run.
  - vm_compute; reflexivity.
Defined.
End WrappedWitness.

Section Divergence.
Import ControllerWitness MirrorWitness WrappedWitness.

(** C16: the wrapped client loses the resource version of its lists, so the watch after a
    list does not continue it: an informer over it can come to rest, every change sent
    and every item processed, with a cache that has an object the server deleted, and
    another one with a cache that lacks an object the server has, though it answers
    that it is synced.  The same server and client behaviour leaves an informer that
    talks to the server directly with the server's state. *)
Theorem wrapped_informer_can_diverge :
  (∃ w, world_reachable refused 0 demo_options deleted_early (wrapped_page same) (wrapped_item same) w ∧
     at_rest deleted_early w ∧
     state_at deleted_early (e_committed w.2) !! "a" = None ∧ i_indexer w.1 !! "a" = Some (a_thing "a" "11")) ∧
  (∃ w, world_reachable refused 0 demo_options created_early (wrapped_page same) (wrapped_item same) w ∧
     at_rest created_early w ∧
     state_at created_early (e_committed w.2) !! "b" = Some (a_thing "b" "11") ∧ i_indexer w.1 !! "b" = None) ∧
  (∀ sv w, server_ok sv → world_reachable refused 0 demo_options sv Ok Some w → at_rest sv w →
     i_indexer w.1 = state_at sv (e_committed w.2)).
Proof.
  split; [|split].
  - exists (world_at early_delete 4 2 (Initial [] 2)). split; [exact deleted_early_run|].
    split; [|split; vm_compute; reflexivity]. split; [reflexivity|]. split; [by right|].
    split; [vm_compute; reflexivity|]. split; [vm_compute; reflexivity|]. exists 0. vm_compute. reflexivity.
  - exists (world_at early_create 7 2 (Following 2)). split; [exact created_early_run|].
    split; [|split; vm_compute; reflexivity]. split; [reflexivity|]. split; [by left|].
    split; [vm_compute; reflexivity|]. split; [vm_compute; reflexivity|]. exists 0. vm_compute. reflexivity.
  - intros sv w Hsv Hr (Hc & Hconn & Hq & _ & count & Hpc).
    destruct (mirrors_steps _ _ _ sv Hsv _ _ _ (mirrors_init sv) Hr) as (n & _ & Har & Hn & Hp).
    unfold pc_ok in Hp. rw Hpc in Hp. destruct Hp as [_ Hp]. rw Hp in Hconn.
    destruct Hconn as [[= <-]|]; [|done]. rw -(ar_view _ _ _ _ _ Har). symmetry.
    apply view_drained; [apply Har|done].
Qed.
End Divergence.
