(* ===== verification/Pki.v ===== *)
(** * Certificates

    [pkg/pki] and [cmd/gentls]: the self-signed CA, the serving certificate it
    issues, and the program that writes both to disk.  Key generation, the X.509
    encoder and parser and PEM are Go's crypto packages, parameters of the model;
    the randomness, the clock and the file system are explicit.  [main] of gentls is
    in [Commands]. *)
From S2P Require Import Prelude GoStrings.

(** ** crypto/x509 *)

Definition KeyUsageDigitalSignature : Z := Z.shiftl 1 0.
Definition KeyUsageKeyEncipherment : Z := Z.shiftl 1 2.
Definition KeyUsageCertSign : Z := Z.shiftl 1 5.

Inductive ExtKeyUsage := ExtKeyUsageClientAuth | ExtKeyUsageServerAuth.

(** The fields of [x509.Certificate] the templates set; times in nanoseconds. *)
Record template := {
  t_SerialNumber : Z;
  t_CommonName : string;
  t_NotBefore : Z;
  t_NotAfter : Z;
  t_KeyUsage : Z;
  t_ExtKeyUsage : list ExtKeyUsage;
  t_BasicConstraintsValid : bool;
  t_IsCA : bool;
  t_DNSNames : list string;
  t_PermittedDNSDomainsCritical : bool;
  t_PermittedDNSDomains : list string;
}.

Definition second : Z := 1000000000.
Definition DefaultExpiry : Z := 365 * 24 * 3600 * second.

(** The crypto packages.  A [Certificate] is what [ParseCertificate] returns. *)
Class Crypto := {
  PublicKey : Type;
  PrivateKey : Type;
  Certificate : Type;
  Bytes : Type;
  Entropy : Type;
  GenerateKey : Entropy → result string (PublicKey * PrivateKey) * Entropy;
  (** [rand.Read] of the given number of bytes. *)
  randRead : nat → Entropy → result string (list Z) * Entropy;
  (** The parent is the template itself when a certificate signs itself. *)
  x509CreateCertificate : Entropy → template → template + Certificate → PublicKey → PrivateKey →
    result string Bytes * Entropy;
  ParseCertificate : Bytes → result string Certificate;
  cert_Raw : Certificate → Bytes;
  MarshalPKCS8PrivateKey : PrivateKey → result string Bytes;
  EncodeToMemory : string → Bytes → string;
}.

(** ** pkg/pki *)

(** [new(big.Int).SetBytes]: big-endian. *)
Definition SetBytes (b : list Z) : Z := foldl (λ acc x, acc * 256 + x)%Z 0%Z b.

Section Pki.
Context `{!Crypto}.

Record CertificateKeyPair := {
  kp_PrivateKeyPem : string;
  kp_CertificatePem : string;
  kp_Certificate : Certificate;
  kp_PrivateKey : PrivateKey;
}.

Record CAConfig := {
  cfg_CommonName : string;
  cfg_PermittedDNSDomains : list string;
  cfg_Expiry : Z;
}.

(** Calls that consume randomness and may fail. *)
Definition M (A : Type) : Type := Entropy → result string A * Entropy.
Definition mret {A} (a : A) : M A := λ r, (Ok a, r).
Definition mbind' {A B} (m : M A) (f : A → M B) : M B := λ r,
  match m r with
  | (Ok a, r') => f a r'
  | (Err e, r') => (Err e, r')
  end.
Definition lift {A} (x : result string A) : M A := λ r, (x, r).

Definition maskFirst (b : list Z) : list Z :=
  match b with [] => [] | x :: b' => Z.land x 127 :: b' end.

Definition serialNumber : M Z :=
  mbind' (randRead 20) (λ b, mret (SetBytes (maskFirst b))).

Definition populateTemplate (now : Z) (commonName : string) (expiry : Z) : M template :=
  let expiry := if (expiry =? 0)%Z then DefaultExpiry else expiry in
  mbind' serialNumber (λ sn,
    mret {| t_SerialNumber := sn;
            t_CommonName := commonName;
            t_NotBefore := now - 5 * 60 * second;
            t_NotAfter := now + expiry;
            t_KeyUsage := Z.lor KeyUsageKeyEncipherment KeyUsageDigitalSignature;
            t_ExtKeyUsage := [];
            t_BasicConstraintsValid := true;
            t_IsCA := false;
            t_DNSNames := [];
            t_PermittedDNSDomainsCritical := false;
            t_PermittedDNSDomains := [] |}).

Definition encodeKeyPair (cert : Certificate) (priv : PrivateKey) : result string (string * string) :=
  privDer ← MarshalPKCS8PrivateKey priv;
  Ok (EncodeToMemory "CERTIFICATE" (cert_Raw cert), EncodeToMemory "PRIVATE KEY" privDer).

(** The end both constructors share: create, parse, encode. *)
Definition finish (tmpl : template) (parent : template + Certificate) (pub : PublicKey)
    (priv signer : PrivateKey) : M CertificateKeyPair :=
  mbind' (λ r, x509CreateCertificate r tmpl parent pub signer) (λ certDer,
  mbind' (lift (ParseCertificate certDer)) (λ cert,
  mbind' (lift (encodeKeyPair cert priv)) (λ pems,
    mret {| kp_PrivateKeyPem := pems.2; kp_CertificatePem := pems.1;
            kp_Certificate := cert; kp_PrivateKey := priv |}))).

(** The CA's template. *)
Definition caTemplate (config : CAConfig) (t : template) : template :=
  let restricted := negb (bool_decide (cfg_PermittedDNSDomains config = [])) in
  {| t_SerialNumber := t_SerialNumber t; t_CommonName := t_CommonName t;
     t_NotBefore := t_NotBefore t; t_NotAfter := t_NotAfter t;
     t_KeyUsage := Z.lor (t_KeyUsage t) KeyUsageCertSign;
     t_ExtKeyUsage := t_ExtKeyUsage t;
     t_BasicConstraintsValid := t_BasicConstraintsValid t;
     t_IsCA := true;
     t_DNSNames := t_DNSNames t;
     t_PermittedDNSDomainsCritical := restricted;
     t_PermittedDNSDomains := if restricted then cfg_PermittedDNSDomains config else [] |}.

Definition GenerateCA (now : Z) (config : CAConfig) : M CertificateKeyPair :=
  mbind' GenerateKey (λ '(pub, priv),
  mbind' (populateTemplate now (cfg_CommonName config) (cfg_Expiry config)) (λ t,
    let t := caTemplate config t in
    finish t (inl t) pub priv priv)).

(** The serving certificate's template. *)
Definition leafTemplate (hostName : string) (t : template) : template :=
  {| t_SerialNumber := t_SerialNumber t; t_CommonName := t_CommonName t;
     t_NotBefore := t_NotBefore t; t_NotAfter := t_NotAfter t;
     t_KeyUsage := t_KeyUsage t;
     t_ExtKeyUsage := [ExtKeyUsageClientAuth; ExtKeyUsageServerAuth];
     t_BasicConstraintsValid := t_BasicConstraintsValid t;
     t_IsCA := t_IsCA t;
     t_DNSNames := [hostName];
     t_PermittedDNSDomainsCritical := t_PermittedDNSDomainsCritical t;
     t_PermittedDNSDomains := t_PermittedDNSDomains t |}.

Definition CreateCertificate (now : Z) (c : CertificateKeyPair) (hostName : string) (expiry : Z)
    : M CertificateKeyPair :=
  mbind' GenerateKey (λ '(pub, priv),
  mbind' (populateTemplate now hostName expiry) (λ t,
    finish (leafTemplate hostName t) (inr (kp_Certificate c)) pub priv (kp_PrivateKey c))).

(** ** cmd/gentls *)

Definition oneYear : Z := 3600 * 24 * 365 * second.

(** [os.WriteFile]: [writable] says which paths can be written. *)
Definition WriteFile (writable : string → bool) (path content : string) (fs : gmap string string)
    : result string (gmap string string) :=
  if writable path then Ok (<[path := content]> fs) else Err ("open " +:+ path).

(** The error, if any, and the files afterwards. *)
Definition generateAndWriteCertificates (writable : string → bool) (now : Z) (hostName : string)
    (fs : gmap string string) (r : Entropy) : option string * gmap string string :=
  match GenerateCA now {| cfg_CommonName := "SelfSigned"; cfg_PermittedDNSDomains := [];
                          cfg_Expiry := 0 |} r with
  | (Err e, _) => (Some e, fs)
  | (Ok ca, r) =>
      match WriteFile writable "ca.pem" (kp_CertificatePem ca) fs with
      | Err e => (Some e, fs)
      | Ok fs =>
          match CreateCertificate now ca hostName oneYear r with
          | (Err e, _) => (Some e, fs)
          | (Ok keyPair, _) =>
              match WriteFile writable "server.pem" (kp_CertificatePem keyPair) fs with
              | Err e => (Some e, fs)
              | Ok fs =>
                  match WriteFile writable "server-key.pem" (kp_PrivateKeyPem keyPair) fs with
                  | Err e => (Some e, fs)
                  | Ok fs => (None, fs)
                  end
              end
          end
      end
  end.
End Pki.

(** ** What the program relies on

    Random bytes are bytes, a generated key pair matches, and a parsed certificate
    carries its template and the given public key and is signed with the given
    private key. *)
Class CryptoLaws `{!Crypto} := {
  public_of : PrivateKey → PublicKey;
  cert_template : Certificate → template;
  cert_key : Certificate → PublicKey;
  signed_by : Certificate → PrivateKey → Prop;
  randRead_bytes n r b r' :
    randRead n r = (Ok b, r') → length b = n ∧ Forall (λ x, 0 ≤ x < 256)%Z b;
  GenerateKey_pair r pub priv r' : GenerateKey r = (Ok (pub, priv), r') → pub = public_of priv;
  created_certificate r tmpl parent pub signer der r' cert :
    x509CreateCertificate r tmpl parent pub signer = (Ok der, r') → ParseCertificate der = Ok cert →
    cert_template cert = tmpl ∧ cert_key cert = pub ∧ signed_by cert signer;
}.

Section Facts.
Context `{!Crypto}.

Lemma mbind_Ok {A B} (m : M A) (f : A → M B) r b r' :
  mbind' m f r = (Ok b, r') ↔ ∃ a r1, m r = (Ok a, r1) ∧ f a r1 = (Ok b, r').
Proof.
  unfold mbind'. destruct (m r) as [[a|e] r1]; split.
  - eauto.
  - by intros (? & ? & [= <- <-] & ?).
  - done.
  - by intros (? & ? & ? & _).
Qed.

Lemma SetBytes_bounds b :
  Forall (λ x, 0 ≤ x < 256)%Z b → ∀ acc n, (0 ≤ acc < n)%Z →
  (0 ≤ foldl (λ acc x, acc * 256 + x) acc b < n * 256 ^ Z.of_nat (length b))%Z.
Proof.
  induction 1 as [|x b Hx _ IH]; intros acc n Hacc; cbn [foldl length]; [lia|].
  rw Nat2Z.inj_succ Z.pow_succ_r; [lia|].
  specialize (IH (acc * 256 + x)%Z (n * 256)%Z). rw Z.mul_assoc. apply IH. lia.
Qed.

Lemma masked_bounds b :
  length b = 20 → Forall (λ x, 0 ≤ x < 256)%Z b → (0 ≤ SetBytes (maskFirst b) < 2 ^ 159)%Z.
Proof.
  destruct b as [|x b]; [done|]. cbn [length maskFirst]. intros Hlen Hb.
  inversion Hb as [|? ? Hx Hb']; subst. unfold SetBytes. cbn [foldl].
  assert (0 ≤ Z.land x 127 < 128)%Z as Hm.
  { change 127%Z with (Z.ones 7). rw Z.land_ones; [lia|]. apply Z.mod_pos_bound. lia. }
  pose proof (SetBytes_bounds b Hb' (0 * 256 + Z.land x 127)%Z 128) as Hs.
  assert (length b = 19) as Hl by lia. rw Hl in Hs.
  assert (128 * 256 ^ Z.of_nat 19 = 2 ^ 159)%Z as <- by reflexivity. apply Hs. lia.
Qed.

Context `{!CryptoLaws}.

(** C40: a serial number is a non-negative integer of at most 20 bytes whose top
    bit is clear, whatever the random bytes. *)
Theorem serialNumber_bounds r sn r' :
  serialNumber r = (Ok sn, r') → (0 ≤ sn < 2 ^ 159)%Z.
Proof.
  intros (b & r1 & Hb & [= <- _])%mbind_Ok. apply randRead_bytes in Hb as [Hl Hb].
  by apply masked_bounds.
Qed.

Lemma populateTemplate_Ok now name expiry r t r' :
  populateTemplate now name expiry r = (Ok t, r') →
  t_CommonName t = name ∧ t_IsCA t = false ∧ t_KeyUsage t = 5%Z ∧
  t_NotBefore t = (now - 5 * 60 * second)%Z ∧
  t_NotAfter t = (now + if (expiry =? 0)%Z then DefaultExpiry else expiry)%Z.
Proof. intros (sn & r1 & _ & [= <- _])%mbind_Ok. done. Qed.

Lemma finish_Ok tmpl parent pub priv signer r kp r' :
  finish tmpl parent pub priv signer r = (Ok kp, r') →
  cert_template (kp_Certificate kp) = tmpl ∧ cert_key (kp_Certificate kp) = pub ∧
  signed_by (kp_Certificate kp) signer ∧ kp_PrivateKey kp = priv ∧
  kp_CertificatePem kp = EncodeToMemory "CERTIFICATE" (cert_Raw (kp_Certificate kp)).
Proof.
  unfold finish. intros (der & r1 & Hder & Hrest)%mbind_Ok.
  apply mbind_Ok in Hrest as (cert & r2 & [= Hcert <-] & Hrest).
  apply mbind_Ok in Hrest as (pems & r3 & [= Hp <-] & [= <- _]).
  destruct (created_certificate _ _ _ _ _ _ _ _ Hder Hcert) as (? & ? & ?).
  apply bind_Ok in Hp as (privDer & _ & [= <-]). done.
Qed.

Lemma GenerateCA_Ok now config r ca r' :
  GenerateCA now config r = (Ok ca, r') →
  cert_key (kp_Certificate ca) = public_of (kp_PrivateKey ca) ∧
  signed_by (kp_Certificate ca) (kp_PrivateKey ca) ∧
  ∃ t r1 r2, populateTemplate now (cfg_CommonName config) (cfg_Expiry config) r1 = (Ok t, r2) ∧
    cert_template (kp_Certificate ca) = caTemplate config t.
Proof.
  intros ([pub priv] & r1 & Hk & Hrest)%mbind_Ok. apply GenerateKey_pair in Hk as ->.
  apply mbind_Ok in Hrest as (t & r2 & Ht & Hf).
  apply finish_Ok in Hf as (Htm & Hkey & Hsig & Hpriv & _). rw Hpriv. eauto 8.
Qed.

Lemma CreateCertificate_Ok now ca host expiry r kp r' :
  CreateCertificate now ca host expiry r = (Ok kp, r') →
  cert_key (kp_Certificate kp) = public_of (kp_PrivateKey kp) ∧
  signed_by (kp_Certificate kp) (kp_PrivateKey ca) ∧
  ∃ t r1 r2, populateTemplate now host expiry r1 = (Ok t, r2) ∧
    cert_template (kp_Certificate kp) = leafTemplate host t.
Proof.
  intros ([pub priv] & r1 & Hk & Hrest)%mbind_Ok. apply GenerateKey_pair in Hk as ->.
  apply mbind_Ok in Hrest as (t & r2 & Ht & Hf).
  apply finish_Ok in Hf as (Htm & Hkey & Hsig & Hpriv & _). rw Hpriv. eauto 8.
Qed.

(** The generated CA may sign certificates and signed itself; the certificate
    it issues is signed with the CA's key, is not a CA and may not sign, names
    exactly the host, and is valid at the time of issue for any non-negative
    expiry; name constraints are critical exactly when domains are given. *)
Theorem issued_certificate_chain now config r ca r1 now' host expiry r1' kp r2 :
  GenerateCA now config r = (Ok ca, r1) →
  CreateCertificate now' ca host expiry r1' = (Ok kp, r2) → (0 ≤ expiry)%Z →
  let root := cert_template (kp_Certificate ca) in
  let leaf := cert_template (kp_Certificate kp) in
  signed_by (kp_Certificate ca) (kp_PrivateKey ca) ∧
  cert_key (kp_Certificate ca) = public_of (kp_PrivateKey ca) ∧
  signed_by (kp_Certificate kp) (kp_PrivateKey ca) ∧
  t_IsCA root = true ∧ Z.testbit (t_KeyUsage root) 5 = true ∧
  (t_PermittedDNSDomainsCritical root = true ↔ cfg_PermittedDNSDomains config ≠ []) ∧
  t_IsCA leaf = false ∧ Z.testbit (t_KeyUsage leaf) 5 = false ∧ t_DNSNames leaf = [host] ∧
  (t_NotBefore leaf ≤ now' ≤ t_NotAfter leaf)%Z.
Proof.
  intros (Hkey & Hself & t & ? & ? & Ht & Hroot)%GenerateCA_Ok
    (_ & Hsig & t' & ? & ? & Ht' & Hleaf)%CreateCertificate_Ok Hexp.
  apply populateTemplate_Ok in Ht as (_ & _ & Hku & _ & _).
  apply populateTemplate_Ok in Ht' as (_ & Hca & Hku' & Hnb & Hna).
  cbv zeta. rw Hroot Hleaf. cbn. rw Hku Hku' Hca Hnb Hna.
  do 5 (split; [done|]). split; [by case_bool_decide|]. do 3 (split; [done|]).
  unfold DefaultExpiry, second. case_match; lia.
Qed.

(** [gentls] succeeds only after writing all three files, the serving
    certificate being signed by the CA it wrote; when it fails, no private key
    was written. *)
Theorem gentls_writes_chain writable now host fs r :
  match generateAndWriteCertificates writable now host fs r with
  | (None, fs') => ∃ ca kp,
      signed_by (kp_Certificate kp) (kp_PrivateKey ca) ∧
      fs' = <["server-key.pem" := kp_PrivateKeyPem kp]> (<["server.pem" := kp_CertificatePem kp]>
              (<["ca.pem" := kp_CertificatePem ca]> fs))
  | (Some _, fs') => fs' !! "server-key.pem" = fs !! "server-key.pem"
  end.
Proof.
  unfold generateAndWriteCertificates, WriteFile.
  destruct (GenerateCA _ _ r) as [[ca|] r1] eqn:Hca; [|done].
  destruct (writable "ca.pem"); [|done].
  destruct (CreateCertificate _ _ _ _ r1) as [[kp|] r2] eqn:Hkp; [|by rw lookup_insert_ne].
  destruct (writable "server.pem"); [|by rw lookup_insert_ne].
  destruct (writable "server-key.pem"); [|by rw !lookup_insert_ne].
  exists ca, kp. split; [|done]. by apply CreateCertificate_Ok in Hkp as (_ & ? & _).
Qed.
End Facts.

(** ** Witnesses: keys are numbers, a certificate is its contents and its signer. *)
Module PkiWitness.
Definition demo_cert : Type := template * Z * Z.

#[export] Instance demo_crypto : Crypto := {|
  PublicKey := Z; PrivateKey := Z; Certificate := demo_cert; Bytes := demo_cert + Z; Entropy := Z;
  GenerateKey r := (Ok (- r, r), r + 1)%Z;
  randRead n r := (Ok (replicate n (r mod 256)), r + 1)%Z;
  x509CreateCertificate r tmpl parent pub signer := (Ok (inl (tmpl, pub, signer)), r);
  ParseCertificate b := match b with inl c => Ok c | inr _ => Err "malformed" end;
  cert_Raw := inl;
  MarshalPKCS8PrivateKey k := Ok (inr k);
  EncodeToMemory kind _ := kind;
|}.

#[export, refine] Instance demo_laws : CryptoLaws := {|
  public_of := Z.opp;
  cert_template c := c.1.1;
  cert_key c := c.1.2;
  signed_by c k := c.2 = k;
|}.
Proof.
  - intros n r b r' [= <- _]. split; [apply length_replicate|].
    apply Forall_replicate. apply Z.mod_pos_bound. lia.
  - by intros r pub priv r' [= <- <- _].
  - by intros r tmpl parent pub signer der r' cert [= <- _] [= <-].
Defined.

Definition seed (n : Z) : @Entropy demo_crypto := n.

Definition demo_config : CAConfig :=
  {| cfg_CommonName := "SelfSigned"; cfg_PermittedDNSDomains := []; cfg_Expiry := 0 |}.
Definition key_pair (m : result string CertificateKeyPair * Z) : CertificateKeyPair :=
  match m.1 with
  | Ok kp => kp
  | Err _ => {| kp_PrivateKeyPem := ""; kp_CertificatePem := ""; kp_PrivateKey := 0%Z;
                kp_Certificate := ({| t_SerialNumber := 0; t_CommonName := ""; t_NotBefore := 0;
                  t_NotAfter := 0; t_KeyUsage := 0; t_ExtKeyUsage := []; t_BasicConstraintsValid := false;
                  t_IsCA := false; t_DNSNames := []; t_PermittedDNSDomainsCritical := false;
                  t_PermittedDNSDomains := [] |}, 0%Z, 0%Z) |}
  end.
Definition demo_ca : CertificateKeyPair := key_pair (GenerateCA 0 demo_config (seed 7)).
Definition demo_leaf : CertificateKeyPair := key_pair (CreateCertificate 0 demo_ca "example.com" 60 (seed 9)).

Lemma serialNumber_bounds_witness :
  ∃ sn, (serialNumber (seed 255)).1 = Ok sn ∧ (0 ≤ sn < 2 ^ 159)%Z.
Proof.
  eexists. split; [reflexivity|]. apply (serialNumber_bounds (seed 255) _ (seed 256)). reflexivity.
Defined.

Lemma issued_certificate_chain_witness :
  t_IsCA (cert_template (kp_Certificate demo_ca)) = true ∧
  t_DNSNames (cert_template (kp_Certificate demo_leaf)) = ["example.com"].
Proof.
  destruct (issued_certificate_chain 0 demo_config (seed 7) demo_ca (seed 9) 0 "example.com" 60 (seed 9) demo_leaf (seed 11))
    as (_ & _ & _ & Hca & _ & _ & _ & _ & Hdns & _).
  - vm_compute; reflexivity.
  - vm_compute; reflexivity.
  - lia.
  - split; [exact Hca|exact Hdns].
Defined.

Lemma gentls_writes_chain_witness :
  ∃ ca kp, signed_by (kp_Certificate kp) (kp_PrivateKey ca) ∧
    (generateAndWriteCertificates (λ _, true) 0 "example.com" ∅ (seed 7)).2 =
      <["server-key.pem" := kp_PrivateKeyPem kp]> (<["server.pem" := kp_CertificatePem kp]>
        (<["ca.pem" := kp_CertificatePem ca]> ∅)).
Proof. exact (gentls_writes_chain (λ _, true) 0 "example.com" ∅ (seed 7)). Defined.
End PkiWitness.
