(* ===== verification/Commands.v ===== *)
(** * The commands

    [cmd/interceptor/main.go] and [cmd/gentls/main.go] from their arguments to their
    exit status, and [cmd/cel-admission-webhook/main.go] from its arguments to the
    server it starts: Go's [flag] package for string flags, the client configuration
    (kubeconfig or [rest.InClusterConfig]), and how [runServer] sets its proxy up
    ([Interceptor] models the proxy's handlers, [Process] the webhook from there on).
    The environment, the file system, the credential plugins, X.509 and the listener
    are arguments. *)
From S2P Require Import Prelude GoStrings ApiMachinery TransformedClient ServerRun Process Clientset Pki.
From Stdlib Require Import Ascii.

(** ** Package flag *)

Definition minus : ascii := "-".
Definition equals : ascii := "=".

Inductive flags :=
| Parsed (values : gmap string string) (args : list string)
| FlagError (msg : string)
| FlagHelp.

(** The defined flags have the current values [values]; a flag without a value takes
    the next argument. *)
Fixpoint parseFlags (values : gmap string string) (arguments : list string) : flags :=
  match arguments with
  | [] => Parsed values []
  | s :: rest =>
      match s with
      | "" | String _ "" => Parsed values arguments
      | String c (String c' s' as tail) =>
          if decide (c ≠ minus) then Parsed values arguments
          else if decide (s = "--") then Parsed values rest
          else
            let name := if decide (c' = minus) then s' else tail in
            match name with
            | "" => FlagError ("bad flag syntax: " +:+ s)
            | String d _ =>
                if decide (d = minus ∨ d = equals) then FlagError ("bad flag syntax: " +:+ s)
                else
                  let '(name, value) := match cut equals name with
                                        | Some (name, value) => (name, Some value)
                                        | None => (name, None)
                                        end in
                  match values !! name with
                  | None => if decide (name = "help" ∨ name = "h") then FlagHelp
                            else FlagError ("flag provided but not defined: -" +:+ name)
                  | Some _ =>
                      match value, rest with
                      | Some value, _ => parseFlags (<[name := value]> values) rest
                      | None, value :: rest => parseFlags (<[name := value]> values) rest
                      | None, [] => FlagError ("flag needs an argument: -" +:+ name)
                      end
                  end
            end
      end
  end.

(** What a process leaves: its exit status and what it printed; the flag package's
    messages are left out. *)
Record exit := { ex_code : Z; ex_stdout : string }.

(** [flag.Parse] of the command line, and the rest of [main]. *)
Definition withFlags (defaults : gmap string string) (arguments : list string)
    (main : (string → string) → exit) : exit :=
  match parseFlags defaults arguments with
  | Parsed values _ => main (λ name, default "" (values !! name))
  | FlagError _ => {| ex_code := 2; ex_stdout := "" |}
  | FlagHelp => {| ex_code := 0; ex_stdout := "" |}
  end.

(** The flags of the webhook and of the interceptor, and of gentls. *)
Definition serverFlags : gmap string string :=
  {["cert" := "server.pem"; "key" := "server-key.pem"; "addr" := "0.0.0.0:8443"]}.
Definition interceptorFlags : gmap string string := serverFlags.
Definition gentlsFlags : gmap string string := {["host" := "example.com"]}.

(** ** The client configuration *)

Section Interceptor.
Context {Exec Auth Pool Certificate : Type}.

(** [rest.Config], as far as the proxy and the transport look at it. *)
Record restConfig := {
  rc_Host : string;
  rc_CAFile : string; rc_CAData : string;
  rc_CertFile : string; rc_CertData : string;
  rc_KeyFile : string; rc_KeyData : string;
  rc_BearerToken : string; rc_BearerTokenFile : string;
  rc_ExecProvider : option Exec;
  rc_AuthProvider : option Auth;
}.

(** [transport.Config]. *)
Record transportConfig := {
  tc_CAFile : string; tc_CAData : string;
  tc_CertFile : string; tc_CertData : string;
  tc_KeyFile : string; tc_KeyData : string;
  tc_BearerToken : string; tc_BearerTokenFile : string;
}.

Context (getenv : string → string) (ReadFile : string → result error string).
Context (NewPool : string → result error Pool) (JoinHostPort : string → string → string).

Definition tokenFile : string := "/var/run/secrets/kubernetes.io/serviceaccount/token".
Definition rootCAFile : string := "/var/run/secrets/kubernetes.io/serviceaccount/ca.crt".
Definition ErrNotInCluster : error :=
  ErrorString "unable to load in-cluster configuration, KUBERNETES_SERVICE_HOST and KUBERNETES_SERVICE_PORT must be defined".

Definition InClusterConfig : result error restConfig :=
  let host := getenv "KUBERNETES_SERVICE_HOST" in
  let port := getenv "KUBERNETES_SERVICE_PORT" in
  if decide (host = "" ∨ port = "") then Err ErrNotInCluster
  else
    token ← ReadFile tokenFile;
    Ok {| rc_Host := "https://" +:+ JoinHostPort host port;
          rc_CAFile := match NewPool rootCAFile with Ok _ => rootCAFile | Err _ => "" end;
          rc_CAData := ""; rc_CertFile := ""; rc_CertData := ""; rc_KeyFile := ""; rc_KeyData := "";
          rc_BearerToken := token; rc_BearerTokenFile := tokenFile;
          rc_ExecProvider := None; rc_AuthProvider := None |}.

Definition interceptor_loadClientConfig (kubeConfig : result error restConfig) : result error restConfig :=
  match kubeConfig with Ok config => Ok config | Err _ => InClusterConfig end.

(** The credential plugins: what they make of the transport's configuration. *)
Context (UpdateTransportConfig : restConfig → Exec → transportConfig → result error transportConfig).
Context (GetAuthProvider : restConfig → Auth → result error unit).

Definition TransportConfig (c : restConfig) : result error transportConfig :=
  let conf := {| tc_CAFile := rc_CAFile c; tc_CAData := rc_CAData c; tc_CertFile := rc_CertFile c;
                 tc_CertData := rc_CertData c; tc_KeyFile := rc_KeyFile c; tc_KeyData := rc_KeyData c;
                 tc_BearerToken := rc_BearerToken c; tc_BearerTokenFile := rc_BearerTokenFile c |} in
  match rc_ExecProvider c, rc_AuthProvider c with
  | Some _, Some _ => Err (ErrorString "execProvider and authProvider cannot be used in combination")
  | Some e, None => UpdateTransportConfig c e conf
  | None, Some a => _ ← GetAuthProvider c a; Ok conf
  | None, None => Ok conf
  end.

(** ** The proxy *)

(** The target and the TLS configuration of the transport; [AppendCertsFromPEM] adds
    to an empty pool. *)
Record proxy := {
  px_target : URL;
  px_RootCAs : option Pool;
  px_Certificates : list Certificate;
}.

Context (url_Parse : string → result error URL) (AppendCertsFromPEM : string → Pool).
Context (X509KeyPair : string → string → result error Certificate).
(** The error [http.ListenAndServeTLS] returns, which is never nil. *)
Context (ListenAndServeTLS : string → string → string → proxy → error).

(** [runServer] up to the listener.  The error of [TransportConfig] is dropped, with
    a nil configuration. *)
Definition newProxy (config : restConfig) : outcome proxy :=
  let t := match TransportConfig config with Ok t => Some t | Err _ => None end in
  match url_Parse (rc_Host config) with
  | Err e => Done (Err e)
  | Ok u =>
      match t with
      | None => Panic "invalid memory address or nil pointer dereference"
      | Some t =>
          let pool := if decide (tc_CAData t ≠ "") then Some (AppendCertsFromPEM (tc_CAData t)) else None in
          if decide (tc_CertData t ≠ "" ∧ tc_KeyData t ≠ "") then
            match X509KeyPair (tc_CertData t) (tc_KeyData t) with
            | Err e => Done (Err e)
            | Ok cert => Done (Ok {| px_target := u; px_RootCAs := pool; px_Certificates := [cert] |})
            end
          else Done (Ok {| px_target := u; px_RootCAs := pool; px_Certificates := [] |})
      end
  end.

Definition runServer (certFile keyFile addr : string) (kubeConfig : result error restConfig) :
    outcome unit :=
  match interceptor_loadClientConfig kubeConfig with
  | Err e => Done (Err e)
  | Ok config =>
      match newProxy config with
      | Panic msg => Panic msg
      | Done (Err e) => Done (Err e)
      | Done (Ok r) => Done (Err (ListenAndServeTLS addr certFile keyFile r))
      end
  end.

(** A panic of the main goroutine exits with status 2. *)
Definition interceptor_main (arguments : list string) (kubeConfig : result error restConfig) : exit :=
  withFlags interceptorFlags arguments (λ flag,
    match runServer (flag "cert") (flag "key") (flag "addr") kubeConfig with
    | Panic _ => {| ex_code := 2; ex_stdout := "" |}
    | Done (Err e) => {| ex_code := 1; ex_stdout := Error e +:+ String (ascii_of_nat 10) "" |}
    | Done (Ok _) => {| ex_code := 0; ex_stdout := "" |}
    end).
End Interceptor.

(** ** The webhook *)

Section Webhook.
Context {Config Custom Kube Dynamic Extensions : Type}.

(** [main] up to its goroutines: it returns, with status 0, when the set-up fails, and
    serves with its flags and clients otherwise. *)
Inductive webhook_start :=
| Exits (status : Z)
| Serves (listenAddr certFile keyFile : string) (clients : Custom * Kube * Dynamic * Extensions).

Definition webhook_main (arguments : list string) (restConfig : result string Config)
    (newCustom : Config → result string Custom) (newKube : Config → result string Kube)
    (newDynamic : Config → result string Dynamic) (newExtensions : Config → result string Extensions) :
    webhook_start :=
  match parseFlags serverFlags arguments with
  | FlagError _ => Exits 2
  | FlagHelp => Exits 0
  | Parsed values _ =>
      match main_setup restConfig newCustom newKube newDynamic newExtensions with
      | Err _ => Exits 0
      | Ok clients =>
          let flag name := default "" (values !! name) in
          Serves (flag "addr") (flag "cert") (flag "key") clients
      end
  end.
End Webhook.

(** ** gentls *)

Definition gentls_main `{!Crypto} (arguments : list string) (writable : string → bool) (now : Z)
    (fs : gmap string string) (r : Entropy) : exit * gmap string string :=
  match parseFlags gentlsFlags arguments with
  | Parsed values _ =>
      match generateAndWriteCertificates writable now (default "" (values !! "host")) fs r with
      | (Some e, fs') => ({| ex_code := 1; ex_stdout := e +:+ String (ascii_of_nat 10) "" |}, fs')
      | (None, fs') => ({| ex_code := 0; ex_stdout := "" |}, fs')
      end
  | FlagError _ => ({| ex_code := 2; ex_stdout := "" |}, fs)
  | FlagHelp => ({| ex_code := 0; ex_stdout := "" |}, fs)
  end.

(** ** Facts *)

(** A flag on the command line: in one argument, or with its value in the next. *)
Definition render (setting : bool * string * string) : list string :=
  let '(joined, name, value) := setting in
  if joined then [String minus (name +:+ String equals value)] else [String minus name; value].

(** A name a flag can have. *)
Definition flag_name (name : string) : Prop :=
  name ≠ "" ∧ has_byte equals name = false ∧ HasPrefix name "-" = false.

(** An argument that is no flag. *)
Definition no_flag (s : string) : Prop := s = "-" ∨ HasPrefix s "-" = false.

Lemma parse_flag (values : gmap string string) name (value : option string) rest :
  flag_name name → is_Some (values !! name) →
  parseFlags values (String minus (match value with Some v => name +:+ String equals v | None => name end) :: rest) =
  match value, rest with
  | Some v, _ => parseFlags (<[name := v]> values) rest
  | None, v :: rest => parseFlags (<[name := v]> values) rest
  | None, [] => FlagError ("flag needs an argument: -" +:+ name)
  end.
Proof.
  intros (Hne & Heq & Hminus) [old Hold]. destruct name as [|c name]; [done|].
  pose proof (has_byte_cons _ _ _ Heq) as [Hce _].
  assert (c ≠ minus) as Hcm by (intros ->; done).
  set (tail := match value with Some v => String c name +:+ String equals v | None => String c name end).
  assert (∃ name', tail = String c name') as [name' Ht].
  { unfold tail. destruct value; [rw app_cons|]; by eexists. }
  assert (cut equals tail = match value with Some v => Some (String c name, v) | None => None end) as Hcut.
  { unfold tail. destruct value; [by apply cut_app|by apply cut_none]. }
  rw Ht in Hcut *. cbn [parseFlags].
  destruct (decide (minus ≠ minus)) as [Hm|_]; [by destruct Hm|].
  rw decide_False; [intros [= Hc]; by apply Hcm|].
  rw decide_False //. rw decide_False; [by intros [?|?]|]. rw Hcut.
  destruct value as [v|]; cbv beta iota zeta; [by rw Hold|]. injection Ht as <-. by rw Hold.
Qed.

Lemma parse_rest (values : gmap string string) rest :
  (∀ s, head rest = Some s → no_flag s) → parseFlags values rest = Parsed values rest.
Proof.
  destruct rest as [|s rest]; [done|]. intros Hs. destruct (Hs s eq_refl) as [->|Hp]; [done|].
  destruct s as [|c [|c' s]]; [done..|]. cbn [parseFlags]. rw decide_True //.
  intros ->. done.
Qed.

(** The value of a flag after [settings]. *)
Definition flag_value (settings : list (bool * string * string)) (name before : string) : string :=
  foldl (λ value '(_, name', value'), if decide (name' = name) then value' else value) before settings.

Definition apply_settings (defaults : gmap string string) settings : gmap string string :=
  foldl (λ values '((_, name, value) : bool * string * string), <[name := value]> values) defaults settings.

Lemma flag_value_apply defaults settings name :
  default "" (apply_settings defaults settings !! name) =
  flag_value settings name (default "" (defaults !! name)).
Proof.
  revert defaults. induction settings as [|[[joined n] v] settings IH]; intros defaults; [done|].
  unfold apply_settings, flag_value in *. cbn [foldl]. rw IH. f_equal. rw lookup_insert. by case_decide.
Qed.

(** A command line that sets the flags [defaults] of a command, and nothing else. *)
Definition command_line (defaults : gmap string string) settings arguments : Prop :=
  ∃ rest, arguments = (settings ≫= render) ++ rest ∧ (∀ s, head rest = Some s → no_flag s) ∧
    ∀ joined name value, (joined, name, value) ∈ settings → flag_name name ∧ is_Some (defaults !! name).

(** ** Properties *)

(** Any sequence of defined flags, each as "-name=value" or "-name value", followed by
    arguments that are no flags, sets exactly these flags, the last value of each
    counting. *)
Lemma flags_round_trip (defaults : gmap string string) settings rest :
  (∀ joined name value, (joined, name, value) ∈ settings → flag_name name ∧ is_Some (defaults !! name)) →
  (∀ s, head rest = Some s → no_flag s) →
  parseFlags defaults ((settings ≫= render) ++ rest) =
  Parsed (apply_settings defaults settings) rest.
Proof.
  unfold apply_settings. intros Hs Hrest. revert defaults Hs.
  induction settings as [|[[joined name] value] settings IH]; intros defaults Hs;
    [by apply parse_rest|].
  destruct (Hs joined name value) as [Hn Hd]; [by left|].
  assert (∀ j n v, (j, n, v) ∈ settings → flag_name n ∧ is_Some (<[name := value]> defaults !! n)) as Hs'.
  { intros j n v Hin. destruct (Hs j n v) as [? ?]; [by right|]. split; [done|].
    rw lookup_insert. case_decide; [by eexists|done]. }
  rw bind_cons -app_assoc. cbn [render foldl]. destruct joined; cbn [app].
  - rw (parse_flag defaults name (Some value)) //. by apply IH.
  - rw (parse_flag defaults name None) //. by apply IH.
Qed.

Lemma command_line_parses defaults settings arguments :
  command_line defaults settings arguments →
  ∃ rest, parseFlags defaults arguments = Parsed (apply_settings defaults settings) rest.
Proof. intros (rest & -> & Hrest & Hs). exists rest. by apply flags_round_trip. Qed.

Lemma main_setup_cases {Config Custom Kube Dynamic Extensions : Type}
    (restConfig : result string Config) (newCustom : Config → result string Custom)
    (newKube : Config → result string Kube) (newDynamic : Config → result string Dynamic)
    (newExtensions : Config → result string Extensions) :
  match main_setup restConfig newCustom newKube newDynamic newExtensions with
  | Ok (custom, kube, dynamic, extensions) =>
      ∃ config, restConfig = Ok config ∧ newCustom config = Ok custom ∧ newKube config = Ok kube ∧
        newDynamic config = Ok dynamic ∧ newExtensions config = Ok extensions
  | Err _ =>
      ∀ config, restConfig = Ok config →
        is_ok (newCustom config) && is_ok (newKube config) && is_ok (newDynamic config) &&
        is_ok (newExtensions config) = false
  end.
Proof.
  destruct restConfig as [config|]; [|done]. unfold main_setup. cbn.
  destruct (newCustom config) eqn:E1; cbn; [|intros ? [= <-]; by rw E1].
  destruct (newKube config) eqn:E2; cbn; [|intros ? [= <-]; by rw E1 E2].
  destruct (newDynamic config) eqn:E3; cbn; [|intros ? [= <-]; by rw E1 E2 E3].
  destruct (newExtensions config) eqn:E4; cbn; [|intros ? [= <-]; by rw E1 E2 E3 E4].
  by exists config.
Qed.

(** The webhook serves what its command line says, or nothing: with any settings of
    its flags, it serves at the address and with the certificate and key last given
    (or the defaults) exactly when all its clients could be made, and otherwise
    returns, with exit status 0. *)
Theorem webhook_serves_its_flags {Config Custom Kube Dynamic Extensions : Type} settings arguments
    (restConfig : result string Config) (newCustom : Config → result string Custom)
    (newKube : Config → result string Kube) (newDynamic : Config → result string Dynamic)
    (newExtensions : Config → result string Extensions) :
  command_line serverFlags settings arguments →
  match webhook_main arguments restConfig newCustom newKube newDynamic newExtensions with
  | Serves listenAddr certFile keyFile (custom, kube, dynamic, extensions) =>
      listenAddr = flag_value settings "addr" "0.0.0.0:8443" ∧
      certFile = flag_value settings "cert" "server.pem" ∧
      keyFile = flag_value settings "key" "server-key.pem" ∧
      ∃ config, restConfig = Ok config ∧ newCustom config = Ok custom ∧ newKube config = Ok kube ∧
        newDynamic config = Ok dynamic ∧ newExtensions config = Ok extensions
  | Exits status =>
      status = 0%Z ∧
      ∀ config, restConfig = Ok config →
        is_ok (newCustom config) && is_ok (newKube config) && is_ok (newDynamic config) &&
        is_ok (newExtensions config) = false
  end.
Proof.
  intros [rest Hp]%command_line_parses. unfold webhook_main. rw Hp.
  pose proof (main_setup_cases restConfig newCustom newKube newDynamic newExtensions) as Hsetup.
  destruct (main_setup _ _ _ _ _) as [[[[custom kube] dynamic] extensions]|]; [|by split].
  rw (flag_value_apply serverFlags settings "addr") (flag_value_apply serverFlags settings "cert")
    (flag_value_apply serverFlags settings "key"). by repeat split.
Qed.

Section Proxy.
Context {Exec Auth Pool Cert : Type}.
Context (getenv : string → string) (ReadFile : string → result error string).
Context (NewPool : string → result error Pool) (JoinHostPort : string → string → string).
Context (UpdateTransportConfig : restConfig (Exec := Exec) (Auth := Auth) → Exec → transportConfig → result error transportConfig).
Context (GetAuthProvider : restConfig (Exec := Exec) (Auth := Auth) → Auth → result error unit).
Context (url_Parse : string → result error URL) (AppendCertsFromPEM : string → Pool).
Context (X509KeyPair : string → string → result error Cert).
Context (ListenAndServeTLS : string → string → string → proxy (Pool := Pool) (Certificate := Cert) → error).
Implicit Types config : restConfig (Exec := Exec) (Auth := Auth).

Abbreviation loads := (interceptor_loadClientConfig getenv ReadFile NewPool JoinHostPort).
Abbreviation builds := (newProxy UpdateTransportConfig GetAuthProvider url_Parse AppendCertsFromPEM X509KeyPair).

(** A configuration whose credentials are files, or tokens, gives a proxy without
    any. *)
Lemma file_credentials_are_ignored config u :
  rc_ExecProvider config = None → rc_AuthProvider config = None →
  rc_CAData config = "" → rc_CertData config = "" → url_Parse (rc_Host config) = Ok u →
  builds config = Done (Ok {| px_target := u; px_RootCAs := None; px_Certificates := [] |}).
Proof.
  intros He Ha Hca Hcert Hu. unfold newProxy, TransportConfig. rw He Ha Hu. cbn. rw Hca Hcert.
  case_decide as Hk; [by destruct Hk|]. by case_decide.
Qed.

(** Inside a cluster the interceptor proxies without credentials: without a
    kubeconfig, the service account's CA file and token are loaded, but the proxy
    trusts the system's roots instead of the cluster's, has no client certificate,
    and the token appears nowhere in it. *)
Theorem in_cluster_proxy_is_unauthenticated e config u :
  loads (Err e) = Ok config → url_Parse (rc_Host config) = Ok u →
  builds config = Done (Ok {| px_target := u; px_RootCAs := None; px_Certificates := [] |}) ∧
  ReadFile tokenFile = Ok (rc_BearerToken config) ∧
  (is_ok (NewPool rootCAFile) = true → rc_CAFile config = rootCAFile).
Proof.
  unfold interceptor_loadClientConfig, InClusterConfig. case_decide; [done|].
  destruct (ReadFile tokenFile) as [token|] eqn:Ht; [|done]. cbn. intros [= <-] Hu.
  split; [by apply file_credentials_are_ignored|]. cbn. split; [done|]. by destruct (NewPool rootCAFile).
Qed.

(** A credential plugin that fails makes the interceptor panic: the error of
    [TransportConfig] is dropped. *)
Theorem transport_error_panics config u e :
  url_Parse (rc_Host config) = Ok u →
  TransportConfig UpdateTransportConfig GetAuthProvider config = Err e →
  builds config = Panic "invalid memory address or nil pointer dereference".
Proof. intros Hu Ht. unfold newProxy. by rw Hu Ht. Qed.

(** The interceptor only exits with status 0 when it was asked for help. *)
Theorem interceptor_exit_status arguments kubeConfig :
  ex_code (interceptor_main getenv ReadFile NewPool JoinHostPort UpdateTransportConfig GetAuthProvider
             url_Parse AppendCertsFromPEM X509KeyPair ListenAndServeTLS arguments kubeConfig) = 0%Z →
  parseFlags interceptorFlags arguments = FlagHelp.
Proof.
  unfold interceptor_main, withFlags. destruct (parseFlags _ _) as [values args| |]; [|done..].
  unfold runServer. destruct (interceptor_loadClientConfig _ _ _ _ _) as [config|]; [|done].
  by destruct (newProxy _ _ _ _ _ config) as [[]|].
Qed.
End Proxy.

(** ** Witnesses *)
Section CommandsWitness.
Lemma webhook_serves_its_flags_witness :
  webhook_main ["-addr"; ":9443"; "-cert=a=b.pem"; "x"; "-key=y"] (Ok tt) Ok Ok Ok Ok =
  Serves ":9443" "a=b.pem" "server-key.pem" (tt, tt, tt, tt).
Proof.
  pose proof (webhook_serves_its_flags [(false, "addr", ":9443"); (true, "cert", "a=b.pem")]
                ["-addr"; ":9443"; "-cert=a=b.pem"; "x"; "-key=y"]
                (Ok tt) (@Ok string unit) (@Ok string unit) (@Ok string unit) (@Ok string unit)) as H.
  destruct (webhook_main _ _ _ _ _ _) as [status|listenAddr certFile keyFile [[[[] []] []] []]].
  2: destruct H as (-> & -> & -> & _); [|reflexivity].
  1: destruct H as [_ H]; [|by specialize (H tt eq_refl)].
  all: exists ["x"; "-key=y"]; split; [reflexivity|]; split;
    [intros s [= <-]; right; reflexivity|].
  all: intros joined name value [[= -> -> ->]|[[= -> -> ->]|[]%not_elem_of_nil]%elem_of_cons]%elem_of_cons;
    (split; [repeat split; discriminate|]); vm_compute; eauto.
Defined.

Definition demo_env (name : string) : string :=
  if decide (name = "KUBERNETES_SERVICE_HOST") then "10.0.0.1" else "443".
Definition demo_file (path : string) : result error string :=
  if decide (path = tokenFile) then Ok "secret" else Err (ErrorString "no such file").
Definition api_server : URL :=
  {| u_Scheme := "https"; u_Host := "10.0.0.1:443"; u_Path := ""; u_RawQuery := ""; u_Fragment := "" |}.

Definition in_cluster : restConfig (Exec := unit) (Auth := unit) :=
  {| rc_Host := "https://10.0.0.1:443"; rc_CAFile := rootCAFile; rc_CAData := ""; rc_CertFile := "";
     rc_CertData := ""; rc_KeyFile := ""; rc_KeyData := ""; rc_BearerToken := "secret";
     rc_BearerTokenFile := tokenFile; rc_ExecProvider := None; rc_AuthProvider := None |}.

Lemma in_cluster_proxy_is_unauthenticated_witness :
  newProxy (λ _ _ conf, Ok conf) (λ _ _, Ok tt) (λ _, Ok api_server) (λ pem, pem)
    (λ cert key, Ok (cert, key)) in_cluster =
  Done (Ok {| px_target := api_server; px_RootCAs := None; px_Certificates := [] |}).
Proof.
  apply (in_cluster_proxy_is_unauthenticated demo_env demo_file (λ path, Ok path)
           (λ host port, host +:+ ":" +:+ port) (λ _ _ conf, Ok conf) (λ _ _, Ok tt) (λ _, Ok api_server)
           (λ pem, pem) (λ cert key, Ok (cert, key)) (ErrorString "no kubeconfig") in_cluster api_server).
  - vm_compute. reflexivity.
  - reflexivity.
Defined.

Lemma transport_error_panics_witness :
  newProxy (λ _ _ conf, Ok conf) (λ _ _, Ok tt) (λ _, Ok api_server) (λ pem, pem)
    (λ cert key, Ok (cert, key))
    {| rc_Host := "https://10.0.0.1:443"; rc_CAFile := ""; rc_CAData := ""; rc_CertFile := "";
       rc_CertData := ""; rc_KeyFile := ""; rc_KeyData := ""; rc_BearerToken := "";
       rc_BearerTokenFile := ""; rc_ExecProvider := Some tt; rc_AuthProvider := Some tt |} =
  Panic "invalid memory address or nil pointer dereference".
Proof. eapply transport_error_panics; reflexivity. Defined.

Lemma interceptor_exit_status_witness : parseFlags interceptorFlags ["-h"] = FlagHelp.
Proof.
  apply (interceptor_exit_status (Exec := unit) (Auth := unit) (Pool := string) (Cert := string) demo_env demo_file
           (λ path, Ok path) (λ host port, host) (λ _ _ conf, Ok conf) (λ _ _, Ok tt) (λ _, Ok api_server)
           (λ pem, pem) (λ cert key, Ok cert) (λ _ _ _ _, ErrorString "closed") ["-h"]
           (Err (ErrorString "no kubeconfig"))).
  vm_compute. reflexivity.
Defined.
End CommandsWitness.
