(* ===== verification/System.v ===== *)
(** * The assembled webhook server

    [cmd/cel-admission-webhook/main.go] puts the CEL plugin into a multi-validator
    and serves it: [POST /validate] goes through [handleWebhookValidate],
    [NewMulti] and the plugin to the vendored evaluator.  The handler passes
    [context.TODO()], which never ends, so a request waits for the caches until the
    one-second timeout: [ticks] ticks, then the closed channel. *)
From S2P Require Import Prelude GoStrings ApiMachinery Admission Plugin Webhook.
Import Multi.

Section System.
Context {Obj W : Type} `{MetaAccessor Obj} (codec : Codec Obj).
Context (evaluator : CELPolicyEvaluator Obj W) (env : nat → W → W) (ticks : nat).
Implicit Types (r : Request) (q : AdmissionRequest) (w : W) (a : Attributes Obj).

(** [NewPlugin]; the poll returns on this schedule, so the last case does not
    occur ([plugin_returns]). *)
Definition NewPlugin : ValidationInterface Obj W :=
  {| Handles := celAdmissionPlugin_Handles;
     Validate a w :=
       match celAdmissionPlugin_Validate evaluator env false (replicate ticks Tick ++ [Closed]) a w with
       | Some verdict => verdict
       | None => (None, w)
       end |}.

(** The validators of [main]. *)
Definition validators : list (ValidationInterface Obj W) := [NewPlugin].

Definition server : Request → ResponseWriter → W → ResponseWriter * W :=
  serveMux codec (NewMulti validators).

Lemma plugin_returns a w :
  is_Some (celAdmissionPlugin_Validate evaluator env false (replicate ticks Tick ++ [Closed]) a w).
Proof. apply plugin_Validate_returns. left. apply elem_of_app. right. left. Qed.

Lemma validators_Validate a w : Validate (NewMulti validators) a w = Validate NewPlugin a w.
Proof. simpl. by destruct (celAdmissionPlugin_Validate _ _ _ _ _ _) as [[[e|] w']|]. Qed.

(** A request to [/validate] that parses and whose objects decode. *)
Record well_formed r q (object oldObject : option Obj) : Prop := {
  wf_path : req_Path r = "/validate";
  wf_parse : ∃ review, parseRequest codec r = Ok review ∧ rev_Request review = Some q;
  wf_old : decodeRaw codec (ar_Kind q) (ar_OldObject q) = Ok oldObject;
  wf_object : decodeRaw codec (ar_Kind q) (ar_Object q) = Ok object;
}.

(** The attributes the plugin sees. *)
Definition attributes_of q (object oldObject : option Obj) : Attributes Obj :=
  NewAttributesRecord object oldObject (ar_Kind q) (ar_Namespace q) (ar_Name q)
    (ar_Resource q) (ar_SubResource q) (ar_Operation q) None false
    {| ui_Name := u_Username (ar_UserInfo q); ui_UID := u_UID (ar_UserInfo q);
       ui_Groups := u_Groups (ar_UserInfo q); ui_Extra := u_Extra (ar_UserInfo q) |}.

Lemma server_verdict r q object oldObject w err w' out :
  well_formed r q object oldObject →
  Validate NewPlugin (attributes_of q object oldObject) w = (err, w') →
  marshalReview codec (reviewResponse (ar_UID q) err) = Ok out →
  server r newResponse w =
    ({| rw_header := {["Content-Type" := "application/json"]};
        rw_status := Some http_StatusOK; rw_body := out |}, w').
Proof.
  intros [Hpath (review & Hp & Hq) Hold Hobj] Hv Hm. unfold server, serveMux. rw Hpath.
  apply (handled_verdict codec (NewMulti validators) r w review q object oldObject err); try done.
  by rw validators_Validate.
Qed.


(** C3: end to end, the server fails closed: when no look finds the caches synced,
    a well-formed request for anything but the policies themselves is answered
    with a review that does not allow it, code 403. *)
Theorem server_fails_closed r q object oldObject w :
  well_formed r q object oldObject →
  isPolicyResource (attributes_of q object oldObject) = false →
  (∀ k w1, HasSynced evaluator (env k w1) = false) →
  (∀ review, is_ok (marshalReview codec review) = true) →
  ∃ review resp st out w', marshalReview codec review = Ok out ∧
    server r newResponse w =
      ({| rw_header := {["Content-Type" := "application/json"]};
          rw_status := Some http_StatusOK; rw_body := out |}, w') ∧
    rev_Response review = Some resp ∧ resp_UID resp = ar_UID q ∧ resp_Allowed resp = false ∧
    resp_Result resp = Some st ∧ st_Code st = http_StatusForbidden.
Proof.
  intros Hwf Hpol Hun Hm.
  destruct (unsynced_verdict evaluator env false (replicate ticks Tick ++ [Closed])
              (attributes_of q object oldObject) w) as (st & w' & Hv & Hcode & _); [done|done| |].
  { right; left. apply elem_of_app. right. left. }
  specialize (Hm (reviewResponse (ar_UID q) (Some (StatusError st)))).
  destruct (marshalReview codec _) as [out|] eqn:Hout; [|done].
  eexists _, _, _, out, w'. split; [exact Hout|]. split; [|by repeat split].
  eapply server_verdict; [done| |exact Hout]. cbn [NewPlugin Validate]. by rw Hv.
Qed.
End System.

(** ** Witnesses: pods are rejected once the caches are synced. *)
Module SystemWitness.
Import WebhookWitness.
#[export] Instance demo_accessor : MetaAccessor string := λ _, None.

Definition demo_evaluator : CELPolicyEvaluator string nat :=
  {| ev_HasSynced := λ w, 3 <=? w;
     ev_Validate := λ a w,
       (if bool_decide (a_object a = Some "bad") then Some (ErrorString "bad pod") else None, w) |}.
Definition demo_env (k w : nat) : nat := S w.
Definition stuck_env (k w : nat) : nat := 0.

Lemma demo_well_formed :
  well_formed demo_codec (demo_http "create") (demo_request "CREATE" "bad") (Some "bad") None.
Proof. split; [done|exists (demo_review "CREATE" "bad"); by vm_compute|done|done]. Qed.


Lemma server_fails_closed_witness :
  ∃ review resp st out w', marshalReview demo_codec review = Ok out ∧
    server demo_codec demo_evaluator stuck_env 4 (demo_http "create") newResponse 0 =
      ({| rw_header := {["Content-Type" := "application/json"]};
          rw_status := Some http_StatusOK; rw_body := out |}, w') ∧
    rev_Response review = Some resp ∧ resp_UID resp = "42" ∧ resp_Allowed resp = false ∧
    resp_Result resp = Some st ∧ st_Code st = http_StatusForbidden.
Proof.
  apply (server_fails_closed demo_codec demo_evaluator stuck_env 4 (demo_http "create")
           (demo_request "CREATE" "bad") (Some "bad") None 0).
  - apply demo_well_formed.
  - reflexivity.
  - reflexivity.
  - reflexivity.
Defined.
End SystemWitness.
