(* ===== verification/Enforcement.v ===== *)
(** * The webhook enforces the policies

    The parts together: the server of [System], whose plugin hands requests to the
    evaluator of [PolicyEvaluator], as [cmd/cel-admission-webhook/main.go] and
    [pkg/webhook/server.go] start it, without an authorizer and with an empty registry of
    equivalent resources; the evaluator's snapshot is the policy controller's of
    [PolicyController], stored by the loop that refreshes it. *)
From S2P Require Import Prelude GoStrings ApiMachinery Admission Json ApiTypes Scheme RestMapper Plugin Webhook System Matching PolicyValidator PolicyEvaluator PolicyController PolicySnapshot.
From stdpp Require Import gmap.

Section Enforcement.
Context `{!MetaV1, !LabelSelectors} {Obj Authorizer : Type}.
Context `{MetaAccessor Obj, ObjectLabels Obj, ObjectConvertor Obj, CEL Obj Authorizer}.
Context (codec : Codec Obj).
Context (specEqual : ValidatingAdmissionPolicySpec Native → ValidatingAdmissionPolicySpec Native → bool).
Context (bindingSpecEqual : ValidatingAdmissionPolicyBindingSpec Native → ValidatingAdmissionPolicyBindingSpec Native → bool).
Context (nameOf : ObjectMeta → string) (namespaces : Namespaces) (paramControllers : nat → paramController Obj).
Abbreviation policyController := (policyController (Obj := Obj) (Authorizer := Authorizer)).
Abbreviation celAdmissionController := (celAdmissionController Obj Authorizer).
Abbreviation policyStep := (policyStep (None (A := Authorizer)) specEqual bindingSpecEqual).
Abbreviation policyRun := (policyRun (None (A := Authorizer)) specEqual bindingSpecEqual).
Implicit Types (s : policyController) (c : celAdmissionController) (a : Attributes Obj).

(** The evaluator is [celAdmissionController], as long as it does not panic. *)
Record implements (evaluator : CELPolicyEvaluator Obj celAdmissionController) : Prop := {
  im_HasSynced : ∀ c, ev_HasSynced evaluator c = evaluator_HasSynced c;
  im_Validate : ∀ a c verdict, evaluator_Validate nameOf namespaces objectInferfaces paramControllers a c = Some verdict →
    ev_Validate evaluator a c = verdict;
}.

(** Some policy of the index denies the request. *)
Definition denied_by_policy s a : Prop :=
  ∃ nn d, pc_definitionInfo s !! nn = Some d ∧
    policy_denies namespaces objectInferfaces None paramControllers a (presentPolicy None s nn d).

(** A review allows exactly when there is no error. *)
Lemma allowed_iff uid err : resp_Allowed <$> rev_Response (reviewResponse uid err) = Some true ↔ err = None.
Proof. unfold reviewResponse. destruct err as [e|]; simpl; [|done]. by destruct (AsStatusError e). Qed.


(** The evaluator is [celAdmissionController]; [panicked] is what a request is told when it
    panics. *)
Record runs (evaluator : CELPolicyEvaluator Obj celAdmissionController) (panicked : Attributes Obj → option error) : Prop := {
  ru_HasSynced : ∀ c, ev_HasSynced evaluator c = evaluator_HasSynced c;
  ru_Validate : ∀ a c, ev_Validate evaluator a c =
    default (panicked a, c) (evaluator_Validate nameOf namespaces objectInferfaces paramControllers a c);
}.

(** C11: the validation actions Warn and Audit have no effect outside the evaluator: the
    webhook's whole answer (status, headers and body, however reviews are serialised) to any
    request is the same when every action other than [Deny] is taken out of the bindings of
    every snapshot the evaluator ever holds, and no review it sends has warnings or audit
    annotations. *)
Theorem warn_and_audit_are_silent evaluator panicked env env' ticks r c :
  runs evaluator panicked → (∀ k c, env' k (silenced c) = silenced (env k c)) →
  (server codec evaluator env' ticks r newResponse (silenced c)).1
    = (server codec evaluator env ticks r newResponse c).1 ∧
  ∀ uid err resp, rev_Response (reviewResponse uid err) = Some resp →
    resp_Warnings resp = [] ∧ resp_AuditAnnotations resp = ∅.
Proof.
  intros [Hsynced Hval] Henv. split.
  - apply serveMux_verdict; [done|]. intros a. rw !validators_Validate. cbn [NewPlugin Validate].
    pose proof (plugin_simulation evaluator env env' silenced Henv) as Hsim.
    specialize (Hsim (λ c, ltac:(rw !Hsynced; apply silenced_HasSynced))).
    assert (∀ a c, (ev_Validate evaluator a (silenced c)).1 = (ev_Validate evaluator a c).1) as Hverdict.
    { intros a' c'. rw !Hval. pose proof (silenced_Validate nameOf namespaces objectInferfaces paramControllers a' c') as Hs.
      destruct (evaluator_Validate _ _ _ _ a' (silenced c')) as [[]|], (evaluator_Validate _ _ _ _ a' c') as [[]|]; by simplify_eq/=. }
    specialize (Hsim Hverdict false (replicate ticks Tick ++ [Closed]) a c).
    destruct (celAdmissionPlugin_Validate _ env' _ _ _ _) as [[]|], (celAdmissionPlugin_Validate _ env _ _ _ _) as [[]|]; by simplify_eq/=.
  - intros uid err resp. unfold reviewResponse. destruct (err ≫= AsStatusError); intros [= <-]; done.
Qed.
End Enforcement.

(** ** Witness: a bad pod is rejected once the caches are synced. *)
Module EnforcementWitness.
Import WebhookWitness.
Import PolicyWitness EvaluatorWitness SnapshotWitness.
Abbreviation controller := (celAdmissionController string unit).

Definition demo_verdict (a : Attributes string) (c : controller) :=
  evaluator_Validate demo_nameOf demo_namespaces objectInferfaces demo_params a c.
Definition demo_evaluator : CELPolicyEvaluator string controller :=
  {| ev_HasSynced := evaluator_HasSynced; ev_Validate a c := default (None, c) (demo_verdict a c) |}.

(** Between the first look and the second, the informers sync and the policies are
    refreshed. *)
Definition refreshed : SnapshotWitness.policyController :=
  default newPolicyController (demo_step (RefreshPolicies demo_names demo_order) demo_state).
Definition start : controller := {| ce_policiesSynced := false; ce_definitions := None; ce_effects := [] |}.
Definition demo_env (k : nat) (c : controller) : controller :=
  if decide (k = 1) then {| ce_policiesSynced := true; ce_definitions := pc_stored refreshed; ce_effects := [] |} else c.

Lemma demo_refreshed : demo_step (RefreshPolicies demo_names demo_order) demo_state = Some refreshed.
Proof.
  unfold refreshed. destruct (demo_step _ demo_state) eqn:Hstep; [done|]. exfalso.
  assert (match demo_step (RefreshPolicies demo_names demo_order) demo_state with Some _ => true | None => false end = true)
    as Hok by (vm_compute; reflexivity). by rw Hstep in Hok.
Qed.

(** The only policy is the one reconciled, with its constraints. *)
Lemma demo_constraints nn d :
  pc_definitionInfo demo_state !! nn = Some d → is_Some (ps_MatchConstraints (p_Spec (di_lastReconciledValue d))).
Proof.
  intros Hd. assert (map_Forall (λ _ d, is_Some (ps_MatchConstraints (p_Spec (di_lastReconciledValue d))))
    (pc_definitionInfo demo_state)) as Hall; [|exact (Hall nn d Hd)].
  apply (bool_decide_unpack _). vm_compute. exact I.
Qed.


(** The same snapshot with bindings that warn and audit as well. *)
Definition noisy_info (info : bindingInfo string unit) : bindingInfo string unit :=
  let b := bi_lastReconciledValue info in
  {| bi_validator := bi_validator info;
     bi_lastReconciledValue :=
       {| b_TypeMeta := b_TypeMeta b; b_ObjectMeta := b_ObjectMeta b;
          b_Spec := {| bs_PolicyName := bs_PolicyName (b_Spec b); bs_ParamRef := bs_ParamRef (b_Spec b);
                       bs_MatchResources := bs_MatchResources (b_Spec b);
                       bs_ValidationActions := mk_slice (Some [Warn; Deny; Audit]) |} |} |}.
Definition noisy (c : controller) : controller :=
  {| ce_policiesSynced := ce_policiesSynced c;
     ce_definitions := (λ definitions : list (policyData string unit), (λ data,
       {| pd_definitionInfo := pd_definitionInfo data; pd_paramController := pd_paramController data;
          pd_bindings := noisy_info <$> pd_bindings data |}) <$> definitions) <$> ce_definitions c;
     ce_effects := ce_effects c |}.
Definition noisy_start : controller :=
  noisy {| ce_policiesSynced := true; ce_definitions := pc_stored refreshed; ce_effects := [] |}.

Lemma warn_and_audit_are_silent_witness :
  length (ce_effects (server demo_codec demo_evaluator (λ _ c, c) 4 (demo_http "create") newResponse noisy_start).2) = 2 ∧
  rw_body (server demo_codec demo_evaluator (λ _ c, c) 4 (demo_http "create") newResponse noisy_start).1 = "denied" ∧
  (server demo_codec demo_evaluator (λ _ c, c) 4 (demo_http "create") newResponse (silenced noisy_start)).1
  = (server demo_codec demo_evaluator (λ _ c, c) 4 (demo_http "create") newResponse noisy_start).1.
Proof.
  split; [vm_compute; reflexivity|]. split; [vm_compute; reflexivity|].
  apply (warn_and_audit_are_silent demo_codec demo_nameOf demo_namespaces demo_params demo_evaluator (λ _, None)).
  - split; reflexivity.
  - reflexivity.
Defined.
End EnforcementWitness.
